(** * nvs_flash: the Storage layer over Pages and the PageManager

    A shallow embedding of [src/Storage.cpp] (namespace [nvs], class
    [Storage]).  The classes [Item], [Page] and [PageManager] are used by
    [Storage.cpp] but their sources are not part of the three source files;
    they are modelled from sections 3, 4.1 and 4.2 of the specification and
    every such definition says so in its comment.  Everything under
    [Module Storage] is translated from [Storage.cpp] and [Storage.hpp]. *)

From Stdlib Require Import ZArith List String Bool Lia Arith.
Import ListNotations.
Local Open Scope Z_scope.

(** ** Error codes ([esp_err_t]) *)

Inductive esp_err_t : Type :=
| ESP_OK
| ESP_ERR_NO_MEM
| ESP_ERR_INVALID_ARG
| ESP_ERR_INVALID_STATE
| ESP_ERR_NVS_NOT_INITIALIZED
| ESP_ERR_NVS_NOT_FOUND
| ESP_ERR_NVS_INVALID_STATE
| ESP_ERR_NVS_NOT_ENOUGH_SPACE
| ESP_ERR_NVS_PAGE_FULL
| ESP_ERR_NVS_VALUE_TOO_LONG
| ESP_ERR_NVS_CONTENT_DIFFERS
| ESP_ERR_NVS_INVALID_LENGTH
| ESP_ERR_NVS_NO_FREE_PAGES.

Definition esp_err_eqb (a b : esp_err_t) : bool :=
  match a, b with
  | ESP_OK, ESP_OK
  | ESP_ERR_NO_MEM, ESP_ERR_NO_MEM
  | ESP_ERR_INVALID_ARG, ESP_ERR_INVALID_ARG
  | ESP_ERR_INVALID_STATE, ESP_ERR_INVALID_STATE
  | ESP_ERR_NVS_NOT_INITIALIZED, ESP_ERR_NVS_NOT_INITIALIZED
  | ESP_ERR_NVS_NOT_FOUND, ESP_ERR_NVS_NOT_FOUND
  | ESP_ERR_NVS_INVALID_STATE, ESP_ERR_NVS_INVALID_STATE
  | ESP_ERR_NVS_NOT_ENOUGH_SPACE, ESP_ERR_NVS_NOT_ENOUGH_SPACE
  | ESP_ERR_NVS_PAGE_FULL, ESP_ERR_NVS_PAGE_FULL
  | ESP_ERR_NVS_VALUE_TOO_LONG, ESP_ERR_NVS_VALUE_TOO_LONG
  | ESP_ERR_NVS_CONTENT_DIFFERS, ESP_ERR_NVS_CONTENT_DIFFERS
  | ESP_ERR_NVS_INVALID_LENGTH, ESP_ERR_NVS_INVALID_LENGTH
  | ESP_ERR_NVS_NO_FREE_PAGES, ESP_ERR_NVS_NO_FREE_PAGES => true
  | _, _ => false
  end.

(** ** Items *)

(** Modelled from the spec: the enum [ItemType] of the missing [Item.hpp]
    (section 3, "Item"); [BLOB] is the legacy blob type stored without
    index (section 4.3, "Read"). *)
Inductive ItemType : Type :=
| U8 | I8 | U16 | I16 | U32 | I32 | U64 | I64
| STR | BLOB | BLOB_DATA | BLOB_IDX | ANY.

Definition ItemType_eqb (a b : ItemType) : bool :=
  match a, b with
  | U8, U8 | I8, I8 | U16, U16 | I16, I16 | U32, U32 | I32, I32
  | U64, U64 | I64, I64 | STR, STR | BLOB, BLOB | BLOB_DATA, BLOB_DATA
  | BLOB_IDX, BLOB_IDX | ANY, ANY => true
  | _, _ => false
  end.

(** Modelled from the spec: the enum [VerOffset] of the missing [Item.hpp]
    (section 3, "VerOffset"), one byte wide.  The comment in
    [Storage::eraseOrphanDataBlobs] places version-0 chunks from
    [VER_0_OFFSET] below [VER_1_OFFSET] and version-1 chunks from
    [VER_1_OFFSET] below [VER_ANY]; [writeMultiPageBlob] allows
    [(CHUNK_ANY - 1) / 2] chunks per version. *)
Definition VerOffset := Z.
Definition VER_0_OFFSET : VerOffset := 0.
Definition VER_1_OFFSET : VerOffset := 128.
Definition VER_ANY : VerOffset := 255.

(** [uint8_t(x)]: conversion to an unsigned byte. *)
Definition uint8_t (x : Z) : Z := x mod 256.
(** Arithmetic of [uint32_t]. *)
Definition uint32_t (x : Z) : Z := x mod 2 ^ 32.

(** Modelled from the spec: the struct [Item] of the missing [Item.hpp]
    (sections 3 and 6): the descriptor of the header entry and the payload
    bytes.  A [span] counts at least the header entry.  [data] holds the bytes handed to [Page::writeItem]: the inline
    value of a fixed type, the payload of a variable-length item, or the
    eight bytes of the [blobIndex] record
    [{dataSize : uint32, chunkCount : uint8, chunkStart : uint8, 0xffff}]. *)
Record Item : Type := mkItem {
  nsIndex : Z;
  datatype : ItemType;
  span : positive;
  chunkIndex : Z;
  key : string;
  data : list Z
}.

Module ItemLayout.

Definition MAX_KEY_LENGTH : nat := 15.

(** [item.blobIndex.dataSize], little endian in bytes 0..3 of [data]. *)
Definition blobIndex_dataSize (it : Item) : Z :=
  nth 0 (data it) 255 + 256 * nth 1 (data it) 255
  + 65536 * nth 2 (data it) 255 + 16777216 * nth 3 (data it) 255.

(** [item.blobIndex.chunkCount], byte 4 of [data]. *)
Definition blobIndex_chunkCount (it : Item) : Z := nth 4 (data it) 255.

(** [item.blobIndex.chunkStart], byte 5 of [data]. *)
Definition blobIndex_chunkStart (it : Item) : VerOffset := nth 5 (data it) 255.

(** [item.varLength.dataSize], the 16 bits in bytes 0 and 1 of the union
    [data]: the payload length in the header of a variable-length item; in
    an item of another type the field overlays the first two bytes of the
    value, the bytes behind a shorter value being 0xff. *)
Definition varLength_dataSize (it : Item) : Z :=
  match datatype it with
  | STR | BLOB | BLOB_DATA => Z.of_nat (List.length (data it))
  | _ => nth 0 (data it) 255 + 256 * nth 1 (data it) 255
  end.

(** The eight bytes [item.data] after
    [std::fill_n(item.data, 8, 0xff)] and the three assignments to
    [item.blobIndex] in [writeMultiPageBlob]. *)
Definition blobIndex_bytes (dataSize chunkCount : Z) (chunkStart : VerOffset)
  : list Z :=
  [ dataSize mod 256; (dataSize / 256) mod 256;
    (dataSize / 65536) mod 256; (dataSize / 16777216) mod 256;
    uint8_t chunkCount; uint8_t chunkStart; 255; 255 ].

(** [item.getKey(buf, sizeof buf)]: at most [MAX_KEY_LENGTH] characters. *)
Fixpoint truncate (n : nat) (s : string) : string :=
  match n, s with
  | S n', String c s' => String c (truncate n' s')
  | _, _ => EmptyString
  end.

Definition getKey (it : Item) : string := truncate MAX_KEY_LENGTH (key it).

End ItemLayout.

(** ** Pages *)

Module PageState.
(** Modelled from the spec: the enum [Page::PageState] of the missing
    [Page.hpp] (section 3, "Page"). *)
Inductive t : Type :=
| UNINITIALIZED | ACTIVE | FULL | FREEING | CORRUPT | INVALID.

Definition eqb (a b : t) : bool :=
  match a, b with
  | UNINITIALIZED, UNINITIALIZED | ACTIVE, ACTIVE | FULL, FULL
  | FREEING, FREEING | CORRUPT, CORRUPT | INVALID, INVALID => true
  | _, _ => false
  end.
End PageState.

(** Modelled from the spec: the per-entry states of the bitmap in the page
    header (section 3, "Page"). *)
Inductive EntryState : Type := EMPTY | WRITING | WRITTEN | ERASED.

Definition isWritten (st : EntryState) : bool :=
  match st with WRITTEN => true | _ => false end.

Module Page.

(** Modelled from the spec: constants of the missing [Page.hpp].  An entry
    has 32 bytes and a page 126 entries (sections 6 and 8, scenario S4);
    a chunk fills at most a page less the header entry of the item;
    [NS_INDEX = 0] and index 255 is the reserved wildcard (section 3). *)
Definition ENTRY_SIZE : Z := 32.
Definition ENTRY_COUNT : nat := 126.
Definition CHUNK_MAX_SIZE : Z := ENTRY_SIZE * (Z.of_nat ENTRY_COUNT - 1).
Definition NS_INDEX : Z := 0.
Definition NS_ANY : Z := 255.
Definition CHUNK_ANY : Z := 255.

(** Modelled from the spec: a page (section 3, "Page"; section 4.1,
    "Entry layout") as its state, its sequence number and the items placed
    in it in entry order, each with the state of its header entry; an item
    occupies [span] consecutive entries and the entries after the last item
    are EMPTY. *)
Record t : Type := mk {
  state : PageState.t;
  seqNumber : Z;
  entries : list (EntryState * Item)
}.

(** The index of the first EMPTY entry. *)
Fixpoint usedEntries (es : list (EntryState * Item)) : nat :=
  match es with
  | [] => O
  | e :: rest => (Pos.to_nat (span (snd e)) + usedEntries rest)%nat
  end.

(** Matching "on non-wildcard fields" (section 4.1, [findItem]);
    [key = nullptr] matches any key. *)
Definition matches (ns : Z) (dt : ItemType) (k : option string)
           (chunkIdx : Z) (chunkStart : VerOffset) (it : Item) : bool :=
  ((ns =? NS_ANY) || (nsIndex it =? ns))
  && (ItemType_eqb dt ANY || ItemType_eqb (datatype it) dt)
  && match k with None => true | Some s => String.eqb s (key it) end
  && ((chunkIdx =? CHUNK_ANY) || (chunkIndex it =? chunkIdx))
  && ((chunkStart =? VER_ANY)
      || (ItemLayout.blobIndex_chunkStart it =? chunkStart)).

(** The linear scan of [findItem]: [i] is the entry index of the head of
    [es]; the first WRITTEN item at or after [startIdx] that matches. *)
Fixpoint scan (es : list (EntryState * Item)) (i startIdx : nat)
         (f : Item -> bool) : option (nat * Item) :=
  match es with
  | [] => None
  | (st, it) :: rest =>
      if (startIdx <=? i)%nat && isWritten st && f it
      then Some (i, it)
      else scan rest (i + Pos.to_nat (span it))%nat startIdx f
  end.

(** Modelled from the spec: [Page::findItem] (section 4.1).  Returns the
    error code, the new value of the in-out parameter [startIdx] (at the
    hit) and the item found. *)
Definition findItem (p : t) (ns : Z) (dt : ItemType) (k : option string)
           (startIdx : nat) (chunkIdx : Z) (chunkStart : VerOffset)
  : esp_err_t * nat * option Item :=
  match scan (entries p) O startIdx (matches ns dt k chunkIdx chunkStart) with
  | Some (i, it) => (ESP_OK, i, Some it)
  | None => (ESP_ERR_NVS_NOT_FOUND, startIdx, None)
  end.

(** Flip the first WRITTEN matching item to ERASED. *)
Fixpoint eraseFirst (es : list (EntryState * Item)) (f : Item -> bool)
  : option (list (EntryState * Item)) :=
  match es with
  | [] => None
  | (st, it) :: rest =>
      if isWritten st && f it then Some ((ERASED, it) :: rest)
      else match eraseFirst rest f with
           | Some rest' => Some ((st, it) :: rest')
           | None => None
           end
  end.

(** Modelled from the spec: [Page::eraseItem] (section 4.1): finds the item
    and flips its entries from WRITTEN to ERASED; NOT_FOUND if no match. *)
Definition eraseItem (p : t) (ns : Z) (dt : ItemType) (k : option string)
           (chunkIdx : Z) (chunkStart : VerOffset) : esp_err_t * t :=
  match eraseFirst (entries p) (matches ns dt k chunkIdx chunkStart) with
  | Some es' => (ESP_OK, mk (state p) (seqNumber p) es')
  | None => (ESP_ERR_NVS_NOT_FOUND, p)
  end.

(** Number of entries of an item: 1 for the fixed-size types and for
    BLOB_IDX, header entry plus payload entries for the variable-length
    types (section 3, "Item"). *)
Definition isVariableLength (dt : ItemType) : bool :=
  match dt with STR | BLOB | BLOB_DATA => true | _ => false end.

Definition spanFor (dt : ItemType) (dataSize : Z) : positive :=
  if isVariableLength dt
  then Pos.of_succ_nat (Z.to_nat ((dataSize + ENTRY_SIZE - 1) / ENTRY_SIZE))
  else 1%positive.

(** Modelled from the spec: [Page::writeItem] (section 4.1): appends the
    item into the tailroom; INVALID_STATE if the page is not ACTIVE,
    PAGE_FULL when too few free entries remain.  The header entry ends
    WRITTEN. *)
Definition writeItem (p : t) (ns : Z) (dt : ItemType) (k : string)
           (d : list Z) (chunkIdx : Z) : esp_err_t * t :=
  if negb (PageState.eqb (state p) PageState.ACTIVE)
  then (ESP_ERR_NVS_INVALID_STATE, p)
  else
    let sp := spanFor dt (Z.of_nat (List.length d)) in
    if (ENTRY_COUNT <? usedEntries (entries p) + Pos.to_nat sp)%nat
    then (ESP_ERR_NVS_PAGE_FULL, p)
    else (ESP_OK,
          mk (state p) (seqNumber p)
             (entries p ++ [(WRITTEN, mkItem ns dt sp chunkIdx k d)])).

Fixpoint bytes_eqb (a b : list Z) : bool :=
  match a, b with
  | [], [] => true
  | x :: a', y :: b' => (x =? y) && bytes_eqb a' b'
  | _, _ => false
  end.

(** Modelled from the spec: [Page::cmpItem] (section 4.1): OK on exact
    match of the payload, CONTENT_DIFFERS otherwise. *)
Definition cmpItem (p : t) (ns : Z) (dt : ItemType) (k : option string)
           (d : list Z) (chunkIdx : Z) : esp_err_t :=
  match scan (entries p) O O (matches ns dt k chunkIdx VER_ANY) with
  | Some (_, it) =>
      if bytes_eqb (data it) d then ESP_OK else ESP_ERR_NVS_CONTENT_DIFFERS
  | None => ESP_ERR_NVS_NOT_FOUND
  end.

(** Modelled from the spec: [Page::readItem] (sections 4.3 "Read" and 6):
    the payload of the item found, INVALID_LENGTH if the caller's buffer
    size differs from the stored length. *)
Definition readItem (p : t) (ns : Z) (dt : ItemType) (k : option string)
           (dataSize : Z) (chunkIdx : Z) : esp_err_t * list Z :=
  match scan (entries p) O O (matches ns dt k chunkIdx VER_ANY) with
  | Some (_, it) =>
      if Z.of_nat (List.length (data it)) =? dataSize
      then (ESP_OK, data it) else (ESP_ERR_NVS_INVALID_LENGTH, [])
  | None => (ESP_ERR_NVS_NOT_FOUND, [])
  end.

(** Modelled from the spec: [Page::markFull] (section 4.1): the monotonic
    transition ACTIVE to FULL. *)
Definition markFull (p : t) : esp_err_t * t :=
  if PageState.eqb (state p) PageState.ACTIVE
  then (ESP_OK, mk PageState.FULL (seqNumber p) (entries p))
  else (ESP_ERR_NVS_INVALID_STATE, p).

(** Modelled from the spec: [Page::getVarDataTailroom] (section 4.1): the
    free entries less the header entry of a hypothetical new item, in
    bytes, as [Storage::writeMultiPageBlob] compares it with [dataSize]. *)
Definition getVarDataTailroom (p : t) : Z :=
  let used := usedEntries (entries p) in
  if (used <? ENTRY_COUNT - 1)%nat
  then Z.of_nat (ENTRY_COUNT - used - 1) * ENTRY_SIZE
  else 0.

(** A freshly initialised page. *)
Definition fresh (seq : Z) : t := mk PageState.ACTIVE seq [].

(** An erased sector. *)
Definition erased : t := mk PageState.UNINITIALIZED 0 [].

End Page.

(** ** The page manager *)

(** [nvs_stats_t], filled by [fillStats]. *)
Record nvs_stats_t : Type := mkStats {
  used_entries : nat;
  free_entries : nat;
  total_entries : nat;
  namespace_count : nat
}.

Module PageManager.

(** Modelled from the spec: the [PageManager] (section 3, "PageManager";
    section 4.2).  [mPages] is the array of pages, one per sector of the
    partition: a [Page*] of the source is an index into it.  [mPageList]
    is the ordered sequence of pages in use, oldest first, whose last
    element is the current page; [mFreePageList] holds the erased pages. *)
Record t : Type := mk {
  mPages : list Page.t;
  mPageList : list nat;
  mFreePageList : list nat;
  mSeqNumber : Z
}.

Definition empty : t := mk [] [] [] 0.

Definition getPageCount (pm : t) : Z := Z.of_nat (List.length (mPages pm)).

(** [*page] for a [Page* page]. *)
Definition page (pm : t) (i : nat) : Page.t := nth i (mPages pm) Page.erased.

Fixpoint setNth (l : list Page.t) (i : nat) (p : Page.t) : list Page.t :=
  match l, i with
  | [], _ => []
  | _ :: rest, O => p :: rest
  | x :: rest, S i' => x :: setNth rest i' p
  end.

(** Assignment through a [Page*]. *)
Definition setPage (pm : t) (i : nat) (p : Page.t) : t :=
  mk (setNth (mPages pm) i p) (mPageList pm) (mFreePageList pm)
     (mSeqNumber pm).

(** [mPageManager.back()]: the current page.  On an empty list the source
    dereferences the end of the list; the model answers sector 0. *)
Definition back (pm : t) : nat := last (mPageList pm) O.

(** Entries of a page that are ERASED (or torn), by span. *)
Fixpoint erasedEntries (es : list (EntryState * Item)) : nat :=
  match es with
  | [] => O
  | (st, it) :: rest =>
      ((if isWritten st then O else Pos.to_nat (span it))
       + erasedEntries rest)%nat
  end.

Definition writtenOnly (es : list (EntryState * Item))
  : list (EntryState * Item) :=
  filter (fun e => isWritten (fst e)) es.

(** The FULL page of the list with the largest number of erased entries
    (the first of them on a tie); a page without erased entries has
    nothing to reclaim and is no candidate. *)
Fixpoint pickVictim (pm : t) (l : list nat) (best : option nat)
  : option nat :=
  match l with
  | [] => best
  | i :: rest =>
      let better :=
        PageState.eqb (Page.state (page pm i)) PageState.FULL
        && match best with
           | None => (0 <? erasedEntries (Page.entries (page pm i)))%nat
           | Some b =>
               (erasedEntries (Page.entries (page pm b))
                <? erasedEntries (Page.entries (page pm i)))%nat
           end in
      pickVictim pm rest (if better then Some i else best)
  end.

Definition remove_nat (x : nat) (l : list nat) : list nat :=
  filter (fun y => negb (Nat.eqb x y)) l.

(** Initialise the first free page to ACTIVE with the next sequence number
    and make it the current page. *)
Definition activatePage (pm : t) : esp_err_t * t :=
  match mFreePageList pm with
  | [] => (ESP_ERR_NVS_NOT_ENOUGH_SPACE, pm)
  | f :: rest =>
      (ESP_OK,
       mk (setNth (mPages pm) f (Page.fresh (mSeqNumber pm)))
          (mPageList pm ++ [f]) rest (mSeqNumber pm + 1))
  end.

(** Modelled from the spec: [PageManager::requestNewPage] (section 4.2).
    The current page is marked FULL if it is not already; with a page to
    spare a free page becomes the new ACTIVE page; otherwise the last free
    page is the target of a garbage collection: the FULL page with the most
    erased entries has its WRITTEN items copied into the new ACTIVE page
    and is then erased and freed.  Without a free page, or with nothing to
    reclaim, the request fails as a capacity error (section 7). *)
Definition requestNewPage (pm : t) : esp_err_t * t :=
  match mPageList pm with
  | [] => (ESP_ERR_INVALID_STATE, pm)
  | _ :: _ =>
      let cur := back pm in
      let pm1 :=
        if PageState.eqb (Page.state (page pm cur)) PageState.ACTIVE
        then setPage pm cur (snd (Page.markFull (page pm cur)))
        else pm in
      if (2 <=? List.length (mFreePageList pm1))%nat
      then activatePage pm1
      else
        match pickVictim pm1 (mPageList pm1) None with
        | None => (ESP_ERR_NVS_NOT_ENOUGH_SPACE, pm1)
        | Some v =>
            match activatePage pm1 with
            | (ESP_OK, pm2) =>
                let new := back pm2 in
                let copied :=
                  Page.mk PageState.ACTIVE (Page.seqNumber (page pm2 new))
                          (writtenOnly (Page.entries (page pm2 v))) in
                let pm3 := setPage (setPage pm2 new copied) v Page.erased in
                (ESP_OK,
                 mk (mPages pm3) (remove_nat v (mPageList pm3))
                    (mFreePageList pm3 ++ [v]) (mSeqNumber pm3))
            | (err, pm2) => (err, pm2)
            end
        end
  end.

(** Modelled from the spec: [PageManager::fillStats] (section 4.2):
    used, free and total entries over all pages. *)
Definition fillStats (pm : t) (st : nvs_stats_t) : esp_err_t * nvs_stats_t :=
  let used :=
    fold_right (fun i acc =>
                  (Page.usedEntries (writtenOnly (Page.entries (page pm i)))
                   + acc)%nat) O (mPageList pm) in
  let total := (List.length (mPages pm) * Page.ENTRY_COUNT)%nat in
  (ESP_OK, mkStats used (total - used) total (namespace_count st)).

(** What [requestNewPage] can still obtain: the free pages and the erased
    entries of the pages in use.  It bounds the number of successful
    requests that are not separated by a write. *)
Definition reclaimable (pm : t) : nat :=
  (List.length (mFreePageList pm)
   + fold_right (fun i acc =>
                   (erasedEntries (Page.entries (page pm i)) + acc)%nat)
                O (mPageList pm))%nat.

(** *** Mount *)

Definition inUse (p : Page.t) : bool :=
  PageState.eqb (Page.state p) PageState.ACTIVE
  || PageState.eqb (Page.state p) PageState.FULL.

(** Insert sector [i] into the list ordered by sequence number. *)
Fixpoint insertBySeq (ps : list Page.t) (i : nat) (l : list nat)
  : list nat :=
  match l with
  | [] => [i]
  | j :: rest =>
      if Page.seqNumber (nth i ps Page.erased)
         <? Page.seqNumber (nth j ps Page.erased)
      then i :: j :: rest
      else j :: insertBySeq ps i rest
  end.

(** Classify the sectors [n, n+1, ...]: pages in use ordered by age, the
    others free. *)
Fixpoint classify (ps all : list Page.t) (n : nat) : list nat * list nat :=
  match ps with
  | [] => ([], [])
  | p :: rest =>
      let '(used, free) := classify rest all (S n) in
      if inUse p then (insertBySeq all n used, free) else (used, n :: free)
  end.

Definition sameTuple (a b : Item) : bool :=
  (nsIndex a =? nsIndex b) && ItemType_eqb (datatype a) (datatype b)
  && String.eqb (key a) (key b) && (chunkIndex a =? chunkIndex b).

(** Recovery of one page, youngest entry first: a WRITING entry counts as
    ERASED, and a WRITTEN item whose tuple was already seen on a younger
    item is marked ERASED. *)
Definition recoverEntries (es : list (EntryState * Item)) (seen : list Item)
  : list (EntryState * Item) * list Item :=
  fold_right
    (fun e acc =>
       let '(st, it) := e in
       let '(out, seen) := acc in
       match st with
       | WRITTEN =>
           if existsb (sameTuple it) seen
           then ((ERASED, it) :: out, seen)
           else ((WRITTEN, it) :: out, it :: seen)
       | WRITING => ((ERASED, it) :: out, seen)
       | _ => ((st, it) :: out, seen)
       end)
    ([], seen) es.

(** Recovery of the pages in use, youngest page first; every page but the
    newest is demoted from ACTIVE to FULL. *)
Fixpoint recoverPages (ps : list Page.t) (l : list nat)
  : list Page.t * list Item :=
  match l with
  | [] => (ps, [])
  | i :: rest =>
      let '(ps1, seen) :=
        recoverPages ps rest in
      let p := nth i ps1 Page.erased in
      let '(es, seen') := recoverEntries (Page.entries p) seen in
      let st :=
        match rest with
        | [] => Page.state p
        | _ :: _ => PageState.FULL
        end in
      (setNth ps1 i (Page.mk st (Page.seqNumber p) es), seen')
  end.

Definition eraseFree (ps : list Page.t) (free : list nat) : list Page.t :=
  fold_left (fun acc i => setNth acc i Page.erased) free ps.

Definition nextSeq (ps : list Page.t) (used : list nat) : Z :=
  match used with
  | [] => 0
  | _ :: _ => Page.seqNumber (nth (last used O) ps Page.erased) + 1
  end.

(** Modelled from the spec: [PageManager::load] (section 4.2, "Load").
    [partition] is the content of the sectors.  The pages in use are
    ordered so that the newest is last, older duplicates are marked ERASED,
    only the newest page stays ACTIVE and a fresh ACTIVE page is allocated
    if there is none; NO_FREE_PAGES if the partition cannot host two
    pages. *)
Definition load (partition : list Page.t) : esp_err_t * t :=
  if (List.length partition <? 2)%nat
  then (ESP_ERR_NVS_NO_FREE_PAGES, empty)
  else
    let '(used, free) := classify partition partition O in
    let ps := eraseFree (fst (recoverPages partition used)) free in
    let pm := mk ps used free (nextSeq ps used) in
    if match used with
       | [] => false
       | _ :: _ =>
           PageState.eqb (Page.state (page pm (back pm))) PageState.ACTIVE
       end
    then (ESP_OK, pm)
    else
      match activatePage pm with
      | (ESP_OK, pm') => (ESP_OK, pm')
      | (_, pm') => (ESP_ERR_NVS_NO_FREE_PAGES, pm')
      end.

End PageManager.

(** ** Storage *)

Module State.
(** [enum class Storage::State]. *)
Inductive t : Type := INVALID | ACTIVE.
Definition eqb (a b : t) : bool :=
  match a, b with
  | INVALID, INVALID | ACTIVE, ACTIVE => true
  | _, _ => false
  end.
End State.

Module NamespaceEntry.
(** [struct Storage::NamespaceEntry]. *)
Record t : Type := mk { mName : string; mIndex : Z }.
End NamespaceEntry.

Module BlobIndexNode.
(** [struct Storage::BlobIndexNode]. *)
Record t : Type := mk {
  key : string;
  nsIndex : Z;
  chunkCount : Z;
  chunkStart : VerOffset
}.
End BlobIndexNode.

Module OpenMode.
(** [enum class OpenMode] of [Storage.hpp]. *)
Inductive t : Type := ReadOnly | ReadWrite.
Definition eqb (a b : t) : bool :=
  match a, b with
  | ReadOnly, ReadOnly | ReadWrite, ReadWrite => true
  | _, _ => false
  end.
End OpenMode.

Module Handle.
(** Modelled from the spec: the class [Handle] of the missing [Handle.hpp]
    (section 4.4): a view bound to a namespace index, made by
    [Handle(storage, nsIndex, readOnly)]. *)
Record t : Type := mk { mNsIndex : Z; mReadOnly : bool }.
End Handle.

Module Storage.

(** The data members of [class Storage].  [mPartition] is the array
    [mPages] of the page manager: the sectors as they are on flash.  The
    bitmap [mNamespaceUsage] (256 bits) is an integer read with
    [Z.testbit].  Allocation with [new (std::nothrow)] is taken to
    succeed. *)
Record t : Type := mk {
  mPageManager : PageManager.t;
  mNamespaces : list NamespaceEntry.t;
  mNamespaceUsage : Z;
  mState : State.t;
  mLastError : esp_err_t;
  mHandleCount : nat
}.

(** [Storage(Partition& partition)]. *)
Definition create (partition : list Page.t) : t :=
  mk (PageManager.mk partition [] [] 0) [] 0 State.INVALID ESP_OK O.

Definition setLastError (s : t) (e : esp_err_t) : t :=
  mk (mPageManager s) (mNamespaces s) (mNamespaceUsage s) (mState s) e
     (mHandleCount s).

Definition setState (s : t) (st : State.t) : t :=
  mk (mPageManager s) (mNamespaces s) (mNamespaceUsage s) st (mLastError s)
     (mHandleCount s).

Definition setPageManager (s : t) (pm : PageManager.t) : t :=
  mk pm (mNamespaces s) (mNamespaceUsage s) (mState s) (mLastError s)
     (mHandleCount s).

(** Assignment through a [Page*]. *)
Definition setPage (s : t) (i : nat) (p : Page.t) : t :=
  setPageManager s (PageManager.setPage (mPageManager s) i p).

Definition page (s : t) (i : nat) : Page.t :=
  PageManager.page (mPageManager s) i.

(** [getCurrentPage()]. *)
Definition getCurrentPage (s : t) : nat := PageManager.back (mPageManager s).

(** The pages a loop over [mPageManager] visits, in order. *)
Definition pageList (s : t) : list nat :=
  PageManager.mPageList (mPageManager s).

(** An upper bound on the iterations of a loop
    [while (p.findItem(..., itemIndex, item) == ESP_OK) itemIndex += item.span]:
    every iteration passes at least one item of the page. *)
Definition scanFuel (p : Page.t) : nat := S (List.length (Page.entries p)).

(** *** [Storage::populateBlobIndices] *)

Definition blobIndexNode (it : Item) : BlobIndexNode.t :=
  BlobIndexNode.mk (ItemLayout.getKey it) (nsIndex it)
                   (ItemLayout.blobIndex_chunkCount it)
                   (ItemLayout.blobIndex_chunkStart it).

Fixpoint populateFromPage (fuel : nat) (p : Page.t) (itemIndex : nat)
         (blobIdxList : list BlobIndexNode.t) : list BlobIndexNode.t :=
  match fuel with
  | O => blobIdxList
  | S fuel' =>
      match Page.findItem p Page.NS_ANY BLOB_IDX None itemIndex
                          Page.CHUNK_ANY VER_ANY with
      | (ESP_OK, i, Some item) =>
          populateFromPage fuel' p (i + Pos.to_nat (span item))%nat
                           (blobIdxList ++ [blobIndexNode item])
      | _ => blobIdxList
      end
  end.

Definition populateBlobIndices (s : t) (blobIdxList : list BlobIndexNode.t)
  : bool * t * list BlobIndexNode.t :=
  let l :=
    fold_left (fun acc i => populateFromPage (scanFuel (page s i))
                                             (page s i) O acc)
              (pageList s) blobIdxList in
  (true, setLastError s ESP_OK, l).

(** *** [Storage::eraseOrphanDataBlobs] *)

(** The lambda given to [std::find_if]. *)
Definition covers (item : Item) (e : BlobIndexNode.t) : bool :=
  String.eqb (ItemLayout.truncate ItemLayout.MAX_KEY_LENGTH (key item))
             (ItemLayout.truncate ItemLayout.MAX_KEY_LENGTH
                                  (BlobIndexNode.key e))
  && (nsIndex item =? BlobIndexNode.nsIndex e)
  && (uint8_t (BlobIndexNode.chunkStart e) <=? chunkIndex item)
  && (chunkIndex item
      <? uint8_t (BlobIndexNode.chunkStart e) + BlobIndexNode.chunkCount e).

Fixpoint eraseOrphansOfPage (fuel : nat) (blobIdxList : list BlobIndexNode.t)
         (p : Page.t) (itemIndex : nat) : Page.t :=
  match fuel with
  | O => p
  | S fuel' =>
      match Page.findItem p Page.NS_ANY BLOB_DATA None itemIndex
                          Page.CHUNK_ANY VER_ANY with
      | (ESP_OK, i, Some item) =>
          let p' :=
            if existsb (covers item) blobIdxList then p
            else snd (Page.eraseItem p (nsIndex item) (datatype item)
                                     (Some (key item)) (chunkIndex item)
                                     VER_ANY) in
          eraseOrphansOfPage fuel' blobIdxList p'
                             (i + Pos.to_nat (span item))%nat
      | _ => p
      end
  end.

Definition eraseOrphanDataBlobs (s : t) (blobIdxList : list BlobIndexNode.t)
  : t :=
  fold_left (fun acc i =>
               setPage acc i (eraseOrphansOfPage (scanFuel (page acc i))
                                                 blobIdxList (page acc i) O))
            (pageList s) s.

(** *** [Storage::init] *)

(** [item.getValue(entry->mIndex)] for a [uint8_t]. *)
Definition getValue_u8 (it : Item) : Z := nth 0 (data it) 255.

Fixpoint namespacesFromPage (fuel : nat) (p : Page.t) (itemIndex : nat)
         (acc : list NamespaceEntry.t * Z) : list NamespaceEntry.t * Z :=
  match fuel with
  | O => acc
  | S fuel' =>
      match Page.findItem p Page.NS_INDEX U8 None itemIndex
                          Page.CHUNK_ANY VER_ANY with
      | (ESP_OK, i, Some item) =>
          let entry :=
            NamespaceEntry.mk (ItemLayout.getKey item) (getValue_u8 item) in
          namespacesFromPage fuel' p (i + Pos.to_nat (span item))%nat
                             (fst acc ++ [entry],
                              Z.setbit (snd acc) (NamespaceEntry.mIndex entry))
      | _ => acc
      end
  end.

Definition init (s : t) : bool * t :=
  if negb (Nat.eqb (mHandleCount s) O)
  then (false, setLastError s ESP_ERR_NVS_INVALID_STATE)
  else
    let '(err, pm) := PageManager.load (PageManager.mPages (mPageManager s)) in
    let s1 := setLastError (setPageManager s pm) err in
    if negb (esp_err_eqb err ESP_OK)
    then (false, setState s1 State.INVALID)
    else
      let '(nss, usage) :=
        fold_left (fun acc i => namespacesFromPage (scanFuel (page s1 i))
                                                   (page s1 i) O acc)
                  (pageList s1) ([], 0) in
      let usage := Z.setbit (Z.setbit usage 0) 255 in
      let s2 := mk (mPageManager s1) nss usage State.ACTIVE (mLastError s1)
                   (mHandleCount s1) in
      let '(ok, s3, blobIdxList) := populateBlobIndices s2 [] in
      if negb ok
      then (false, setState s3 State.INVALID)
      else
        let s4 := eraseOrphanDataBlobs s3 blobIdxList in
        (true, setLastError s4 ESP_OK).

(** *** [Storage::findItem] *)

Fixpoint findItemIn (pm : PageManager.t) (l : list nat) (ns : Z)
         (dt : ItemType) (k : option string) (chunkIdx : Z)
         (chunkStart : VerOffset) : option (nat * Item) :=
  match l with
  | [] => None
  | i :: rest =>
      match Page.findItem (PageManager.page pm i) ns dt k O chunkIdx
                          chunkStart with
      | (ESP_OK, _, Some item) => Some (i, item)
      | _ => findItemIn pm rest ns dt k chunkIdx chunkStart
      end
  end.

(** Returns the success flag, the state (with [mLastError]) and, on
    success, the new values of the reference parameters [page] and
    [item]; on failure the caller's [page] and [item] keep their values. *)
Definition findItem (s : t) (ns : Z) (dt : ItemType) (k : option string)
           (chunkIdx : Z) (chunkStart : VerOffset)
  : bool * t * option (nat * Item) :=
  match findItemIn (mPageManager s) (pageList s) ns dt k chunkIdx
                   chunkStart with
  | Some r => (true, setLastError s ESP_OK, Some r)
  | None => (false, setLastError s ESP_ERR_NVS_NOT_FOUND, None)
  end.

(** *** [Storage::eraseMultiPageBlob] *)

Definition notActive (s : t) : bool := negb (State.eqb (mState s) State.ACTIVE).

(** The loop [for (chunkNum = 0; chunkNum < chunkCount; chunkNum++)] with
    [n] iterations left. *)
Fixpoint eraseChunks (n : nat) (s : t) (ns : Z) (k : option string)
         (chunkStart : VerOffset) (chunkNum : Z) : bool * t :=
  match n with
  | O => (true, setLastError s ESP_OK)
  | S n' =>
      match findItem s ns BLOB_DATA k (uint8_t (uint8_t chunkStart + chunkNum))
                     VER_ANY with
      | (true, s1, Some (findPage, _)) =>
          let '(err, p') :=
            Page.eraseItem (page s1 findPage) ns BLOB_DATA k
                           (uint8_t (uint8_t chunkStart + chunkNum))
                           VER_ANY in
          let s2 := setLastError (setPage s1 findPage p') err in
          if negb (esp_err_eqb err ESP_OK) then (false, s2)
          else eraseChunks n' s2 ns k chunkStart (chunkNum + 1)
      | (_, s1, _) =>
          if negb (esp_err_eqb (mLastError s1) ESP_ERR_NVS_NOT_FOUND)
          then (false, s1)
          else eraseChunks n' s1 ns k chunkStart (chunkNum + 1)
      end
  end.

Definition eraseMultiPageBlob (s : t) (ns : Z) (k : option string)
           (chunkStart : VerOffset) : bool * t :=
  if notActive s then (false, setLastError s ESP_ERR_NVS_NOT_INITIALIZED)
  else
    match findItem s ns BLOB_IDX k Page.CHUNK_ANY chunkStart with
    | (true, s1, Some (findPage, item)) =>
        (* Erase the index first and make children blobs orphan *)
        let '(err, p') :=
          Page.eraseItem (page s1 findPage) ns BLOB_IDX k Page.CHUNK_ANY
                         chunkStart in
        let s2 := setLastError (setPage s1 findPage p') err in
        if negb (esp_err_eqb err ESP_OK) then (false, s2)
        else
          let chunkCount := uint8_t (ItemLayout.blobIndex_chunkCount item) in
          let chunkStart' :=
            if chunkStart =? VER_ANY
            then ItemLayout.blobIndex_chunkStart item
            else chunkStart in
          eraseChunks (Z.to_nat chunkCount) s2 ns k chunkStart' 0
    | (_, s1, _) => (false, s1)
    end.

(** *** [Storage::cmpMultiPageBlob] and [Storage::readMultiPageBlob] *)

(** The bytes [data + offset .. data + offset + len). *)
Definition slice (d : list Z) (offset len : nat) : list Z :=
  firstn len (skipn offset d).

(** The chunk loop of [cmpMultiPageBlob]; [s] carries [mLastError]. *)
Fixpoint cmpChunks (n : nat) (s : t) (ns : Z) (k : option string)
         (d : list Z) (chunkStart : VerOffset) (chunkNum : Z)
         (offset : nat) : bool * t :=
  match n with
  | O => (esp_err_eqb (mLastError s) ESP_OK, s)
  | S n' =>
      match findItem s ns BLOB_DATA k (uint8_t (uint8_t chunkStart + chunkNum))
                     VER_ANY with
      | (true, s1, Some (findPage, item)) =>
          let len := List.length (data item) in
          let err :=
            Page.cmpItem (page s1 findPage) ns BLOB_DATA k
                         (slice d offset len)
                         (uint8_t (uint8_t chunkStart + chunkNum)) in
          let s2 := setLastError s1 err in
          if negb (esp_err_eqb err ESP_OK) then (false, s2)
          else cmpChunks n' s2 ns k d chunkStart (chunkNum + 1)
                         (offset + len)%nat
      | (_, s1, _) =>
          (* NOT_FOUND: break; any other error: return false *)
          (false, s1)
      end
  end.

Definition cmpMultiPageBlob (s : t) (ns : Z) (k : option string)
           (d : list Z) : bool * t :=
  match findItem s ns BLOB_IDX k Page.CHUNK_ANY VER_ANY with
  | (true, s1, Some (_, item)) =>
      let chunkCount := uint8_t (ItemLayout.blobIndex_chunkCount item) in
      let chunkStart := ItemLayout.blobIndex_chunkStart item in
      let readSize := ItemLayout.blobIndex_dataSize item in
      if negb (Z.of_nat (List.length d) =? readSize)
      then (false, setLastError s1 ESP_ERR_NVS_CONTENT_DIFFERS)
      else cmpChunks (Z.to_nat chunkCount) s1 ns k d chunkStart 0 O
  | (_, s1, _) => (false, s1)
  end.

(** The chunk loop of [readMultiPageBlob]: [out] is the caller's buffer
    filled so far.  The third component tells whether the function
    returned from inside the loop. *)
Fixpoint readChunks (n : nat) (s : t) (ns : Z) (k : option string)
         (chunkStart : VerOffset) (chunkNum : Z) (out : list Z)
  : bool * t * list Z :=
  match n with
  | O => (false, s, out)
  | S n' =>
      match findItem s ns BLOB_DATA k (uint8_t (uint8_t chunkStart + chunkNum))
                     VER_ANY with
      | (true, s1, Some (findPage, item)) =>
          let '(err, bytes) :=
            Page.readItem (page s1 findPage) ns BLOB_DATA k
                          (ItemLayout.varLength_dataSize item)
                          (uint8_t (uint8_t chunkStart + chunkNum)) in
          let s2 := setLastError s1 err in
          if negb (esp_err_eqb err ESP_OK) then (true, s2, out)
          else readChunks n' s2 ns k chunkStart (chunkNum + 1) (out ++ bytes)
      | (_, s1, _) =>
          if esp_err_eqb (mLastError s1) ESP_ERR_NVS_NOT_FOUND
          then (false, s1, out) else (true, s1, out)
      end
  end.

(** Returns the success flag, the state and the bytes read. *)
Definition readMultiPageBlob (s : t) (ns : Z) (k : option string)
           (dataSize : Z) : bool * t * list Z :=
  match findItem s ns BLOB_IDX k Page.CHUNK_ANY VER_ANY with
  | (true, s1, Some (_, item)) =>
      let chunkCount := uint8_t (ItemLayout.blobIndex_chunkCount item) in
      let chunkStart := ItemLayout.blobIndex_chunkStart item in
      let '(returned, s2, out) :=
        readChunks (Z.to_nat chunkCount) s1 ns k chunkStart 0 [] in
      if returned then (false, s2, out)
      else if esp_err_eqb (mLastError s2) ESP_OK then (true, s2, out)
      else
        let s3 :=
          if esp_err_eqb (mLastError s2) ESP_ERR_NVS_NOT_FOUND
          then snd (eraseMultiPageBlob s2 ns k VER_ANY) (* cleanup *)
          else s2 in
        (false, setLastError s3 ESP_ERR_NVS_NOT_FOUND, out)
  | (_, s1, _) => (false, s1, [])
  end.

(** *** [Storage::writeMultiPageBlob] *)

(** [if (page.state() != FULL) mLastError = page.markFull();] on the page
    [pg]; the flag tells whether [mLastError] is still [ESP_OK]. *)
Definition markFullIfNeeded (s : t) (pg : nat) : bool * t :=
  if negb (PageState.eqb (Page.state (page s pg)) PageState.FULL)
  then
    let '(err, p') := Page.markFull (page s pg) in
    (esp_err_eqb err ESP_OK, setLastError (setPage s pg p') err)
  else (true, s).

(** [mLastError = mPageManager.requestNewPage();] *)
Definition requestNewPage (s : t) : bool * t :=
  let '(err, pm) := PageManager.requestNewPage (mPageManager s) in
  (esp_err_eqb err ESP_OK, setLastError (setPageManager s pm) err).

(** The loop [do { ... } while (true)].  The result is [None] when the
    iterations allowed by [fuel] are used up; otherwise the flag tells
    whether the function left by [return false] (instead of [break]), with
    the state and the list [usedPages].  [chunkCount] is a [uint8_t]. *)
Fixpoint writeLoop (fuel : nat) (s : t) (ns : Z) (k : string) (d : list Z)
         (chunkStart : VerOffset) (chunkCount : Z) (usedPages : list nat)
         (remainingSize offset : nat) : option (bool * t * list nat) :=
  match fuel with
  | O => None
  | S fuel' =>
      let pg := getCurrentPage s in
      let tailroom := Page.getVarDataTailroom (page s pg) in
      let dataSize := Z.of_nat (List.length d) in
      if (chunkCount =? 0) && (tailroom <? dataSize)
         && (tailroom <? Page.CHUNK_MAX_SIZE / 10)
      then
        (* This is the first chunk and tailroom is too small *)
        let '(ok, s1) := markFullIfNeeded s pg in
        if negb ok then Some (true, s1, usedPages)
        else
          let '(ok, s2) := requestNewPage s1 in
          if negb ok then Some (true, s2, usedPages)
          else if Page.getVarDataTailroom (page s2 (getCurrentPage s2))
                  =? tailroom
          then Some (true, setLastError s2 ESP_ERR_NVS_NOT_ENOUGH_SPACE,
                     usedPages)
          else writeLoop fuel' s2 ns k d chunkStart chunkCount usedPages
                         remainingSize offset
      else if tailroom =? 0
      then Some (false, setLastError s ESP_ERR_NVS_NOT_ENOUGH_SPACE, usedPages)
      else
        let chunkSize :=
          if tailroom <? Z.of_nat remainingSize
          then Z.to_nat tailroom else remainingSize in
        let remainingSize' := (remainingSize - chunkSize)%nat in
        let '(err, p') :=
          Page.writeItem (page s pg) ns BLOB_DATA k (slice d offset chunkSize)
                         (uint8_t (uint8_t chunkStart + chunkCount)) in
        let s1 := setLastError (setPage s pg p') err in
        let chunkCount' := uint8_t (chunkCount + 1) in
        if negb (esp_err_eqb err ESP_OK) then Some (false, s1, usedPages)
        else
          let usedPages' := usedPages ++ [pg] in
          let '(ok, s2) :=
            if negb (Nat.eqb remainingSize' O)
               || (tailroom - Z.of_nat chunkSize <? Page.ENTRY_SIZE)
            then
              let '(ok, s1') := markFullIfNeeded s1 pg in
              if negb ok then (false, s1') else requestNewPage s1'
            else (true, s1) in
          if negb ok then Some (false, s2, usedPages')
          else if Nat.eqb remainingSize' O
          then
            (* All pages are stored. Now store the index. *)
            let cur := getCurrentPage s2 in
            let '(err, p') :=
              Page.writeItem (page s2 cur) ns BLOB_IDX k
                             (ItemLayout.blobIndex_bytes dataSize chunkCount'
                                                         chunkStart)
                             Page.CHUNK_ANY in
            Some (false, setLastError (setPage s2 cur p') err, usedPages')
          else writeLoop fuel' s2 ns k d chunkStart chunkCount' usedPages'
                         remainingSize' (offset + chunkSize)%nat
  end.

(** The loop that erases the written chunks after a failure:
    [it->mPage->eraseItem(nsIndex, ItemType::BLOB_DATA, key, ii++)]. *)
Fixpoint rollback (usedPages : list nat) (s : t) (ns : Z) (k : string)
         (ii : Z) : t :=
  match usedPages with
  | [] => s
  | pg :: rest =>
      let '(_, p') :=
        Page.eraseItem (page s pg) ns BLOB_DATA (Some k) (uint8_t ii)
                       VER_ANY in
      rollback rest (setPage s pg p') ns k (ii + 1)
  end.

(** [max_pages], a [uint32_t]; [getPageCount() - 1] is unsigned. *)
Definition max_pages (s : t) : Z :=
  Z.min (uint32_t (PageManager.getPageCount (mPageManager s) - 1))
        ((Page.CHUNK_ANY - 1) / 2).

(** Iterations that suffice for [writeLoop]: each one either obtains a new
    page without writing or writes at least one byte of what remains. *)
Definition loopFuel (s : t) (d : list Z) : nat :=
  S (PageManager.reclaimable (mPageManager s) + List.length d).

Definition writeMultiPageBlob (s : t) (ns : Z) (k : string) (d : list Z)
           (chunkStart : VerOffset) : bool * t :=
  (* Check how much maximum data can be accommodated *)
  if max_pages s * Page.CHUNK_MAX_SIZE <? Z.of_nat (List.length d)
  then (false, setLastError s ESP_ERR_NVS_VALUE_TOO_LONG)
  else
    match writeLoop (loopFuel s d) s ns k d chunkStart 0 []
                    (List.length d) O with
    | Some (true, s1, _) => (false, s1)
    | Some (false, s1, usedPages) =>
        if negb (esp_err_eqb (mLastError s1) ESP_OK)
        then
          (* Anything failed, then we should erase all the written chunks *)
          (false, rollback usedPages s1 ns k 0)
        else (true, s1)
    | None => (false, s)
    end.

(** *** [Storage::writeItem] *)

(** [if (findPage->state() == UNINITIALIZED || findPage->state() == INVALID)
    ESP_ERROR_CHECK(findItem(nsIndex, datatype, key, findPage, item));]
    The macro is not part of the sources; it is taken to evaluate its
    argument, which updates [findPage] and [item] when the item is found.
    [assert] is likewise taken to have no effect. *)
Definition refind (s : t) (ns : Z) (dt : ItemType) (k : string)
           (found : nat * Item) : t * (nat * Item) :=
  let st := Page.state (page s (fst found)) in
  if PageState.eqb st PageState.UNINITIALIZED
     || PageState.eqb st PageState.INVALID
  then
    match findItem s ns dt (Some k) Page.CHUNK_ANY VER_ANY with
    | (_, s1, Some r) => (s1, r)
    | (_, s1, None) => (s1, found)
    end
  else (s, found).

(** The end of [writeItem]: erase the previous version found. *)
Definition eraseFound (s : t) (ns : Z) (dt : ItemType) (k : string)
           (findPage : option (nat * Item)) : bool * t :=
  match findPage with
  | Some found =>
      let '(s1, (fp, _)) := refind s ns dt k found in
      let '(err, p') :=
        Page.eraseItem (page s1 fp) ns dt (Some k) Page.CHUNK_ANY VER_ANY in
      let s2 := setLastError (setPage s1 fp p') err in
      if negb (esp_err_eqb err ESP_OK) then (false, s2)
      else (true, setLastError s2 ESP_OK)
  | None => (true, setLastError s ESP_OK)
  end.

(** [page.writeItem(...)] on the page [pg], with the default chunk index. *)
Definition pageWriteItem (s : t) (pg : nat) (ns : Z) (dt : ItemType)
           (k : string) (d : list Z) : t :=
  let '(err, p') := Page.writeItem (page s pg) ns dt k d Page.CHUNK_ANY in
  setLastError (setPage s pg p') err.

Definition writeItem (s : t) (ns : Z) (dt : ItemType) (k : string)
           (d : list Z) : bool * t :=
  if notActive s then (false, setLastError s ESP_ERR_NVS_NOT_INITIALIZED)
  else
    let '(ok, s1, findPage) :=
      findItem s ns (if ItemType_eqb dt BLOB then BLOB_IDX else dt) (Some k)
               Page.CHUNK_ANY VER_ANY in
    if negb ok && negb (esp_err_eqb (mLastError s1) ESP_ERR_NVS_NOT_FOUND)
    then (false, s1)
    else if ItemType_eqb dt BLOB
    then
      match findPage with
      | Some found =>
          let '(same, s2) := cmpMultiPageBlob s1 ns (Some k) d in
          if same then (true, s2)
          else
            let '(s3, (_, item)) := refind s2 ns dt k found in
            (* Get the version of the previous index with same <ns,key> *)
            let prevStart := ItemLayout.blobIndex_chunkStart item in
            (* Toggle the version by changing the offset *)
            let nextStart :=
              if prevStart =? VER_1_OFFSET then VER_0_OFFSET
              else VER_1_OFFSET in
            (* Write the blob with new version *)
            let '(ok, s4) := writeMultiPageBlob s3 ns k d nextStart in
            if negb ok
            then
              (false,
               if esp_err_eqb (mLastError s4) ESP_ERR_NVS_PAGE_FULL
               then setLastError s4 ESP_ERR_NVS_NOT_ENOUGH_SPACE else s4)
            else
              (* Erase the blob with earlier version *)
              let '(ok, s5) := eraseMultiPageBlob s4 ns (Some k) prevStart in
              if negb ok then (false, s5)
              else eraseFound s5 ns dt k None
      | None =>
          let '(ok, s4) := writeMultiPageBlob s1 ns k d VER_0_OFFSET in
          if negb ok
          then
            (false,
             if esp_err_eqb (mLastError s4) ESP_ERR_NVS_PAGE_FULL
             then setLastError s4 ESP_ERR_NVS_NOT_ENOUGH_SPACE else s4)
          else
            (* Support for earlier versions where BLOBS were stored
               without index *)
            let '(ok, s5, legacy) :=
              findItem s4 ns dt (Some k) Page.CHUNK_ANY VER_ANY in
            if negb ok
               && negb (esp_err_eqb (mLastError s5) ESP_ERR_NVS_NOT_FOUND)
            then (false, s5)
            else eraseFound s5 ns dt k legacy
      end
    else
      if match findPage with
         | Some (fp, _) =>
             esp_err_eqb (Page.cmpItem (page s1 fp) ns dt (Some k) d
                                       Page.CHUNK_ANY) ESP_OK
         | None => false
         end
      then (true, setLastError s1 ESP_OK)
      else
        let pg := getCurrentPage s1 in
        let s2 := pageWriteItem s1 pg ns dt k d in
        if esp_err_eqb (mLastError s2) ESP_ERR_NVS_PAGE_FULL
        then
          let '(ok, s3) := markFullIfNeeded s2 pg in
          if negb ok then (false, s3)
          else
            let '(ok, s4) := requestNewPage s3 in
            if negb ok then (false, s4)
            else
              let s5 := pageWriteItem s4 (getCurrentPage s4) ns dt k d in
              if esp_err_eqb (mLastError s5) ESP_ERR_NVS_PAGE_FULL
              then (false, setLastError s5 ESP_ERR_NVS_NOT_ENOUGH_SPACE)
              else if negb (esp_err_eqb (mLastError s5) ESP_OK)
              then (false, s5)
              else eraseFound s5 ns dt k findPage
        else if negb (esp_err_eqb (mLastError s2) ESP_OK)
        then (false, s2)
        else eraseFound s2 ns dt k findPage.

(** *** [Storage::createOrOpenNamespace] *)

(** [for (ns = 1; ns < 255; ++ns) if (mNamespaceUsage.get(ns) == false) break;]
    with [n] values of [ns] left to try. *)
Fixpoint firstFree (n : nat) (usage : Z) (ns : Z) : Z :=
  match n with
  | O => ns
  | S n' =>
      if negb (Z.testbit usage ns) then ns else firstFree n' usage (ns + 1)
  end.

(** [std::find(mNamespaces.begin(), mNamespaces.end(), nsName)]: the
    comparison of an entry with a name is taken to compare [mName]. *)
Definition findNamespace (l : list NamespaceEntry.t) (nsName : string)
  : option NamespaceEntry.t :=
  find (fun e => String.eqb (NamespaceEntry.mName e) nsName) l.

(** Returns the success flag, the state and the value of the reference
    parameter [nsIndex], which is [nsIndex0] unless assigned. *)
Definition createOrOpenNamespace (s : t) (nsName : string) (canCreate : bool)
           (nsIndex0 : Z) : bool * t * Z :=
  if notActive s
  then (false, setLastError s ESP_ERR_NVS_NOT_INITIALIZED, nsIndex0)
  else
    match findNamespace (mNamespaces s) nsName with
    | None =>
        if negb canCreate
        then (false, setLastError s ESP_ERR_NVS_NOT_FOUND, nsIndex0)
        else
          let ns := firstFree 254 (mNamespaceUsage s) 1 in
          if ns =? 255
          then (false, setLastError s ESP_ERR_NVS_NOT_ENOUGH_SPACE, nsIndex0)
          else
            let '(ok, s1) := writeItem s Page.NS_INDEX U8 nsName [ns] in
            if negb ok then (false, s1, nsIndex0)
            else
              let entry :=
                NamespaceEntry.mk
                  (ItemLayout.truncate ItemLayout.MAX_KEY_LENGTH nsName) ns in
              let s2 :=
                mk (mPageManager s1) (mNamespaces s1 ++ [entry])
                   (Z.setbit (mNamespaceUsage s1) ns) (mState s1) ESP_OK
                   (mHandleCount s1) in
              (true, s2, ns)
    | Some e => (true, setLastError s ESP_OK, NamespaceEntry.mIndex e)
    end.

(** *** [Storage::readItem] *)

(** The end of [readItem]: find the item and read it from its page;
    [out] is the caller's buffer so far. *)
Definition readFound (s : t) (ns : Z) (dt : ItemType) (k : option string)
           (dataSize : Z) (out : list Z) : bool * t * list Z :=
  match findItem s ns dt k Page.CHUNK_ANY VER_ANY with
  | (true, s1, Some (findPage, _)) =>
      let '(err, bytes) :=
        Page.readItem (page s1 findPage) ns dt k dataSize Page.CHUNK_ANY in
      (esp_err_eqb err ESP_OK, setLastError s1 err, bytes)
  | (_, s1, _) => (false, s1, out)
  end.

(** Returns the success flag, the state and the bytes put into the
    caller's buffer. *)
Definition readItem (s : t) (ns : Z) (dt : ItemType) (k : option string)
           (dataSize : Z) : bool * t * list Z :=
  if notActive s then (false, setLastError s ESP_ERR_NVS_NOT_INITIALIZED, [])
  else if ItemType_eqb dt BLOB
  then
    let '(ok, s1, out) := readMultiPageBlob s ns k dataSize in
    if ok then (true, s1, out)
    else if negb (esp_err_eqb (mLastError s1) ESP_ERR_NVS_NOT_FOUND)
    then (false, s1, out)
    else
      (* else check if the blob is stored with earlier version format
         without index *)
      readFound s1 ns dt k dataSize out
  else readFound s ns dt k dataSize [].

(** *** [Storage::eraseItem] *)

Definition eraseItem (s : t) (ns : Z) (dt : ItemType) (k : option string)
  : bool * t :=
  if notActive s then (false, setLastError s ESP_ERR_NVS_NOT_INITIALIZED)
  else if ItemType_eqb dt BLOB then eraseMultiPageBlob s ns k VER_ANY
  else
    match findItem s ns dt k Page.CHUNK_ANY VER_ANY with
    | (true, s1, Some (findPage, item)) =>
        if ItemType_eqb (datatype item) BLOB_DATA
           || ItemType_eqb (datatype item) BLOB_IDX
        then eraseMultiPageBlob s1 ns k VER_ANY
        else
          let '(err, p') :=
            Page.eraseItem (page s1 findPage) ns dt k Page.CHUNK_ANY
                           VER_ANY in
          (esp_err_eqb err ESP_OK, setLastError (setPage s1 findPage p') err)
    | (_, s1, _) => (false, s1)
    end.

(** *** [Storage::eraseNamespace] *)

(** [while (true) { err = it->eraseItem(nsIndex, ANY, nullptr); ... }] on
    one page; the flag is false when the function returns with an error. *)
Fixpoint eraseAllOfPage (fuel : nat) (s : t) (pg : nat) (ns : Z)
  : bool * t :=
  match fuel with
  | O => (true, s)
  | S fuel' =>
      let '(err, p') :=
        Page.eraseItem (page s pg) ns ANY None Page.CHUNK_ANY VER_ANY in
      if esp_err_eqb err ESP_ERR_NVS_NOT_FOUND then (true, s)
      else if negb (esp_err_eqb err ESP_OK)
      then (false, setLastError s err)
      else eraseAllOfPage fuel' (setPage s pg p') pg ns
  end.

Fixpoint eraseNamespacePages (l : list nat) (s : t) (ns : Z) : bool * t :=
  match l with
  | [] => (true, setLastError s ESP_OK)
  | pg :: rest =>
      let '(ok, s1) := eraseAllOfPage (scanFuel (page s pg)) s pg ns in
      if negb ok then (false, s1) else eraseNamespacePages rest s1 ns
  end.

Definition eraseNamespace (s : t) (ns : Z) : bool * t :=
  if notActive s then (false, setLastError s ESP_ERR_NVS_NOT_INITIALIZED)
  else eraseNamespacePages (pageList s) s ns.

(** *** [Storage::getItemDataSize] *)

Definition getItemDataSize (s : t) (ns : Z) (dt : ItemType)
           (k : option string) (dataSize0 : Z) : bool * t * Z :=
  if notActive s
  then (false, setLastError s ESP_ERR_NVS_NOT_INITIALIZED, dataSize0)
  else
    match findItem s ns dt k Page.CHUNK_ANY VER_ANY with
    | (true, s1, Some (_, item)) =>
        (true, s1, ItemLayout.varLength_dataSize item)
    | (_, s1, _) =>
        if negb (ItemType_eqb dt BLOB) then (false, s1, dataSize0)
        else
          match findItem s1 ns BLOB_IDX k Page.CHUNK_ANY VER_ANY with
          | (true, s2, Some (_, item)) =>
              (true, s2, ItemLayout.blobIndex_dataSize item)
          | (_, s2, _) => (false, s2, dataSize0)
          end
    end.

(** *** [Storage::fillStats] *)

Definition fillStats (s : t) (nvsStats : nvs_stats_t)
  : bool * t * nvs_stats_t :=
  let nvsStats1 :=
    mkStats (used_entries nvsStats) (free_entries nvsStats)
            (total_entries nvsStats) (List.length (mNamespaces s)) in
  let '(err, nvsStats2) := PageManager.fillStats (mPageManager s) nvsStats1 in
  (esp_err_eqb err ESP_OK, setLastError s err, nvsStats2).

(** *** [Storage::calcEntriesInNamespace] *)

Fixpoint countInPage (fuel : nat) (p : Page.t) (ns : Z) (itemIndex : nat)
         (usedEntries : nat) : nat :=
  match fuel with
  | O => usedEntries
  | S fuel' =>
      match Page.findItem p ns ANY None itemIndex Page.CHUNK_ANY VER_ANY with
      | (ESP_OK, i, Some item) =>
          let usedEntries' := (usedEntries + Pos.to_nat (span item))%nat in
          let itemIndex' := (i + Pos.to_nat (span item))%nat in
          if (Page.ENTRY_COUNT <=? itemIndex')%nat then usedEntries'
          else countInPage fuel' p ns itemIndex' usedEntries'
      | _ => usedEntries
      end
  end.

(** Returns the success flag, the state and [usedEntries]. *)
Definition calcEntriesInNamespace (s : t) (ns : Z) : bool * t * nat :=
  if notActive s then (false, setLastError s ESP_ERR_NVS_NOT_INITIALIZED, O)
  else
    (true, setLastError s ESP_OK,
     fold_left (fun acc pg => countInPage (scanFuel (page s pg)) (page s pg)
                                          ns O acc)
               (pageList s) O).

(** *** [Storage::ItemIterator] *)

Module ItemIterator.

(** [class ItemIterator : public Item].  [item] is the base class part,
    unspecified until an item was found.  The member [nsIndex] of the
    iterator is the namespace filter; it hides the member [nsIndex] of
    the base class [Item].  [page] is a position in the list of pages,
    the end of the list being the null iterator. *)
Record t : Type := mk {
  item : option Item;
  itemType : ItemType;
  nsIndex : Z;
  entryIndex : nat;
  page : nat;
  err : esp_err_t;
  done : bool
}.

(** [explicit operator bool() const { return page && err == ESP_OK; }] *)
Definition valid (s : Storage.t) (it : t) : bool :=
  (page it <? List.length (pageList s))%nat && esp_err_eqb (err it) ESP_OK.

(** [reset()] *)
Definition reset (it : t) : t :=
  mk (item it) (itemType it) (nsIndex it) O O (err it) false.

(** The constructor; [createOrOpenNamespace] sets [mLastError]. *)
Definition create (s : Storage.t) (ns_name : option string)
           (itemType : ItemType) : t * Storage.t :=
  let it := reset (mk None itemType Page.NS_ANY O O ESP_OK false) in
  match ns_name with
  | Some name =>
      let '(ok, s1, ns) := createOrOpenNamespace s name false (nsIndex it) in
      (mk (item it) itemType ns (entryIndex it) (page it) (err it)
          (negb ok), s1)
  | None => (it, s)
  end.

(** The two lambdas of [next]: the names [nsIndex], [datatype] and
    [chunkIndex] are looked up in the iterator. *)
Definition isIterableItem (it : t) (found : Item) : bool :=
  negb (nsIndex it =? 0)
  && negb (ItemType_eqb (datatype found) BLOB)
  && negb (ItemType_eqb (datatype found) BLOB_IDX).

Definition isMultipageBlob (found : Item) : bool :=
  ItemType_eqb (datatype found) BLOB_DATA
  && negb (chunkIndex found =? uint8_t VER_0_OFFSET)
  && negb (chunkIndex found =? uint8_t VER_1_OFFSET).

(** The loop [do { ... } while (err != ESP_ERR_NVS_NOT_FOUND)] on the
    page [p]; the flag tells whether [next] returns true. *)
Fixpoint nextInPage (fuel : nat) (p : Page.t) (it : t) : bool * t :=
  match fuel with
  | O => (false, it)
  | S fuel' =>
      match Page.findItem p (nsIndex it) (itemType it) None (entryIndex it)
                          Page.CHUNK_ANY VER_ANY with
      | (ESP_OK, i, Some found) =>
          let it' :=
            mk (Some found) (itemType it) (nsIndex it)
               (i + Pos.to_nat (span found))%nat (page it) (err it)
               (done it) in
          if isIterableItem it' found && negb (isMultipageBlob found)
          then (true, it')
          else nextInPage fuel' p it'
      | _ => (false, it)
      end
  end.

(** The loop [for (; page != storage.mPageManager.end(); ++page)] over
    the pages [l] that are left. *)
Fixpoint nextFrom (s : Storage.t) (l : list nat) (it : t) : bool * t :=
  match l with
  | [] =>
      (false, mk (item it) (itemType it) (nsIndex it) (entryIndex it)
                 (page it) (err it) true)
  | pg :: rest =>
      let '(found, it1) :=
        nextInPage (scanFuel (Storage.page s pg)) (Storage.page s pg) it in
      if found then (true, it1)
      else
        nextFrom s rest
                 (mk (item it1) (itemType it1) (nsIndex it1) O
                     (S (page it1)) (err it1) (done it1))
  end.

(** [next()] *)
Definition next (s : Storage.t) (it : t) : bool * t :=
  if negb (valid s it) then (false, it)
  else nextFrom s (skipn (page it) (pageList s)) it.

(** [ns_name()]: [std::find(mNamespaces.begin(), mNamespaces.end(), nsIndex)]
    with the member [nsIndex] of the iterator; the comparison of an entry
    with an index is taken to compare [mIndex].  The null [String] is
    [None]. *)
Definition ns_name (s : Storage.t) (it : t) : option string :=
  match find (fun e => NamespaceEntry.mIndex e =? nsIndex it)
             (mNamespaces s) with
  | Some e => Some (NamespaceEntry.mName e)
  | None => None
  end.

End ItemIterator.

(** [findEntry(namespace_name, itemType)] *)
Definition findEntry (s : t) (namespace_name : option string)
           (itemType : ItemType) : ItemIterator.t * t :=
  ItemIterator.create s namespace_name itemType.

(** [lastError()] *)
Definition lastError (s : t) : esp_err_t := mLastError s.

(** The overload [eraseItem(nsIndex, key)] of [Storage.hpp]. *)
Definition eraseItemAny (s : t) (ns : Z) (k : option string) : bool * t :=
  eraseItem s ns ANY k.

(** *** [Storage::open_handle] *)

(** Returns the handle ([None] for [nullptr]) and the state.  The local
    [nsIndex] is not initialised in the source; it is read only after
    [createOrOpenNamespace] assigned it. *)
Definition open_handle (s : t) (ns_name : option string)
           (open_mode : OpenMode.t) : option Handle.t * t :=
  match ns_name with
  | None => (None, setLastError s ESP_ERR_INVALID_ARG)
  | Some name =>
      let '(ok, s1, nsIndex) :=
        createOrOpenNamespace s name
                              (OpenMode.eqb open_mode OpenMode.ReadWrite) 0 in
      if negb ok then (None, s1)
      else
        (Some (Handle.mk nsIndex (OpenMode.eqb open_mode OpenMode.ReadOnly)),
         mk (mPageManager s1) (mNamespaces s1) (mNamespaceUsage s1)
            (mState s1) ESP_OK (S (mHandleCount s1)))
  end.

End Storage.

(** * Scenarios *)

(** A Storage that was constructed over two erased sectors and never
    mounted. *)
Definition unmounted : Storage.t := Storage.create [Page.erased; Page.erased].

(** A fresh partition of four sectors, mounted (scenario S1). *)
Definition mounted4 : Storage.t :=
  snd (Storage.init
         (Storage.create [Page.erased; Page.erased; Page.erased; Page.erased])).

(** ... after [createOrOpenNamespace("cfg", true, n)] ... *)
Definition withNamespace : Storage.t :=
  snd (fst (Storage.createOrOpenNamespace mounted4 "cfg" true 0)).

(** ... and after [writeItem(1, U32, "rev", 0xDEADBEEF)]. *)
Definition withItem : Storage.t :=
  snd (Storage.writeItem withNamespace 1 U32 "rev" [239; 190; 173; 222]).

(** The item that persists the namespace "cfg". *)
Definition cfgEntry : Item := mkItem 0 U8 1 255 "cfg" [1].

(** A partition of two sectors whose only usable page is filled to the
    last entry: one namespace and a string of 3968 bytes (125 entries). *)
Definition fullFlash : Storage.t :=
  let s0 := snd (Storage.init (Storage.create [Page.erased; Page.erased])) in
  let s1 := snd (fst (Storage.createOrOpenNamespace s0 "cfg" true 0)) in
  snd (Storage.writeItem s1 1 STR "text" (repeat 0 3968)).

(** The partition of four sectors with its first page filled to the last
    entry: the namespace "cfg" and a string of 3968 bytes (125 entries). *)
Definition firstPageFull : Storage.t :=
  snd (Storage.writeItem withNamespace 1 STR "text" (repeat 0 3968)).

(** The partition of four sectors with a blob of 500 bytes in two chunks:
    480 bytes at the end of the first page, behind the namespace and a
    string of 3456 bytes, and 20 bytes with the index on the second page. *)
Definition blobBytes : list Z := repeat 7 500.

Definition twoChunkBlob : Storage.t :=
  let s1 := snd (Storage.writeItem withNamespace 1 STR "pad" (repeat 0 3456)) in
  snd (Storage.writeItem s1 1 BLOB "big" blobBytes).

(** Scenario S3: three BLOB_DATA entries for the key "x" programmed without
    a BLOB_IDX, next to a blob "y" that has its index. *)
Definition orphanPartition : list Page.t :=
  [ Page.mk PageState.ACTIVE 0
      [ (WRITTEN, mkItem 1 BLOB_DATA 2 0 "x" [1; 2; 3]);
        (WRITTEN, mkItem 1 BLOB_DATA 2 1 "x" [4; 5; 6]);
        (WRITTEN, mkItem 1 BLOB_DATA 2 0 "y" [7; 8]);
        (WRITTEN, mkItem 1 BLOB_IDX 1 255 "y" [2; 0; 0; 0; 1; 0; 255; 255]);
        (WRITTEN, mkItem 1 BLOB_DATA 2 2 "x" [9]) ];
    Page.erased ].

(** A partition of three sectors: the first page is full (the namespace, a
    string of 3936 bytes and an erased item), the second page holds the blob
    "big" = 01 02 03 in version 0, the third page is free. *)
Definition beforeOverwrite : Storage.t :=
  let s0 :=
    snd (Storage.init (Storage.create [Page.erased; Page.erased; Page.erased])) in
  let s1 := snd (fst (Storage.createOrOpenNamespace s0 "cfg" true 0)) in
  let s2 := snd (Storage.writeItem s1 1 U8 "tmp" [0]) in
  let s3 := snd (Storage.writeItem s2 1 STR "text" (repeat 0 3936)) in
  let s4 := snd (Storage.eraseItem s3 1 U8 (Some "tmp"%string)) in
  snd (Storage.writeItem s4 1 BLOB "big" [1; 2; 3]).

(** ... and after the attempt to overwrite "big" with 3905 bytes. *)
Definition afterOverwrite : Storage.t :=
  snd (Storage.writeItem beforeOverwrite 1 BLOB "big" (repeat 9 3905)).

(** The chunk that the attempt leaves WRITTEN on the second page. *)
Definition staleChunk : Item :=
  mkItem 1 BLOB_DATA 123 128 "big" (repeat 9 3904).

(** ... and after [readItem(1, BLOB, "big")], which misses the chunk of the
    index and erases the index: the chunk left behind has no index. *)
Definition afterRead : Storage.t :=
  snd (fst (Storage.readItem afterOverwrite 1 BLOB (Some "big"%string) 3)).

(** After the attempt again: [eraseItem(1, STR, "text")] makes room, ... *)
Definition roomMade : Storage.t :=
  snd (Storage.eraseItem afterOverwrite 1 STR (Some "text"%string)).

(** ... and [writeItem(1, BLOB, "big", {5, 6})] stores a new value. *)
Definition rewrittenBlob : Storage.t :=
  snd (Storage.writeItem roomMade 1 BLOB "big" [5; 6]).

(** A partition of two sectors: the blob "y" of one chunk with its index
    and, behind them, a chunk of the same key whose chunk index is 255. *)
Definition wildcardPartition : list Page.t :=
  [ Page.mk PageState.ACTIVE 0
      [ (WRITTEN, mkItem 0 U8 1 255 "cfg" [1]);
        (WRITTEN, mkItem 1 BLOB_DATA 2 0 "y" [7; 8]);
        (WRITTEN, mkItem 1 BLOB_IDX 1 255 "y" [2; 0; 0; 0; 1; 0; 255; 255]);
        (WRITTEN, mkItem 1 BLOB_DATA 2 255 "y" [9]) ];
    Page.erased ].

(** ... and the result of mounting it. *)
Definition wildcardMounted : bool * Storage.t :=
  Storage.init (Storage.create wildcardPartition).

(** A partition in the format of earlier versions: the blob "old" is stored
    as a single BLOB item, without index. *)
Definition legacyItem : Item := mkItem 1 BLOB 2 255 "old" [1; 2; 3].

Definition legacyStorage : Storage.t :=
  snd (Storage.init
         (Storage.create
            [ Page.mk PageState.ACTIVE 0
                [ (WRITTEN, mkItem 0 U8 1 255 "cfg" [1]);
                  (WRITTEN, legacyItem) ];
              Page.erased; Page.erased ])).


(** * Vocabulary of the properties *)

(** [s'] differs from [s] only in the pages and in [mLastError]. *)
Definition sameTables (s s' : Storage.t) : Prop :=
  Storage.mNamespaces s' = Storage.mNamespaces s
  /\ Storage.mNamespaceUsage s' = Storage.mNamespaceUsage s
  /\ Storage.mState s' = Storage.mState s
  /\ Storage.mHandleCount s' = Storage.mHandleCount s.

(** Erased entries of the page at sector [i]. *)
Definition erasedAt (pm : PageManager.t) (i : nat) : nat :=
  PageManager.erasedEntries (Page.entries (PageManager.page pm i)).

Fixpoint erasedSum (pm : PageManager.t) (l : list nat) : nat :=
  match l with
  | [] => O
  | i :: rest => (erasedAt pm i + erasedSum pm rest)%nat
  end.

Definition reclaimableOf (s : Storage.t) : nat :=
  PageManager.reclaimable (Storage.mPageManager s).

(** The error codes of [Page::markFull], [Page::writeItem] and
    [PageManager::requestNewPage], and NOT_ENOUGH_SPACE. *)
Definition loopError (e : esp_err_t) : bool :=
  match e with
  | ESP_OK | ESP_ERR_INVALID_STATE | ESP_ERR_NVS_INVALID_STATE
  | ESP_ERR_NVS_NOT_ENOUGH_SPACE | ESP_ERR_NVS_PAGE_FULL => true
  | _ => false
  end.

Definition surfaced (s : Storage.t) : Prop :=
  Storage.mLastError s <> ESP_ERR_NVS_PAGE_FULL.

(** Whether [writeItem] finds the stored value equal and writes nothing. *)
Definition elided (s1 : Storage.t) (findPage : option (nat * Item)) (ns : Z)
           (dt : ItemType) (k : string) (d : list Z) : bool :=
  match findPage with
  | Some (fp, _) =>
      esp_err_eqb (Page.cmpItem (Storage.page s1 fp) ns dt (Some k) d
                                Page.CHUNK_ANY) ESP_OK
  | None => false
  end.

(** The search of [Storage::findItem] without the state around it. *)
Definition findIn (s : Storage.t) (ns : Z) (dt : ItemType) (k : option string)
           (chunkIdx : Z) (chunkStart : VerOffset) : option (nat * Item) :=
  Storage.findItemIn (Storage.mPageManager s) (Storage.pageList s) ns dt k
                     chunkIdx chunkStart.

(** The chunks [cn, cn+1, ...] of the blob [(ns, k)] of version [cs], as
    [findItem] finds them, hold the byte lists [chunks]. *)
Fixpoint chunksStored (pm : PageManager.t) (ns : Z) (k : option string)
         (cs : VerOffset) (cn : Z) (chunks : list (list Z)) : Prop :=
  match chunks with
  | [] => True
  | c :: rest =>
      (exists fp it,
          Storage.findItemIn pm (PageManager.mPageList pm) ns BLOB_DATA k
                             (uint8_t (uint8_t cs + cn)) VER_ANY
          = Some (fp, it)
          /\ data it = c)
      /\ chunksStored pm ns k cs (cn + 1) rest
  end.

(** WRITTEN items of a page that satisfy [f]. *)
Fixpoint countPage (es : list (EntryState * Item)) (f : Item -> bool) : nat :=
  match es with
  | [] => O
  | (st, it) :: rest =>
      ((if isWritten st && f it then 1 else 0) + countPage rest f)%nat
  end.

(** ... over the pages [l] of the page manager. *)
Fixpoint countW (pm : PageManager.t) (l : list nat) (f : Item -> bool) : nat :=
  match l with
  | [] => O
  | i :: rest =>
      (countPage (Page.entries (PageManager.page pm i)) f + countW pm rest f)%nat
  end.

(** The filter that finds chunk number [c] of the blob [(ns, k)] whose
    first chunk index is [start]. *)
Definition chunkFilter (ns : Z) (k : option string) (start : VerOffset) (c : Z)
  : Item -> bool :=
  Page.matches ns BLOB_DATA k (uint8_t (uint8_t start + c)) VER_ANY.

(** Visible items for [f] in the pages of the Storage. *)
Definition visible (s : Storage.t) (f : Item -> bool) : nat :=
  countW (Storage.mPageManager s) (Storage.pageList s) f.

(** The items of a page that the loop of [eraseOrphanDataBlobs] visits. *)
Definition isChunk (it : Item) : bool := ItemType_eqb (datatype it) BLOB_DATA.

(** A chunk whose fields [Page::eraseItem] takes as they are: neither its
    namespace index nor its chunk index is 0xFF, the value of [NS_ANY] and
    of [CHUNK_ANY]. *)
Definition chunkOk (it : Item) : bool :=
  negb (isChunk it)
  || (negb (nsIndex it =? Page.NS_ANY) && negb (chunkIndex it =? Page.CHUNK_ANY)).

(** What the loop does to one entry. *)
Definition eraseIfOrphan (l : list BlobIndexNode.t) (e : EntryState * Item)
  : EntryState * Item :=
  if isWritten (fst e) && isChunk (snd e)
     && negb (existsb (Storage.covers (snd e)) l)
  then (ERASED, snd e) else e.

(** Entries that a scan from [start] passes over; [i] is the entry index of
    the first of them. *)
Fixpoint skipped (es : list (EntryState * Item)) (i start : nat)
         (f : Item -> bool) : Prop :=
  match es with
  | [] => True
  | (st, it) :: rest =>
      ((start <=? i)%nat && isWritten st && f it)%bool = false
      /\ skipped rest (i + Pos.to_nat (span it))%nat start f
  end.

(** No WRITTEN chunk of [es] is an orphan. *)
Definition noOrphan (l : list BlobIndexNode.t) (es : list (EntryState * Item))
  : Prop :=
  forall st it, In (st, it) es ->
    (isWritten st && isChunk it)%bool = true ->
    existsb (Storage.covers it) l = true.

(** The loop on a whole page. *)
Definition reclaimed (l : list BlobIndexNode.t) (p : Page.t) : Page.t :=
  Page.mk (Page.state p) (Page.seqNumber p)
          (map (eraseIfOrphan l) (Page.entries p)).

(** No chunk of the pages has 0xFF as namespace index or chunk index. *)
Definition chunksWellFormed (ps : list Page.t) : bool :=
  forallb (fun p => forallb (fun e => chunkOk (snd e)) (Page.entries p)) ps.

Definition okPage (p : Page.t) : Prop :=
  Forall (fun e => chunkOk (snd e) = true) (Page.entries p).

Definition okPages (ps : list Page.t) : Prop := Forall okPage ps.

(** A node of the list of indices stands for a WRITTEN BLOB_IDX item. *)
Definition fromIndex (s : Storage.t) (node : BlobIndexNode.t) : Prop :=
  exists j idx,
    In j (Storage.pageList s)
    /\ In (WRITTEN, idx) (Page.entries (Storage.page s j))
    /\ datatype idx = BLOB_IDX
    /\ node = Storage.blobIndexNode idx.

(** The BLOB_IDX item [idx] covers the chunk [it]: same namespace, same key
    (as far as [strncmp] over 15 characters tells) and
    [chunkStart <= chunkIndex < chunkStart + chunkCount]. *)
Definition covered (it idx : Item) : Prop :=
  nsIndex it = nsIndex idx
  /\ ItemLayout.truncate ItemLayout.MAX_KEY_LENGTH (key it)
     = ItemLayout.truncate ItemLayout.MAX_KEY_LENGTH (key idx)
  /\ uint8_t (ItemLayout.blobIndex_chunkStart idx) <= chunkIndex it
     < uint8_t (ItemLayout.blobIndex_chunkStart idx)
       + ItemLayout.blobIndex_chunkCount idx.

Fixpoint nodupNat (l : list nat) : bool :=
  match l with
  | [] => true
  | x :: rest => negb (existsb (Nat.eqb x) rest) && nodupNat rest
  end.

(** The lists of the page manager name each sector at most once, and only
    sectors of the partition. *)
Definition wfPM (pm : PageManager.t) : bool :=
  nodupNat (PageManager.mPageList pm ++ PageManager.mFreePageList pm)
  && forallb (fun i => (i <? List.length (PageManager.mPages pm))%nat)
             (PageManager.mPageList pm ++ PageManager.mFreePageList pm).

Definition wf (pm : PageManager.t) : Prop :=
  NoDup (PageManager.mPageList pm ++ PageManager.mFreePageList pm)
  /\ forall i, In i (PageManager.mPageList pm ++ PageManager.mFreePageList pm) ->
               (i < List.length (PageManager.mPages pm))%nat.

(** [g] accepts no item of type [dt]. *)
Definition rejects (g : Item -> bool) (dt : ItemType) : Prop :=
  forall it, datatype it = dt -> g it = false.

Definition wfS (s : Storage.t) : Prop := wf (Storage.mPageManager s).

(** The filter of [findItem(nsIndex, ItemType::BLOB, key, ...)]. *)
Definition legacyFilter (ns : Z) (k : string) : Item -> bool :=
  Page.matches ns BLOB (Some k) Page.CHUNK_ANY VER_ANY.

(** The filter of [findItem(nsIndex, datatype, key)]. *)
Definition keyFilter (ns : Z) (dt : ItemType) (k : string) : Item -> bool :=
  Page.matches ns dt (Some k) Page.CHUNK_ANY VER_ANY.

(** The matches of [keyFilter] whose payload differs from [d]. *)
Definition staleFilter (ns : Z) (dt : ItemType) (k : string) (d : list Z)
  : Item -> bool :=
  fun it => keyFilter ns dt k it && negb (Page.bytes_eqb (data it) d).

(** The item that [Page::writeItem] appends. *)
Definition newItem (ns : Z) (dt : ItemType) (k : string) (d : list Z) (ci : Z)
  : Item :=
  mkItem ns dt (Page.spanFor dt (Z.of_nat (List.length d))) ci k d.

(** [g] accepts no item that [f] accepts. *)
Definition disjoint (f g : Item -> bool) : Prop :=
  forall it, f it = true -> g it = false.

(** [g] accepts no item stored under the key [k]. *)
Definition otherKeys (g : Item -> bool) (k : string) : Prop :=
  forall it, key it = k -> g it = false.

(** [g] accepts no item stored under the key [k] of the namespace [ns]
    (of any namespace, if [ns] is [NS_ANY]). *)
Definition apart (ns : Z) (k : string) (g : Item -> bool) : Prop :=
  forall it, Page.matches ns ANY (Some k) Page.CHUNK_ANY VER_ANY it = true ->
             g it = false.

(** A page in state UNINITIALIZED or INVALID, as [writeItem] tests it. *)
Definition stateBad (p : Page.t) : bool :=
  PageState.eqb (Page.state p) PageState.UNINITIALIZED
  || PageState.eqb (Page.state p) PageState.INVALID.

(** [y] is one of the visible items of [s]: no filter that counts nothing
    accepts it. *)
Definition accounted (s : Storage.t) (y : Item) : Prop :=
  forall h, visible s h = O -> h y = false.

(** What [writeItem] does for the types other than BLOB once the stored
    value was found to differ: write on the current page, on a new page if
    that one is full, then erase the previous item. *)
Definition primitiveTail (s1 : Storage.t) (ns : Z) (dt : ItemType)
           (k : string) (d : list Z) (findPage : option (nat * Item))
  : bool * Storage.t :=
  let pg := Storage.getCurrentPage s1 in
  let s2 := Storage.pageWriteItem s1 pg ns dt k d in
  if esp_err_eqb (Storage.mLastError s2) ESP_ERR_NVS_PAGE_FULL
  then
    let '(ok, s3) := Storage.markFullIfNeeded s2 pg in
    if negb ok then (false, s3)
    else
      let '(ok, s4) := Storage.requestNewPage s3 in
      if negb ok then (false, s4)
      else
        let s5 :=
          Storage.pageWriteItem s4 (Storage.getCurrentPage s4) ns dt k d in
        if esp_err_eqb (Storage.mLastError s5) ESP_ERR_NVS_PAGE_FULL
        then (false, Storage.setLastError s5 ESP_ERR_NVS_NOT_ENOUGH_SPACE)
        else if negb (esp_err_eqb (Storage.mLastError s5) ESP_OK)
        then (false, s5)
        else Storage.eraseFound s5 ns dt k findPage
  else if negb (esp_err_eqb (Storage.mLastError s2) ESP_OK)
  then (false, s2)
  else Storage.eraseFound s2 ns dt k findPage.

(** The usage bitmap marks the index of every entry of the table. *)
Definition tableCovered (s : Storage.t) : Prop :=
  forall e, In e (Storage.mNamespaces s) ->
            0 <= NamespaceEntry.mIndex e ->
            Z.testbit (Storage.mNamespaceUsage s) (NamespaceEntry.mIndex e)
            = true.

(** The flag an operation returns tells whether it left ESP_OK as the last
    error. *)
Definition agrees (ok : bool) (s : Storage.t) : Prop :=
  ok = esp_err_eqb (Storage.mLastError s) ESP_OK.

(** The filter of [eraseItem(nsIndex, ItemType::ANY, nullptr)] and of
    [findItem(nsIndex, ItemType::ANY, nullptr, ...)]. *)
Definition nsFilter (ns : Z) : Item -> bool :=
  Page.matches ns ANY None Page.CHUNK_ANY VER_ANY.

(** The entries, by span, of the WRITTEN items of a page that [f]
    accepts. *)
Fixpoint spanSum (es : list (EntryState * Item)) (f : Item -> bool) : nat :=
  match es with
  | [] => O
  | (st, it) :: rest =>
      ((if isWritten st && f it then Pos.to_nat (span it) else O)
       + spanSum rest f)%nat
  end.

(** ... summed over the pages in use. *)
Definition entriesInNamespace (s : Storage.t) (ns : Z) : nat :=
  fold_right (fun pg acc =>
                (spanSum (Page.entries (Storage.page s pg))
                         (Page.matches ns ANY None Page.CHUNK_ANY VER_ANY)
                 + acc)%nat)
             O (Storage.pageList s).

(** No page in use holds more than [ENTRY_COUNT] entries. *)
Definition pagesFit (s : Storage.t) : Prop :=
  forall pg, In pg (Storage.pageList s) ->
             (Page.usedEntries (Page.entries (Storage.page s pg))
              <= Page.ENTRY_COUNT)%nat.

(** What [next] stops at: a match of the filters of the iterator that the
    two lambdas of [next] let through. *)
Definition iterable (ns : Z) (ty : ItemType) (x : Item) : bool :=
  Page.matches ns ty None Page.CHUNK_ANY VER_ANY x
  && (negb (ns =? 0)
      && negb (ItemType_eqb (datatype x) BLOB)
      && negb (ItemType_eqb (datatype x) BLOB_IDX))
  && negb (Storage.ItemIterator.isMultipageBlob x).

(** The WRITTEN items of a page that [f] accepts, in entry order. *)
Fixpoint itemsFrom (es : list (EntryState * Item)) (f : Item -> bool)
  : list Item :=
  match es with
  | [] => []
  | (st, it) :: rest =>
      if isWritten st && f it then it :: itemsFrom rest f
      else itemsFrom rest f
  end.

(** ... over the pages [l], in the order of the list. *)
Definition itemsOfPages (s : Storage.t) (l : list nat) (f : Item -> bool)
  : list Item :=
  flat_map (fun pg => itemsFrom (Page.entries (Storage.page s pg)) f) l.

(** The items that repeated calls of [next] return, up to the first call
    that returns false. *)
Fixpoint drain (fuel : nat) (s : Storage.t) (it : Storage.ItemIterator.t)
  : list Item :=
  match fuel with
  | O => []
  | S fuel' =>
      match Storage.ItemIterator.next s it with
      | (true, it') =>
          match Storage.ItemIterator.item it' with
          | Some x => x :: drain fuel' s it'
          | None => []
          end
      | (false, _) => []
      end
  end.

(** The iterator stands in front of the items [exp]: at an item boundary
    of its page, with [exp] the iterable items from there on. *)
Definition standsBefore (s : Storage.t) (it : Storage.ItemIterator.t)
           (exp : list Item) : Prop :=
  Storage.ItemIterator.err it = ESP_OK
  /\ match skipn (Storage.ItemIterator.page it) (Storage.pageList s) with
     | [] => exp = []
     | pg :: rest =>
         exists pre post,
           Page.entries (Storage.page s pg) = pre ++ post
           /\ Storage.ItemIterator.entryIndex it = Page.usedEntries pre
           /\ exp = itemsFrom post (iterable (Storage.ItemIterator.nsIndex it)
                                             (Storage.ItemIterator.itemType it))
                    ++ itemsOfPages s rest
                         (iterable (Storage.ItemIterator.nsIndex it)
                                   (Storage.ItemIterator.itemType it))
     end.

(** [s'] is [s] but for the last error. *)
Definition onlyLastError (s s' : Storage.t) : Prop :=
  Storage.mPageManager s' = Storage.mPageManager s
  /\ Storage.mNamespaces s' = Storage.mNamespaces s
  /\ Storage.mNamespaceUsage s' = Storage.mNamespaceUsage s
  /\ Storage.mState s' = Storage.mState s
  /\ Storage.mHandleCount s' = Storage.mHandleCount s.

(** A small blob under the key "img" of the namespace "cfg". *)
Definition withBlob : Storage.t :=
  snd (Storage.writeItem withNamespace 1 BLOB "img" [1; 2; 3]).

(** A blob of two chunks on two pages, and the same flash after the loss
    of the second chunk. *)
Definition withBigBlob : Storage.t :=
  snd (Storage.writeItem withNamespace 1 BLOB "img" (repeat 7 4000)).

Definition damagedBlob : Storage.t :=
  Storage.setPage withBigBlob 1%nat
    (snd (Page.eraseItem (Storage.page withBigBlob 1%nat) 1 BLOB_DATA
                         (Some "img"%string) 1 VER_ANY)).

(** The matches of chunk number [c] whose payload differs from [v]. *)
Definition chunkStale (ns : Z) (k : option string) (start : VerOffset) (c : Z)
           (v : list Z) : Item -> bool :=
  fun it => chunkFilter ns k start c it && negb (Page.bytes_eqb (data it) v).

(** The chunks number 0, 1, ... of the blob are each stored once, with the
    payloads [chunks]. *)
Definition chunksVisible (s : Storage.t) (ns : Z) (k : option string)
           (start : VerOffset) (chunks : list (list Z)) : Prop :=
  forall i, (i < List.length chunks)%nat ->
    visible s (chunkFilter ns k start (Z.of_nat i)) = 1%nat
    /\ visible s (chunkStale ns k start (Z.of_nat i) (nth i chunks [])) = O.

(** No chunk with a number from [from] on is stored. *)
Definition rangeFree (s : Storage.t) (ns : Z) (k : option string)
           (start : VerOffset) (from : nat) : Prop :=
  forall i, (from <= i < 127)%nat ->
    visible s (chunkFilter ns k start (Z.of_nat i)) = O.

(** The offset of the other of the two versions of a blob, as [writeItem]
    toggles it. *)
Definition otherVersion (start : VerOffset) : VerOffset :=
  if start =? VER_1_OFFSET then VER_0_OFFSET else VER_1_OFFSET.

(** The filter of [findItem(nsIndex, BLOB_IDX, key, ..., CHUNK_ANY, start)]:
    the indexes of the version that starts at [start]. *)
Definition idxAt (ns : Z) (k : string) (start : VerOffset) : Item -> bool :=
  Page.matches ns BLOB_IDX (Some k) Page.CHUNK_ANY start.

(** The indexes of [idxAt] whose record differs from [v]. *)
Definition idxStale (ns : Z) (k : string) (start : VerOffset) (v : list Z)
  : Item -> bool :=
  fun it => idxAt ns k start it && negb (Page.bytes_eqb (data it) v).

(** The indexes stored under [(ns, k)] for another version than [start]. *)
Definition idxOther (ns : Z) (k : string) (start : VerOffset) : Item -> bool :=
  fun it => keyFilter ns BLOB_IDX k it && negb (idxAt ns k start it).

(** [g] accepts none of the items that [writeMultiPageBlob] appends for
    the version that starts at [start]: neither a chunk numbered below 127
    nor an index. *)
Definition foreign (ns : Z) (k : string) (start : VerOffset)
           (g : Item -> bool) : Prop :=
  (forall c v, 0 <= c < 127 ->
     g (newItem ns BLOB_DATA k v (uint8_t (uint8_t start + c))) = false)
  /\ (forall n c,
        g (newItem ns BLOB_IDX k (ItemLayout.blobIndex_bytes n c start)
                   Page.CHUNK_ANY) = false).

(** What the write loop keeps about the chunks written so far; [s0] is the
    Storage at its start. *)
Definition countsInv (s0 s : Storage.t) (ns : Z) (k : string)
           (start : VerOffset) (chunks : list (list Z)) : Prop :=
  chunksVisible s ns (Some k) start chunks
  /\ rangeFree s ns (Some k) start (List.length chunks)
  /\ visible s (idxAt ns k start) = O
  /\ forall g, foreign ns k start g -> visible s g = visible s0 g.

(** What the write loop leaves when it ends well: the chunks of [d] once
    each, one index of the version with the size and the number of chunks,
    and the other items as they were in [s0]. *)
Definition versionWritten (s0 s : Storage.t) (ns : Z) (k : string)
           (d : list Z) (start : VerOffset) : Prop :=
  exists chunks,
    List.concat chunks = d
    /\ (List.length chunks <= 126)%nat
    /\ chunksVisible s ns (Some k) start chunks
    /\ rangeFree s ns (Some k) start (List.length chunks)
    /\ visible s (idxAt ns k start) = 1%nat
    /\ visible s (idxStale ns k start
                    (ItemLayout.blobIndex_bytes
                       (Z.of_nat (List.length d))
                       (Z.of_nat (List.length chunks)) start)) = O
    /\ forall g, foreign ns k start g -> visible s g = visible s0 g.

(** The blob [d] is stored under [(ns, k)] in the version that starts at
    [start]: its chunks once each, in order, no other chunk numbered
    below 127 in either version, and one index, which records the size
    (a [uint32_t]), the number of chunks and the version. *)
Definition blobStored (s : Storage.t) (ns : Z) (k : string) (d : list Z)
           (start : VerOffset) : Prop :=
  (start = VER_0_OFFSET \/ start = VER_1_OFFSET)
  /\ Z.of_nat (List.length d) < 2 ^ 32
  /\ exists chunks,
      List.concat chunks = d
      /\ (List.length chunks <= 126)%nat
      /\ chunksVisible s ns (Some k) start chunks
      /\ rangeFree s ns (Some k) start (List.length chunks)
      /\ rangeFree s ns (Some k) (otherVersion start) 0
      /\ visible s (keyFilter ns BLOB_IDX k) = 1%nat
      /\ visible s (staleFilter ns BLOB_IDX k
                      (ItemLayout.blobIndex_bytes
                         (Z.of_nat (List.length d))
                         (Z.of_nat (List.length chunks)) start)) = O.

(** Neither an index nor a chunk numbered below 127 of either version is
    stored under [(ns, k)]. *)
Definition blobAbsent (s : Storage.t) (ns : Z) (k : string) : Prop :=
  visible s (keyFilter ns BLOB_IDX k) = O
  /\ rangeFree s ns (Some k) VER_0_OFFSET 0
  /\ rangeFree s ns (Some k) VER_1_OFFSET 0.

(** * Properties *)

(** ** Basic facts about the state *)

Lemma esp_err_eqb_eq (a b : esp_err_t) : esp_err_eqb a b = true <-> a = b.
Proof. split; [destruct a, b; simpl; congruence | intros ->; destruct b; reflexivity]. Qed.

Lemma esp_err_eqb_refl (a : esp_err_t) : esp_err_eqb a a = true.
Proof. destruct a; reflexivity. Qed.

Lemma ItemType_eqb_eq (a b : ItemType) : ItemType_eqb a b = true <-> a = b.
Proof. split; [destruct a, b; simpl; congruence | intros ->; destruct b; reflexivity]. Qed.

Lemma notActive_true (s : Storage.t) :
  State.eqb (Storage.mState s) State.ACTIVE = false -> Storage.notActive s = true.
Proof. unfold Storage.notActive. intros ->. reflexivity. Qed.

Lemma notActive_false (s : Storage.t) :
  Storage.mState s = State.ACTIVE -> Storage.notActive s = false.
Proof. unfold Storage.notActive. intros ->. reflexivity. Qed.

(** ** State errors (C7) *)

Section NotInitialized.

Variable s : Storage.t.
Hypothesis inactive : State.eqb (Storage.mState s) State.ACTIVE = false.

Let rejected : Storage.t := Storage.setLastError s ESP_ERR_NVS_NOT_INITIALIZED.

Lemma writeItem_inactive ns dt k d :
  Storage.writeItem s ns dt k d = (false, rejected).
Proof. unfold Storage.writeItem. now rewrite notActive_true. Qed.

Lemma readItem_inactive ns dt k n :
  Storage.readItem s ns dt k n = (false, rejected, []).
Proof. unfold Storage.readItem. now rewrite notActive_true. Qed.

Lemma eraseItem_inactive ns dt k :
  Storage.eraseItem s ns dt k = (false, rejected).
Proof. unfold Storage.eraseItem. now rewrite notActive_true. Qed.

Lemma eraseNamespace_inactive ns :
  Storage.eraseNamespace s ns = (false, rejected).
Proof. unfold Storage.eraseNamespace. now rewrite notActive_true. Qed.

Lemma eraseMultiPageBlob_inactive ns k cs :
  Storage.eraseMultiPageBlob s ns k cs = (false, rejected).
Proof. unfold Storage.eraseMultiPageBlob. now rewrite notActive_true. Qed.

Lemma createOrOpenNamespace_inactive name canCreate idx :
  Storage.createOrOpenNamespace s name canCreate idx = (false, rejected, idx).
Proof. unfold Storage.createOrOpenNamespace. now rewrite notActive_true. Qed.

Lemma getItemDataSize_inactive ns dt k n :
  Storage.getItemDataSize s ns dt k n = (false, rejected, n).
Proof. unfold Storage.getItemDataSize. now rewrite notActive_true. Qed.

Lemma calcEntriesInNamespace_inactive ns :
  Storage.calcEntriesInNamespace s ns = (false, rejected, O).
Proof. unfold Storage.calcEntriesInNamespace. now rewrite notActive_true. Qed.

End NotInitialized.

(** C7, as the code has it.  On a Storage whose state is not ACTIVE each of
    [writeItem], [readItem], [eraseItem], [eraseNamespace],
    [eraseMultiPageBlob], [createOrOpenNamespace], [getItemDataSize] and
    [calcEntriesInNamespace] returns false and leaves the Storage as it was
    but for [mLastError], which is NOT_INITIALIZED; reference parameters
    keep their values ([usedEntries] is set to 0).  [fillStats] is not in
    the list: it has no guard on the state. *)
Theorem not_initialized_guard (s : Storage.t) :
  State.eqb (Storage.mState s) State.ACTIVE = false ->
  let rejected := Storage.setLastError s ESP_ERR_NVS_NOT_INITIALIZED in
  (forall ns dt k d, Storage.writeItem s ns dt k d = (false, rejected))
  /\ (forall ns dt k n, Storage.readItem s ns dt k n = (false, rejected, []))
  /\ (forall ns dt k, Storage.eraseItem s ns dt k = (false, rejected))
  /\ (forall ns, Storage.eraseNamespace s ns = (false, rejected))
  /\ (forall ns k cs, Storage.eraseMultiPageBlob s ns k cs = (false, rejected))
  /\ (forall name canCreate idx,
        Storage.createOrOpenNamespace s name canCreate idx
        = (false, rejected, idx))
  /\ (forall ns dt k n,
        Storage.getItemDataSize s ns dt k n = (false, rejected, n))
  /\ (forall ns, Storage.calcEntriesInNamespace s ns = (false, rejected, O))
  /\ Storage.mPageManager rejected = Storage.mPageManager s
  /\ Storage.mNamespaces rejected = Storage.mNamespaces s
  /\ Storage.mNamespaceUsage rejected = Storage.mNamespaceUsage s
  /\ Storage.mLastError rejected = ESP_ERR_NVS_NOT_INITIALIZED.
Proof.
  intros H rejected.
  repeat split; intros.
  - now apply writeItem_inactive.
  - now apply readItem_inactive.
  - now apply eraseItem_inactive.
  - now apply eraseNamespace_inactive.
  - now apply eraseMultiPageBlob_inactive.
  - now apply createOrOpenNamespace_inactive.
  - now apply getItemDataSize_inactive.
  - now apply calcEntriesInNamespace_inactive.
Qed.

Lemma not_initialized_guard_witness :
  State.eqb (Storage.mState unmounted) State.ACTIVE = false
  /\ Storage.writeItem unmounted 1 U8 "k"%string [7]
     = (false, Storage.setLastError unmounted ESP_ERR_NVS_NOT_INITIALIZED).
Proof.
  split; [reflexivity|].
  apply (not_initialized_guard unmounted); reflexivity.
Defined.

(** C7 as stated fails for [fillStats]: on the Storage that was never
    mounted it succeeds and leaves [mLastError] at [ESP_OK]. *)
Lemma fillStats_not_guarded :
  Storage.mState unmounted = State.INVALID
  /\ Storage.fillStats unmounted (mkStats 0 0 0 0)
     = (true, Storage.setLastError unmounted ESP_OK, mkStats 0 252 252 0)
  /\ ~ (fst (fst (Storage.fillStats unmounted (mkStats 0 0 0 0))) = false
        /\ Storage.mLastError
             (snd (fst (Storage.fillStats unmounted (mkStats 0 0 0 0))))
           = ESP_ERR_NVS_NOT_INITIALIZED).
Proof.
  split; [reflexivity|]. split; [reflexivity|].
  intros [H _]. vm_compute in H. discriminate.
Qed.

(** ** The iterator (C8) *)

Lemma nextInPage_yield fuel p it it' :
  Storage.ItemIterator.nextInPage fuel p it = (true, it') ->
  exists found,
    Storage.ItemIterator.item it' = Some found
    /\ Storage.ItemIterator.isIterableItem it' found = true
    /\ Storage.ItemIterator.isMultipageBlob found = false
    /\ Storage.ItemIterator.nsIndex it' = Storage.ItemIterator.nsIndex it.
Proof.
  revert it. induction fuel as [|fuel IH]; intros it; simpl; [discriminate|].
  destruct (Page.findItem p _ _ _ _ _ _) as [[e i] [found|]] eqn:F.
  2: { destruct e; discriminate. }
  destruct e; try discriminate.
  match goal with
  | |- context [if ?c then _ else _] => destruct c eqn:C
  end.
  - intros H. injection H as <-. exists found. simpl.
    apply andb_true_iff in C as [C1 C2]. apply negb_true_iff in C2.
    repeat split; assumption.
  - intros H. apply IH in H as (f & H1 & H2 & H3 & H4).
    exists f. repeat split; assumption.
Qed.

Lemma nextInPage_nsIndex fuel p it b it' :
  Storage.ItemIterator.nextInPage fuel p it = (b, it') ->
  Storage.ItemIterator.nsIndex it' = Storage.ItemIterator.nsIndex it.
Proof.
  revert it. induction fuel as [|fuel IH]; intros it; simpl.
  - intros H. now injection H as _ <-.
  - destruct (Page.findItem p _ _ _ _ _ _) as [[e i] [found|]].
    2: { destruct e; intros H; now injection H as _ <-. }
    destruct e; try (intros H; now injection H as _ <-).
    match goal with
    | |- context [if ?c then _ else _] => destruct c
    end.
    + intros H. now injection H as _ <-.
    + intros H. now apply IH in H.
Qed.

Lemma nextFrom_yield s l it it' :
  Storage.ItemIterator.nextFrom s l it = (true, it') ->
  exists found,
    Storage.ItemIterator.item it' = Some found
    /\ Storage.ItemIterator.isIterableItem it' found = true
    /\ Storage.ItemIterator.isMultipageBlob found = false
    /\ Storage.ItemIterator.nsIndex it' = Storage.ItemIterator.nsIndex it.
Proof.
  revert it.
  induction l as [|pg rest IH]; intros it;
    cbn [Storage.ItemIterator.nextFrom]; [discriminate|].
  destruct (Storage.ItemIterator.nextInPage _ _ _) as [[|] it1] eqn:N.
  - intros H. injection H as <-. now apply nextInPage_yield in N.
  - intros H. apply IH in H as (f & H1 & H2 & H3 & H4). simpl in H4.
    exists f. repeat split; try assumption.
    rewrite H4. now apply nextInPage_nsIndex in N.
Qed.

(** What the items that [next] yields have in common: the namespace
    {e filter} of the iterator is not 0, the item is neither a BLOB nor a
    BLOB_IDX, and a BLOB_DATA item has the chunk index of a version offset.
    Nothing is said of the namespace index of the item itself. *)
Lemma next_yield s it it' :
  Storage.ItemIterator.next s it = (true, it') ->
  exists found,
    Storage.ItemIterator.item it' = Some found
    /\ Storage.ItemIterator.nsIndex it' <> 0
    /\ datatype found <> BLOB /\ datatype found <> BLOB_IDX
    /\ (datatype found = BLOB_DATA ->
        chunkIndex found = VER_0_OFFSET \/ chunkIndex found = VER_1_OFFSET).
Proof.
  unfold Storage.ItemIterator.next.
  destruct (negb _); [discriminate|].
  intros H. apply nextFrom_yield in H as (f & H1 & H2 & H3 & _).
  exists f. split; [assumption|].
  unfold Storage.ItemIterator.isIterableItem in H2.
  apply andb_true_iff in H2 as [H2 Hc]. apply andb_true_iff in H2 as [Ha Hb].
  apply negb_true_iff in Ha, Hb, Hc.
  repeat split.
  - intros E. rewrite E in Ha. discriminate.
  - intros E. rewrite E in Hb. discriminate.
  - intros E. rewrite E in Hc. discriminate.
  - intros E. unfold Storage.ItemIterator.isMultipageBlob in H3.
    rewrite E in H3. simpl in H3.
    destruct (chunkIndex f =? uint8_t VER_0_OFFSET) eqn:V0.
    + left. now apply Z.eqb_eq in V0.
    + right. simpl in H3. apply negb_false_iff in H3. now apply Z.eqb_eq in H3.
Qed.

(** C8 at the failing input: on the storage with the namespace "cfg" and
    one item in it, the iterator of [findEntry(nullptr, ANY)] first yields
    the item of namespace 0 that persists the namespace. *)
Theorem iterator_yields_namespace_entry :
  let '(it, s) := Storage.findEntry withItem None ANY in
  exists it',
    Storage.ItemIterator.next s it = (true, it')
    /\ Storage.ItemIterator.item it' = Some cfgEntry
    /\ nsIndex cfgEntry = 0.
Proof.
  simpl. eexists. split; [vm_compute; reflexivity|]. split; reflexivity.
Qed.

(** ** Operations on pages leave the namespace table alone *)

Lemma sameTables_refl s : sameTables s s.
Proof. repeat split. Qed.

Lemma sameTables_trans s1 s2 s3 :
  sameTables s1 s2 -> sameTables s2 s3 -> sameTables s1 s3.
Proof.
  intros (A1 & A2 & A3 & A4) (B1 & B2 & B3 & B4).
  repeat split; congruence.
Qed.

Lemma sameTables_setLastError s e : sameTables s (Storage.setLastError s e).
Proof. repeat split. Qed.

Lemma sameTables_setPage s i p : sameTables s (Storage.setPage s i p).
Proof. repeat split. Qed.

Lemma sameTables_setPageManager s pm : sameTables s (Storage.setPageManager s pm).
Proof. repeat split. Qed.

Lemma findItem_tables s ns dt k ci cs ok s' r :
  Storage.findItem s ns dt k ci cs = (ok, s', r) -> sameTables s s'.
Proof.
  unfold Storage.findItem.
  destruct (Storage.findItemIn _ _ _ _ _ _ _); intros H; injection H as _ <- _;
    repeat split.
Qed.

Lemma markFullIfNeeded_tables s pg ok s' :
  Storage.markFullIfNeeded s pg = (ok, s') -> sameTables s s'.
Proof.
  unfold Storage.markFullIfNeeded.
  destruct (negb _).
  - destruct (Page.markFull _) as [err p']. intros H. injection H as _ <-.
    repeat split.
  - intros H. injection H as _ <-. repeat split.
Qed.

Lemma requestNewPage_tables s ok s' :
  Storage.requestNewPage s = (ok, s') -> sameTables s s'.
Proof.
  unfold Storage.requestNewPage.
  destruct (PageManager.requestNewPage _) as [err pm].
  intros H. injection H as _ <-. repeat split.
Qed.

Lemma pageWriteItem_tables s pg ns dt k d :
  sameTables s (Storage.pageWriteItem s pg ns dt k d).
Proof.
  unfold Storage.pageWriteItem.
  destruct (Page.writeItem _ _ _ _ _ _) as [err p']. repeat split.
Qed.

Lemma refind_tables s ns dt k found s' r :
  Storage.refind s ns dt k found = (s', r) -> sameTables s s'.
Proof.
  unfold Storage.refind.
  destruct (_ || _).
  - destruct (Storage.findItem _ _ _ _ _ _) as [[ok s1] [r1|]] eqn:F;
      intros H; injection H as <- _; eapply findItem_tables; eassumption.
  - intros H. injection H as <- _. repeat split.
Qed.

Lemma eraseFound_tables s ns dt k fp ok s' :
  Storage.eraseFound s ns dt k fp = (ok, s') -> sameTables s s'.
Proof.
  unfold Storage.eraseFound.
  destruct fp as [found|].
  - destruct (Storage.refind _ _ _ _ _) as [s1 [fp it]] eqn:R.
    apply refind_tables in R.
    destruct (Page.eraseItem _ _ _ _ _ _) as [err p'].
    destruct (negb _); intros H; injection H as _ <-;
      (eapply sameTables_trans; [exact R|]); repeat split.
  - intros H. injection H as _ <-. repeat split.
Qed.

Lemma eraseChunks_tables n s ns k cs cn ok s' :
  Storage.eraseChunks n s ns k cs cn = (ok, s') -> sameTables s s'.
Proof.
  revert s cn. induction n as [|n IH]; intros s cn; simpl.
  - intros H. injection H as _ <-. repeat split.
  - destruct (Storage.findItem _ _ _ _ _ _) as [[found s1] r] eqn:F.
    apply findItem_tables in F.
    assert (Hmiss :
      (if negb (esp_err_eqb (Storage.mLastError s1) ESP_ERR_NVS_NOT_FOUND)
       then (false, s1)
       else Storage.eraseChunks n s1 ns k cs (cn + 1)) = (ok, s') ->
      sameTables s s').
    { destruct (negb _); intros H.
      - injection H as _ <-. exact F.
      - apply IH in H. eapply sameTables_trans; eassumption. }
    destruct found; [|exact Hmiss].
    destruct r as [[fp it]|]; [|exact Hmiss].
    clear Hmiss.
    destruct (Page.eraseItem _ _ _ _ _ _) as [err p'].
    destruct (negb _); intros H.
    + injection H as _ <-. eapply sameTables_trans; [exact F|]. repeat split.
    + apply IH in H. eapply sameTables_trans; [exact F|].
      eapply sameTables_trans; [|exact H]. repeat split.
Qed.

Lemma eraseMultiPageBlob_tables s ns k cs ok s' :
  Storage.eraseMultiPageBlob s ns k cs = (ok, s') -> sameTables s s'.
Proof.
  unfold Storage.eraseMultiPageBlob.
  destruct (Storage.notActive s).
  { intros H. injection H as _ <-. repeat split. }
  destruct (Storage.findItem _ _ _ _ _ _) as [[found s1] r] eqn:F.
  apply findItem_tables in F.
  destruct found; [|intros H; injection H as _ <-; exact F].
  destruct r as [[fp it]|]; [|intros H; injection H as _ <-; exact F].
  destruct (Page.eraseItem _ _ _ _ _ _) as [err p'].
  destruct (negb _); intros H.
  - injection H as _ <-. eapply sameTables_trans; [exact F|]. repeat split.
  - apply eraseChunks_tables in H. eapply sameTables_trans; [exact F|].
    eapply sameTables_trans; [|exact H]. repeat split.
Qed.

Lemma cmpChunks_tables n s ns k d cs cn off ok s' :
  Storage.cmpChunks n s ns k d cs cn off = (ok, s') -> sameTables s s'.
Proof.
  revert s cn off. induction n as [|n IH]; intros s cn off; simpl.
  - intros H. injection H as _ <-. repeat split.
  - destruct (Storage.findItem _ _ _ _ _ _) as [[found s1] r] eqn:F.
    apply findItem_tables in F.
    destruct found; [|intros H; injection H as _ <-; exact F].
    destruct r as [[fp it]|]; [|intros H; injection H as _ <-; exact F].
    destruct (negb _); intros H.
    + injection H as _ <-. eapply sameTables_trans; [exact F|]. repeat split.
    + apply IH in H. eapply sameTables_trans; [exact F|].
      eapply sameTables_trans; [|exact H]. repeat split.
Qed.

Lemma cmpMultiPageBlob_tables s ns k d ok s' :
  Storage.cmpMultiPageBlob s ns k d = (ok, s') -> sameTables s s'.
Proof.
  unfold Storage.cmpMultiPageBlob.
  destruct (Storage.findItem _ _ _ _ _ _) as [[found s1] r] eqn:F.
  apply findItem_tables in F.
  destruct found; [|intros H; injection H as _ <-; exact F].
  destruct r as [[fp it]|]; [|intros H; injection H as _ <-; exact F].
  destruct (negb _); intros H.
  - injection H as _ <-. eapply sameTables_trans; [exact F|]. repeat split.
  - apply cmpChunks_tables in H. eapply sameTables_trans; eassumption.
Qed.

Lemma rollback_tables l s ns k ii : sameTables s (Storage.rollback l s ns k ii).
Proof.
  revert s ii. induction l as [|pg rest IH]; intros s ii; simpl.
  - repeat split.
  - destruct (Page.eraseItem _ _ _ _ _ _) as [err p'].
    eapply sameTables_trans; [|apply IH]. repeat split.
Qed.

Lemma writeLoop_tables fuel s ns k d cs cc used rem off ret s' used' :
  Storage.writeLoop fuel s ns k d cs cc used rem off = Some (ret, s', used') ->
  sameTables s s'.
Proof.
  revert s cc used rem off.
  induction fuel as [|fuel IH]; intros s cc used rem off; simpl; [discriminate|].
  destruct (_ && _ && _).
  { destruct (Storage.markFullIfNeeded _ _) as [ok1 s1] eqn:M.
    apply markFullIfNeeded_tables in M.
    destruct ok1; simpl; [|intros H; injection H as _ <- _; exact M].
    destruct (Storage.requestNewPage s1) as [ok2 s2] eqn:R.
    apply requestNewPage_tables in R.
    assert (T : sameTables s s2) by (eapply sameTables_trans; eassumption).
    destruct ok2; simpl; [|intros H; injection H as _ <- _; exact T].
    destruct (_ =? _).
    - intros H; injection H as _ <- _.
      eapply sameTables_trans; [exact T|]. repeat split.
    - intros H. apply IH in H. eapply sameTables_trans; eassumption. }
  destruct (_ =? 0).
  { intros H; injection H as _ <- _. repeat split. }
  destruct (Page.writeItem _ _ _ _ _ _) as [err p'].
  set (s1 := Storage.setLastError (Storage.setPage s _ p') err).
  assert (T1 : sameTables s s1) by repeat split.
  destruct (negb (esp_err_eqb err ESP_OK)).
  { intros H; injection H as _ <- _. exact T1. }
  match goal with
  | |- context [let '(ok, s2) := ?c in _] => destruct c as [ok2 s2] eqn:C
  end.
  assert (T2 : sameTables s s2).
  { destruct (_ || _).
    - destruct (Storage.markFullIfNeeded _ _) as [ok1 s1'] eqn:M.
      apply markFullIfNeeded_tables in M.
      destruct ok1; simpl in C.
      + apply requestNewPage_tables in C.
        eapply sameTables_trans; [exact T1|].
        eapply sameTables_trans; eassumption.
      + injection C as _ <-. exact (sameTables_trans _ _ _ T1 M).
    - injection C as _ <-. exact T1. }
  destruct ok2; simpl; [|intros H; injection H as _ <- _; exact T2].
  destruct (Nat.eqb _ 0).
  - destruct (Page.writeItem _ _ _ _ _ _) as [err2 p2].
    intros H; injection H as _ <- _.
    eapply sameTables_trans; [exact T2|]. repeat split.
  - intros H. apply IH in H. eapply sameTables_trans; eassumption.
Qed.

Lemma writeMultiPageBlob_tables s ns k d cs ok s' :
  Storage.writeMultiPageBlob s ns k d cs = (ok, s') -> sameTables s s'.
Proof.
  unfold Storage.writeMultiPageBlob.
  destruct (_ <? _).
  { intros H; injection H as _ <-. repeat split. }
  destruct (Storage.writeLoop _ _ _ _ _ _ _ _ _ _) as [[[ret s1] used]|] eqn:L.
  2: { intros H; injection H as _ <-. repeat split. }
  apply writeLoop_tables in L.
  destruct ret; [intros H; injection H as _ <-; exact L|].
  destruct (negb _); intros H; injection H as _ <-; [|exact L].
  eapply sameTables_trans; [exact L|]. apply rollback_tables.
Qed.

Lemma writeItem_tables s ns dt k d ok s' :
  Storage.writeItem s ns dt k d = (ok, s') -> sameTables s s'.
Proof.
  unfold Storage.writeItem.
  destruct (Storage.notActive s).
  { intros H; injection H as _ <-. repeat split. }
  destruct (Storage.findItem _ _ _ _ _ _) as [[found s1] fp] eqn:F.
  apply findItem_tables in F.
  destruct (_ && _).
  { intros H; injection H as _ <-. exact F. }
  assert (W : forall sa cs okb sb,
             sameTables s sa ->
             Storage.writeMultiPageBlob sa ns k d cs = (okb, sb) ->
             sameTables s
               (if esp_err_eqb (Storage.mLastError sb) ESP_ERR_NVS_PAGE_FULL
                then Storage.setLastError sb ESP_ERR_NVS_NOT_ENOUGH_SPACE
                else sb)).
  { intros sa cs okb sb Ta Hw. apply writeMultiPageBlob_tables in Hw.
    destruct (esp_err_eqb _ _).
    - eapply sameTables_trans; [exact Ta|].
      eapply sameTables_trans; [exact Hw|]. repeat split.
    - eapply sameTables_trans; eassumption. }
  destruct (ItemType_eqb dt BLOB).
  - destruct fp as [found'|].
    + destruct (Storage.cmpMultiPageBlob _ _ _ _) as [same s2] eqn:C.
      apply cmpMultiPageBlob_tables in C.
      assert (T2 : sameTables s s2) by (eapply sameTables_trans; eassumption).
      destruct same; [intros H; injection H as _ <-; exact T2|].
      destruct (Storage.refind _ _ _ _ _) as [s3 [fp' it]] eqn:R.
      apply refind_tables in R.
      assert (T3 : sameTables s s3) by (eapply sameTables_trans; eassumption).
      destruct (Storage.writeMultiPageBlob _ _ _ _ _) as [ok4 s4] eqn:Wr.
      pose proof (W _ _ _ _ T3 Wr) as T4.
      destruct ok4; simpl; [|intros H; injection H as _ <-; exact T4].
      apply writeMultiPageBlob_tables in Wr.
      destruct (Storage.eraseMultiPageBlob _ _ _ _) as [ok5 s5] eqn:E.
      apply eraseMultiPageBlob_tables in E.
      assert (T5 : sameTables s s5).
      { eapply sameTables_trans; [exact T3|].
        eapply sameTables_trans; eassumption. }
      destruct ok5; simpl; intros H; injection H as _ <-; [|exact T5].
      eapply sameTables_trans; [exact T5|]. repeat split.
    + destruct (Storage.writeMultiPageBlob _ _ _ _ _) as [ok4 s4] eqn:Wr.
      pose proof (W _ _ _ _ F Wr) as T4.
      destruct ok4; simpl; [|intros H; injection H as _ <-; exact T4].
      apply writeMultiPageBlob_tables in Wr.
      destruct (Storage.findItem s4 _ _ _ _ _) as [[ok5 s5] legacy] eqn:F5.
      apply findItem_tables in F5.
      assert (T5 : sameTables s s5).
      { eapply sameTables_trans; [exact F|].
        eapply sameTables_trans; eassumption. }
      destruct (_ && _); [intros H; injection H as _ <-; exact T5|].
      intros H. apply eraseFound_tables in H.
      eapply sameTables_trans; eassumption.
  - destruct (match fp with Some _ => _ | None => _ end).
    { intros H; injection H as _ <-.
      eapply sameTables_trans; [exact F|]. repeat split. }
    pose proof (pageWriteItem_tables s1 (Storage.getCurrentPage s1) ns dt k d)
      as P2.
    set (s2 := Storage.pageWriteItem s1 _ ns dt k d) in *.
    assert (T2 : sameTables s s2) by (eapply sameTables_trans; eassumption).
    destruct (esp_err_eqb (Storage.mLastError s2) ESP_ERR_NVS_PAGE_FULL).
    + destruct (Storage.markFullIfNeeded _ _) as [ok3 s3] eqn:M.
      apply markFullIfNeeded_tables in M.
      assert (T3 : sameTables s s3) by (eapply sameTables_trans; eassumption).
      destruct ok3; simpl; [|intros H; injection H as _ <-; exact T3].
      destruct (Storage.requestNewPage s3) as [ok4 s4] eqn:R.
      apply requestNewPage_tables in R.
      assert (T4 : sameTables s s4) by (eapply sameTables_trans; eassumption).
      destruct ok4; simpl; [|intros H; injection H as _ <-; exact T4].
      pose proof (pageWriteItem_tables s4 (Storage.getCurrentPage s4) ns dt k d)
        as P5.
      set (s5 := Storage.pageWriteItem s4 _ ns dt k d) in *.
      assert (T5 : sameTables s s5) by (eapply sameTables_trans; eassumption).
      destruct (esp_err_eqb (Storage.mLastError s5) ESP_ERR_NVS_PAGE_FULL).
      { intros H; injection H as _ <-.
        eapply sameTables_trans; [exact T5|]. repeat split. }
      destruct (negb _); [intros H; injection H as _ <-; exact T5|].
      intros H. apply eraseFound_tables in H.
      eapply sameTables_trans; eassumption.
    + destruct (negb _); [intros H; injection H as _ <-; exact T2|].
      intros H. apply eraseFound_tables in H.
      eapply sameTables_trans; eassumption.
Qed.

(** ** Namespace creation (C5) *)

Lemma firstFree_spec n usage ns :
  let r := Storage.firstFree n usage ns in
  ns <= r <= ns + Z.of_nat n
  /\ (forall j, ns <= j < r -> Z.testbit usage j = true)
  /\ (r < ns + Z.of_nat n -> Z.testbit usage r = false).
Proof.
  revert ns. induction n as [|n IH]; intros ns; cbn [Storage.firstFree].
  - cbv zeta. repeat split; lia.
  - destruct (Z.testbit usage ns) eqn:B; cbn [negb].
    + destruct (IH (ns + 1)) as (I1 & I2 & I3). cbv zeta.
      repeat split; try lia.
      * intros j Hj. destruct (Z.eq_dec j ns) as [->|]; [assumption|].
        apply I2. lia.
      * intros Hr. apply I3. lia.
    + cbv zeta. repeat split; try lia. intros _. assumption.
Qed.

Lemma firstFree_exhausted usage :
  (forall j, 1 <= j <= 254 -> Z.testbit usage j = true) ->
  Storage.firstFree 254 usage 1 = 255.
Proof.
  intros H. destruct (firstFree_spec 254 usage 1) as (I1 & _ & I3).
  cbv zeta in *.
  destruct (Z.eq_dec (Storage.firstFree 254 usage 1) 255) as [E|N];
    [assumption|].
  rewrite H in I3 by lia. discriminate I3. lia.
Qed.

Lemma firstFree_lowest usage ns :
  1 <= ns <= 254 -> Z.testbit usage ns = false ->
  (forall j, 1 <= j < ns -> Z.testbit usage j = true) ->
  Storage.firstFree 254 usage 1 = ns.
Proof.
  intros R F L. destruct (firstFree_spec 254 usage 1) as (I1 & I2 & I3).
  cbv zeta in *.
  destruct (Z.lt_trichotomy (Storage.firstFree 254 usage 1) ns) as [Lt|[E|Gt]].
  - rewrite L in I3 by lia. discriminate I3. lia.
  - assumption.
  - rewrite I2 in F by lia. discriminate.
Qed.

(** C5, as the code has it.  For a name that is not in the table, with
    [canCreate]: if every index of 1..254 is in use the call fails with
    NOT_ENOUGH_SPACE and nothing is written; otherwise the lowest free index
    [ns] of 1..254 is persisted by [writeItem(NS_INDEX, U8, name, ns)], and
    the call succeeds exactly when that write does: then the bit of [ns] is
    set, the entry is appended to the list and [ns] is returned; a failed
    write is returned as it is, with the error of [writeItem]. *)
Theorem createOrOpenNamespace_new (s : Storage.t) (name : string) (idx0 : Z) :
  Storage.mState s = State.ACTIVE ->
  Storage.findNamespace (Storage.mNamespaces s) name = None ->
  let usage := Storage.mNamespaceUsage s in
  let r := Storage.createOrOpenNamespace s name true idx0 in
  ((forall j, 1 <= j <= 254 -> Z.testbit usage j = true) ->
   r = (false, Storage.setLastError s ESP_ERR_NVS_NOT_ENOUGH_SPACE, idx0))
  /\ (forall ns,
        1 <= ns <= 254 -> Z.testbit usage ns = false ->
        (forall j, 1 <= j < ns -> Z.testbit usage j = true) ->
        match Storage.writeItem s Page.NS_INDEX U8 name [ns] with
        | (true, s1) =>
            exists s2,
              r = (true, s2, ns)
              /\ Storage.mPageManager s2 = Storage.mPageManager s1
              /\ Storage.mNamespaces s2
                 = Storage.mNamespaces s
                   ++ [NamespaceEntry.mk
                         (ItemLayout.truncate ItemLayout.MAX_KEY_LENGTH name)
                         ns]
              /\ Storage.mNamespaceUsage s2 = Z.setbit usage ns
              /\ Z.testbit (Storage.mNamespaceUsage s2) ns = true
              /\ Storage.mLastError s2 = ESP_OK
        | (false, s1) => r = (false, s1, idx0)
        end).
Proof.
  intros A N usage r. subst r. unfold Storage.createOrOpenNamespace.
  rewrite (notActive_false _ A), N. cbn [negb]. split.
  - intros H. fold usage. rewrite (firstFree_exhausted _ H). reflexivity.
  - intros ns R F L. fold usage. rewrite (firstFree_lowest _ _ R F L).
    replace (ns =? 255) with false by (symmetry; apply Z.eqb_neq; lia).
    destruct (Storage.writeItem s Page.NS_INDEX U8 name [ns]) as [ok s1] eqn:W.
    destruct ok; cbn [negb]; [|reflexivity].
    apply writeItem_tables in W. destruct W as (W1 & W2 & _).
    eexists. split; [reflexivity|]. cbn.
    rewrite W1, W2. repeat split.
    apply Z.setbit_eq. lia.
Qed.

Lemma createOrOpenNamespace_new_witness :
  Storage.mState mounted4 = State.ACTIVE
  /\ Storage.findNamespace (Storage.mNamespaces mounted4) "cfg" = None
  /\ exists s2, Storage.createOrOpenNamespace mounted4 "cfg" true 0
                = (true, s2, 1).
Proof.
  split; [reflexivity|]. split; [reflexivity|].
  pose proof (createOrOpenNamespace_new mounted4 "cfg" 0 eq_refl eq_refl) as H.
  cbv zeta in H. destruct H as [_ H].
  specialize (H 1 ltac:(lia) eq_refl ltac:(intros; lia)).
  destruct (Storage.writeItem mounted4 Page.NS_INDEX U8 "cfg" [1]) as [[|] s1];
    [|exfalso; vm_compute in H; discriminate].
  destruct H as (s2 & H & _). exists s2. exact H.
Defined.

(** C5 as stated fails: on the partition without room left the call fails
    with NOT_ENOUGH_SPACE although the indices from 2 on are free. *)
Lemma createOrOpenNamespace_flash_full :
  Storage.mState fullFlash = State.ACTIVE
  /\ Storage.findNamespace (Storage.mNamespaces fullFlash) "more" = None
  /\ Z.testbit (Storage.mNamespaceUsage fullFlash) 2 = false
  /\ fst (fst (Storage.createOrOpenNamespace fullFlash "more" true 0)) = false
  /\ Storage.mLastError
       (snd (fst (Storage.createOrOpenNamespace fullFlash "more" true 0)))
     = ESP_ERR_NVS_NOT_ENOUGH_SPACE.
Proof. vm_compute. repeat split. Qed.

(** ** What a new page costs: a measure for [requestNewPage] *)

Lemma reclaimable_eq pm :
  PageManager.reclaimable pm
  = (List.length (PageManager.mFreePageList pm)
     + erasedSum pm (PageManager.mPageList pm))%nat.
Proof.
  unfold PageManager.reclaimable. f_equal.
  induction (PageManager.mPageList pm) as [|i l IH]; cbn; [reflexivity|].
  now rewrite IH.
Qed.

Lemma nth_setNth l i p j d :
  nth j (PageManager.setNth l i p) d
  = if (Nat.eqb i j && (i <? List.length l)%nat)%bool then p else nth j l d.
Proof.
  revert i j. induction l as [|x l IH]; intros i j.
  - cbn [PageManager.setNth List.length]. destruct i; rewrite andb_false_r;
      reflexivity.
  - destruct i as [|i]; destruct j as [|j]; cbn [PageManager.setNth nth];
      try reflexivity.
    rewrite IH. cbn [Nat.eqb List.length].
    replace (S i <? S (List.length l))%nat with (i <? List.length l)%nat
      by (destruct (Nat.ltb_spec i (List.length l));
          destruct (Nat.ltb_spec (S i) (S (List.length l))); lia || reflexivity).
    reflexivity.
Qed.

Lemma length_setNth l i p :
  List.length (PageManager.setNth l i p) = List.length l.
Proof.
  revert i. induction l as [|x l IH]; intros i; destruct i; cbn; auto.
Qed.

(** Replacing a page by one with no more erased entries. *)
Lemma erasedAt_setNth_le pm ps i p j :
  PageManager.mPages pm = ps ->
  (PageManager.erasedEntries (Page.entries p) <= erasedAt pm i)%nat ->
  (PageManager.erasedEntries
     (Page.entries (nth j (PageManager.setNth ps i p) Page.erased))
   <= erasedAt pm j)%nat.
Proof.
  intros <- H. rewrite nth_setNth.
  destruct (Nat.eqb_spec i j) as [->|]; cbn [andb]; [|apply Nat.le_refl].
  destruct (_ <? _)%nat; [exact H|apply Nat.le_refl].
Qed.

Lemma erasedSum_le pm pm' l :
  (forall i, (erasedAt pm' i <= erasedAt pm i)%nat) ->
  (erasedSum pm' l <= erasedSum pm l)%nat.
Proof.
  intros H. induction l as [|i l IH]; cbn; [lia|].
  specialize (H i). lia.
Qed.

Lemma erasedSum_app pm l1 l2 :
  erasedSum pm (l1 ++ l2) = (erasedSum pm l1 + erasedSum pm l2)%nat.
Proof. induction l1 as [|i l IH]; cbn; [reflexivity|]. cbn in IH. lia. Qed.

Lemma erasedSum_remove_le pm v l :
  (erasedSum pm (PageManager.remove_nat v l) <= erasedSum pm l)%nat.
Proof.
  unfold PageManager.remove_nat.
  induction l as [|j l IH]; cbn; [lia|].
  destruct (Nat.eqb v j); cbn; lia.
Qed.

Lemma erasedSum_remove pm v l :
  In v l ->
  (erasedSum pm (PageManager.remove_nat v l) + erasedAt pm v
   <= erasedSum pm l)%nat.
Proof.
  pose proof (erasedSum_remove_le pm v) as Q.
  unfold PageManager.remove_nat in *.
  induction l as [|i l IH]; [contradiction|].
  intros [->|H]; cbn.
  - rewrite Nat.eqb_refl. cbn. specialize (Q l). lia.
  - specialize (IH H). destruct (Nat.eqb v i); cbn; lia.
Qed.

Lemma erasedEntries_writtenOnly es :
  PageManager.erasedEntries (PageManager.writtenOnly es) = O.
Proof.
  induction es as [|[st it] es IH]; cbn; [reflexivity|].
  destruct (isWritten st) eqn:W; cbn; [rewrite W|]; assumption.
Qed.

Lemma erasedEntries_snoc_written es it :
  PageManager.erasedEntries (es ++ [(WRITTEN, it)])
  = PageManager.erasedEntries es.
Proof.
  induction es as [|[st x] es IH]; cbn; [reflexivity|]. rewrite IH. reflexivity.
Qed.

Lemma pickVictim_spec pm l best v :
  PageManager.pickVictim pm l best = Some v ->
  (best = Some v \/ In v l)
  /\ ((forall b, best = Some b -> (1 <= erasedAt pm b)%nat) ->
      (1 <= erasedAt pm v)%nat).
Proof.
  revert best. induction l as [|i l IH]; intros best;
    cbn [PageManager.pickVictim].
  - intros ->. split; [now left|]. intros H. now apply H.
  - match goal with
    | |- context [if ?c then _ else _] => set (better := c)
    end.
    intros H. apply IH in H as [H1 H2]. split.
    + destruct H1 as [H1|H1]; [|right; now right].
      destruct better; [injection H1 as ->; right; now left| now left].
    + intros Hb. apply H2. intros b E.
      destruct better eqn:B; [|now apply Hb].
      injection E as <-. subst better.
      apply andb_true_iff in B as [_ B]. unfold erasedAt.
      destruct best as [b0|]; apply Nat.ltb_lt in B; lia.
Qed.

Lemma erasedAt_overflow pm i :
  (List.length (PageManager.mPages pm) <= i)%nat -> erasedAt pm i = O.
Proof.
  intros H. unfold erasedAt, PageManager.page.
  rewrite nth_overflow by assumption. reflexivity.
Qed.

Lemma erasedAt_setPage_le pm i p j :
  (PageManager.erasedEntries (Page.entries p) <= erasedAt pm i)%nat ->
  (erasedAt (PageManager.setPage pm i p) j <= erasedAt pm j)%nat.
Proof.
  intros H. unfold erasedAt at 1. unfold PageManager.page, PageManager.setPage.
  cbn [PageManager.mPages]. now apply erasedAt_setNth_le.
Qed.

Lemma erasedAt_setPage_zero pm i p :
  PageManager.erasedEntries (Page.entries p) = O ->
  erasedAt (PageManager.setPage pm i p) i = O.
Proof.
  intros H. unfold erasedAt, PageManager.page, PageManager.setPage.
  cbn [PageManager.mPages]. rewrite nth_setNth, Nat.eqb_refl. cbn [andb].
  destruct (Nat.ltb_spec i (List.length (PageManager.mPages pm))) as [L|L];
    [assumption|].
  rewrite nth_overflow by assumption. reflexivity.
Qed.

Lemma erasedAt_setPage_same pm i p j :
  PageManager.erasedEntries (Page.entries p) = erasedAt pm i ->
  erasedAt (PageManager.setPage pm i p) j = erasedAt pm j.
Proof.
  intros H. unfold erasedAt at 1. unfold PageManager.page, PageManager.setPage.
  cbn [PageManager.mPages]. rewrite nth_setNth.
  destruct (Nat.eqb_spec i j) as [->|]; cbn [andb]; [|reflexivity].
  destruct (_ <? _)%nat; [exact H|reflexivity].
Qed.

Lemma erasedSum_same pm pm' l :
  (forall i, erasedAt pm' i = erasedAt pm i) -> erasedSum pm' l = erasedSum pm l.
Proof.
  intros H. induction l as [|i l IH]; cbn; [reflexivity|].
  now rewrite H, IH.
Qed.

Lemma reclaimable_setPage_same pm i p :
  PageManager.erasedEntries (Page.entries p) = erasedAt pm i ->
  PageManager.reclaimable (PageManager.setPage pm i p)
  = PageManager.reclaimable pm.
Proof.
  intros H. rewrite !reclaimable_eq. cbn [PageManager.setPage
    PageManager.mFreePageList PageManager.mPageList]. f_equal.
  apply erasedSum_same. intros j. now apply erasedAt_setPage_same.
Qed.

Lemma activatePage_measure pm pm' :
  PageManager.activatePage pm = (ESP_OK, pm') ->
  exists f rest,
    PageManager.mFreePageList pm = f :: rest
    /\ PageManager.mFreePageList pm' = rest
    /\ PageManager.mPageList pm' = PageManager.mPageList pm ++ [f]
    /\ (forall j, (erasedAt pm' j <= erasedAt pm j)%nat)
    /\ erasedAt pm' f = O.
Proof.
  unfold PageManager.activatePage.
  destruct (PageManager.mFreePageList pm) as [|f rest] eqn:F; [discriminate|].
  intros H. injection H as <-. exists f, rest. cbn.
  repeat split.
  - intros j.
    apply (erasedAt_setPage_le pm f (Page.fresh (PageManager.mSeqNumber pm)) j).
    cbn. lia.
  - apply (erasedAt_setPage_zero pm f (Page.fresh (PageManager.mSeqNumber pm))).
    reflexivity.
Qed.

Lemma markFull_entries p : Page.entries (snd (Page.markFull p)) = Page.entries p.
Proof. unfold Page.markFull. destruct (PageState.eqb _ _); reflexivity. Qed.

(** A successful [requestNewPage] uses up a free page or erased entries. *)
Lemma requestNewPage_measure pm pm' :
  PageManager.requestNewPage pm = (ESP_OK, pm') ->
  (PageManager.reclaimable pm' < PageManager.reclaimable pm)%nat.
Proof.
  unfold PageManager.requestNewPage.
  destruct (PageManager.mPageList pm) as [|p0 l0] eqn:L; [discriminate|].
  clear p0 l0 L.
  match goal with
  | |- context [PageManager.activatePage ?x] => set (pm1 := x)
  end.
  assert (R1 : PageManager.reclaimable pm1 = PageManager.reclaimable pm).
  { subst pm1. destruct (PageState.eqb _ _); [|reflexivity].
    apply reclaimable_setPage_same. now rewrite markFull_entries. }
  assert (L1 : PageManager.mPageList pm1 = PageManager.mPageList pm).
  { subst pm1. destruct (PageState.eqb _ _); reflexivity. }
  rewrite <- R1. clearbody pm1. clear R1 L1 pm.
  destruct (2 <=? _)%nat.
  - intros H. apply activatePage_measure in H
      as (f & rest & F & F' & L' & E & Z).
    rewrite !reclaimable_eq, F, F', L', erasedSum_app. cbn. rewrite Z.
    pose proof (erasedSum_le pm1 pm' (PageManager.mPageList pm1) E). lia.
  - destruct (PageManager.pickVictim _ _ _) as [v|] eqn:V; [|discriminate].
    apply pickVictim_spec in V as [[V|V] V1]; [discriminate|].
    specialize (V1 ltac:(discriminate)).
    destruct (PageManager.activatePage pm1) as [e pm2] eqn:A.
    destruct e; try discriminate.
    apply activatePage_measure in A as (f & rest & F & F' & L' & E & Z).
    intros H. injection H as <-.
    match goal with
    | |- context [PageManager.setNth (PageManager.mPages pm2) _ ?c] =>
        set (copied := c)
    end.
    set (pm3 := PageManager.setPage
                  (PageManager.setPage pm2 (PageManager.back pm2) copied) v
                  Page.erased).
    change (PageManager.setNth
              (PageManager.setNth (PageManager.mPages pm2)
                 (PageManager.back pm2) copied) v Page.erased)
      with (PageManager.mPages pm3).
    rewrite !reclaimable_eq. cbn [PageManager.mFreePageList
      PageManager.mPageList].
    rewrite F', F, length_app, L'. cbn [List.length].
    assert (E3 : forall j, (erasedAt pm3 j <= erasedAt pm1 j)%nat).
    { intros j. subst pm3.
      eapply Nat.le_trans; [apply erasedAt_setPage_le; cbn; lia|].
      eapply Nat.le_trans; [apply erasedAt_setPage_le|apply E].
      cbn. rewrite erasedEntries_writtenOnly. lia. }
    match goal with
    | |- (_ + erasedSum ?x ?l < _)%nat =>
        replace (erasedSum x l) with (erasedSum pm3 l)
          by (apply erasedSum_same; reflexivity)
    end.
    assert (V2 : In v (PageManager.mPageList pm1 ++ [f]))
      by (apply in_or_app; now left).
    pose proof (erasedSum_remove pm3 v _ V2) as Q1.
    rewrite erasedSum_app in Q1. cbn in Q1.
    pose proof (erasedSum_le pm1 pm3 (PageManager.mPageList pm1) E3) as Q2.
    assert (Zf : erasedAt pm3 f = O).
    { pose proof (E3 f). 
      assert (erasedAt pm3 f <= erasedAt pm2 f)%nat.
      { subst pm3.
        eapply Nat.le_trans; [apply erasedAt_setPage_le; cbn; lia|].
        apply erasedAt_setPage_le. cbn. rewrite erasedEntries_writtenOnly.
        lia. }
      lia. }
    assert (Zv : erasedAt pm3 v = O).
    { subst pm3. apply erasedAt_setPage_zero. reflexivity. }
    pose proof (erasedSum_remove_le pm3 v (PageManager.mPageList pm1)) as Q3.
    (* the victim is removed from the list with its erased entries *)
    assert (Q4 : (erasedSum pm3
                    (PageManager.remove_nat v (PageManager.mPageList pm1 ++ [f]))
                  + erasedAt pm1 v
                  <= erasedSum pm1 (PageManager.mPageList pm1))%nat).
    { unfold PageManager.remove_nat. rewrite filter_app, erasedSum_app.
      assert (erasedSum pm3 (filter (fun y => negb (Nat.eqb v y)) [f]) = O).
      { cbn. destruct (negb _); cbn; lia. }
      pose proof (erasedSum_le pm1 pm3
                    (PageManager.remove_nat v (PageManager.mPageList pm1)) E3).
      pose proof (erasedSum_remove pm1 v _ V).
      unfold PageManager.remove_nat in *. lia. }
    lia.
Qed.

(** ** The loop of [writeMultiPageBlob] ends *)

Lemma requestNewPage_reclaim s s' :
  Storage.requestNewPage s = (true, s') ->
  (reclaimableOf s' < reclaimableOf s)%nat.
Proof.
  unfold Storage.requestNewPage, reclaimableOf.
  destruct (PageManager.requestNewPage _) as [err pm] eqn:R.
  intros H. injection H as E <-. apply esp_err_eqb_eq in E. subst err.
  now apply requestNewPage_measure in R.
Qed.

Lemma markFullIfNeeded_reclaim s pg ok s' :
  Storage.markFullIfNeeded s pg = (ok, s') -> reclaimableOf s' = reclaimableOf s.
Proof.
  unfold Storage.markFullIfNeeded, reclaimableOf.
  destruct (negb _).
  - destruct (Page.markFull _) as [err p'] eqn:M.
    intros H. injection H as _ <-. cbn.
    apply reclaimable_setPage_same.
    change p' with (snd (err, p')). rewrite <- M. now rewrite markFull_entries.
  - intros H. now injection H as _ <-.
Qed.

Lemma writeItem_erased p ns dt k d ci :
  PageManager.erasedEntries (Page.entries (snd (Page.writeItem p ns dt k d ci)))
  = PageManager.erasedEntries (Page.entries p).
Proof.
  unfold Page.writeItem.
  destruct (negb _); [reflexivity|].
  destruct (_ <? _)%nat; [reflexivity|].
  cbn. apply erasedEntries_snoc_written.
Qed.

Lemma pageWrite_reclaim s pg ns dt k d ci err p' :
  Page.writeItem (Storage.page s pg) ns dt k d ci = (err, p') ->
  reclaimableOf (Storage.setLastError (Storage.setPage s pg p') err)
  = reclaimableOf s.
Proof.
  intros W. unfold reclaimableOf. cbn.
  apply reclaimable_setPage_same.
  change p' with (snd (err, p')). rewrite <- W. apply writeItem_erased.
Qed.

Lemma getVarDataTailroom_nonneg p : 0 <= Page.getVarDataTailroom p.
Proof.
  unfold Page.getVarDataTailroom, Page.ENTRY_SIZE.
  destruct (_ <? _)%nat; lia.
Qed.

Lemma writeLoop_fuel fuel s ns k d cs cc used rem off :
  (reclaimableOf s + rem < fuel)%nat ->
  Storage.writeLoop fuel s ns k d cs cc used rem off <> None.
Proof.
  revert s cc used rem off.
  induction fuel as [|fuel IH]; intros s cc used rem off B; [lia|].
  cbn [Storage.writeLoop].
  set (tailroom := Page.getVarDataTailroom _).
  pose proof (getVarDataTailroom_nonneg
                (Storage.page s (Storage.getCurrentPage s))) as T0.
  fold tailroom in T0.
  destruct (_ && _ && _).
  { destruct (Storage.markFullIfNeeded _ _) as [ok1 s1] eqn:M.
    apply markFullIfNeeded_reclaim in M.
    destruct ok1; cbn [negb]; [|discriminate].
    destruct (Storage.requestNewPage s1) as [ok2 s2] eqn:R.
    destruct ok2; cbn [negb]; [|discriminate].
    apply requestNewPage_reclaim in R.
    destruct (_ =? _); [discriminate|].
    apply IH. lia. }
  destruct (tailroom =? 0) eqn:TZ; [discriminate|].
  apply Z.eqb_neq in TZ.
  set (chunkSize := if tailroom <? Z.of_nat rem then Z.to_nat tailroom else rem).
  destruct (Page.writeItem _ _ _ _ _ _) as [err p'] eqn:W.
  apply pageWrite_reclaim in W.
  set (s1 := Storage.setLastError (Storage.setPage s _ p') err) in *.
  destruct (negb (esp_err_eqb err ESP_OK)); [discriminate|].
  destruct (Nat.eqb (rem - chunkSize) 0) eqn:RZ; cbn [negb orb].
  - match goal with
    | |- context [let '(ok, s2) := ?c in _] => destruct c as [ok2 s2]
    end.
    destruct ok2; cbn [negb]; [|discriminate].
    destruct (Page.writeItem _ _ _ _ _ _). discriminate.
  - apply Nat.eqb_neq in RZ.
    destruct (Storage.markFullIfNeeded _ _) as [ok1 s1'] eqn:M.
    apply markFullIfNeeded_reclaim in M.
    destruct ok1; cbn [negb]; [|discriminate].
    destruct (Storage.requestNewPage s1') as [ok2 s2] eqn:R.
    destruct ok2; cbn [negb]; [|discriminate].
    apply requestNewPage_reclaim in R.
    apply IH. lia.
Qed.

(** [writeMultiPageBlob] never runs out of iterations: the case [None] of
    its definition is not reached. *)
Lemma writeLoop_terminates s ns k d cs :
  Storage.writeLoop (Storage.loopFuel s d) s ns k d cs 0 [] (List.length d) O
  <> None.
Proof.
  apply writeLoop_fuel. unfold Storage.loopFuel, reclaimableOf. lia.
Qed.

(** ** The errors that leave the write loop *)

Lemma markFull_error p : loopError (fst (Page.markFull p)) = true.
Proof. unfold Page.markFull. destruct (PageState.eqb _ _); reflexivity. Qed.

Lemma pageWriteItem_error p ns dt k d ci :
  loopError (fst (Page.writeItem p ns dt k d ci)) = true.
Proof.
  unfold Page.writeItem. destruct (negb _); [reflexivity|].
  destruct (_ <? _)%nat; reflexivity.
Qed.

Lemma activatePage_error pm : loopError (fst (PageManager.activatePage pm)) = true.
Proof.
  unfold PageManager.activatePage.
  destruct (PageManager.mFreePageList pm); reflexivity.
Qed.

Lemma pm_requestNewPage_error pm :
  loopError (fst (PageManager.requestNewPage pm)) = true.
Proof.
  unfold PageManager.requestNewPage.
  destruct (PageManager.mPageList pm); [reflexivity|].
  destruct (2 <=? _)%nat; [apply activatePage_error|].
  destruct (PageManager.pickVictim _ _ _); [|reflexivity].
  match goal with
  | |- context [PageManager.activatePage ?x] =>
      pose proof (activatePage_error x) as A;
      destruct (PageManager.activatePage x) as [e pm2]
  end.
  destruct e; cbn in *; congruence.
Qed.

(** After [markFullIfNeeded] failed, [mLastError] is an error of the
    loop and not [ESP_OK]. *)
Lemma markFullIfNeeded_error s pg s' :
  Storage.markFullIfNeeded s pg = (false, s') ->
  loopError (Storage.mLastError s') = true /\ Storage.mLastError s' <> ESP_OK.
Proof.
  unfold Storage.markFullIfNeeded.
  destruct (negb _); [|discriminate].
  pose proof (markFull_error (Storage.page s pg)) as M.
  destruct (Page.markFull _) as [err p']. cbn in M.
  intros H. injection H as E <-. cbn. split; [assumption|].
  intros ->. discriminate.
Qed.

Lemma requestNewPage_error s ok s' :
  Storage.requestNewPage s = (ok, s') ->
  loopError (Storage.mLastError s') = true
  /\ (ok = true <-> Storage.mLastError s' = ESP_OK).
Proof.
  unfold Storage.requestNewPage.
  pose proof (pm_requestNewPage_error (Storage.mPageManager s)) as M.
  destruct (PageManager.requestNewPage _) as [err pm]. cbn in M.
  intros H. injection H as <- <-. cbn. split; [assumption|].
  apply esp_err_eqb_eq.
Qed.

Lemma writeLoop_error fuel s ns k d cs cc used rem off ret s' used' :
  Storage.writeLoop fuel s ns k d cs cc used rem off = Some (ret, s', used') ->
  loopError (Storage.mLastError s') = true
  /\ (ret = true -> Storage.mLastError s' <> ESP_OK).
Proof.
  revert s cc used rem off.
  induction fuel as [|fuel IH]; intros s cc used rem off; [discriminate|].
  cbn [Storage.writeLoop].
  destruct (_ && _ && _).
  { destruct (Storage.markFullIfNeeded _ _) as [ok1 s1] eqn:M.
    destruct ok1; cbn [negb].
    2: { intros H. injection H as <- <- _. apply markFullIfNeeded_error in M.
         tauto. }
    destruct (Storage.requestNewPage s1) as [ok2 s2] eqn:R.
    apply requestNewPage_error in R as [R1 R2].
    destruct ok2; cbn [negb].
    2: { intros H. injection H as <- <- _. split; [assumption|].
         intros _ E. apply R2 in E. discriminate. }
    destruct (_ =? _).
    - intros H. injection H as <- <- _. cbn. split; [reflexivity|].
      discriminate.
    - apply IH. }
  destruct (_ =? 0).
  { intros H. injection H as <- <- _. cbn. split; [reflexivity|discriminate]. }
  match goal with
  | |- context [Page.writeItem ?p ?a ?b ?c ?e ?f] =>
      pose proof (pageWriteItem_error p a b c e f) as W;
      destruct (Page.writeItem p a b c e f) as [err p']
  end.
  cbn in W.
  destruct (negb (esp_err_eqb err ESP_OK)).
  { intros H. injection H as <- <- _. cbn. split; [assumption|discriminate]. }
  match goal with
  | |- context [let '(ok, s2) := ?c in _] => destruct c as [ok2 s2] eqn:C
  end.
  destruct ok2; cbn [negb].
  2: { intros H. injection H as <- <- _. split; [|discriminate].
       destruct (_ || _); [|discriminate].
       destruct (Storage.markFullIfNeeded _ _) as [ok1 s1'] eqn:M.
       destruct ok1; cbn [negb] in C.
       - now apply requestNewPage_error in C as [C1 _].
       - injection C as <-. now apply markFullIfNeeded_error in M as [M1 _]. }
  destruct (Nat.eqb _ 0).
  - match goal with
    | |- context [Page.writeItem ?p ?a ?b ?c ?e ?f] =>
        pose proof (pageWriteItem_error p a b c e f) as W2;
        destruct (Page.writeItem p a b c e f) as [err2 p2]
    end.
    intros H. injection H as <- <- _. cbn. split; [assumption|discriminate].
  - apply IH.
Qed.

Lemma rollback_lastError l s ns k ii :
  Storage.mLastError (Storage.rollback l s ns k ii) = Storage.mLastError s.
Proof.
  revert s ii. induction l as [|pg rest IH]; intros s ii; cbn; [reflexivity|].
  destruct (Page.eraseItem _ _ _ _ _ _) as [err p']. now rewrite IH.
Qed.

(** Once the length check has passed, [writeMultiPageBlob] ends with an
    error of the loop, and it succeeds exactly when that is [ESP_OK]. *)
Lemma writeMultiPageBlob_error s ns k d cs ok s' :
  Z.of_nat (List.length d) <= Storage.max_pages s * Page.CHUNK_MAX_SIZE ->
  Storage.writeMultiPageBlob s ns k d cs = (ok, s') ->
  loopError (Storage.mLastError s') = true
  /\ (ok = true <-> Storage.mLastError s' = ESP_OK).
Proof.
  intros B. unfold Storage.writeMultiPageBlob.
  destruct (Z.ltb_spec (Storage.max_pages s * Page.CHUNK_MAX_SIZE)
                       (Z.of_nat (List.length d))) as [L|_]; [lia|].
  pose proof (writeLoop_terminates s ns k d cs) as T.
  destruct (Storage.writeLoop _ _ _ _ _ _ _ _ _ _) as [[[ret s1] used]|] eqn:L;
    [|congruence].
  apply writeLoop_error in L as [L1 L2].
  destruct ret.
  - intros H. injection H as <- <-. split; [assumption|].
    split; [discriminate|]. intros E. now apply L2 in E.
  - destruct (esp_err_eqb (Storage.mLastError s1) ESP_OK) eqn:E; cbn [negb];
      intros H; injection H as <- <-.
    + split; [assumption|]. apply esp_err_eqb_eq in E. tauto.
    + rewrite rollback_lastError. split; [assumption|].
      split; [discriminate|]. intros E'. rewrite E' in E. discriminate.
Qed.

(** ** The length check of [writeMultiPageBlob] (C6) *)

(** C6.  [max_pages] is the minimum of [pageCount - 1] (unsigned) and
    [(CHUNK_ANY - 1) / 2 = 127]; a blob longer than
    [max_pages * CHUNK_MAX_SIZE] is refused with VALUE_TOO_LONG and the
    Storage is left as it was but for [mLastError]; a blob of at most that
    length passes the check, and whatever [writeMultiPageBlob] then ends
    with is not VALUE_TOO_LONG. *)
Theorem writeMultiPageBlob_length_check (s : Storage.t) (ns : Z) (k : string)
        (d : list Z) (cs : VerOffset) :
  let pageCount := PageManager.getPageCount (Storage.mPageManager s) in
  let dataSize := Z.of_nat (List.length d) in
  Storage.max_pages s
  = Z.min (uint32_t (pageCount - 1)) ((Page.CHUNK_ANY - 1) / 2)
  /\ (1 <= pageCount < 2 ^ 32 ->
      Storage.max_pages s = Z.min (pageCount - 1) 127)
  /\ (Storage.max_pages s * Page.CHUNK_MAX_SIZE < dataSize ->
      Storage.writeMultiPageBlob s ns k d cs
      = (false, Storage.setLastError s ESP_ERR_NVS_VALUE_TOO_LONG))
  /\ (dataSize <= Storage.max_pages s * Page.CHUNK_MAX_SIZE ->
      Storage.mLastError (snd (Storage.writeMultiPageBlob s ns k d cs))
      <> ESP_ERR_NVS_VALUE_TOO_LONG).
Proof.
  intros pageCount dataSize. split; [reflexivity|]. split; [|split].
  - intros R. unfold Storage.max_pages, uint32_t. fold pageCount.
    rewrite Z.mod_small by lia. reflexivity.
  - intros L. unfold Storage.writeMultiPageBlob. fold dataSize.
    apply Z.ltb_lt in L. now rewrite L.
  - intros B.
    destruct (Storage.writeMultiPageBlob s ns k d cs) as [ok s'] eqn:W.
    apply writeMultiPageBlob_error in W as [W _]; [|exact B].
    cbn. intros E. rewrite E in W. discriminate.
Qed.

(** ** PAGE_FULL stays inside (C3) *)

Lemma surfaced_set s e :
  e <> ESP_ERR_NVS_PAGE_FULL -> surfaced (Storage.setLastError s e).
Proof. intros H. exact H. Qed.

Lemma page_eraseItem_error p ns dt k ci cs :
  fst (Page.eraseItem p ns dt k ci cs) <> ESP_ERR_NVS_PAGE_FULL.
Proof. unfold Page.eraseItem. destruct (Page.eraseFirst _ _); discriminate. Qed.

Lemma page_cmpItem_error p ns dt k d ci :
  Page.cmpItem p ns dt k d ci <> ESP_ERR_NVS_PAGE_FULL.
Proof.
  unfold Page.cmpItem. destruct (Page.scan _ _ _ _) as [[i it]|];
    [destruct (Page.bytes_eqb _ _)|]; discriminate.
Qed.

Lemma page_readItem_error p ns dt k n ci :
  fst (Page.readItem p ns dt k n ci) <> ESP_ERR_NVS_PAGE_FULL.
Proof.
  unfold Page.readItem. destruct (Page.scan _ _ _ _) as [[i it]|];
    [destruct (_ =? _)|]; discriminate.
Qed.

Lemma page_markFull_error p : fst (Page.markFull p) <> ESP_ERR_NVS_PAGE_FULL.
Proof. unfold Page.markFull. destruct (PageState.eqb _ _); discriminate. Qed.

Lemma pm_activatePage_not_full pm :
  fst (PageManager.activatePage pm) <> ESP_ERR_NVS_PAGE_FULL.
Proof.
  unfold PageManager.activatePage.
  destruct (PageManager.mFreePageList pm); discriminate.
Qed.

Lemma pm_requestNewPage_not_full pm :
  fst (PageManager.requestNewPage pm) <> ESP_ERR_NVS_PAGE_FULL.
Proof.
  unfold PageManager.requestNewPage.
  destruct (PageManager.mPageList pm); [discriminate|].
  destruct (2 <=? _)%nat; [apply pm_activatePage_not_full|].
  destruct (PageManager.pickVictim _ _ _); [|discriminate].
  match goal with
  | |- context [PageManager.activatePage ?x] =>
      pose proof (pm_activatePage_not_full x) as A;
      destruct (PageManager.activatePage x) as [e pm2]
  end.
  destruct e; cbn in *; congruence.
Qed.

Lemma pm_load_error part :
  fst (PageManager.load part) <> ESP_ERR_NVS_PAGE_FULL.
Proof.
  unfold PageManager.load. destruct (_ <? _)%nat; [discriminate|].
  destruct (PageManager.classify _ _ _) as [used free].
  destruct (match used with [] => false | _ :: _ => _ end); [discriminate|].
  destruct (PageManager.activatePage _) as [e pm']. destruct e; discriminate.
Qed.

Lemma findItem_surfaced s ns dt k ci cs ok s' r :
  Storage.findItem s ns dt k ci cs = (ok, s', r) -> surfaced s'.
Proof.
  unfold Storage.findItem.
  destruct (Storage.findItemIn _ _ _ _ _ _ _); intros H; injection H as _ <- _;
    discriminate.
Qed.

Lemma markFullIfNeeded_surfaced s pg ok s' :
  surfaced s -> Storage.markFullIfNeeded s pg = (ok, s') -> surfaced s'.
Proof.
  intros P. unfold Storage.markFullIfNeeded. destruct (negb _).
  - pose proof (page_markFull_error (Storage.page s pg)) as M.
    destruct (Page.markFull _) as [err p']. intros H. injection H as _ <-.
    exact M.
  - intros H. now injection H as _ <-.
Qed.

Lemma markFullIfNeeded_failed_surfaced s pg s' :
  Storage.markFullIfNeeded s pg = (false, s') -> surfaced s'.
Proof.
  unfold Storage.markFullIfNeeded. destruct (negb _); [|discriminate].
  pose proof (page_markFull_error (Storage.page s pg)) as M.
  destruct (Page.markFull _) as [err p']. intros H. injection H as _ <-.
  exact M.
Qed.

Lemma requestNewPage_surfaced s ok s' :
  Storage.requestNewPage s = (ok, s') -> surfaced s'.
Proof.
  unfold Storage.requestNewPage.
  pose proof (pm_requestNewPage_not_full (Storage.mPageManager s)) as M.
  destruct (PageManager.requestNewPage _) as [err pm].
  intros H. injection H as _ <-. exact M.
Qed.

Lemma refind_surfaced s ns dt k found s' r :
  surfaced s -> Storage.refind s ns dt k found = (s', r) -> surfaced s'.
Proof.
  intros P. unfold Storage.refind. destruct (_ || _).
  - destruct (Storage.findItem _ _ _ _ _ _) as [[ok s1] [r1|]] eqn:F;
      intros H; injection H as <- _; eapply findItem_surfaced; eassumption.
  - intros H. now injection H as <- _.
Qed.

Lemma eraseFound_surfaced s ns dt k fp ok s' :
  Storage.eraseFound s ns dt k fp = (ok, s') -> surfaced s'.
Proof.
  unfold Storage.eraseFound. destruct fp as [found|].
  - destruct (Storage.refind _ _ _ _ _) as [s1 [fp it]].
    match goal with
    | |- context [Page.eraseItem ?p ?a ?b ?c ?e ?f] =>
        pose proof (page_eraseItem_error p a b c e f) as E;
        destruct (Page.eraseItem p a b c e f) as [err p']
    end.
    destruct (negb _); intros H; injection H as _ <-; [exact E|discriminate].
  - intros H. injection H as _ <-. discriminate.
Qed.

Lemma eraseChunks_surfaced n s ns k cs cn ok s' :
  Storage.eraseChunks n s ns k cs cn = (ok, s') -> surfaced s'.
Proof.
  revert s cn. induction n as [|n IH]; intros s cn; cbn [Storage.eraseChunks].
  - intros H. injection H as _ <-. discriminate.
  - destruct (Storage.findItem _ _ _ _ _ _) as [[found s1] r] eqn:F.
    apply findItem_surfaced in F.
    assert (Hmiss :
      (if negb (esp_err_eqb (Storage.mLastError s1) ESP_ERR_NVS_NOT_FOUND)
       then (false, s1)
       else Storage.eraseChunks n s1 ns k cs (cn + 1)) = (ok, s') ->
      surfaced s').
    { destruct (negb _); intros H; [now injection H as _ <-|now apply IH in H]. }
    destruct found; [|exact Hmiss].
    destruct r as [[fp it]|]; [|exact Hmiss]. clear Hmiss.
    match goal with
    | |- context [Page.eraseItem ?p ?a ?b ?c ?e ?f] =>
        pose proof (page_eraseItem_error p a b c e f) as E;
        destruct (Page.eraseItem p a b c e f) as [err p']
    end.
    destruct (negb _); intros H; [injection H as _ <-; exact E|now apply IH in H].
Qed.

Lemma eraseMultiPageBlob_surfaced s ns k cs ok s' :
  Storage.eraseMultiPageBlob s ns k cs = (ok, s') -> surfaced s'.
Proof.
  unfold Storage.eraseMultiPageBlob.
  destruct (Storage.notActive s).
  { intros H. injection H as _ <-. discriminate. }
  destruct (Storage.findItem _ _ _ _ _ _) as [[found s1] r] eqn:F.
  apply findItem_surfaced in F.
  destruct found; [|intros H; now injection H as _ <-].
  destruct r as [[fp it]|]; [|intros H; now injection H as _ <-].
  match goal with
  | |- context [Page.eraseItem ?p ?a ?b ?c ?e ?f] =>
      pose proof (page_eraseItem_error p a b c e f) as E;
      destruct (Page.eraseItem p a b c e f) as [err p']
  end.
  destruct (negb _); intros H; [injection H as _ <-; exact E|].
  now apply eraseChunks_surfaced in H.
Qed.

Lemma cmpChunks_surfaced n s ns k d cs cn off ok s' :
  surfaced s -> Storage.cmpChunks n s ns k d cs cn off = (ok, s') -> surfaced s'.
Proof.
  revert s cn off. induction n as [|n IH]; intros s cn off P;
    cbn [Storage.cmpChunks].
  - intros H. now injection H as _ <-.
  - destruct (Storage.findItem _ _ _ _ _ _) as [[found s1] r] eqn:F.
    apply findItem_surfaced in F.
    destruct found; [|intros H; now injection H as _ <-].
    destruct r as [[fp it]|]; [|intros H; now injection H as _ <-].
    match goal with
    | |- context [Page.cmpItem ?p ?a ?b ?c ?e ?f] =>
        pose proof (page_cmpItem_error p a b c e f) as E;
        set (err := Page.cmpItem p a b c e f) in *
    end.
    destruct (negb _); intros H; [injection H as _ <-; exact E|].
    apply IH in H; [assumption|exact E].
Qed.

Lemma cmpMultiPageBlob_surfaced s ns k d ok s' :
  Storage.cmpMultiPageBlob s ns k d = (ok, s') -> surfaced s'.
Proof.
  unfold Storage.cmpMultiPageBlob.
  destruct (Storage.findItem _ _ _ _ _ _) as [[found s1] r] eqn:F.
  apply findItem_surfaced in F.
  destruct found; [|intros H; now injection H as _ <-].
  destruct r as [[fp it]|]; [|intros H; now injection H as _ <-].
  destruct (negb _); intros H; [injection H as _ <-; discriminate|].
  now apply cmpChunks_surfaced in H.
Qed.

Lemma converted_surfaced s :
  surfaced (if esp_err_eqb (Storage.mLastError s) ESP_ERR_NVS_PAGE_FULL
            then Storage.setLastError s ESP_ERR_NVS_NOT_ENOUGH_SPACE else s).
Proof.
  destruct (esp_err_eqb _ _) eqn:E; [discriminate|].
  intros H. apply esp_err_eqb_eq in H. congruence.
Qed.

Lemma writeItem_surfaced s ns dt k d ok s' :
  Storage.writeItem s ns dt k d = (ok, s') -> surfaced s'.
Proof.
  unfold Storage.writeItem.
  destruct (Storage.notActive s).
  { intros H; injection H as _ <-. discriminate. }
  destruct (Storage.findItem _ _ _ _ _ _) as [[found s1] fp] eqn:F.
  apply findItem_surfaced in F.
  destruct (_ && _).
  { intros H; now injection H as _ <-. }
  destruct (ItemType_eqb dt BLOB).
  - destruct fp as [found'|].
    + destruct (Storage.cmpMultiPageBlob _ _ _ _) as [same s2] eqn:C.
      apply cmpMultiPageBlob_surfaced in C.
      destruct same; [intros H; now injection H as _ <-|].
      destruct (Storage.refind _ _ _ _ _) as [s3 [fp' it]].
      destruct (Storage.writeMultiPageBlob _ _ _ _ _) as [ok4 s4].
      destruct ok4; cbn [negb];
        [|intros H; injection H as _ <-; apply converted_surfaced].
      destruct (Storage.eraseMultiPageBlob _ _ _ _) as [ok5 s5] eqn:E.
      apply eraseMultiPageBlob_surfaced in E.
      destruct ok5; cbn [negb]; intros H; injection H as _ <-;
        [discriminate|exact E].
    + destruct (Storage.writeMultiPageBlob _ _ _ _ _) as [ok4 s4].
      destruct ok4; cbn [negb];
        [|intros H; injection H as _ <-; apply converted_surfaced].
      destruct (Storage.findItem s4 _ _ _ _ _) as [[ok5 s5] legacy] eqn:F5.
      apply findItem_surfaced in F5.
      destruct (_ && _); [intros H; now injection H as _ <-|].
      apply eraseFound_surfaced.
  - destruct (match fp with Some _ => _ | None => _ end).
    { intros H; injection H as _ <-. discriminate. }
    set (s2 := Storage.pageWriteItem s1 _ ns dt k d).
    destruct (esp_err_eqb (Storage.mLastError s2) ESP_ERR_NVS_PAGE_FULL) eqn:E2.
    + destruct (Storage.markFullIfNeeded _ _) as [ok3 s3] eqn:M.
      destruct ok3; cbn [negb].
      2: { intros H; injection H as _ <-.
           now apply markFullIfNeeded_failed_surfaced in M. }
      destruct (Storage.requestNewPage s3) as [ok4 s4] eqn:R.
      apply requestNewPage_surfaced in R.
      destruct ok4; cbn [negb]; [|intros H; now injection H as _ <-].
      set (s5 := Storage.pageWriteItem s4 _ ns dt k d).
      destruct (esp_err_eqb (Storage.mLastError s5) ESP_ERR_NVS_PAGE_FULL)
        eqn:E5.
      { intros H; injection H as _ <-. discriminate. }
      assert (P5 : surfaced s5).
      { intros X. apply esp_err_eqb_eq in X. congruence. }
      destruct (negb _); [intros H; now injection H as _ <-|].
      apply eraseFound_surfaced.
    + assert (P2 : surfaced s2).
      { intros X. apply esp_err_eqb_eq in X. congruence. }
      destruct (negb _); [intros H; now injection H as _ <-|].
      apply eraseFound_surfaced.
Qed.

Lemma readChunks_surfaced n s ns k cs cn out ret s' out' :
  surfaced s ->
  Storage.readChunks n s ns k cs cn out = (ret, s', out') -> surfaced s'.
Proof.
  revert s cn out. induction n as [|n IH]; intros s cn out P;
    cbn [Storage.readChunks].
  - intros H. now injection H as _ <- _.
  - destruct (Storage.findItem _ _ _ _ _ _) as [[found s1] r] eqn:F.
    apply findItem_surfaced in F.
    assert (Hmiss :
      (if esp_err_eqb (Storage.mLastError s1) ESP_ERR_NVS_NOT_FOUND
       then (false, s1, out) else (true, s1, out)) = (ret, s', out') ->
      surfaced s').
    { destruct (esp_err_eqb _ _); intros H; now injection H as _ <- _. }
    destruct found; [|exact Hmiss].
    destruct r as [[fp it]|]; [|exact Hmiss]. clear Hmiss.
    match goal with
    | |- context [Page.readItem ?p ?a ?b ?c ?e ?f] =>
        pose proof (page_readItem_error p a b c e f) as E;
        destruct (Page.readItem p a b c e f) as [err bytes]
    end.
    destruct (negb _); intros H; [injection H as _ <- _; exact E|].
    apply IH in H; [assumption|exact E].
Qed.

Lemma readMultiPageBlob_surfaced s ns k n ok s' out :
  Storage.readMultiPageBlob s ns k n = (ok, s', out) -> surfaced s'.
Proof.
  unfold Storage.readMultiPageBlob.
  destruct (Storage.findItem _ _ _ _ _ _) as [[found s1] r] eqn:F.
  apply findItem_surfaced in F.
  destruct found; [|intros H; now injection H as _ <- _].
  destruct r as [[fp it]|]; [|intros H; now injection H as _ <- _].
  destruct (Storage.readChunks _ _ _ _ _ _ _) as [[ret s2] out2] eqn:R.
  apply readChunks_surfaced in R; [|assumption].
  destruct ret; [intros H; now injection H as _ <- _|].
  destruct (esp_err_eqb (Storage.mLastError s2) ESP_OK);
    intros H; injection H as _ <- _; [assumption|discriminate].
Qed.

Lemma readFound_surfaced s ns dt k n out ok s' out' :
  Storage.readFound s ns dt k n out = (ok, s', out') -> surfaced s'.
Proof.
  unfold Storage.readFound.
  destruct (Storage.findItem _ _ _ _ _ _) as [[found s1] r] eqn:F.
  apply findItem_surfaced in F.
  destruct found; [|intros H; now injection H as _ <- _].
  destruct r as [[fp it]|]; [|intros H; now injection H as _ <- _].
  match goal with
  | |- context [Page.readItem ?p ?a ?b ?c ?e ?f] =>
      pose proof (page_readItem_error p a b c e f) as E;
      destruct (Page.readItem p a b c e f) as [err bytes]
  end.
  intros H. injection H as _ <- _. exact E.
Qed.

Lemma readItem_surfaced s ns dt k n ok s' out :
  Storage.readItem s ns dt k n = (ok, s', out) -> surfaced s'.
Proof.
  unfold Storage.readItem.
  destruct (Storage.notActive s).
  { intros H; injection H as _ <- _. discriminate. }
  destruct (ItemType_eqb dt BLOB); [|apply readFound_surfaced].
  destruct (Storage.readMultiPageBlob _ _ _ _) as [[ok1 s1] out1] eqn:R.
  apply readMultiPageBlob_surfaced in R.
  destruct ok1; [intros H; now injection H as _ <- _|].
  destruct (negb _); [intros H; now injection H as _ <- _|].
  apply readFound_surfaced.
Qed.

Lemma eraseItem_surfaced s ns dt k ok s' :
  Storage.eraseItem s ns dt k = (ok, s') -> surfaced s'.
Proof.
  unfold Storage.eraseItem.
  destruct (Storage.notActive s).
  { intros H; injection H as _ <-. discriminate. }
  destruct (ItemType_eqb dt BLOB); [apply eraseMultiPageBlob_surfaced|].
  destruct (Storage.findItem _ _ _ _ _ _) as [[found s1] r] eqn:F.
  apply findItem_surfaced in F.
  destruct found; [|intros H; now injection H as _ <-].
  destruct r as [[fp it]|]; [|intros H; now injection H as _ <-].
  destruct (_ || _); [apply eraseMultiPageBlob_surfaced|].
  match goal with
  | |- context [Page.eraseItem ?p ?a ?b ?c ?e ?f] =>
      pose proof (page_eraseItem_error p a b c e f) as E;
      destruct (Page.eraseItem p a b c e f) as [err p']
  end.
  intros H. injection H as _ <-. exact E.
Qed.

Lemma eraseAllOfPage_surfaced fuel s pg ns s' :
  Storage.eraseAllOfPage fuel s pg ns = (false, s') -> surfaced s'.
Proof.
  revert s. induction fuel as [|fuel IH]; intros s;
    cbn [Storage.eraseAllOfPage]; [discriminate|].
  match goal with
  | |- context [Page.eraseItem ?p ?a ?b ?c ?e ?f] =>
      pose proof (page_eraseItem_error p a b c e f) as E;
      destruct (Page.eraseItem p a b c e f) as [err p']
  end.
  destruct (esp_err_eqb err ESP_ERR_NVS_NOT_FOUND); [discriminate|].
  destruct (negb _); [intros H; injection H as <-; exact E|apply IH].
Qed.

Lemma eraseNamespace_surfaced s ns ok s' :
  Storage.eraseNamespace s ns = (ok, s') -> surfaced s'.
Proof.
  unfold Storage.eraseNamespace.
  destruct (Storage.notActive s).
  { intros H; injection H as _ <-. discriminate. }
  generalize (Storage.pageList s) as l. intros l. revert s.
  induction l as [|pg rest IH]; intros s; cbn [Storage.eraseNamespacePages].
  - intros H; injection H as _ <-. discriminate.
  - destruct (Storage.eraseAllOfPage _ _ _ _) as [ok1 s1] eqn:E.
    destruct ok1; cbn [negb]; [apply IH|].
    intros H; injection H as _ <-. now apply eraseAllOfPage_surfaced in E.
Qed.

Lemma createOrOpenNamespace_surfaced s name canCreate idx ok s' idx' :
  Storage.createOrOpenNamespace s name canCreate idx = (ok, s', idx') ->
  surfaced s'.
Proof.
  unfold Storage.createOrOpenNamespace.
  destruct (Storage.notActive s).
  { intros H; injection H as _ <- _. discriminate. }
  destruct (Storage.findNamespace _ _).
  { intros H; injection H as _ <- _. discriminate. }
  destruct (negb canCreate).
  { intros H; injection H as _ <- _. discriminate. }
  destruct (_ =? 255).
  { intros H; injection H as _ <- _. discriminate. }
  destruct (Storage.writeItem _ _ _ _ _) as [ok1 s1] eqn:W.
  apply writeItem_surfaced in W.
  destruct ok1; cbn [negb]; intros H; injection H as _ <- _;
    [discriminate|assumption].
Qed.

Lemma getItemDataSize_surfaced s ns dt k n ok s' n' :
  Storage.getItemDataSize s ns dt k n = (ok, s', n') -> surfaced s'.
Proof.
  unfold Storage.getItemDataSize.
  destruct (Storage.notActive s).
  { intros H; injection H as _ <- _. discriminate. }
  destruct (Storage.findItem s _ _ _ _ _) as [[found s1] r] eqn:F.
  apply findItem_surfaced in F.
  assert (Hmiss :
    (if negb (ItemType_eqb dt BLOB) then (false, s1, n)
     else
       match Storage.findItem s1 ns BLOB_IDX k Page.CHUNK_ANY VER_ANY with
       | (true, s2, Some (_, item)) =>
           (true, s2, ItemLayout.blobIndex_dataSize item)
       | (_, s2, _) => (false, s2, n)
       end) = (ok, s', n') -> surfaced s').
  { destruct (negb _); [intros H; now injection H as _ <- _|].
    destruct (Storage.findItem s1 _ _ _ _ _) as [[found2 s2] r2] eqn:F2.
    apply findItem_surfaced in F2.
    destruct found2; [|intros H; now injection H as _ <- _].
    destruct r2 as [[fp it]|]; intros H; now injection H as _ <- _. }
  destruct found; [|exact Hmiss].
  destruct r as [[fp it]|]; [|exact Hmiss].
  intros H; now injection H as _ <- _.
Qed.

Lemma init_surfaced s ok s' : Storage.init s = (ok, s') -> surfaced s'.
Proof.
  unfold Storage.init.
  destruct (negb (Nat.eqb _ _)).
  { intros H; injection H as _ <-. discriminate. }
  pose proof (pm_load_error (PageManager.mPages (Storage.mPageManager s))) as L.
  destruct (PageManager.load _) as [err pm]. cbn [fst] in L.
  destruct (negb (esp_err_eqb err ESP_OK)).
  { intros H; injection H as _ <-. exact L. }
  destruct (fold_left _ _ _) as [nss usage].
  cbn [Storage.populateBlobIndices negb].
  intros H; injection H as _ <-. discriminate.
Qed.

(** [findItem] fails only with NOT_FOUND: the test
    [mLastError != ESP_ERR_NVS_NOT_FOUND] after a failed [findItem] never
    holds. *)
Lemma findItem_flag s ns dt k ci cs found s1 fp :
  Storage.findItem s ns dt k ci cs = (found, s1, fp) ->
  (negb found
   && negb (esp_err_eqb (Storage.mLastError s1) ESP_ERR_NVS_NOT_FOUND))%bool
  = false.
Proof.
  unfold Storage.findItem.
  destruct (Storage.findItemIn _ _ _ _ _ _ _); intros H; inversion H;
    reflexivity.
Qed.

(** ** What [findItem] finds *)

Lemma findItem_findIn s ns dt k ci cs :
  Storage.findItem s ns dt k ci cs
  = match findIn s ns dt k ci cs with
    | Some r => (true, Storage.setLastError s ESP_OK, Some r)
    | None => (false, Storage.setLastError s ESP_ERR_NVS_NOT_FOUND, None)
    end.
Proof. reflexivity. Qed.

Lemma findIn_setLastError s e ns dt k ci cs :
  findIn (Storage.setLastError s e) ns dt k ci cs = findIn s ns dt k ci cs.
Proof. reflexivity. Qed.

Lemma page_findItem_scan p ns dt k start ci cs :
  Page.findItem p ns dt k start ci cs
  = match Page.scan (Page.entries p) O start (Page.matches ns dt k ci cs) with
    | Some (i, it) => (ESP_OK, i, Some it)
    | None => (ESP_ERR_NVS_NOT_FOUND, start, None)
    end.
Proof. reflexivity. Qed.

Lemma findItemIn_found pm l ns dt k ci cs fp it :
  Storage.findItemIn pm l ns dt k ci cs = Some (fp, it) ->
  In fp l
  /\ exists i,
       Page.scan (Page.entries (PageManager.page pm fp)) O O
                 (Page.matches ns dt k ci cs) = Some (i, it).
Proof.
  induction l as [|pg rest IH]; cbn [Storage.findItemIn]; [discriminate|].
  rewrite page_findItem_scan.
  destruct (Page.scan (Page.entries (PageManager.page pm pg)) _ _ _)
    as [[i it']|] eqn:S; cbv beta iota.
  - intros H. injection H as <- <-. split; [now left|]. now exists i.
  - intros H. apply IH in H as [H1 H2]. split; [now right|assumption].
Qed.

Lemma scan_written es i start f j it :
  Page.scan es i start f = Some (j, it) -> f it = true.
Proof.
  revert i. induction es as [|[st x] es IH]; intros i; cbn [Page.scan];
    [discriminate|].
  destruct (_ && _ && f x) eqn:C.
  - intros H. injection H as _ <-. now apply andb_true_iff in C as [_ C].
  - apply IH.
Qed.

Lemma bytes_eqb_eq a b : Page.bytes_eqb a b = true <-> a = b.
Proof.
  revert b. induction a as [|x a IH]; intros [|y b]; cbn [Page.bytes_eqb].
  - split; reflexivity.
  - split; discriminate.
  - split; discriminate.
  - rewrite andb_true_iff, IH, Z.eqb_eq. split.
    + intros [-> ->]. reflexivity.
    + intros H. injection H as -> ->. split; reflexivity.
Qed.

Lemma slice_middle (pre chunk post : list Z) :
  Storage.slice (pre ++ chunk ++ post) (List.length pre) (List.length chunk)
  = chunk.
Proof.
  unfold Storage.slice.
  rewrite skipn_app, skipn_all, Nat.sub_diag. cbn [skipn app].
  rewrite firstn_app, firstn_all, Nat.sub_diag. cbn [firstn].
  apply app_nil_r.
Qed.

(** ** Write elision (C4) *)

Lemma state_ext (a b : Storage.t) :
  Storage.mPageManager a = Storage.mPageManager b ->
  sameTables b a ->
  Storage.mLastError a = Storage.mLastError b ->
  a = b.
Proof.
  destruct a, b. unfold sameTables. cbn.
  intros H1 (H2 & H3 & H4 & H5) H6. subst. reflexivity.
Qed.

(** Reading a chunk back from the page on which [findItem] found it. *)
Lemma page_readItem_found pm l ns k ci fp it :
  Storage.findItemIn pm l ns BLOB_DATA k ci VER_ANY = Some (fp, it) ->
  Page.readItem (PageManager.page pm fp) ns BLOB_DATA k
                (ItemLayout.varLength_dataSize it) ci
  = (ESP_OK, data it).
Proof.
  intros H. apply findItemIn_found in H as [_ [i H]].
  unfold Page.readItem. rewrite H.
  apply scan_written in H as M. unfold Page.matches in M.
  apply andb_prop in M as [M _]. apply andb_prop in M as [M _].
  apply andb_prop in M as [M _]. apply andb_prop in M as [_ M].
  cbn [ItemType_eqb orb] in M. apply ItemType_eqb_eq in M.
  unfold ItemLayout.varLength_dataSize. rewrite M. now rewrite Z.eqb_refl.
Qed.

Lemma page_cmpItem_found pm l ns dt k ci fp it :
  Storage.findItemIn pm l ns dt k ci VER_ANY = Some (fp, it) ->
  Page.cmpItem (PageManager.page pm fp) ns dt k (data it) ci = ESP_OK.
Proof.
  intros H. apply findItemIn_found in H as [_ [i H]].
  unfold Page.cmpItem. rewrite H.
  now rewrite (proj2 (bytes_eqb_eq (data it) (data it)) eq_refl).
Qed.

Lemma readChunks_chunks n s ns k cs cn out s2 out2 :
  Storage.readChunks n s ns k cs cn out = (false, s2, out2) ->
  Storage.mLastError s2 = ESP_OK ->
  exists chunks,
    List.length chunks = n
    /\ out2 = out ++ List.concat chunks
    /\ chunksStored (Storage.mPageManager s) ns k cs cn chunks.
Proof.
  revert s cn out. induction n as [|n IH]; intros s cn out;
    cbn [Storage.readChunks].
  - intros H _. injection H as _ <-. exists []. cbn. now rewrite app_nil_r.
  - rewrite findItem_findIn.
    destruct (findIn s ns BLOB_DATA k _ VER_ANY) as [[fp it]|] eqn:F.
    + unfold findIn in F. unfold Storage.page. cbn [Storage.mPageManager
        Storage.setLastError].
      rewrite (page_readItem_found _ _ _ _ _ _ _ F). cbn [esp_err_eqb negb].
      intros H E. apply IH in H as (chunks & L & O & C); [|exact E].
      exists (data it :: chunks). cbn [List.length List.concat chunksStored].
      split; [now rewrite L|]. split; [now rewrite O, app_assoc|].
      split; [|exact C]. exists fp, it. split; [exact F|reflexivity].
    + cbn [Storage.mLastError Storage.setLastError esp_err_eqb].
      intros H E. injection H as <- _. discriminate E.
Qed.

Lemma cmpChunks_chunks chunks s ns k cs cn pre post :
  chunksStored (Storage.mPageManager s) ns k cs cn chunks ->
  (chunks = [] -> Storage.mLastError s = ESP_OK) ->
  exists s',
    Storage.cmpChunks (List.length chunks) s ns k
                      (pre ++ List.concat chunks ++ post) cs cn (List.length pre)
    = (true, s')
    /\ Storage.mPageManager s' = Storage.mPageManager s
    /\ sameTables s s'
    /\ Storage.mLastError s' = ESP_OK.
Proof.
  revert s cn pre. induction chunks as [|c rest IH]; intros s cn pre;
    cbn [chunksStored List.length Storage.cmpChunks List.concat].
  - intros _ E. exists s. rewrite (E eq_refl). cbn [esp_err_eqb].
    repeat split.
  - intros [(fp & it & F & D) C] _.
    rewrite findItem_findIn. unfold findIn, Storage.pageList. rewrite F.
    unfold Storage.page. cbn [Storage.mPageManager Storage.setLastError].
    rewrite D.
    replace (pre ++ (c ++ List.concat rest) ++ post)
      with (pre ++ c ++ (List.concat rest ++ post))
      by (now rewrite <- !app_assoc).
    rewrite slice_middle, <- D, (page_cmpItem_found _ _ _ _ _ _ _ _ F), D.
    cbn [esp_err_eqb negb].
    replace (pre ++ c ++ List.concat rest ++ post)
      with ((pre ++ c) ++ List.concat rest ++ post)
      by (now rewrite <- !app_assoc).
    rewrite <- length_app.
    destruct (IH (Storage.setLastError (Storage.setLastError s ESP_OK) ESP_OK)
                 (cn + 1) (pre ++ c) C (fun _ => eq_refl))
      as (s' & H1 & H2 & H3 & H4).
    exists s'. split; [exact H1|]. split; [exact H2|]. split; [|exact H4].
    destruct H3 as (T1 & T2 & T3 & T4). repeat split; assumption.
Qed.

(** If [readMultiPageBlob] succeeds it has read the chunks of the visible
    index. *)
Lemma readMultiPageBlob_chunks s ns k n s' d :
  Storage.readMultiPageBlob s ns k n = (true, s', d) ->
  exists fp idx chunks,
    findIn s ns BLOB_IDX k Page.CHUNK_ANY VER_ANY = Some (fp, idx)
    /\ List.length chunks
       = Z.to_nat (uint8_t (ItemLayout.blobIndex_chunkCount idx))
    /\ d = List.concat chunks
    /\ chunksStored (Storage.mPageManager s) ns k
                    (ItemLayout.blobIndex_chunkStart idx) 0 chunks.
Proof.
  unfold Storage.readMultiPageBlob. rewrite findItem_findIn.
  destruct (findIn s ns BLOB_IDX k _ _) as [[fp idx]|] eqn:F; [|discriminate].
  destruct (Storage.readChunks _ _ _ _ _ _ _) as [[ret s2] out] eqn:R.
  destruct ret; [discriminate|].
  destruct (esp_err_eqb (Storage.mLastError s2) ESP_OK) eqn:E; [|discriminate].
  apply esp_err_eqb_eq in E.
  intros H. injection H as <- <-.
  apply readChunks_chunks in R as (chunks & L & O & C); [|exact E].
  exists fp, idx, chunks. repeat split; assumption.
Qed.

Lemma cmpMultiPageBlob_same s ns k fp idx chunks :
  findIn s ns BLOB_IDX k Page.CHUNK_ANY VER_ANY = Some (fp, idx) ->
  List.length chunks = Z.to_nat (uint8_t (ItemLayout.blobIndex_chunkCount idx)) ->
  chunksStored (Storage.mPageManager s) ns k
               (ItemLayout.blobIndex_chunkStart idx) 0 chunks ->
  ItemLayout.blobIndex_dataSize idx = Z.of_nat (List.length (List.concat chunks)) ->
  Storage.cmpMultiPageBlob s ns k (List.concat chunks)
  = (true, Storage.setLastError s ESP_OK).
Proof.
  intros F L C D. unfold Storage.cmpMultiPageBlob.
  rewrite findItem_findIn, F, D, Z.eqb_refl. cbn [negb]. rewrite <- L.
  destruct (cmpChunks_chunks chunks (Storage.setLastError s ESP_OK) ns k
              (ItemLayout.blobIndex_chunkStart idx) 0 [] [] C (fun _ => eq_refl))
    as (s' & H1 & H2 & H3 & H4).
  cbn [app List.length] in H1. rewrite app_nil_r in H1. rewrite H1.
  f_equal. apply state_ext.
  - exact H2.
  - exact H3.
  - exact H4.
Qed.

(** Write elision where the stored value reads back.  On an ACTIVE
    Storage, [writeItem] with the data that is stored returns true and
    leaves the Storage as it was, [mLastError] being [ESP_OK]: no page is
    written or erased.  For a type other than BLOB the stored item is the
    one [findItem] finds for [(ns, dt, k)].  For BLOB the stored value is
    what [readMultiPageBlob] reads through the BLOB_IDX that [findItem]
    finds, whose [dataSize] is the length of the data. *)
Theorem write_elision (s : Storage.t) (ns : Z) (k : string) :
  Storage.mState s = State.ACTIVE ->
  (forall dt s1 fp item,
      ItemType_eqb dt BLOB = false ->
      Storage.findItem s ns dt (Some k) Page.CHUNK_ANY VER_ANY
      = (true, s1, Some (fp, item)) ->
      Storage.writeItem s ns dt k (data item)
      = (true, Storage.setLastError s ESP_OK))
  /\ (forall d s1 fp idx s',
        Storage.findItem s ns BLOB_IDX (Some k) Page.CHUNK_ANY VER_ANY
        = (true, s1, Some (fp, idx)) ->
        ItemLayout.blobIndex_dataSize idx = Z.of_nat (List.length d) ->
        Storage.readMultiPageBlob s ns (Some k) (Z.of_nat (List.length d))
        = (true, s', d) ->
        Storage.writeItem s ns BLOB k d
        = (true, Storage.setLastError s ESP_OK)).
Proof.
  intros A. split.
  - intros dt s1 fp item B F. unfold Storage.writeItem.
    rewrite (notActive_false _ A), B, F. cbn [negb andb].
    rewrite findItem_findIn in F.
    destruct (findIn s ns dt (Some k) _ _) as [r|] eqn:Fi; [|discriminate].
    injection F as <- ->. unfold findIn in Fi.
    unfold Storage.page. cbn [Storage.mPageManager Storage.setLastError].
    rewrite (page_cmpItem_found _ _ _ _ _ _ _ _ Fi). reflexivity.
  - intros d s1 fp idx s' F D R. unfold Storage.writeItem.
    rewrite (notActive_false _ A). cbn [ItemType_eqb]. rewrite F.
    cbn [negb andb].
    rewrite findItem_findIn in F.
    destruct (findIn s ns BLOB_IDX (Some k) _ _) as [r|] eqn:Fi; [|discriminate].
    injection F as <- ->.
    apply readMultiPageBlob_chunks in R as (fp' & idx' & chunks & F' & L & E & C).
    rewrite Fi in F'. injection F' as <- <-. subst d.
    assert (Fi1 : findIn (Storage.setLastError s ESP_OK) ns BLOB_IDX (Some k)
                         Page.CHUNK_ANY VER_ANY = Some (fp, idx)) by exact Fi.
    rewrite (cmpMultiPageBlob_same _ _ _ _ _ _ Fi1 L C D). reflexivity.
Qed.

Lemma write_elision_witness :
  Storage.writeItem withItem 1 U32 "rev" [239; 190; 173; 222]
  = (true, Storage.setLastError withItem ESP_OK)
  /\ Storage.writeItem twoChunkBlob 1 BLOB "big" blobBytes
     = (true, Storage.setLastError twoChunkBlob ESP_OK).
Proof.
  split.
  - assert (F : Storage.findItem withItem 1 U32 (Some "rev"%string)
                  Page.CHUNK_ANY VER_ANY
                = (true, Storage.setLastError withItem ESP_OK,
                   Some (0%nat, mkItem 1 U32 1 255 "rev" [239; 190; 173; 222])))
      by (vm_compute; reflexivity).
    exact (proj1 (write_elision withItem 1 "rev" eq_refl) U32 _ _ _ eq_refl F).
  - assert (F : Storage.findItem twoChunkBlob 1 BLOB_IDX (Some "big"%string)
                  Page.CHUNK_ANY VER_ANY
                = (true, Storage.setLastError twoChunkBlob ESP_OK,
                   Some (1%nat,
                         mkItem 1 BLOB_IDX 1 255 "big"
                                [244; 1; 0; 0; 2; 0; 255; 255])))
      by (vm_compute; reflexivity).
    assert (R : Storage.readMultiPageBlob twoChunkBlob 1 (Some "big"%string)
                  (Z.of_nat (List.length blobBytes))
                = (true, Storage.setLastError twoChunkBlob ESP_OK, blobBytes))
      by (vm_compute; reflexivity).
    exact (proj2 (write_elision twoChunkBlob 1 "big" eq_refl)
                 blobBytes _ _ _ _ F eq_refl R).
Defined.

(** ** Counting the visible items *)

Lemma scan_none_count es i f :
  Page.scan es i O f = None <-> countPage es f = O.
Proof.
  revert i. induction es as [|[st it] es IH]; intros i;
    cbn [Page.scan countPage]; [tauto|].
  cbn [Nat.leb andb]. destruct (isWritten st && f it).
  - split; [discriminate|lia].
  - rewrite IH. cbn. tauto.
Qed.

Lemma scan_some_count es i f j it :
  Page.scan es i O f = Some (j, it) -> (1 <= countPage es f)%nat.
Proof.
  intros H. destruct (countPage es f) eqn:C; [|lia].
  apply (scan_none_count es i f) in C. congruence.
Qed.

Lemma eraseFirst_le es f es' g :
  Page.eraseFirst es f = Some es' -> (countPage es' g <= countPage es g)%nat.
Proof.
  revert es'. induction es as [|[st it] es IH]; intros es';
    cbn [Page.eraseFirst]; [discriminate|].
  destruct (isWritten st && f it).
  - intros H. injection H as <-. cbn [countPage isWritten andb].
    destruct (isWritten st && g it); lia.
  - destruct (Page.eraseFirst es f) as [rest'|]; [|discriminate].
    intros H. injection H as <-. cbn [countPage]. specialize (IH _ eq_refl).
    lia.
Qed.

Lemma eraseFirst_count es f :
  (1 <= countPage es f)%nat ->
  exists es',
    Page.eraseFirst es f = Some es'
    /\ S (countPage es' f) = countPage es f.
Proof.
  induction es as [|[st it] es IH]; cbn [Page.eraseFirst countPage]; [lia|].
  destruct (isWritten st && f it) eqn:C.
  - intros _. eexists. split; [reflexivity|]. cbn [countPage isWritten andb].
    lia.
  - intros H. destruct IH as (es' & E & N); [lia|].
    rewrite E. eexists. split; [reflexivity|]. cbn [countPage]. rewrite C. lia.
Qed.

Lemma findItemIn_none_count pm l ns dt k ci cs :
  Storage.findItemIn pm l ns dt k ci cs = None
  <-> countW pm l (Page.matches ns dt k ci cs) = O.
Proof.
  induction l as [|pg rest IH]; cbn [Storage.findItemIn countW]; [tauto|].
  rewrite page_findItem_scan.
  destruct (Page.scan (Page.entries (PageManager.page pm pg)) _ _ _)
    as [[i it]|] eqn:S; cbv beta iota.
  - apply scan_some_count in S. split; [discriminate|lia].
  - apply scan_none_count in S. rewrite S, IH. cbn. tauto.
Qed.

Lemma page_setPage pm i p j :
  PageManager.page (PageManager.setPage pm i p) j
  = if (Nat.eqb i j && (i <? List.length (PageManager.mPages pm))%nat)%bool
    then p else PageManager.page pm j.
Proof. unfold PageManager.page, PageManager.setPage. cbn. apply nth_setNth. Qed.

Lemma countW_setPage_le pm i p l g :
  (countPage (Page.entries p) g
   <= countPage (Page.entries (PageManager.page pm i)) g)%nat ->
  (countW (PageManager.setPage pm i p) l g <= countW pm l g)%nat.
Proof.
  intros H. induction l as [|j rest IH]; cbn [countW]; [lia|].
  rewrite page_setPage.
  destruct (Nat.eqb_spec i j) as [->|]; cbn [andb]; [|lia].
  destruct (_ <? _)%nat; lia.
Qed.

Lemma countW_in pm l f i :
  In i l ->
  (countPage (Page.entries (PageManager.page pm i)) f <= countW pm l f)%nat.
Proof.
  induction l as [|j rest IH]; [contradiction|].
  cbn [countW]. intros [->|I]; [lia|]. specialize (IH I). lia.
Qed.

(** Erasing on the page where [findItem] found the only visible item for
    [f] leaves none. *)
Lemma erase_unique pm l ns dt k ci cs fp it :
  let f := Page.matches ns dt k ci cs in
  (countW pm l f <= 1)%nat ->
  Storage.findItemIn pm l ns dt k ci cs = Some (fp, it) ->
  exists p',
    Page.eraseItem (PageManager.page pm fp) ns dt k ci cs = (ESP_OK, p')
    /\ countW (PageManager.setPage pm fp p') l f = O
    /\ forall g l', (countW (PageManager.setPage pm fp p') l' g
                     <= countW pm l' g)%nat.
Proof.
  intros f U F. apply findItemIn_found in F as [I [i S]]. fold f in S.
  pose proof (scan_some_count _ _ _ _ _ S) as C1.
  destruct (eraseFirst_count _ _ C1) as (es' & E & N).
  unfold Page.eraseItem. fold f. rewrite E. eexists. split; [reflexivity|].
  set (p' := Page.mk _ _ es').
  assert (M : forall g, (countPage (Page.entries p') g
                         <= countPage (Page.entries (PageManager.page pm fp)) g)%nat)
    by (intros g; eapply eraseFirst_le; exact E).
  split; [|intros g l'; apply countW_setPage_le, M].
  clear S E. revert U I. induction l as [|j rest IH]; [contradiction|].
  cbn [countW]. rewrite page_setPage. intros U I.
  destruct (Nat.eqb_spec fp j) as [<-|Nj]; cbn [andb].
  - assert (R : countW pm rest f = O) by lia.
    pose proof (countW_setPage_le pm fp p' rest f (M f)) as Q.
    destruct (Nat.ltb_spec fp (List.length (PageManager.mPages pm))) as [Lt|Ge].
    + cbn [Page.entries p']. lia.
    + exfalso. unfold PageManager.page in C1.
      rewrite nth_overflow in C1 by assumption. cbn in C1. lia.
  - destruct I as [->|I]; [contradiction|].
    pose proof (countW_in pm rest f fp I) as Z.
    specialize (IH ltac:(lia) I). lia.
Qed.

(** ** Erasing a blob through [eraseItem] (C10) *)

Lemma findIn_none_visible s ns dt k ci cs :
  findIn s ns dt k ci cs = None <-> visible s (Page.matches ns dt k ci cs) = O.
Proof. apply findItemIn_none_count. Qed.

Lemma eraseChunks_all n s ns k start cn :
  (forall c, cn <= c < cn + Z.of_nat n ->
             (visible s (chunkFilter ns k start c) <= 1)%nat) ->
  exists s',
    Storage.eraseChunks n s ns k start cn = (true, s')
    /\ Storage.pageList s' = Storage.pageList s
    /\ (forall c, cn <= c < cn + Z.of_nat n ->
                  visible s' (chunkFilter ns k start c) = O)
    /\ (forall g, (visible s' g <= visible s g)%nat).
Proof.
  revert s cn. induction n as [|n IH]; intros s cn U;
    cbn [Storage.eraseChunks].
  - eexists. split; [reflexivity|]. split; [reflexivity|].
    split; [intros c Hc; lia|]. intros g. apply Nat.le_refl.
  - rewrite findItem_findIn.
    destruct (findIn s ns BLOB_DATA k _ VER_ANY) as [[fp it]|] eqn:F.
    + destruct (erase_unique _ _ _ _ _ _ _ _ _ (U cn ltac:(lia)) F)
        as (p' & E & Z0 & M).
      unfold Storage.page. cbn [Storage.mPageManager Storage.setLastError].
      rewrite E. cbn [esp_err_eqb negb].
      set (s2 := Storage.setLastError
                   (Storage.setPage (Storage.setLastError s ESP_OK) fp p')
                   ESP_OK).
      assert (M2 : forall g, (visible s2 g <= visible s g)%nat)
        by (intros g; apply M).
      destruct (IH s2 (cn + 1)) as (s' & R & L & Z1 & M1).
      { intros c Hc. eapply Nat.le_trans; [apply M2|]. apply U. lia. }
      exists s'. split; [exact R|]. split; [exact L|]. split.
      * intros c Hc. destruct (Z.eq_dec c cn) as [->|Nc]; [|apply Z1; lia].
        assert (visible s2 (chunkFilter ns k start cn) = O) by exact Z0.
        specialize (M1 (chunkFilter ns k start cn)). lia.
      * intros g. eapply Nat.le_trans; [apply M1|apply M2].
    + cbn [Storage.mLastError Storage.setLastError esp_err_eqb negb].
      destruct (IH (Storage.setLastError s ESP_ERR_NVS_NOT_FOUND) (cn + 1))
        as (s' & R & L & Z1 & M1).
      { intros c Hc. apply (U c). lia. }
      exists s'. split; [exact R|]. split; [exact L|]. split.
      * intros c Hc. destruct (Z.eq_dec c cn) as [->|Nc]; [|apply Z1; lia].
        apply findIn_none_visible in F.
        specialize (M1 (chunkFilter ns k start cn)).
        unfold chunkFilter in *.
        change (visible (Storage.setLastError s ESP_ERR_NVS_NOT_FOUND)
                        (Page.matches ns BLOB_DATA k
                                      (uint8_t (uint8_t start + cn)) VER_ANY))
          with (visible s (Page.matches ns BLOB_DATA k
                                        (uint8_t (uint8_t start + cn)) VER_ANY))
          in M1.
        lia.
      * exact M1.
Qed.

(** With a visible index, and no duplicates of it or of its chunks,
    [eraseMultiPageBlob] succeeds and leaves neither the index nor a chunk
    of its range visible. *)
Lemma eraseMultiPageBlob_all s ns k ip idx :
  Storage.mState s = State.ACTIVE ->
  findIn s ns BLOB_IDX k Page.CHUNK_ANY VER_ANY = Some (ip, idx) ->
  let count := uint8_t (ItemLayout.blobIndex_chunkCount idx) in
  let start := ItemLayout.blobIndex_chunkStart idx in
  (visible s (Page.matches ns BLOB_IDX k Page.CHUNK_ANY VER_ANY) <= 1)%nat ->
  (forall c, 0 <= c < count -> (visible s (chunkFilter ns k start c) <= 1)%nat) ->
  exists s',
    Storage.eraseMultiPageBlob s ns k VER_ANY = (true, s')
    /\ findIn s' ns BLOB_IDX k Page.CHUNK_ANY VER_ANY = None
    /\ (forall c, 0 <= c < count ->
                  findIn s' ns BLOB_DATA k (uint8_t (uint8_t start + c)) VER_ANY
                  = None)
    /\ (forall g, (visible s' g <= visible s g)%nat).
Proof.
  intros A F count start U1 U2. unfold Storage.eraseMultiPageBlob.
  rewrite (notActive_false _ A), findItem_findIn, F.
  destruct (erase_unique _ _ _ _ _ _ _ _ _ U1 F) as (p' & E & Z0 & M).
  unfold Storage.page. cbn [Storage.mPageManager Storage.setLastError].
  rewrite E. cbn [esp_err_eqb negb]. rewrite Z.eqb_refl.
  set (s2 := Storage.setLastError
               (Storage.setPage (Storage.setLastError s ESP_OK) ip p') ESP_OK).
  assert (M2 : forall g, (visible s2 g <= visible s g)%nat)
    by (intros g; apply M).
  fold count. fold start.
  destruct (eraseChunks_all (Z.to_nat count) s2 ns k start 0)
    as (s' & R & L & Z1 & M1).
  { intros c Hc. eapply Nat.le_trans; [apply M2|]. apply U2.
    unfold count, uint8_t in *. lia. }
  exists s'. split; [exact R|]. split; [|split].
  - apply findIn_none_visible.
    assert (visible s2 (Page.matches ns BLOB_IDX k Page.CHUNK_ANY VER_ANY) = O)
      by exact Z0.
    specialize (M1 (Page.matches ns BLOB_IDX k Page.CHUNK_ANY VER_ANY)). lia.
  - intros c Hc. apply findIn_none_visible. apply Z1.
    unfold count, uint8_t in *. lia.
  - intros g. eapply Nat.le_trans; [apply M1|apply M2].
Qed.

Lemma eraseMultiPageBlob_setLastError s e ns k cs :
  Storage.eraseMultiPageBlob (Storage.setLastError s e) ns k cs
  = Storage.eraseMultiPageBlob s ns k cs.
Proof. reflexivity. Qed.

(** Erasing on the page where [findItem] found an item succeeds; no count
    of visible items grows. *)
Lemma eraseItem_found pm l ns dt k ci cs fp it :
  Storage.findItemIn pm l ns dt k ci cs = Some (fp, it) ->
  exists p',
    Page.eraseItem (PageManager.page pm fp) ns dt k ci cs = (ESP_OK, p')
    /\ forall g l', (countW (PageManager.setPage pm fp p') l' g
                     <= countW pm l' g)%nat.
Proof.
  intros F. apply findItemIn_found in F as [_ [i S]].
  pose proof (scan_some_count _ _ _ _ _ S) as C1.
  destruct (eraseFirst_count _ _ C1) as (es' & E & _).
  unfold Page.eraseItem. rewrite E. eexists. split; [reflexivity|].
  intros g l'. apply countW_setPage_le. cbn [Page.entries].
  eapply eraseFirst_le; exact E.
Qed.

(** The chunk loop of [eraseMultiPageBlob] runs to its end: a chunk that
    is not found is skipped, one that is found is erased. *)
Lemma eraseChunks_total n s ns k start cn :
  exists s',
    Storage.eraseChunks n s ns k start cn = (true, s')
    /\ Storage.pageList s' = Storage.pageList s
    /\ (forall g, (visible s' g <= visible s g)%nat).
Proof.
  revert s cn. induction n as [|n IH]; intros s cn;
    cbn [Storage.eraseChunks].
  - eexists. split; [reflexivity|]. split; [reflexivity|].
    intros g. apply Nat.le_refl.
  - rewrite findItem_findIn.
    destruct (findIn s ns BLOB_DATA k _ VER_ANY) as [[fp it]|] eqn:F.
    + destruct (eraseItem_found _ _ _ _ _ _ _ _ _ F) as (p' & E & M).
      unfold Storage.page. cbn [Storage.mPageManager Storage.setLastError].
      rewrite E. cbn [esp_err_eqb negb].
      set (s2 := Storage.setLastError
                   (Storage.setPage (Storage.setLastError s ESP_OK) fp p')
                   ESP_OK).
      assert (M2 : forall g, (visible s2 g <= visible s g)%nat)
        by (intros g; apply M).
      destruct (IH s2 (cn + 1)) as (s' & R & L & M1).
      exists s'. split; [exact R|]. split; [exact L|].
      intros g. eapply Nat.le_trans; [apply M1|apply M2].
    + cbn [Storage.mLastError Storage.setLastError esp_err_eqb negb].
      destruct (IH (Storage.setLastError s ESP_ERR_NVS_NOT_FOUND) (cn + 1))
        as (s' & R & L & M1).
      exists s'. split; [exact R|]. split; [exact L|]. exact M1.
Qed.

(** C10.  [eraseItem] with a type other than BLOB whose search finds a
    BLOB_DATA or BLOB_IDX item first erases through
    [eraseMultiPageBlob(ns, key)].  Where no BLOB_IDX item for [(ns, key)]
    is visible (the item found is a chunk without its index), the call fails
    with NOT_FOUND and the Storage keeps every item.  Where one is visible,
    the call succeeds: the index is erased first, on its page, the loop over
    the chunks of its range runs on the Storage without the index, and no
    item becomes visible; where the index and each chunk of the range is
    stored once, [findItem] afterwards finds neither the index nor any
    chunk of the range. *)
Theorem eraseItem_erases_blob (s : Storage.t) (ns : Z) (dt : ItemType)
        (k : option string) (s1 : Storage.t) (fp : nat) (item : Item) :
  Storage.mState s = State.ACTIVE ->
  ItemType_eqb dt BLOB = false ->
  Storage.findItem s ns dt k Page.CHUNK_ANY VER_ANY
  = (true, s1, Some (fp, item)) ->
  (ItemType_eqb (datatype item) BLOB_DATA
   || ItemType_eqb (datatype item) BLOB_IDX)%bool = true ->
  (findIn s ns BLOB_IDX k Page.CHUNK_ANY VER_ANY = None ->
   Storage.eraseItem s ns dt k
   = (false, Storage.setLastError s ESP_ERR_NVS_NOT_FOUND))
  /\ forall ip idx,
      findIn s ns BLOB_IDX k Page.CHUNK_ANY VER_ANY = Some (ip, idx) ->
      let count := uint8_t (ItemLayout.blobIndex_chunkCount idx) in
      let start := ItemLayout.blobIndex_chunkStart idx in
      exists p' s',
        Page.eraseItem (Storage.page s ip) ns BLOB_IDX k Page.CHUNK_ANY VER_ANY
        = (ESP_OK, p')
        /\ Storage.eraseItem s ns dt k
           = Storage.eraseChunks (Z.to_nat count)
               (Storage.setLastError (Storage.setPage s ip p') ESP_OK)
               ns k start 0
        /\ Storage.eraseItem s ns dt k = (true, s')
        /\ Storage.mLastError s' = ESP_OK
        /\ (forall g, (visible s' g <= visible s g)%nat)
        /\ ((visible s (Page.matches ns BLOB_IDX k Page.CHUNK_ANY VER_ANY)
             <= 1)%nat ->
            (forall c, 0 <= c < count ->
                       (visible s (chunkFilter ns k start c) <= 1)%nat) ->
            findIn s' ns BLOB_IDX k Page.CHUNK_ANY VER_ANY = None
            /\ forall c, 0 <= c < count ->
                         findIn s' ns BLOB_DATA k
                                (uint8_t (uint8_t start + c)) VER_ANY = None).
Proof.
  intros A B F T.
  assert (D : Storage.eraseItem s ns dt k
              = Storage.eraseMultiPageBlob s ns k VER_ANY).
  { unfold Storage.eraseItem. rewrite (notActive_false _ A), B, F, T.
    rewrite findItem_findIn in F.
    destruct (findIn s ns dt k _ _); [|discriminate].
    injection F as <- _. apply eraseMultiPageBlob_setLastError. }
  rewrite D. split.
  - intros N. unfold Storage.eraseMultiPageBlob.
    now rewrite (notActive_false _ A), findItem_findIn, N.
  - intros ip idx Fi count start.
    destruct (eraseItem_found _ _ _ _ _ _ _ _ _ Fi) as (p' & Ep & M).
    assert (U : Storage.eraseMultiPageBlob s ns k VER_ANY
                = Storage.eraseChunks (Z.to_nat count)
                    (Storage.setLastError (Storage.setPage s ip p') ESP_OK)
                    ns k start 0).
    { unfold Storage.eraseMultiPageBlob.
      rewrite (notActive_false _ A), findItem_findIn, Fi.
      unfold Storage.page in *.
      cbn [Storage.mPageManager Storage.setLastError].
      rewrite Ep. cbn [esp_err_eqb negb]. rewrite Z.eqb_refl. reflexivity. }
    destruct (eraseChunks_total (Z.to_nat count)
                (Storage.setLastError (Storage.setPage s ip p') ESP_OK)
                ns k start 0) as (s' & R & _ & M1).
    exists p', s'. split; [exact Ep|]. split; [exact U|].
    split; [now rewrite U|]. split; [|split].
    + clear - R. revert R.
      generalize (Storage.setLastError (Storage.setPage s ip p') ESP_OK), 0.
      induction (Z.to_nat count) as [|n IH]; intros s0 cn;
        cbn [Storage.eraseChunks].
      * intros H. injection H as <-. reflexivity.
      * rewrite findItem_findIn.
        destruct (findIn s0 ns BLOB_DATA k _ VER_ANY) as [[fp it]|].
        -- destruct (Page.eraseItem _ _ _ _ _ _) as [err q].
           destruct (negb (esp_err_eqb err ESP_OK)); [discriminate|].
           apply IH.
        -- cbn [Storage.mLastError Storage.setLastError esp_err_eqb negb].
           apply IH.
    + intros g. eapply Nat.le_trans; [apply M1|]. apply M.
    + intros U1 U2.
      destruct (eraseMultiPageBlob_all s ns k ip idx A Fi U1 U2)
        as (s'' & E & N1 & N2 & _).
      rewrite U, R in E. injection E as <-. split; assumption.
Qed.

Lemma eraseItem_erases_blob_witness :
  exists s',
    Storage.eraseItem twoChunkBlob 1 ANY (Some "big"%string) = (true, s')
    /\ findIn s' 1 BLOB_IDX (Some "big"%string) Page.CHUNK_ANY VER_ANY = None
    /\ findIn s' 1 BLOB_DATA (Some "big"%string) 0 VER_ANY = None
    /\ findIn s' 1 BLOB_DATA (Some "big"%string) 1 VER_ANY = None.
Proof.
  assert (F : Storage.findItem twoChunkBlob 1 ANY (Some "big"%string)
                Page.CHUNK_ANY VER_ANY
              = (true, Storage.setLastError twoChunkBlob ESP_OK,
                 Some (0%nat, mkItem 1 BLOB_DATA 16 0 "big" (repeat 7 480))))
    by (vm_compute; reflexivity).
  assert (Fi : findIn twoChunkBlob 1 BLOB_IDX (Some "big"%string)
                 Page.CHUNK_ANY VER_ANY
               = Some (1%nat,
                       mkItem 1 BLOB_IDX 1 255 "big"
                              [244; 1; 0; 0; 2; 0; 255; 255]))
    by (vm_compute; reflexivity).
  destruct (eraseItem_erases_blob twoChunkBlob 1 ANY (Some "big"%string)
              _ _ _ eq_refl eq_refl F eq_refl) as [_ H].
  destruct (H _ _ Fi) as (p' & s' & _ & _ & E & _ & _ & N).
  destruct N as [N1 N2].
  - vm_compute. lia.
  - intros c Hc. change (0 <= c < 2) in Hc.
    assert (C : c = 0 \/ c = 1) by lia.
    destruct C as [-> | ->]; vm_compute; lia.
  - exists s'. split; [exact E|]. split; [exact N1|].
    split; [apply (N2 0)|apply (N2 1)]; vm_compute; split; congruence.
Defined.

(** The counterexample: after the failed overwrite and a read, the chunk
    that the rollback left has no index.  [eraseItem(1, ANY, "big")] finds
    this BLOB_DATA item first, fails with NOT_FOUND and leaves it
    WRITTEN. *)
Lemma eraseItem_orphan_chunk :
  Storage.mState afterRead = State.ACTIVE
  /\ Storage.findItem afterRead 1 ANY (Some "big"%string) Page.CHUNK_ANY VER_ANY
     = (true, Storage.setLastError afterRead ESP_OK, Some (1%nat, staleChunk))
  /\ datatype staleChunk = BLOB_DATA
  /\ Storage.eraseItem afterRead 1 ANY (Some "big"%string)
     = (false, Storage.setLastError afterRead ESP_ERR_NVS_NOT_FOUND)
  /\ In (WRITTEN, staleChunk)
        (Page.entries
           (Storage.page
              (snd (Storage.eraseItem afterRead 1 ANY (Some "big"%string)))
              1)).
Proof.
  split; [reflexivity|]. split; [vm_compute; reflexivity|].
  split; [reflexivity|]. split; [vm_compute; reflexivity|].
  vm_compute. right. right. now left.
Qed.

(** ** Orphan reclamation at mount (C2) *)

Lemma matches_any_chunk it :
  Page.matches Page.NS_ANY BLOB_DATA None Page.CHUNK_ANY VER_ANY it = isChunk it.
Proof.
  unfold Page.matches, isChunk. cbn.
  now rewrite !andb_true_r.
Qed.

Lemma usedEntries_app a b :
  Page.usedEntries (a ++ b) = (Page.usedEntries a + Page.usedEntries b)%nat.
Proof. induction a as [|e a IH]; cbn; [reflexivity|]. rewrite IH. lia. Qed.

Lemma scan_skipped pre post i start f :
  skipped pre i start f ->
  Page.scan (pre ++ post) i start f
  = Page.scan post (i + Page.usedEntries pre)%nat start f.
Proof.
  revert i. induction pre as [|[st it] pre IH]; intros i; cbn [skipped app].
  - intros _. cbn. now rewrite Nat.add_0_r.
  - intros [C S]. cbn [Page.scan Page.usedEntries snd]. rewrite C.
    rewrite IH by assumption. f_equal. lia.
Qed.

Lemma skipped_below es i start f :
  (i + Page.usedEntries es <= start)%nat -> skipped es i start f.
Proof.
  revert i. induction es as [|[st it] es IH]; intros i; cbn; [tauto|].
  intros H. pose proof (Pos2Nat.is_pos (span it)). split.
  - destruct (Nat.leb_spec start i); [lia|reflexivity].
  - apply IH. lia.
Qed.

Lemma skipped_app a b i start f :
  skipped a i start f ->
  skipped b (i + Page.usedEntries a)%nat start f ->
  skipped (a ++ b) i start f.
Proof.
  revert i. induction a as [|[st it] a IH]; intros i; cbn [skipped app].
  - intros _. cbn. now rewrite Nat.add_0_r.
  - intros [C S] B. split; [assumption|]. apply IH; [assumption|].
    cbn [Page.usedEntries snd] in B.
    now replace (i + Pos.to_nat (span it) + Page.usedEntries a)%nat
      with (i + (Pos.to_nat (span it) + Page.usedEntries a))%nat by lia.
Qed.

Lemma covers_same l a b :
  nsIndex a = nsIndex b -> key a = key b -> chunkIndex a = chunkIndex b ->
  existsb (Storage.covers a) l = existsb (Storage.covers b) l.
Proof.
  intros N K C. induction l as [|e l IH]; cbn; [reflexivity|].
  rewrite IH. unfold Storage.covers. now rewrite N, K, C.
Qed.

(** Erasing the orphan [it] by its own tuple hits [it] when no orphan
    precedes it. *)
Lemma eraseFirst_self l pre it post :
  noOrphan l pre ->
  chunkOk it = true -> isChunk it = true ->
  existsb (Storage.covers it) l = false ->
  Page.eraseFirst (pre ++ (WRITTEN, it) :: post)
                  (Page.matches (nsIndex it) (datatype it) (Some (key it))
                                (chunkIndex it) VER_ANY)
  = Some (pre ++ (ERASED, it) :: post).
Proof.
  intros NO Ok Ch Orphan.
  unfold chunkOk in Ok. rewrite Ch in Ok. cbn in Ok.
  apply andb_true_iff in Ok as [Ons Oci].
  apply negb_true_iff in Ons, Oci.
  set (g := Page.matches _ _ _ _ _).
  assert (Gself : g it = true).
  { subst g. unfold Page.matches.
    rewrite !Z.eqb_refl, String.eqb_refl.
    rewrite (proj2 (ItemType_eqb_eq (datatype it) (datatype it)) eq_refl).
    now rewrite !orb_true_r. }
  induction pre as [|[st x] pre IH]; cbn [app Page.eraseFirst].
  - cbn [isWritten andb]. now rewrite Gself.
  - destruct (isWritten st && g x) eqn:C.
    + exfalso. apply andb_true_iff in C as [W G].
      subst g. unfold Page.matches in G.
      rewrite Ons, Oci in G. cbn [orb] in G.
      apply andb_true_iff in G as [G _].
      apply andb_true_iff in G as [G G4].
      apply andb_true_iff in G as [G G3].
      apply andb_true_iff in G as [G1 G2].
      apply Z.eqb_eq in G1, G4. apply String.eqb_eq in G3.
      assert (Cx : isChunk x = true).
      { unfold isChunk in *. apply ItemType_eqb_eq in Ch. rewrite Ch in G2.
        cbn in G2. exact G2. }
      assert (E : existsb (Storage.covers x) l = true).
      { apply (NO st x); [now left|]. now rewrite W, Cx. }
      rewrite (covers_same l x it) in E by congruence. congruence.
    + rewrite IH; [reflexivity|].
      intros st' it' I. apply NO. now right.
Qed.

Lemma eraseOrphansOfPage_spec l st sq post :
  forall pre start fuel,
    (List.length post < fuel)%nat ->
    skipped pre O start
            (Page.matches Page.NS_ANY BLOB_DATA None Page.CHUNK_ANY VER_ANY) ->
    (start <= Page.usedEntries pre)%nat ->
    noOrphan l pre ->
    Forall (fun e => chunkOk (snd e) = true) (pre ++ post) ->
    Storage.eraseOrphansOfPage fuel l (Page.mk st sq (pre ++ post)) start
    = Page.mk st sq (pre ++ map (eraseIfOrphan l) post).
Proof.
  set (F0 := Page.matches Page.NS_ANY BLOB_DATA None Page.CHUNK_ANY VER_ANY).
  induction post as [|[st0 it] post IH]; intros pre start fuel Hf Sk Le NO Ok.
  - destruct fuel as [|fuel]; [cbn in Hf; lia|].
    cbn [Storage.eraseOrphansOfPage map]. rewrite page_findItem_scan.
    cbn [Page.entries]. fold F0. rewrite (scan_skipped pre [] O start F0 Sk).
    reflexivity.
  - assert (Ok' : forall x, Forall (fun e => chunkOk (snd e) = true)
                                   ((pre ++ [(x, it)]) ++ post)).
    { intros x. rewrite <- app_assoc. cbn [app].
      apply Forall_app in Ok as [O1 O2]. apply Forall_app. split; [exact O1|].
      inversion O2; subst. constructor; assumption. }
    assert (U : forall x, Page.usedEntries (pre ++ [(x, it)])
                          = (Page.usedEntries pre + Pos.to_nat (span it))%nat).
    { intros x. rewrite usedEntries_app. cbn. lia. }
    destruct (isWritten st0 && F0 it) eqn:C.
    + apply andb_true_iff in C as [W C].
      destruct st0; try discriminate W. clear W.
      assert (Ch : isChunk it = true).
      { unfold F0 in C. now rewrite matches_any_chunk in C. }
      destruct fuel as [|fuel]; [cbn in Hf; lia|].
      cbn [Storage.eraseOrphansOfPage]. rewrite page_findItem_scan.
      cbn [Page.entries]. fold F0.
      rewrite (scan_skipped pre _ O start F0 Sk). cbn [Page.scan Nat.add].
      destruct (Nat.leb_spec start (Page.usedEntries pre)) as [_|]; [|lia].
      cbn [isWritten andb]. rewrite C.
      cbn [map]. unfold eraseIfOrphan at 1. cbn [fst snd isWritten andb].
      rewrite Ch. cbn [andb].
      destruct (existsb (Storage.covers it) l) eqn:Cov; cbn [negb].
      * replace (pre ++ (WRITTEN, it) :: post)
          with ((pre ++ [(WRITTEN, it)]) ++ post)
          by (now rewrite <- app_assoc).
        rewrite IH.
        -- now rewrite <- app_assoc.
        -- cbn in Hf. lia.
        -- apply skipped_below. rewrite U. lia.
        -- rewrite U. lia.
        -- intros st' it' I. apply in_app_or in I as [I|[I|[]]].
           ++ now apply NO in I.
           ++ injection I as <- <-. intros _. exact Cov.
        -- apply Ok'.
      * unfold Page.eraseItem. cbn [Page.entries Page.state Page.seqNumber].
        assert (Oit : chunkOk it = true).
        { apply Forall_app in Ok as [_ O2]. now inversion O2. }
        rewrite (eraseFirst_self l pre it post NO Oit Ch Cov). cbn [snd].
        replace (pre ++ (ERASED, it) :: post)
          with ((pre ++ [(ERASED, it)]) ++ post)
          by (now rewrite <- app_assoc).
        rewrite IH.
        -- now rewrite <- app_assoc.
        -- cbn in Hf. lia.
        -- apply skipped_below. rewrite U. lia.
        -- rewrite U. lia.
        -- intros st' it' I. apply in_app_or in I as [I|[I|[]]].
           ++ now apply NO in I.
           ++ injection I as <- <-. discriminate.
        -- apply Ok'.
    + replace (pre ++ (st0, it) :: post) with ((pre ++ [(st0, it)]) ++ post)
        by (now rewrite <- app_assoc).
      rewrite IH.
      * rewrite <- app_assoc. cbn [app map]. unfold eraseIfOrphan at 2.
        cbn [fst snd]. unfold F0 in C. rewrite matches_any_chunk in C.
        now rewrite C.
      * cbn in Hf. lia.
      * apply skipped_app; [exact Sk|]. cbn [skipped]. split; [|exact I].
        cbn [Nat.add]. fold F0. rewrite <- andb_assoc, C. apply andb_false_r.
      * rewrite U. lia.
      * intros st' it' I. apply in_app_or in I as [I|[I|[]]].
        -- now apply NO in I.
        -- injection I as <- <-. unfold F0 in C.
           rewrite matches_any_chunk in C. congruence.
      * apply Ok'.
Qed.

Lemma eraseOrphansOfPage_page l p :
  Forall (fun e => chunkOk (snd e) = true) (Page.entries p) ->
  Storage.eraseOrphansOfPage (Storage.scanFuel p) l p O = reclaimed l p.
Proof.
  intros Ok. destruct p as [st sq es]. unfold Storage.scanFuel, reclaimed.
  cbn [Page.entries Page.state Page.seqNumber] in *.
  apply (eraseOrphansOfPage_spec l st sq es [] O); cbn; try lia; try tauto.
  intros st' it' [].
Qed.

Lemma chunksWellFormed_ok ps : chunksWellFormed ps = true -> okPages ps.
Proof.
  unfold chunksWellFormed, okPages, okPage. intros H.
  apply Forall_forall. intros p Ip. apply Forall_forall. intros e Ie.
  rewrite forallb_forall in H. specialize (H p Ip).
  rewrite forallb_forall in H. now apply H.
Qed.

Lemma okPage_erased : okPage Page.erased.
Proof. constructor. Qed.

Lemma okPages_nth ps i : okPages ps -> okPage (nth i ps Page.erased).
Proof.
  intros H. destruct (Nat.lt_ge_cases i (List.length ps)) as [L|G].
  - unfold okPages in H. rewrite Forall_forall in H. now apply H, nth_In.
  - rewrite nth_overflow by assumption. apply okPage_erased.
Qed.

Lemma okPages_setNth ps i p : okPages ps -> okPage p -> okPages (PageManager.setNth ps i p).
Proof.
  intros H Hp. revert i. induction H as [|x l Hx Hl IH]; intros i.
  - destruct i; constructor.
  - destruct i; cbn [PageManager.setNth]; constructor; try assumption.
    apply IH.
Qed.

Lemma recoverEntries_items es seen :
  map snd (fst (PageManager.recoverEntries es seen)) = map snd es.
Proof.
  unfold PageManager.recoverEntries.
  induction es as [|[st it] es IH]; cbn [fold_right map]; [reflexivity|].
  destruct (fold_right _ _ es) as [out seen'] eqn:R. cbn [fst] in IH.
  destruct st; [| |destruct (existsb _ _)|]; cbn [fst map snd]; now rewrite IH.
Qed.

Lemma okPage_items p es :
  map snd es = map snd (Page.entries p) -> okPage p ->
  forall st sq, okPage (Page.mk st sq es).
Proof.
  unfold okPage. intros E H st sq. cbn [Page.entries].
  rewrite Forall_forall in *. intros e Ie.
  assert (I : In (snd e) (map snd (Page.entries p))).
  { rewrite <- E. now apply in_map. }
  apply in_map_iff in I as (e' & E' & I'). rewrite <- E'. now apply H.
Qed.

Lemma recoverPages_ok ps l :
  okPages ps -> okPages (fst (PageManager.recoverPages ps l)).
Proof.
  intros H. induction l as [|i rest IH]; cbn [PageManager.recoverPages];
    [exact H|].
  destruct (PageManager.recoverPages ps rest) as [ps1 seen]. cbn [fst] in IH.
  pose proof (recoverEntries_items (Page.entries (nth i ps1 Page.erased)) seen)
    as R.
  destruct (PageManager.recoverEntries _ seen) as [es seen']. cbn [fst] in *.
  apply okPages_setNth; [exact IH|].
  eapply okPage_items; [exact R|]. now apply okPages_nth.
Qed.

Lemma eraseFree_ok ps free : okPages ps -> okPages (PageManager.eraseFree ps free).
Proof.
  unfold PageManager.eraseFree. revert ps.
  induction free as [|i free IH]; intros ps H; cbn [fold_left]; [exact H|].
  apply IH. apply okPages_setNth; [exact H|apply okPage_erased].
Qed.

Lemma load_ok partition :
  okPages partition ->
  okPages (PageManager.mPages (snd (PageManager.load partition))).
Proof.
  intros H. unfold PageManager.load.
  destruct (_ <? _)%nat; [constructor|].
  destruct (PageManager.classify _ _ _) as [used free].
  assert (O : okPages (PageManager.eraseFree
                         (fst (PageManager.recoverPages partition used)) free))
    by (apply eraseFree_ok, recoverPages_ok, H).
  destruct (match used with [] => false | _ :: _ => _ end); [exact O|].
  unfold PageManager.activatePage. cbn [PageManager.mFreePageList].
  destruct free as [|f rest]; [exact O|]. cbn.
  apply okPages_setNth; [exact O|constructor].
Qed.

Lemma eraseIfOrphan_idem l e :
  eraseIfOrphan l (eraseIfOrphan l e) = eraseIfOrphan l e.
Proof.
  unfold eraseIfOrphan at 2 3.
  destruct (_ && _ && _) eqn:C.
  - reflexivity.
  - unfold eraseIfOrphan. now rewrite C.
Qed.

Lemma reclaimed_idem l p : reclaimed l (reclaimed l p) = reclaimed l p.
Proof.
  unfold reclaimed. cbn. f_equal. rewrite map_map.
  apply map_ext. intros e. apply eraseIfOrphan_idem.
Qed.

Lemma reclaimed_ok l p : okPage p -> okPage (reclaimed l p).
Proof.
  intros H. apply (okPage_items p); [|exact H].
  cbn. rewrite map_map. apply map_ext. intros e. unfold eraseIfOrphan.
  destruct (_ && _ && _); reflexivity.
Qed.

(** [eraseOrphanDataBlobs], page by page. *)
Lemma eraseOrphans_fold l bl acc :
  okPages (PageManager.mPages (Storage.mPageManager acc)) ->
  let r :=
    fold_left (fun a i =>
                 Storage.setPage a i
                   (Storage.eraseOrphansOfPage
                      (Storage.scanFuel (Storage.page a i)) bl
                      (Storage.page a i) O)) l acc in
  (forall i, Storage.page r i
             = if existsb (Nat.eqb i) l then reclaimed bl (Storage.page acc i)
               else Storage.page acc i)
  /\ Storage.pageList r = Storage.pageList acc
  /\ sameTables acc r
  /\ Storage.mLastError r = Storage.mLastError acc.
Proof.
  revert acc. induction l as [|j l IH]; intros acc Ok; cbn [fold_left existsb].
  - repeat split.
  - set (acc1 := Storage.setPage acc j _).
    assert (E1 : acc1 = Storage.setPage acc j (reclaimed bl (Storage.page acc j))).
    { subst acc1. f_equal. apply eraseOrphansOfPage_page.
      now apply okPages_nth. }
    clearbody acc1. subst acc1.
    set (acc1 := Storage.setPage acc j (reclaimed bl (Storage.page acc j))).
    destruct (IH acc1) as (P & L & T & E).
    { subst acc1. cbn. apply okPages_setNth; [exact Ok|].
      apply reclaimed_ok. now apply okPages_nth. }
    split; [|split; [exact L|split; [|exact E]]].
    + intros i. rewrite P.
      assert (Q : Storage.page acc1 i
                  = if (Nat.eqb j i
                        && (j <? List.length
                                   (PageManager.mPages (Storage.mPageManager acc)))%nat)%bool
                    then reclaimed bl (Storage.page acc j)
                    else Storage.page acc i)
        by apply page_setPage.
      rewrite Q. rewrite (Nat.eqb_sym i j).
      destruct (Nat.eqb_spec j i) as [->|N]; cbn [andb orb].
      * destruct (Nat.ltb_spec i (List.length
                    (PageManager.mPages (Storage.mPageManager acc)))) as [Lt|Ge].
        -- destruct (existsb _ l); [apply reclaimed_idem|reflexivity].
        -- assert (Z : Storage.page acc i = Page.erased).
           { unfold Storage.page, PageManager.page.
             now rewrite nth_overflow. }
           rewrite Z. destruct (existsb _ l); reflexivity.
      * reflexivity.
    + destruct T as (T1 & T2 & T3 & T4). repeat split; assumption.
Qed.

Lemma scan_in es i start f j it :
  Page.scan es i start f = Some (j, it) -> In (WRITTEN, it) es /\ f it = true.
Proof.
  revert i. induction es as [|[st x] es IH]; intros i; cbn [Page.scan];
    [discriminate|].
  destruct (_ && _ && f x) eqn:C.
  - intros H. injection H as _ <-.
    apply andb_true_iff in C as [C F]. apply andb_true_iff in C as [_ W].
    destruct st; try discriminate W. split; [now left|assumption].
  - intros H. apply IH in H as [H1 H2]. split; [now right|assumption].
Qed.

Lemma populateFromPage_sound fuel p start acc node :
  In node (Storage.populateFromPage fuel p start acc) ->
  In node acc
  \/ exists idx,
       In (WRITTEN, idx) (Page.entries p) /\ datatype idx = BLOB_IDX
       /\ node = Storage.blobIndexNode idx.
Proof.
  revert start acc. induction fuel as [|fuel IH]; intros start acc;
    cbn [Storage.populateFromPage]; [tauto|].
  rewrite page_findItem_scan.
  destruct (Page.scan _ _ _ _) as [[i it]|] eqn:S; cbv beta iota; [|tauto].
  intros H. apply IH in H as [H|H]; [|now right].
  apply in_app_or in H as [H|[<-|[]]]; [now left|]. right.
  apply scan_in in S as [S1 S2]. exists it. split; [exact S1|].
  split; [|reflexivity].
  unfold Page.matches in S2. cbn in S2. rewrite !andb_true_r in S2.
  now apply ItemType_eqb_eq in S2.
Qed.

Lemma populateBlobIndices_sound s ok s' bl node :
  Storage.populateBlobIndices s [] = (ok, s', bl) ->
  In node bl -> fromIndex s node.
Proof.
  unfold Storage.populateBlobIndices. intros H. injection H as _ _ <-.
  assert (G : forall l acc,
             In node (fold_left
                        (fun a i => Storage.populateFromPage
                                      (Storage.scanFuel (Storage.page s i))
                                      (Storage.page s i) O a) l acc) ->
             In node acc
             \/ exists j idx,
                  In j l /\ In (WRITTEN, idx) (Page.entries (Storage.page s j))
                  /\ datatype idx = BLOB_IDX
                  /\ node = Storage.blobIndexNode idx).
  { induction l as [|j l IH]; intros acc; cbn [fold_left]; [tauto|].
    intros H. apply IH in H as [H|(j' & idx & I & R)].
    - apply populateFromPage_sound in H as [H|(idx & R)]; [now left|].
      right. exists j, idx. split; [now left|exact R].
    - right. exists j', idx. split; [now right|exact R]. }
  intros I. apply G in I as [[]|I]. exact I.
Qed.

Lemma truncate_idem n k :
  ItemLayout.truncate n (ItemLayout.truncate n k) = ItemLayout.truncate n k.
Proof.
  revert k. induction n as [|n IH]; intros k; destruct k; cbn; try reflexivity.
  now rewrite IH.
Qed.

Lemma covers_covered it idx :
  Storage.covers it (Storage.blobIndexNode idx) = true -> covered it idx.
Proof.
  unfold Storage.covers, Storage.blobIndexNode, covered, ItemLayout.getKey.
  cbn [BlobIndexNode.key BlobIndexNode.nsIndex BlobIndexNode.chunkStart
       BlobIndexNode.chunkCount].
  rewrite truncate_idem, !andb_true_iff.
  intros [[[K N] L] U].
  apply String.eqb_eq in K. apply Z.eqb_eq in N.
  apply Z.leb_le in L. apply Z.ltb_lt in U. repeat split; assumption.
Qed.

Lemma existsb_eqb_in i l : In i l -> existsb (Nat.eqb i) l = true.
Proof.
  intros H. apply existsb_exists. exists i. split; [assumption|].
  apply Nat.eqb_refl.
Qed.

(** Orphan reclamation where no chunk has 0xFF as namespace index or chunk
    index.  After [init] has succeeded on such a partition, every WRITTEN
    BLOB_DATA item of the pages is covered by a WRITTEN BLOB_IDX item of the
    pages: what was not covered has been erased. *)
Theorem init_reclaims_orphans (s s' : Storage.t) :
  chunksWellFormed (PageManager.mPages (Storage.mPageManager s)) = true ->
  Storage.init s = (true, s') ->
  forall i it,
    In i (Storage.pageList s') ->
    In (WRITTEN, it) (Page.entries (Storage.page s' i)) ->
    datatype it = BLOB_DATA ->
    exists j idx,
      In j (Storage.pageList s')
      /\ In (WRITTEN, idx) (Page.entries (Storage.page s' j))
      /\ datatype idx = BLOB_IDX
      /\ covered it idx.
Proof.
  intros W. apply chunksWellFormed_ok in W. unfold Storage.init.
  destruct (negb (Nat.eqb _ _)); [discriminate|].
  pose proof (load_ok _ W) as Ok.
  destruct (PageManager.load _) as [err pm]. cbn [snd] in Ok.
  destruct (negb (esp_err_eqb err ESP_OK)); [discriminate|].
  destruct (fold_left _ _ _) as [nss usage].
  destruct (Storage.populateBlobIndices _ _) as [[ok s3] bl] eqn:P.
  pose proof (fun node => populateBlobIndices_sound _ _ _ _ node P) as Sound.
  unfold Storage.populateBlobIndices in P. injection P as <- <- _.
  cbn [negb]. unfold Storage.eraseOrphanDataBlobs.
  match goal with
  | |- context [fold_left ?f ?l ?a] =>
      destruct (eraseOrphans_fold l bl a Ok) as (Pg & Lst & _ & _);
      set (s4 := fold_left f l a) in *
  end.
  intros H. injection H as <-.
  intros i it Ii Iw Dt.
  change (Storage.pageList (Storage.setLastError s4 ESP_OK))
    with (Storage.pageList s4) in *.
  change (Storage.page (Storage.setLastError s4 ESP_OK))
    with (Storage.page s4) in *.
  rewrite Lst in Ii. rewrite Pg, (existsb_eqb_in _ _ Ii) in Iw.
  cbn [reclaimed Page.entries] in Iw.
  apply in_map_iff in Iw as ([st x] & E & Ix).
  unfold eraseIfOrphan in E. cbn [fst snd] in E.
  destruct (isWritten st && isChunk x
            && negb (existsb (Storage.covers x) bl)) eqn:C;
    [discriminate E|].
  injection E as -> ->.
  assert (Cov : existsb (Storage.covers it) bl = true).
  { unfold isChunk in C. rewrite Dt in C. cbn in C.
    now apply negb_false_iff in C. }
  apply existsb_exists in Cov as (node & In_node & Cov).
  destruct (Sound node In_node) as (j & idx & Ij & Iidx & Didx & ->).
  exists j, idx. rewrite Lst. split; [exact Ij|]. split; [|split].
  - rewrite Pg.
    match goal with
    | |- context [existsb ?f ?l] =>
        replace (existsb f l) with true
          by (symmetry; exact (existsb_eqb_in _ _ Ij))
    end.
    cbn [reclaimed Page.entries].
    apply in_map_iff. exists (WRITTEN, idx). split; [|exact Iidx].
    unfold eraseIfOrphan, isChunk. cbn [fst snd]. rewrite Didx. reflexivity.
  - exact Didx.
  - now apply covers_covered.
Qed.

(** Scenario S3 mounted: the three chunks of "x" are ERASED, the blob "y"
    is untouched. *)
Lemma init_reclaims_orphans_witness :
  chunksWellFormed orphanPartition = true
  /\ fst (Storage.init (Storage.create orphanPartition)) = true
  /\ Page.entries (Storage.page (snd (Storage.init (Storage.create orphanPartition))) 0)
     = [ (ERASED, mkItem 1 BLOB_DATA 2 0 "x" [1; 2; 3]);
         (ERASED, mkItem 1 BLOB_DATA 2 1 "x" [4; 5; 6]);
         (WRITTEN, mkItem 1 BLOB_DATA 2 0 "y" [7; 8]);
         (WRITTEN, mkItem 1 BLOB_IDX 1 255 "y" [2; 0; 0; 0; 1; 0; 255; 255]);
         (ERASED, mkItem 1 BLOB_DATA 2 2 "x" [9]) ]
  /\ exists j idx,
       In j (Storage.pageList (snd (Storage.init (Storage.create orphanPartition))))
       /\ In (WRITTEN, idx)
             (Page.entries
                (Storage.page (snd (Storage.init (Storage.create orphanPartition))) j))
       /\ datatype idx = BLOB_IDX
       /\ covered (mkItem 1 BLOB_DATA 2 0 "y" [7; 8]) idx.
Proof.
  split; [reflexivity|]. split; [reflexivity|]. split; [reflexivity|].
  apply (init_reclaims_orphans (Storage.create orphanPartition) _ eq_refl
           (surjective_pairing _) 0%nat).
  - vm_compute. now left.
  - vm_compute. right. right. now left.
  - reflexivity.
Defined.

(** C2 at the failing input.  [init] succeeds on the partition.  Chunk 255
    of "y" is covered by no index, and the sweep of
    [eraseOrphanDataBlobs] passes its chunk index to [Page::eraseItem],
    where 255 is [CHUNK_ANY]: the first chunk of "y" on the page is erased,
    which is chunk 0, the one the index covers.  The chunk that no index
    covers is still WRITTEN after the mount. *)
Theorem init_sweep_erases_covered_chunk :
  fst wildcardMounted = true
  /\ Storage.pageList (snd wildcardMounted) = [0%nat]
  /\ Page.entries (Storage.page (snd wildcardMounted) 0)
     = [ (WRITTEN, mkItem 0 U8 1 255 "cfg" [1]);
         (ERASED, mkItem 1 BLOB_DATA 2 0 "y" [7; 8]);
         (WRITTEN, mkItem 1 BLOB_IDX 1 255 "y" [2; 0; 0; 0; 1; 0; 255; 255]);
         (WRITTEN, mkItem 1 BLOB_DATA 2 255 "y" [9]) ]
  /\ covered (mkItem 1 BLOB_DATA 2 0 "y" [7; 8])
             (mkItem 1 BLOB_IDX 1 255 "y" [2; 0; 0; 0; 1; 0; 255; 255])
  /\ ~ (exists j idx,
          In j (Storage.pageList (snd wildcardMounted))
          /\ In (WRITTEN, idx)
                (Page.entries (Storage.page (snd wildcardMounted) j))
          /\ datatype idx = BLOB_IDX
          /\ covered (mkItem 1 BLOB_DATA 2 255 "y" [9]) idx).
Proof.
  split; [vm_compute; reflexivity|]. split; [vm_compute; reflexivity|].
  split; [vm_compute; reflexivity|]. split.
  - unfold covered. cbn. repeat split; lia.
  - intros (j & idx & Ij & Iw & D & C).
    assert (J : j = 0%nat)
      by (vm_compute in Ij; destruct Ij as [J|[]]; now symmetry).
    subst j.
    assert (E : Page.entries (Storage.page (snd wildcardMounted) 0)
                = [ (WRITTEN, mkItem 0 U8 1 255 "cfg" [1]);
                    (ERASED, mkItem 1 BLOB_DATA 2 0 "y" [7; 8]);
                    (WRITTEN, mkItem 1 BLOB_IDX 1 255 "y"
                                     [2; 0; 0; 0; 1; 0; 255; 255]);
                    (WRITTEN, mkItem 1 BLOB_DATA 2 255 "y" [9]) ])
      by (vm_compute; reflexivity).
    rewrite E in Iw. cbn [In] in Iw.
    destruct Iw as [H|[H|[H|[H|[]]]]]; inversion H; subst idx;
      try discriminate D.
    destruct C as (_ & _ & C). vm_compute in C. destruct C as [_ C].
    discriminate C.
Qed.

(** ** The rollback of a failed blob write (C1) *)

(** C1 at the failing input.  The blob "big" is stored in version 0 and
    readable.  Overwriting it with 3905 bytes writes the first chunk with
    chunk index [VER_1_OFFSET + 0 = 128] into the second page and then runs
    out of space.  The rollback erases chunk index 0 on that page: the chunk
    of the stored version is ERASED, the chunk just written stays WRITTEN,
    and the blob that was stored cannot be read any more. *)
Theorem rollback_misses_version1_chunks :
  Storage.readItem beforeOverwrite 1 BLOB (Some "big"%string) 3
  = (true, Storage.setLastError beforeOverwrite ESP_OK, [1; 2; 3])
  /\ fst (Storage.writeItem beforeOverwrite 1 BLOB "big" (repeat 9 3905)) = false
  /\ Storage.mLastError afterOverwrite = ESP_ERR_NVS_NOT_ENOUGH_SPACE
  /\ In (WRITTEN, mkItem 1 BLOB_DATA 123 128 "big" (repeat 9 3904))
        (Page.entries (Storage.page afterOverwrite 1))
  /\ In (ERASED, mkItem 1 BLOB_DATA 2 0 "big" [1; 2; 3])
        (Page.entries (Storage.page afterOverwrite 1))
  /\ In (WRITTEN, mkItem 1 BLOB_IDX 1 255 "big" [3; 0; 0; 0; 1; 0; 255; 255])
        (Page.entries (Storage.page afterOverwrite 1))
  /\ fst (fst (Storage.readItem afterOverwrite 1 BLOB (Some "big"%string) 3))
     = false
  /\ Storage.mLastError
       (snd (fst (Storage.readItem afterOverwrite 1 BLOB (Some "big"%string) 3)))
     = ESP_ERR_NVS_NOT_FOUND.
Proof.
  split; [vm_compute; reflexivity|].
  split; [vm_compute; reflexivity|].
  split; [vm_compute; reflexivity|].
  split; [vm_compute; right; right; left; reflexivity|].
  split; [vm_compute; left; reflexivity|].
  split; [vm_compute; right; left; reflexivity|].
  split; vm_compute; reflexivity.
Qed.

(** C4 at the failing input.  After the failed overwrite above,
    [eraseItem(1, STR, "text")] makes room and
    [writeItem(1, BLOB, "big", {5, 6})] succeeds: it stores the value in
    version 1, chunk 128 and index on the first page, while the chunk 128
    that the rollback left is still WRITTEN on the second page, which comes
    first in the page list.  Writing the same two bytes again succeeds, but
    is not elided: the comparison meets the chunk left behind, and the value
    is programmed once more, in version 0, and index and chunk of version 1
    are erased. *)
Theorem identical_rewrite_not_elided :
  Storage.eraseItem afterOverwrite 1 STR (Some "text"%string)
  = (true, roomMade)
  /\ Storage.writeItem roomMade 1 BLOB "big" [5; 6] = (true, rewrittenBlob)
  /\ Storage.pageList rewrittenBlob = [1%nat; 0%nat]
  /\ Page.entries (Storage.page rewrittenBlob 0)
     = [ (WRITTEN, mkItem 0 U8 1 255 "cfg" [1]);
         (WRITTEN, mkItem 1 BLOB_DATA 2 128 "big" [5; 6]);
         (WRITTEN, mkItem 1 BLOB_IDX 1 255 "big"
                          [2; 0; 0; 0; 1; 128; 255; 255]) ]
  /\ In (WRITTEN, staleChunk) (Page.entries (Storage.page rewrittenBlob 1))
  /\ fst (Storage.writeItem rewrittenBlob 1 BLOB "big" [5; 6]) = true
  /\ Page.entries
       (Storage.page (snd (Storage.writeItem rewrittenBlob 1 BLOB "big" [5; 6]))
                     0)
     = [ (WRITTEN, mkItem 0 U8 1 255 "cfg" [1]);
         (WRITTEN, mkItem 1 BLOB_DATA 2 128 "big" [5; 6]);
         (ERASED, mkItem 1 BLOB_IDX 1 255 "big"
                         [2; 0; 0; 0; 1; 128; 255; 255]);
         (WRITTEN, mkItem 1 BLOB_DATA 2 0 "big" [5; 6]);
         (WRITTEN, mkItem 1 BLOB_IDX 1 255 "big"
                          [2; 0; 0; 0; 1; 0; 255; 255]) ]
  /\ In (ERASED, staleChunk)
        (Page.entries
           (Storage.page
              (snd (Storage.writeItem rewrittenBlob 1 BLOB "big" [5; 6])) 1))
  /\ snd (Storage.writeItem rewrittenBlob 1 BLOB "big" [5; 6])
     <> Storage.setLastError rewrittenBlob ESP_OK.
Proof.
  split; [vm_compute; reflexivity|].
  split; [vm_compute; reflexivity|].
  split; [vm_compute; reflexivity|].
  split; [vm_compute; reflexivity|].
  split; [vm_compute; right; right; now left|].
  split; [vm_compute; reflexivity|].
  split; [vm_compute; reflexivity|].
  split; [vm_compute; right; right; now left|].
  intros H. apply (f_equal (fun s => List.length
                                       (Page.entries (Storage.page s 0)))) in H.
  vm_compute in H. discriminate H.
Qed.

(** ** Pages keep their items across [requestNewPage] *)

Lemma nodupNat_NoDup l : nodupNat l = true -> NoDup l.
Proof.
  induction l as [|x l IH]; cbn; [constructor|].
  intros H. apply andb_true_iff in H as [H1 H2]. constructor; [|now apply IH].
  intros I. apply negb_true_iff in H1.
  assert (E : existsb (Nat.eqb x) l = true).
  { apply existsb_exists. exists x. split; [assumption|apply Nat.eqb_refl]. }
  congruence.
Qed.

Lemma wfPM_wf pm : wfPM pm = true -> wf pm.
Proof.
  unfold wfPM, wf. intros H. apply andb_true_iff in H as [H1 H2].
  split; [now apply nodupNat_NoDup|].
  intros i I. rewrite forallb_forall in H2. specialize (H2 i I).
  now apply Nat.ltb_lt in H2.
Qed.

Lemma countPage_writtenOnly es g :
  countPage (PageManager.writtenOnly es) g = countPage es g.
Proof.
  unfold PageManager.writtenOnly.
  induction es as [|[st it] es IH]; cbn [filter countPage fst];
    [reflexivity|].
  destruct (isWritten st) eqn:W; cbn [countPage andb]; [rewrite W|];
    now rewrite IH.
Qed.

Lemma countW_ext pm pm' l g :
  (forall j, In j l -> PageManager.page pm' j = PageManager.page pm j) ->
  countW pm' l g = countW pm l g.
Proof.
  induction l as [|j l IH]; intros H; cbn [countW]; [reflexivity|].
  rewrite H by now left. rewrite IH; [reflexivity|].
  intros x I. apply H. now right.
Qed.

Lemma countW_app pm l1 l2 g :
  countW pm (l1 ++ l2) g = (countW pm l1 g + countW pm l2 g)%nat.
Proof. induction l1 as [|j l IH]; cbn; [reflexivity|]. rewrite IH. lia. Qed.

Lemma in_remove_nat v l x :
  In x (PageManager.remove_nat v l) <-> In x l /\ x <> v.
Proof.
  unfold PageManager.remove_nat. rewrite filter_In, negb_true_iff, Nat.eqb_neq.
  split; intros [A B]; split; auto.
Qed.

Lemma countW_remove pm l v g :
  NoDup l -> In v l ->
  countW pm l g
  = (countW pm (PageManager.remove_nat v l) g
     + countPage (Page.entries (PageManager.page pm v)) g)%nat.
Proof.
  unfold PageManager.remove_nat.
  induction l as [|j l IH]; [contradiction|].
  intros N I. inversion N as [|? ? Nj Nl]; subst. cbn [countW filter].
  destruct (Nat.eqb_spec v j) as [->|Ne]; cbn [negb].
  - assert (R : filter (fun y => negb (Nat.eqb j y)) l = l).
    { clear -Nj. induction l as [|x l IH]; cbn; [reflexivity|].
      destruct (Nat.eqb_spec j x) as [->|]; cbn.
      - exfalso. apply Nj. now left.
      - rewrite IH; [reflexivity|]. intros I. apply Nj. now right. }
    rewrite R. lia.
  - destruct I as [->|I]; [contradiction|].
    cbn [countW]. rewrite (IH Nl I). lia.
Qed.

Lemma page_setPage_other pm i p j :
  i <> j -> PageManager.page (PageManager.setPage pm i p) j = PageManager.page pm j.
Proof.
  intros N. rewrite page_setPage.
  destruct (Nat.eqb_spec i j); [contradiction|reflexivity].
Qed.

Lemma page_setPage_at pm i p :
  (i < List.length (PageManager.mPages pm))%nat ->
  PageManager.page (PageManager.setPage pm i p) i = p.
Proof.
  intros L. rewrite page_setPage, Nat.eqb_refl.
  destruct (Nat.ltb_spec i (List.length (PageManager.mPages pm))); [reflexivity|lia].
Qed.

Lemma countW_setPage_same pm i p l g :
  countPage (Page.entries p) g
  = countPage (Page.entries (PageManager.page pm i)) g ->
  countW (PageManager.setPage pm i p) l g = countW pm l g.
Proof.
  intros H. induction l as [|j l IH]; cbn [countW]; [reflexivity|].
  rewrite IH, page_setPage.
  destruct (Nat.eqb_spec i j) as [->|]; cbn [andb]; [|reflexivity].
  destruct (_ <? _)%nat; [now rewrite H|reflexivity].
Qed.

Lemma wf_setPage pm i p : wf pm -> wf (PageManager.setPage pm i p).
Proof.
  unfold wf, PageManager.setPage. cbn. now rewrite length_setNth.
Qed.

Lemma NoDup_app_parts (l1 l2 : list nat) :
  NoDup (l1 ++ l2) ->
  NoDup l1 /\ NoDup l2 /\ forall a, In a l1 -> ~ In a l2.
Proof.
  intros H. split; [now apply NoDup_app_remove_r in H|].
  split; [now apply NoDup_app_remove_l in H|].
  induction l1 as [|x l1 IH]; [intros a []|].
  cbn in H. inversion H as [|? ? Nx Nl]; subst.
  intros a [->|I] I2.
  - apply Nx. apply in_or_app. now right.
  - now apply (IH Nl a).
Qed.

Lemma remove_nat_snoc v l f :
  f <> v ->
  PageManager.remove_nat v (l ++ [f]) = PageManager.remove_nat v l ++ [f].
Proof.
  intros N. unfold PageManager.remove_nat. rewrite filter_app. cbn.
  destruct (Nat.eqb_spec v f); [congruence|reflexivity].
Qed.

(** [requestNewPage] keeps the lists well formed and moves no item out of
    sight: for every filter the pages in use hold as many WRITTEN items as
    before. *)
Lemma requestNewPage_keeps pm pm' :
  wf pm ->
  PageManager.requestNewPage pm = (ESP_OK, pm') ->
  wf pm'
  /\ forall g, countW pm' (PageManager.mPageList pm') g
               = countW pm (PageManager.mPageList pm) g.
Proof.
  intros W. unfold PageManager.requestNewPage.
  destruct (PageManager.mPageList pm) as [|p0 l0] eqn:L; [discriminate|].
  rewrite <- L. clear p0 l0 L.
  match goal with
  | |- context [PageManager.activatePage ?x] => set (pm1 := x)
  end.
  assert (W1 : wf pm1).
  { subst pm1. destruct (PageState.eqb _ _); [now apply wf_setPage|exact W]. }
  assert (C1 : forall g l, countW pm1 l g = countW pm l g).
  { intros g l. subst pm1. destruct (PageState.eqb _ _); [|reflexivity].
    apply countW_setPage_same. now rewrite markFull_entries. }
  assert (L1 : PageManager.mPageList pm1 = PageManager.mPageList pm).
  { subst pm1. destruct (PageState.eqb _ _); reflexivity. }
  rewrite <- L1.
  setoid_rewrite <- C1. clearbody pm1. clear W C1 L1 pm.
  destruct W1 as [ND IR].
  destruct (PageManager.mFreePageList pm1) as [|f rest] eqn:F.
  { unfold PageManager.activatePage. rewrite F. cbn [List.length Nat.leb].
    destruct (PageManager.pickVictim _ _ _); discriminate. }
  set (l := PageManager.mPageList pm1) in *.
  set (ps := PageManager.mPages pm1) in *.
  destruct (NoDup_app_parts _ _ ND) as (Nl & Nf & Dj).
  assert (Fl : ~ In f l).
  { intros I. apply (Dj f I). now left. }
  assert (Fr : (f < List.length ps)%nat).
  { apply IR. apply in_or_app. right. now left. }
  assert (A : PageManager.activatePage pm1
              = (ESP_OK,
                 PageManager.mk (PageManager.setNth ps f
                                   (Page.fresh (PageManager.mSeqNumber pm1)))
                                (l ++ [f]) rest (PageManager.mSeqNumber pm1 + 1))).
  { unfold PageManager.activatePage. now rewrite F. }
  rewrite A. clear A.
  destruct (2 <=? _)%nat.
  - intros H. injection H as <-. split.
    + split; cbn.
      * rewrite <- app_assoc. exact ND.
      * intros i I. rewrite length_setNth. apply IR.
        rewrite <- app_assoc in I. exact I.
    + intros g. cbn [PageManager.mPageList]. rewrite countW_app.
      match goal with
      | |- (countW ?x _ _ + _ = _)%nat => set (pm2 := x)
      end.
      assert (Pf : PageManager.page pm2 f
                   = Page.fresh (PageManager.mSeqNumber pm1)).
      { unfold PageManager.page. subst pm2. cbn [PageManager.mPages].
        rewrite nth_setNth, Nat.eqb_refl.
        destruct (Nat.ltb_spec f (List.length ps)); [reflexivity|lia]. }
      cbn [countW]. rewrite Pf. cbn [Page.fresh Page.entries countPage].
      rewrite !Nat.add_0_r. apply countW_ext.
      intros j Ij. unfold PageManager.page. subst pm2. cbn [PageManager.mPages].
      rewrite nth_setNth.
      destruct (Nat.eqb_spec f j) as [->|]; [contradiction|reflexivity].
  - destruct (PageManager.pickVictim pm1 l None) as [v|] eqn:V; [|discriminate].
    apply pickVictim_spec in V as [[V|V] _]; [discriminate|].
    assert (Nvf : f <> v) by (intros ->; contradiction).
    intros H. injection H as <-.
    unfold PageManager.back, PageManager.setPage.
    cbn [PageManager.mPageList PageManager.mPages PageManager.mFreePageList
         PageManager.mSeqNumber].
    rewrite !last_last.
    split.
    + split; cbn [PageManager.mPageList PageManager.mFreePageList
                  PageManager.mPages].
      * rewrite remove_nat_snoc by assumption.
        destruct (NoDup_cons_iff f rest) as [Nc _].
        specialize (Nc Nf) as [Nfr Nr].
        apply NoDup_app.
        -- apply NoDup_app.
           ++ unfold PageManager.remove_nat. now apply NoDup_filter.
           ++ constructor; [intros []|constructor].
           ++ intros a Ia [<-|[]]. apply in_remove_nat in Ia as [Ia _].
              contradiction.
        -- apply NoDup_app; [exact Nr|constructor; [intros []|constructor]|].
           intros a Ia [<-|[]]. apply (Dj v V). now right.
        -- intros a Ia Ib. apply in_app_or in Ia, Ib.
           destruct Ia as [Ia|[<-|[]]].
           ++ apply in_remove_nat in Ia as [Ia Na].
              destruct Ib as [Ib|[<-|[]]]; [|congruence].
              apply (Dj a Ia). now right.
           ++ destruct Ib as [Ib|[Ib|[]]]; [contradiction|congruence].
      * intros i I. rewrite !length_setNth. apply IR.
        rewrite remove_nat_snoc in I by assumption.
        apply in_app_or in I as [I|I]; apply in_or_app.
        -- apply in_app_or in I as [I|[<-|[]]].
           ++ apply in_remove_nat in I as [I _]. now left.
           ++ right. now left.
        -- apply in_app_or in I as [I|[<-|[]]].
           ++ right. now right.
           ++ now left.
    + intros g. cbn [PageManager.mPageList].
      rewrite remove_nat_snoc by assumption. rewrite countW_app.
      cbn [countW]. rewrite Nat.add_0_r.
      rewrite (countW_remove pm1 l v g Nl V).
      f_equal.
      * apply countW_ext. intros j Ij. apply in_remove_nat in Ij as [Ij Nj].
        unfold PageManager.page. cbn [PageManager.mPages].
        rewrite !nth_setNth.
        destruct (Nat.eqb_spec v j) as [->|]; [contradiction|].
        destruct (Nat.eqb_spec f j) as [->|]; [contradiction|reflexivity].
      * unfold PageManager.page. cbn [PageManager.mPages].
        rewrite !nth_setNth.
        destruct (Nat.eqb_spec v f) as [->|]; [contradiction|].
        rewrite Nat.eqb_refl, !length_setNth.
        destruct (Nat.ltb_spec f (List.length ps)); [|lia].
        cbn [andb Page.entries]. rewrite countPage_writtenOnly.
        destruct (Nat.eqb_spec f v); [contradiction|reflexivity].
Qed.

(** ** A blob write leaves the items of other types in sight *)

Lemma countPage_app a b g :
  countPage (a ++ b) g = (countPage a g + countPage b g)%nat.
Proof.
  induction a as [|[st it] a IH]; cbn [app countPage]; [reflexivity|].
  rewrite IH. lia.
Qed.

Lemma page_writeItem_count p ns dt k d ci g :
  rejects g dt ->
  countPage (Page.entries (snd (Page.writeItem p ns dt k d ci))) g
  = countPage (Page.entries p) g.
Proof.
  intros R. unfold Page.writeItem.
  destruct (negb _); [reflexivity|].
  destruct (_ <? _)%nat; [reflexivity|].
  cbn [snd Page.entries]. rewrite countPage_app. cbn [countPage isWritten andb].
  rewrite R by reflexivity. lia.
Qed.

Lemma requestNewPage_visible s s' :
  wfS s -> Storage.requestNewPage s = (true, s') ->
  wfS s' /\ forall g, visible s' g = visible s g.
Proof.
  unfold Storage.requestNewPage, wfS, visible, Storage.pageList.
  destruct (PageManager.requestNewPage _) as [err pm] eqn:R.
  intros W H. injection H as E <-. apply esp_err_eqb_eq in E. subst err.
  cbn [Storage.mPageManager Storage.setLastError Storage.setPageManager].
  now apply requestNewPage_keeps.
Qed.

Lemma markFullIfNeeded_visible s pg ok s' :
  wfS s -> Storage.markFullIfNeeded s pg = (ok, s') ->
  wfS s' /\ forall g, visible s' g = visible s g.
Proof.
  unfold Storage.markFullIfNeeded, wfS, visible, Storage.pageList.
  intros W. destruct (negb _).
  - destruct (Page.markFull _) as [err p'] eqn:M.
    intros H. injection H as _ <-.
    cbn [Storage.mPageManager Storage.setLastError Storage.setPage
         Storage.setPageManager].
    split; [now apply wf_setPage|].
    intros g. apply countW_setPage_same.
    change p' with (snd (err, p')). rewrite <- M. now rewrite markFull_entries.
  - intros H. injection H as _ <-. split; [exact W|reflexivity].
Qed.

Lemma pageWrite_visible s pg ns dt k d ci err p' :
  wfS s ->
  Page.writeItem (Storage.page s pg) ns dt k d ci = (err, p') ->
  wfS (Storage.setLastError (Storage.setPage s pg p') err)
  /\ forall g, rejects g dt ->
               visible (Storage.setLastError (Storage.setPage s pg p') err) g
               = visible s g.
Proof.
  unfold wfS, visible, Storage.pageList. intros W E.
  cbn [Storage.mPageManager Storage.setLastError Storage.setPage
       Storage.setPageManager].
  split; [now apply wf_setPage|].
  intros g R. apply countW_setPage_same.
  change p' with (snd (err, p')). rewrite <- E.
  now apply page_writeItem_count.
Qed.

Lemma writeLoop_visible g fuel s ns k d cs cc used rem off s' used' :
  rejects g BLOB_DATA -> rejects g BLOB_IDX ->
  wfS s ->
  Storage.writeLoop fuel s ns k d cs cc used rem off = Some (false, s', used') ->
  Storage.mLastError s' = ESP_OK ->
  wfS s' /\ visible s' g = visible s g.
Proof.
  intros Rd Ri. revert s cc used rem off.
  induction fuel as [|fuel IH]; intros s cc used rem off W; [discriminate|].
  cbn [Storage.writeLoop].
  destruct (_ && _ && _).
  { destruct (Storage.markFullIfNeeded _ _) as [ok1 s1] eqn:M.
    destruct ok1; cbn [negb]; [|discriminate].
    destruct (markFullIfNeeded_visible _ _ _ _ W M) as [W1 V1].
    destruct (Storage.requestNewPage s1) as [ok2 s2] eqn:R.
    destruct ok2; cbn [negb]; [|discriminate].
    destruct (requestNewPage_visible _ _ W1 R) as [W2 V2].
    destruct (_ =? _); [discriminate|].
    intros H E. destruct (IH _ _ _ _ _ W2 H E) as [W3 V3].
    split; [exact W3|]. now rewrite V3, V2, V1. }
  destruct (_ =? 0).
  { intros H E. injection H as <- _. discriminate E. }
  destruct (Page.writeItem _ _ _ _ _ _) as [err p'] eqn:Wr.
  destruct (pageWrite_visible _ _ _ _ _ _ _ _ _ W Wr) as [W1 V1].
  specialize (V1 g Rd).
  set (s1 := Storage.setLastError (Storage.setPage s _ p') err) in *.
  destruct (esp_err_eqb err ESP_OK) eqn:Eerr; cbn [negb].
  2: { intros H E. injection H as <- _. cbn in E. subst err. discriminate. }
  match goal with
  | |- context [let '(ok, s2) := ?c in _] => destruct c as [ok2 s2] eqn:C
  end.
  destruct ok2; cbn [negb].
  2: { intros H E. injection H as <- _. exfalso.
       destruct (_ || _); [|discriminate].
       destruct (Storage.markFullIfNeeded _ _) as [ok1 s1'] eqn:M.
       destruct ok1; cbn [negb] in C.
       - apply requestNewPage_error in C as [_ C]. apply C in E. discriminate.
       - injection C as <-. apply markFullIfNeeded_error in M as [_ M].
         contradiction. }
  assert (WV : wfS s2 /\ visible s2 g = visible s g).
  { destruct (_ || _).
    - destruct (Storage.markFullIfNeeded _ _) as [ok1 s1'] eqn:M.
      destruct (markFullIfNeeded_visible _ _ _ _ W1 M) as [W1' V1'].
      destruct ok1; cbn [negb] in C; [|discriminate].
      destruct (requestNewPage_visible _ _ W1' C) as [W2 V2].
      split; [exact W2|]. now rewrite V2, V1', V1.
    - injection C as <-. split; [exact W1|exact V1]. }
  destruct WV as [W2 V2].
  destruct (Nat.eqb _ 0).
  - destruct (Page.writeItem (Storage.page s2 _) _ _ _ _ _) as [err2 p2]
      eqn:Wr2.
    destruct (pageWrite_visible _ _ _ _ _ _ _ _ _ W2 Wr2) as [W3 V3].
    intros H E. injection H as <- _. split; [exact W3|].
    now rewrite (V3 g Ri), V2.
  - intros H E. destruct (IH _ _ _ _ _ W2 H E) as [W3 V3].
    split; [exact W3|]. now rewrite V3, V2.
Qed.

Lemma writeMultiPageBlob_visible g s ns k d cs s' :
  rejects g BLOB_DATA -> rejects g BLOB_IDX ->
  wfS s ->
  Storage.writeMultiPageBlob s ns k d cs = (true, s') ->
  wfS s' /\ visible s' g = visible s g.
Proof.
  intros Rd Ri W. unfold Storage.writeMultiPageBlob.
  destruct (_ <? _); [discriminate|].
  destruct (Storage.writeLoop _ _ _ _ _ _ _ _ _ _) as [[[ret s1] used]|] eqn:L;
    [|discriminate].
  destruct ret; [discriminate|].
  destruct (esp_err_eqb (Storage.mLastError s1) ESP_OK) eqn:E; cbn [negb];
    [|discriminate].
  intros H. injection H as <-. apply esp_err_eqb_eq in E.
  eapply writeLoop_visible; eassumption.
Qed.

(** ** Replacing a blob of the earlier format (C9) *)

Lemma legacyFilter_type ns k it : legacyFilter ns k it = true -> datatype it = BLOB.
Proof.
  unfold legacyFilter, Page.matches. cbn [ItemType_eqb orb].
  rewrite !andb_true_iff. intros [[[[_ T] _] _] _].
  now apply ItemType_eqb_eq in T.
Qed.

Lemma legacyFilter_rejects ns k dt : dt <> BLOB -> rejects (legacyFilter ns k) dt.
Proof.
  intros N it D. destruct (legacyFilter ns k it) eqn:E; [|reflexivity].
  apply legacyFilter_type in E. congruence.
Qed.

Lemma refind_same s ns dt k fp it :
  findIn s ns dt (Some k) Page.CHUNK_ANY VER_ANY = Some (fp, it) ->
  exists s1,
    Storage.refind s ns dt k (fp, it) = (s1, (fp, it))
    /\ Storage.mPageManager s1 = Storage.mPageManager s.
Proof.
  intros F. unfold Storage.refind. destruct (_ || _).
  - rewrite findItem_findIn, F. eexists. split; reflexivity.
  - eexists. split; reflexivity.
Qed.

(** C9.  On an ACTIVE Storage with well-formed page lists, let [(ns, k)]
    have no BLOB_IDX and exactly one item of the earlier format (type
    BLOB).  If [writeItem] with type BLOB succeeds, then the multi-page
    write has succeeded, the search that follows it has found the item of
    the earlier format, and that item has been erased: afterwards no item
    of type BLOB is visible for [(ns, k)]. *)
Theorem legacy_blob_erased (s : Storage.t) (ns : Z) (k : string) (d : list Z)
        (s' : Storage.t) :
  Storage.mState s = State.ACTIVE ->
  wfPM (Storage.mPageManager s) = true ->
  Storage.findItem s ns BLOB_IDX (Some k) Page.CHUNK_ANY VER_ANY
  = (false, Storage.setLastError s ESP_ERR_NVS_NOT_FOUND, None) ->
  visible s (legacyFilter ns k) = 1%nat ->
  Storage.writeItem s ns BLOB k d = (true, s') ->
  exists s4 fp legacy,
    Storage.writeMultiPageBlob (Storage.setLastError s ESP_ERR_NVS_NOT_FOUND)
                               ns k d VER_0_OFFSET = (true, s4)
    /\ Storage.findItem s4 ns BLOB (Some k) Page.CHUNK_ANY VER_ANY
       = (true, Storage.setLastError s4 ESP_OK, Some (fp, legacy))
    /\ datatype legacy = BLOB
    /\ visible s' (legacyFilter ns k) = O
    /\ fst (fst (Storage.findItem s' ns BLOB (Some k) Page.CHUNK_ANY VER_ANY))
       = false.
Proof.
  intros A W F U. apply wfPM_wf in W.
  unfold Storage.writeItem. rewrite (notActive_false _ A).
  cbn [ItemType_eqb]. rewrite F.
  cbn [negb andb Storage.mLastError Storage.setLastError esp_err_eqb].
  set (s1 := Storage.setLastError s ESP_ERR_NVS_NOT_FOUND).
  destruct (Storage.writeMultiPageBlob s1 ns k d VER_0_OFFSET) as [ok4 s4] eqn:Wr.
  destruct ok4; cbn [negb]; [|discriminate].
  destruct (writeMultiPageBlob_visible (legacyFilter ns k) s1 ns k d VER_0_OFFSET
              s4) as [W4 V4];
    [apply legacyFilter_rejects; discriminate
    |apply legacyFilter_rejects; discriminate|exact W|exact Wr|].
  change (visible s1 (legacyFilter ns k)) with (visible s (legacyFilter ns k))
    in V4.
  rewrite U in V4.
  rewrite findItem_findIn.
  destruct (findIn s4 ns BLOB (Some k) Page.CHUNK_ANY VER_ANY) as [[fp legacy]|]
    eqn:F4.
  2: { apply findIn_none_visible in F4. unfold legacyFilter in V4.
       rewrite F4 in V4. discriminate. }
  cbn [negb andb]. unfold Storage.eraseFound.
  assert (F4' : findIn (Storage.setLastError s4 ESP_OK) ns BLOB (Some k)
                       Page.CHUNK_ANY VER_ANY = Some (fp, legacy)) by exact F4.
  destruct (refind_same _ _ _ _ _ _ F4') as (s6 & R & P6). rewrite R.
  assert (U6 : (countW (Storage.mPageManager s6) (Storage.pageList s4)
                       (Page.matches ns BLOB (Some k) Page.CHUNK_ANY VER_ANY)
                <= 1)%nat).
  { rewrite P6. unfold visible, legacyFilter in V4.
    cbn [Storage.mPageManager Storage.setLastError]. rewrite V4. lia. }
  assert (F6 : Storage.findItemIn (Storage.mPageManager s6) (Storage.pageList s4)
                 ns BLOB (Some k) Page.CHUNK_ANY VER_ANY = Some (fp, legacy)).
  { rewrite P6. exact F4. }
  destruct (erase_unique _ _ _ _ _ _ _ _ _ U6 F6) as (p' & E & Z0 & _).
  unfold Storage.page. rewrite E. cbn [esp_err_eqb negb].
  intros H. injection H as <-.
  assert (Vis : visible
                  (Storage.setLastError
                     (Storage.setLastError (Storage.setPage s6 fp p') ESP_OK)
                     ESP_OK) (legacyFilter ns k) = O).
  { unfold visible, Storage.pageList.
    cbn [Storage.mPageManager Storage.setLastError Storage.setPage
         Storage.setPageManager PageManager.setPage PageManager.mPageList].
    assert (L6 : PageManager.mPageList (Storage.mPageManager s6)
                 = Storage.pageList s4).
    { rewrite P6. reflexivity. }
    rewrite L6. exact Z0. }
  exists s4, fp, legacy. split; [reflexivity|].
  split; [now rewrite findItem_findIn, F4|].
  split; [|split; [exact Vis|]].
  - apply findItemIn_found in F4 as [_ [i Sc]].
    apply scan_in in Sc as [_ M]. now apply (legacyFilter_type ns k).
  - rewrite findItem_findIn.
    apply findIn_none_visible in Vis. unfold legacyFilter in Vis.
    now rewrite Vis.
Qed.

Lemma legacy_blob_erased_witness :
  snd (Storage.readItem legacyStorage 1 BLOB (Some "old"%string) 3) = [1; 2; 3]
  /\ exists s',
       Storage.writeItem legacyStorage 1 BLOB "old" [4; 5] = (true, s')
       /\ visible s' (legacyFilter 1 "old") = O.
Proof.
  split; [reflexivity|].
  exists (snd (Storage.writeItem legacyStorage 1 BLOB "old" [4; 5])).
  assert (Wr : Storage.writeItem legacyStorage 1 BLOB "old" [4; 5]
               = (true, snd (Storage.writeItem legacyStorage 1 BLOB "old" [4; 5])))
    by (vm_compute; reflexivity).
  split; [exact Wr|].
  destruct (legacy_blob_erased legacyStorage 1 "old" [4; 5] _
              eq_refl eq_refl eq_refl eq_refl Wr)
    as (s4 & fp & legacy & _ & _ & _ & V & _).
  exact V.
Defined.

(** ** The item that [findItem] returns *)

Lemma scan_split es i f j it :
  Page.scan es i O f = Some (j, it) ->
  exists pre post,
    es = pre ++ (WRITTEN, it) :: post /\ countPage pre f = O /\ f it = true.
Proof.
  revert i. induction es as [|[st x] es IH]; intros i; cbn [Page.scan];
    [discriminate|].
  cbn [Nat.leb andb]. destruct (isWritten st && f x) eqn:C.
  - intros H. injection H as _ <-. apply andb_true_iff in C as [W F].
    destruct st; try discriminate W.
    exists [], es. repeat split; assumption.
  - intros H. apply IH in H as (pre & post & -> & N & F).
    exists ((st, x) :: pre), post. cbn [app countPage]. rewrite C, N.
    repeat split; assumption.
Qed.

Lemma findItemIn_split pm l ns dt k ci cs fp it :
  Storage.findItemIn pm l ns dt k ci cs = Some (fp, it) ->
  exists before after i,
    l = before ++ fp :: after
    /\ countW pm before (Page.matches ns dt k ci cs) = O
    /\ Page.scan (Page.entries (PageManager.page pm fp)) O O
                 (Page.matches ns dt k ci cs) = Some (i, it).
Proof.
  induction l as [|pg rest IH]; cbn [Storage.findItemIn]; [discriminate|].
  rewrite page_findItem_scan.
  destruct (Page.scan (Page.entries (PageManager.page pm pg)) _ _ _)
    as [[i it']|] eqn:S; cbv beta iota.
  - intros H. injection H as <- <-. exists [], rest, i.
    repeat split; assumption.
  - intros H. apply IH in H as (before & after & i & -> & N & S').
    exists (pg :: before), after, i. cbn [app countW].
    apply scan_none_count in S. rewrite S, N.
    repeat split; assumption.
Qed.

(** X1.  [findItem] fails with NOT_FOUND, changing nothing but the last
    error, exactly when no page in use holds a WRITTEN item that matches;
    otherwise it returns the first WRITTEN match of the first page, in the
    order of the page list, that holds one. *)
Theorem findItem_first_match (s : Storage.t) (ns : Z) (dt : ItemType)
        (k : option string) (ci : Z) (cs : VerOffset) :
  let f := Page.matches ns dt k ci cs in
  (visible s f = O
   /\ Storage.findItem s ns dt k ci cs
      = (false, Storage.setLastError s ESP_ERR_NVS_NOT_FOUND, None))
  \/ (exists fp it before after pre post,
         Storage.findItem s ns dt k ci cs
         = (true, Storage.setLastError s ESP_OK, Some (fp, it))
         /\ Storage.pageList s = before ++ fp :: after
         /\ countW (Storage.mPageManager s) before f = O
         /\ Page.entries (Storage.page s fp) = pre ++ (WRITTEN, it) :: post
         /\ countPage pre f = O
         /\ f it = true).
Proof.
  intros f. rewrite findItem_findIn.
  destruct (findIn s ns dt k ci cs) as [[fp it]|] eqn:F.
  - right. unfold findIn in F.
    apply findItemIn_split in F as (before & after & i & L & N & S).
    apply scan_split in S as (pre & post & E & Np & Fi).
    exists fp, it, before, after, pre, post. repeat split; assumption.
  - left. split; [|reflexivity]. now apply findIn_none_visible.
Qed.

(** ** Writing one item: what becomes visible *)

Lemma bytes_eqb_refl d : Page.bytes_eqb d d = true.
Proof. now apply bytes_eqb_eq. Qed.

Lemma ItemType_eqb_refl dt : ItemType_eqb dt dt = true.
Proof. now apply ItemType_eqb_eq. Qed.

Lemma keyFilter_newItem ns dt k d :
  keyFilter ns dt k (newItem ns dt k d Page.CHUNK_ANY) = true.
Proof.
  unfold keyFilter, Page.matches, newItem.
  cbn [nsIndex datatype key chunkIndex].
  rewrite Z.eqb_refl, ItemType_eqb_refl, String.eqb_refl, !orb_true_r.
  reflexivity.
Qed.

Lemma keyFilter_key ns dt k it : keyFilter ns dt k it = true -> key it = k.
Proof.
  unfold keyFilter, Page.matches. intros H.
  apply andb_true_iff in H as [H _]. apply andb_true_iff in H as [H _].
  apply andb_true_iff in H as [_ H]. apply String.eqb_eq in H. now symmetry.
Qed.

Lemma otherKeys_disjoint ns dt k g :
  otherKeys g k -> disjoint (keyFilter ns dt k) g.
Proof. intros O it F. apply O. now apply keyFilter_key in F. Qed.

Lemma page_writeItem_ok p ns dt k d ci p' :
  Page.writeItem p ns dt k d ci = (ESP_OK, p') ->
  Page.state p = PageState.ACTIVE
  /\ p' = Page.mk (Page.state p) (Page.seqNumber p)
                  (Page.entries p ++ [(WRITTEN, newItem ns dt k d ci)]).
Proof.
  unfold Page.writeItem.
  destruct (PageState.eqb (Page.state p) PageState.ACTIVE) eqn:A;
    cbn [negb]; [|discriminate].
  destruct (_ <? _)%nat; [discriminate|].
  intros H. injection H as <-. split; [|reflexivity].
  destruct (Page.state p); try discriminate A; reflexivity.
Qed.

Lemma page_writeItem_err p ns dt k d ci err p' :
  Page.writeItem p ns dt k d ci = (err, p') -> err <> ESP_OK -> p' = p.
Proof.
  unfold Page.writeItem.
  destruct (negb _); [intros H; now injection H as _ <-|].
  destruct (_ <? _)%nat; [intros H; now injection H as _ <-|].
  intros H. injection H as <- _. congruence.
Qed.

Lemma countW_setPage_in pm i p l g :
  NoDup l -> In i l -> (i < List.length (PageManager.mPages pm))%nat ->
  (countW (PageManager.setPage pm i p) l g
   + countPage (Page.entries (PageManager.page pm i)) g
   = countW pm l g + countPage (Page.entries p) g)%nat.
Proof.
  intros N I L. induction l as [|j l IH]; [contradiction|].
  inversion N as [|? ? Nj Nl]; subst. cbn [countW]. rewrite page_setPage.
  destruct (Nat.eqb_spec i j) as [<-|Ne]; cbn [andb].
  - destruct (Nat.ltb_spec i (List.length (PageManager.mPages pm))); [|lia].
    rewrite (countW_ext pm (PageManager.setPage pm i p) l g); [lia|].
    intros x Ix. apply page_setPage_other. intros ->. contradiction.
  - destruct I as [->|I]; [contradiction|]. specialize (IH Nl I). lia.
Qed.

Lemma back_in pm :
  PageManager.mPageList pm <> [] ->
  In (PageManager.back pm) (PageManager.mPageList pm).
Proof.
  unfold PageManager.back. destruct (PageManager.mPageList pm) as [|x l];
    [congruence|]. intros _.
  destruct (exists_last (l := x :: l)) as (l' & a & E); [discriminate|].
  rewrite E, last_last. apply in_or_app. right. now left.
Qed.

Lemma wf_parts pm :
  wf pm ->
  NoDup (PageManager.mPageList pm)
  /\ forall i, In i (PageManager.mPageList pm) ->
               (i < List.length (PageManager.mPages pm))%nat.
Proof.
  intros [N R]. split.
  - now apply NoDup_app_remove_r in N.
  - intros i I. apply R, in_or_app. now left.
Qed.

(** A successful [Page::writeItem] on the current page adds the new item to
    what is visible, and nothing else. *)
Lemma write_adds s ns dt k d ci p' e g :
  wfS s -> Storage.pageList s <> [] ->
  Page.writeItem (Storage.page s (Storage.getCurrentPage s)) ns dt k d ci
  = (ESP_OK, p') ->
  visible (Storage.setLastError
             (Storage.setPage s (Storage.getCurrentPage s) p') e) g
  = (visible s g + (if g (newItem ns dt k d ci) then 1 else 0))%nat.
Proof.
  intros W NE WR. apply page_writeItem_ok in WR as [_ ->].
  destruct (wf_parts _ W) as [N R].
  pose proof (back_in _ NE) as I.
  unfold visible, Storage.pageList, Storage.getCurrentPage, Storage.page in *.
  cbn [Storage.mPageManager Storage.setLastError Storage.setPage
       Storage.setPageManager PageManager.mPageList PageManager.setPage].
  match goal with
  | |- countW ?x _ _ = _ =>
      change x with (PageManager.setPage (Storage.mPageManager s)
                       (PageManager.back (Storage.mPageManager s))
                       (Page.mk (Page.state (PageManager.page (Storage.mPageManager s) (PageManager.back (Storage.mPageManager s))))
                                (Page.seqNumber (PageManager.page (Storage.mPageManager s) (PageManager.back (Storage.mPageManager s))))
                                (Page.entries (PageManager.page (Storage.mPageManager s) (PageManager.back (Storage.mPageManager s)))
                                 ++ [(WRITTEN, newItem ns dt k d ci)])))
  end.
  pose proof (countW_setPage_in (Storage.mPageManager s) _
                (Page.mk (Page.state (PageManager.page (Storage.mPageManager s) (PageManager.back (Storage.mPageManager s))))
                         (Page.seqNumber (PageManager.page (Storage.mPageManager s) (PageManager.back (Storage.mPageManager s))))
                         (Page.entries (PageManager.page (Storage.mPageManager s) (PageManager.back (Storage.mPageManager s)))
                          ++ [(WRITTEN, newItem ns dt k d ci)]))
                _ g N I (R _ I)) as Q.
  cbn [Page.entries] in Q. rewrite countPage_app in Q.
  cbn [countPage isWritten andb] in Q. lia.
Qed.

Lemma countPage_zero_in es h x :
  countPage es h = O -> In (WRITTEN, x) es -> h x = false.
Proof.
  induction es as [|[st it] es IH]; [contradiction|].
  cbn [countPage]. intros C [E|I].
  - injection E as -> ->. cbn [isWritten andb] in C.
    destruct (h x); [discriminate|reflexivity].
  - apply IH; [lia|assumption].
Qed.

Lemma countPage_in_pos es g x :
  In (WRITTEN, x) es -> g x = true -> (1 <= countPage es g)%nat.
Proof.
  intros I G. destruct (countPage es g) eqn:C; [|lia].
  pose proof (countPage_zero_in _ _ _ C I). congruence.
Qed.

Lemma countW_zero_in pm l h i x :
  countW pm l h = O -> In i l ->
  In (WRITTEN, x) (Page.entries (PageManager.page pm i)) -> h x = false.
Proof.
  intros C I X. pose proof (countW_in pm l h i I) as Q.
  assert (Z : countPage (Page.entries (PageManager.page pm i)) h = O) by lia.
  exact (countPage_zero_in _ _ _ Z X).
Qed.

(** Erasing the first match of [a ++ b] when [a] holds one. *)
Lemma eraseFirst_app a b f :
  (1 <= countPage a f)%nat ->
  exists a' x,
    Page.eraseFirst (a ++ b) f = Some (a' ++ b)
    /\ In (WRITTEN, x) a /\ f x = true
    /\ forall g, (countPage a' g + (if g x then 1 else 0) = countPage a g)%nat.
Proof.
  induction a as [|[st it] a IH]; cbn [countPage]; [lia|].
  cbn [app Page.eraseFirst]. destruct (isWritten st && f it) eqn:C.
  - intros _. apply andb_true_iff in C as [Wr F].
    destruct st; try discriminate Wr.
    exists ((ERASED, it) :: a), it. split; [reflexivity|].
    split; [now left|]. split; [assumption|].
    intros g. cbn [countPage isWritten andb]. destruct (g it); lia.
  - intros H. destruct IH as (a' & x & E & I & F & N); [lia|].
    rewrite E. exists ((st, it) :: a'), x. split; [reflexivity|].
    split; [now right|]. split; [assumption|].
    intros g. cbn [countPage]. specialize (N g). lia.
Qed.

(** Where the pages in use are after [requestNewPage]: the page given up
    to the garbage collection is erased, every other page keeps its
    entries and stays in use. *)
Lemma requestNewPage_pages pm pm' :
  wf pm ->
  PageManager.requestNewPage pm = (ESP_OK, pm') ->
  PageManager.mPageList pm' <> []
  /\ forall i, In i (PageManager.mPageList pm) ->
       Page.state (PageManager.page pm' i) = PageState.UNINITIALIZED
       \/ (In i (PageManager.mPageList pm')
           /\ Page.entries (PageManager.page pm' i)
              = Page.entries (PageManager.page pm i)).
Proof.
  intros W. unfold PageManager.requestNewPage.
  destruct (PageManager.mPageList pm) as [|p0 l0] eqn:L; [discriminate|].
  rewrite <- L. clear p0 l0 L.
  match goal with
  | |- context [PageManager.activatePage ?x] => set (pm1 := x)
  end.
  assert (W1 : wf pm1).
  { subst pm1. destruct (PageState.eqb _ _); [now apply wf_setPage|exact W]. }
  assert (E1 : forall i, Page.entries (PageManager.page pm1 i)
                         = Page.entries (PageManager.page pm i)).
  { intros i. subst pm1. destruct (PageState.eqb _ _); [|reflexivity].
    rewrite page_setPage. destruct (_ && _) eqn:C; [|reflexivity].
    apply andb_true_iff in C as [C _]. apply Nat.eqb_eq in C. subst i.
    apply markFull_entries. }
  assert (L1 : PageManager.mPageList pm1 = PageManager.mPageList pm).
  { subst pm1. destruct (PageState.eqb _ _); reflexivity. }
  rewrite <- L1. setoid_rewrite <- E1. clearbody pm1. clear W E1 L1 pm.
  destruct W1 as [ND IR].
  destruct (PageManager.mFreePageList pm1) as [|f rest] eqn:F.
  { unfold PageManager.activatePage. rewrite F. cbn [List.length Nat.leb].
    destruct (PageManager.pickVictim _ _ _); discriminate. }
  set (l := PageManager.mPageList pm1) in *.
  set (ps := PageManager.mPages pm1) in *.
  destruct (NoDup_app_parts _ _ ND) as (Nl & Nf & Dj).
  assert (Fl : ~ In f l).
  { intros I. apply (Dj f I). now left. }
  assert (A : PageManager.activatePage pm1
              = (ESP_OK,
                 PageManager.mk (PageManager.setNth ps f
                                   (Page.fresh (PageManager.mSeqNumber pm1)))
                                (l ++ [f]) rest (PageManager.mSeqNumber pm1 + 1))).
  { unfold PageManager.activatePage. now rewrite F. }
  rewrite A. clear A.
  destruct (2 <=? _)%nat.
  - intros H. injection H as <-. cbn [PageManager.mPageList]. split.
    + intros E. now apply app_eq_nil in E as [_ E].
    + intros i I. right. split; [apply in_or_app; now left|].
      unfold PageManager.page. cbn [PageManager.mPages]. fold ps.
      rewrite nth_setNth.
      destruct (Nat.eqb_spec f i) as [->|]; [contradiction|reflexivity].
  - destruct (PageManager.pickVictim pm1 l None) as [v|] eqn:V; [|discriminate].
    apply pickVictim_spec in V as [[V|V] _]; [discriminate|].
    assert (Nvf : f <> v) by (intros ->; contradiction).
    intros H. injection H as <-.
    unfold PageManager.back, PageManager.setPage.
    cbn [PageManager.mPageList PageManager.mPages PageManager.mFreePageList
         PageManager.mSeqNumber].
    rewrite !last_last. rewrite remove_nat_snoc by assumption. split.
    + intros E. now apply app_eq_nil in E as [_ E].
    + intros i I. unfold PageManager.page. cbn [PageManager.mPages]. fold ps.
      rewrite !nth_setNth, !length_setNth.
      destruct (Nat.eqb_spec v i) as [->|Nv]; cbn [andb].
      * left. assert (Lt : (i < List.length ps)%nat).
        { apply IR. apply in_or_app. now left. }
        destruct (Nat.ltb_spec i (List.length ps)); [reflexivity|lia].
      * right. split.
        -- apply in_or_app. left. apply in_remove_nat. split; [assumption|].
           congruence.
        -- destruct (Nat.eqb_spec f i) as [->|]; [contradiction|reflexivity].
Qed.

Lemma storage_page_setPage s i p e j :
  Storage.page (Storage.setLastError (Storage.setPage s i p) e) j
  = if (Nat.eqb i j
        && (i <? List.length (PageManager.mPages (Storage.mPageManager s)))%nat)%bool
    then p else Storage.page s j.
Proof. unfold Storage.page. cbn. apply nth_setNth. Qed.

Lemma visible_setPage_in s i p e g :
  wfS s -> In i (Storage.pageList s) ->
  (visible (Storage.setLastError (Storage.setPage s i p) e) g
   + countPage (Page.entries (Storage.page s i)) g
   = visible s g + countPage (Page.entries p) g)%nat.
Proof.
  intros W I. destruct (wf_parts _ W) as [N R].
  exact (countW_setPage_in (Storage.mPageManager s) i p _ g N I (R _ I)).
Qed.

Lemma wfS_setPage s i p e :
  wfS s -> wfS (Storage.setLastError (Storage.setPage s i p) e).
Proof. unfold wfS. cbn. apply wf_setPage. Qed.

Lemma last_split_nodup (l before after : list nat) (c : nat) :
  NoDup l -> l = before ++ c :: after -> last l O = c -> after = [].
Proof.
  intros N -> La. destruct after as [|a after]; [reflexivity|exfalso].
  destruct (exists_last (l := a :: after)) as (m & z & E); [discriminate|].
  rewrite E in *. 
  replace (before ++ c :: m ++ [z]) with ((before ++ c :: m) ++ [z]) in *
    by (rewrite <- !app_assoc; reflexivity).
  rewrite last_last in La. subst z.
  apply NoDup_remove_2 in N. apply N.
  rewrite app_nil_r. apply in_or_app. right. now left.
Qed.

(** The end of [writeItem] after the new item went onto the current page:
    the erase succeeds, and it takes away an item that was visible before
    the write. *)
Lemma eraseFound_after_write s ns dt k d p' findPage :
  let f := keyFilter ns dt k in
  let cur := Storage.getCurrentPage s in
  wfS s -> Storage.pageList s <> [] ->
  Page.writeItem (Storage.page s cur) ns dt k d Page.CHUNK_ANY = (ESP_OK, p') ->
  match findPage with
  | None => True
  | Some (fp, _) =>
      (1 <= visible s f)%nat
      /\ (stateBad (Storage.page s fp) = true
          \/ (In fp (Storage.pageList s)
              /\ (1 <= countPage (Page.entries (Storage.page s fp)) f)%nat))
  end ->
  exists s' (x : option Item),
    Storage.eraseFound (Storage.setLastError (Storage.setPage s cur p') ESP_OK)
                       ns dt k findPage = (true, s')
    /\ wfS s' /\ Storage.pageList s' = Storage.pageList s
    /\ Storage.mLastError s' = ESP_OK
    /\ (x = None <-> findPage = None)
    /\ (forall y, x = Some y ->
          f y = true
          /\ exists i, In i (Storage.pageList s)
                       /\ In (WRITTEN, y) (Page.entries (Storage.page s i)))
    /\ forall g,
         (visible s' g + match x with
                         | Some y => if g y then 1 else 0
                         | None => 0
                         end
          = visible s g
            + (if g (newItem ns dt k d Page.CHUNK_ANY) then 1 else 0))%nat.
Proof.
  intros f cur W NE WR FP.
  pose proof (write_adds s ns dt k d Page.CHUNK_ANY p' ESP_OK) as ADD.
  specialize (fun g => ADD g W NE WR). fold cur in ADD.
  pose proof (page_writeItem_ok _ _ _ _ _ _ _ WR) as [ACT P'].
  set (sw := Storage.setLastError (Storage.setPage s cur p') ESP_OK) in *.
  assert (Ww : wfS sw) by now apply wfS_setPage.
  destruct (wf_parts _ W) as [N R].
  change (PageManager.mPageList (Storage.mPageManager s))
    with (Storage.pageList s) in N, R.
  assert (Ic : In cur (Storage.pageList s)) by now apply back_in.
  assert (Rc : (cur < List.length (PageManager.mPages (Storage.mPageManager s)))%nat)
    by now apply R.
  assert (PW : forall j, Storage.page sw j
                         = if Nat.eqb cur j then p' else Storage.page s j).
  { intros j. unfold sw. rewrite storage_page_setPage.
    destruct (Nat.ltb_spec cur
                (List.length (PageManager.mPages (Storage.mPageManager s))));
      [|lia]. now rewrite andb_true_r. }
  destruct findPage as [[fp old]|]; cycle 1.
  { exists (Storage.setLastError sw ESP_OK), None. cbn [Storage.eraseFound].
    split; [reflexivity|]. split; [exact Ww|]. split; [reflexivity|].
    split; [reflexivity|]. split; [tauto|]. split; [discriminate|].
    intros g. rewrite Nat.add_0_r. apply ADD. }
  destruct FP as [V1 FP].
  (* the page on which the erase runs *)
  assert (X : exists s1 fp' it',
             Storage.refind sw ns dt k (fp, old) = (s1, (fp', it'))
             /\ (s1 = sw \/ s1 = Storage.setLastError sw ESP_OK)
             /\ In fp' (Storage.pageList s)
             /\ (1 <= countPage (Page.entries (Storage.page s fp')) f)%nat).
  { unfold Storage.refind. cbn [fst].
    change (PageState.eqb (Page.state (Storage.page sw fp)) PageState.UNINITIALIZED
            || PageState.eqb (Page.state (Storage.page sw fp)) PageState.INVALID)
      with (stateBad (Storage.page sw fp)).
    destruct (stateBad (Storage.page sw fp)) eqn:B.
    - rewrite findItem_findIn.
      destruct (findIn sw ns dt (Some k) Page.CHUNK_ANY VER_ANY)
        as [[fp' it']|] eqn:F.
      + exists (Storage.setLastError sw ESP_OK), fp', it'.
        split; [reflexivity|]. split; [now right|].
        unfold findIn in F.
        apply findItemIn_split in F as (before & after & i & L & Z & S).
        change (Storage.pageList sw) with (Storage.pageList s) in L.
        assert (I' : In fp' (Storage.pageList s)).
        { rewrite L. apply in_or_app. right. now left. }
        split; [exact I'|].
        apply scan_some_count in S.
        change (PageManager.page (Storage.mPageManager sw) fp')
          with (Storage.page sw fp') in S.
        rewrite PW in S. destruct (Nat.eqb_spec cur fp') as [<-|Ne];
          [|exact S].
        assert (A : after = []).
        { apply (last_split_nodup _ _ _ _ N L). reflexivity. }
        subst after.
        assert (Zb : countW (Storage.mPageManager s) before f = O).
        { rewrite <- Z. symmetry. apply countW_ext. intros j Ij.
          change (Storage.page sw j = Storage.page s j). rewrite PW.
          destruct (Nat.eqb_spec cur j) as [<-|]; [|reflexivity].
          exfalso. rewrite L in N. apply NoDup_remove_2 in N. apply N.
          rewrite app_nil_r. exact Ij. }
        unfold visible in V1. rewrite L, countW_app in V1.
        cbn [countW] in V1. fold f in Zb. unfold Storage.page. lia.
      + exfalso. apply findIn_none_visible in F.
        change (Page.matches ns dt (Some k) Page.CHUNK_ANY VER_ANY)
          with (keyFilter ns dt k) in F.
        pose proof (ADD (keyFilter ns dt k)) as A2.
        rewrite keyFilter_newItem in A2. lia.
    - exists sw, fp, old. split; [reflexivity|]. split; [now left|].
      destruct FP as [Bad|FP]; [exfalso|exact FP].
      rewrite PW in B. destruct (Nat.eqb_spec cur fp) as [<-|]; [|congruence].
      unfold stateBad in Bad. rewrite ACT in Bad. discriminate. }
  destruct X as (s1 & fp' & it' & RF & S1 & I' & C').
  set (a := Page.entries (Storage.page s fp')) in *.
  set (b := if Nat.eqb cur fp'
            then [(WRITTEN, newItem ns dt k d Page.CHUNK_ANY)] else []).
  assert (Ew : Page.entries (Storage.page sw fp') = a ++ b).
  { rewrite PW. subst a b. destruct (Nat.eqb_spec cur fp') as [<-|].
    - rewrite P'. reflexivity.
    - now rewrite app_nil_r. }
  destruct (eraseFirst_app a b f C') as (a' & x & E & Ix & Fx & Cx).
  assert (P1 : Storage.page s1 fp' = Storage.page sw fp')
    by (destruct S1 as [-> | ->]; reflexivity).
  assert (ER : Page.eraseItem (Storage.page s1 fp') ns dt (Some k)
                              Page.CHUNK_ANY VER_ANY
               = (ESP_OK, Page.mk (Page.state (Storage.page sw fp'))
                                  (Page.seqNumber (Storage.page sw fp'))
                                  (a' ++ b))).
  { rewrite P1. unfold Page.eraseItem. rewrite Ew. fold (keyFilter ns dt k).
    fold f. now rewrite E. }
  set (p2 := Page.mk _ _ (a' ++ b)) in ER.
  exists (Storage.setLastError
            (Storage.setLastError (Storage.setPage s1 fp' p2) ESP_OK) ESP_OK),
    (Some x).
  split.
  { unfold Storage.eraseFound. rewrite RF, ER. reflexivity. }
  assert (Q : forall g,
             (visible (Storage.setLastError (Storage.setPage s1 fp' p2) ESP_OK) g
              + countPage (a ++ b) g
              = visible sw g + countPage (a' ++ b) g)%nat).
  { intros g.
    pose proof (visible_setPage_in sw fp' p2 ESP_OK g Ww I') as Q.
    rewrite Ew in Q. cbn [Page.entries p2] in Q.
    destruct S1 as [-> | ->]; exact Q. }
  split.
  { destruct S1 as [-> | ->]; unfold wfS;
      cbn [Storage.mPageManager Storage.setLastError Storage.setPage
           Storage.setPageManager];
      apply wf_setPage; exact Ww. }
  split; [destruct S1 as [-> | ->]; reflexivity|].
  split; [reflexivity|].
  split; [split; discriminate|].
  split.
  { intros y Hy. injection Hy as <-. split; [exact Fx|].
    exists fp'. split; [exact I'|exact Ix]. }
  intros g. specialize (Q g). specialize (Cx g). specialize (ADD g).
  rewrite !countPage_app in Q.
  change (visible (Storage.setLastError
                     (Storage.setLastError (Storage.setPage s1 fp' p2) ESP_OK)
                     ESP_OK) g)
    with (visible (Storage.setLastError (Storage.setPage s1 fp' p2) ESP_OK) g).
  lia.
Qed.

Lemma writeItem_primitive s ns dt k d :
  ItemType_eqb dt BLOB = false ->
  Storage.writeItem s ns dt k d
  = if Storage.notActive s
    then (false, Storage.setLastError s ESP_ERR_NVS_NOT_INITIALIZED)
    else
      match findIn s ns dt (Some k) Page.CHUNK_ANY VER_ANY with
      | Some (fp, it) =>
          if Page.bytes_eqb (data it) d
          then (true, Storage.setLastError (Storage.setLastError s ESP_OK) ESP_OK)
          else primitiveTail (Storage.setLastError s ESP_OK) ns dt k d
                             (Some (fp, it))
      | None =>
          primitiveTail (Storage.setLastError s ESP_ERR_NVS_NOT_FOUND)
                        ns dt k d None
      end.
Proof.
  intros B. unfold Storage.writeItem. destruct (Storage.notActive s);
    [reflexivity|].
  rewrite B, findItem_findIn.
  destruct (findIn s ns dt (Some k) Page.CHUNK_ANY VER_ANY) as [[fp it]|] eqn:F;
    cbv beta iota; cbn [negb andb]; [|reflexivity].
  unfold findIn in F. apply findItemIn_found in F as [_ [i S]].
  unfold Page.cmpItem.
  change (Storage.page (Storage.setLastError s ESP_OK) fp)
    with (PageManager.page (Storage.mPageManager s) fp).
  rewrite S. destruct (Page.bytes_eqb (data it) d); reflexivity.
Qed.

Lemma accounted_in s i y :
  In i (Storage.pageList s) ->
  In (WRITTEN, y) (Page.entries (Storage.page s i)) ->
  accounted s y.
Proof. intros I Y h Z. exact (countW_zero_in _ _ _ _ _ Z I Y). Qed.

Lemma accounted_same s s' y :
  (forall g, visible s' g = visible s g) -> accounted s' y -> accounted s y.
Proof. intros E A h Z. apply A. now rewrite E. Qed.

Lemma markFullIfNeeded_entries s pg ok s' :
  Storage.markFullIfNeeded s pg = (ok, s') ->
  Storage.pageList s' = Storage.pageList s
  /\ forall j, Page.entries (Storage.page s' j) = Page.entries (Storage.page s j).
Proof.
  unfold Storage.markFullIfNeeded. destruct (negb _).
  - destruct (Page.markFull _) as [err p'] eqn:M.
    intros H. injection H as _ <-. split; [reflexivity|].
    intros j. rewrite storage_page_setPage. destruct (_ && _) eqn:C;
      [|reflexivity].
    apply andb_true_iff in C as [C _]. apply Nat.eqb_eq in C. subst j.
    change p' with (snd (err, p')). rewrite <- M. apply markFull_entries.
  - intros H. injection H as _ <-. split; reflexivity.
Qed.

Lemma pm_requestNewPage_failed pm err pm' :
  PageManager.requestNewPage pm = (err, pm') -> err <> ESP_OK ->
  PageManager.mPageList pm' = PageManager.mPageList pm
  /\ PageManager.mFreePageList pm' = PageManager.mFreePageList pm
  /\ List.length (PageManager.mPages pm') = List.length (PageManager.mPages pm)
  /\ forall j, Page.entries (PageManager.page pm' j)
               = Page.entries (PageManager.page pm j).
Proof.
  unfold PageManager.requestNewPage.
  destruct (PageManager.mPageList pm) as [|p0 l0] eqn:L.
  { intros H. injection H as _ <-. rewrite L. repeat split; reflexivity. }
  rewrite <- L. clear p0 l0 L.
  match goal with
  | |- context [PageManager.activatePage ?x] => set (pm1 := x)
  end.
  assert (E1 : PageManager.mPageList pm1 = PageManager.mPageList pm
               /\ PageManager.mFreePageList pm1 = PageManager.mFreePageList pm
               /\ List.length (PageManager.mPages pm1)
                  = List.length (PageManager.mPages pm)
               /\ forall j, Page.entries (PageManager.page pm1 j)
                            = Page.entries (PageManager.page pm j)).
  { subst pm1. destruct (PageState.eqb _ _); [|repeat split; reflexivity].
    split; [reflexivity|]. split; [reflexivity|].
    split; [apply length_setNth|].
    intros j. rewrite page_setPage. destruct (_ && _) eqn:C; [|reflexivity].
    apply andb_true_iff in C as [C _]. apply Nat.eqb_eq in C. subst j.
    apply markFull_entries. }
  clearbody pm1.
  unfold PageManager.activatePage.
  destruct (PageManager.mFreePageList pm1) as [|f rest] eqn:F.
  - cbn [List.length Nat.leb].
    destruct (PageManager.pickVictim _ _ _); intros H; injection H as _ <-;
      intros _; destruct E1 as (A & B & C & D);
      repeat split; try assumption; congruence.
  - destruct (2 <=? _)%nat; [intros H; injection H as <- _; congruence|].
    destruct (PageManager.pickVictim _ _ _).
    + intros H. injection H as <- _. congruence.
    + intros H. injection H as _ <-. intros _. destruct E1 as (A & B & C & D).
      repeat split; try assumption; congruence.
Qed.

Lemma countW_entries pm pm' l g :
  (forall j, Page.entries (PageManager.page pm' j)
             = Page.entries (PageManager.page pm j)) ->
  countW pm' l g = countW pm l g.
Proof.
  intros E. induction l as [|j l IH]; cbn [countW]; [reflexivity|].
  now rewrite E, IH.
Qed.

Lemma requestNewPage_failed s s' :
  wfS s -> Storage.requestNewPage s = (false, s') ->
  wfS s' /\ Storage.pageList s' = Storage.pageList s
  /\ forall g, visible s' g = visible s g.
Proof.
  unfold Storage.requestNewPage.
  destruct (PageManager.requestNewPage _) as [err pm] eqn:R.
  intros W H. injection H as E <-.
  assert (Ne : err <> ESP_OK).
  { intros ->. discriminate. }
  destruct (pm_requestNewPage_failed _ _ _ R Ne) as (L & Fr & Len & En).
  unfold wfS, visible, Storage.pageList.
  cbn [Storage.mPageManager Storage.setLastError Storage.setPageManager].
  split.
  - destruct W as [N Rg]. unfold wf. rewrite L, Fr, Len. split; assumption.
  - split; [exact L|]. intros g. rewrite L. now apply countW_entries.
Qed.

(** A failed [Page::writeItem] leaves the Storage as it is, but for the
    last error. *)
Lemma pageWriteItem_failed s pg ns dt k d :
  Storage.mLastError (Storage.pageWriteItem s pg ns dt k d) <> ESP_OK ->
  Storage.pageList (Storage.pageWriteItem s pg ns dt k d) = Storage.pageList s
  /\ (wfS s -> wfS (Storage.pageWriteItem s pg ns dt k d))
  /\ (forall j, Storage.page (Storage.pageWriteItem s pg ns dt k d) j
                = Storage.page s j)
  /\ forall g, visible (Storage.pageWriteItem s pg ns dt k d) g = visible s g.
Proof.
  unfold Storage.pageWriteItem.
  destruct (Page.writeItem _ _ _ _ _ _) as [err p'] eqn:WR.
  cbn [Storage.mLastError Storage.setLastError]. intros Ne.
  pose proof (page_writeItem_err _ _ _ _ _ _ _ _ WR Ne) as ->.
  assert (P : forall j, Storage.page
                          (Storage.setLastError
                             (Storage.setPage s pg (Storage.page s pg)) err) j
                        = Storage.page s j).
  { intros j. rewrite storage_page_setPage. destruct (_ && _) eqn:C;
      [|reflexivity].
    apply andb_true_iff in C as [C _]. apply Nat.eqb_eq in C. now subst j. }
  split; [reflexivity|]. split; [apply wfS_setPage|]. split; [exact P|].
  intros g. apply countW_entries. intros j.
  change (Page.entries (Storage.page
                          (Storage.setLastError
                             (Storage.setPage s pg (Storage.page s pg)) err) j)
          = Page.entries (Storage.page s j)).
  now rewrite P.
Qed.

Lemma primitiveTail_spec s1 ns dt k d findPage ok s' :
  let f := keyFilter ns dt k in
  wfS s1 -> Storage.pageList s1 <> [] ->
  match findPage with
  | None => True
  | Some (fp, _) =>
      (1 <= visible s1 f)%nat
      /\ In fp (Storage.pageList s1)
      /\ (1 <= countPage (Page.entries (Storage.page s1 fp)) f)%nat
  end ->
  primitiveTail s1 ns dt k d findPage = (ok, s') ->
  wfS s' /\ Storage.pageList s' <> []
  /\ if ok
     then
       Storage.mLastError s' = ESP_OK
       /\ exists x : option Item,
           (x = None <-> findPage = None)
           /\ (forall y, x = Some y -> f y = true /\ accounted s1 y)
           /\ forall g,
               (visible s' g + match x with
                               | Some y => if g y then 1 else 0
                               | None => 0
                               end
                = visible s1 g
                  + (if g (newItem ns dt k d Page.CHUNK_ANY) then 1 else 0))%nat
     else forall g, visible s' g = visible s1 g.
Proof.
  intros f W NE FP. unfold primitiveTail.
  set (pg := Storage.getCurrentPage s1).
  destruct (esp_err_eqb (Storage.mLastError (Storage.pageWriteItem s1 pg ns dt k d))
                        ESP_ERR_NVS_PAGE_FULL) eqn:PF.
  - (* the current page is full *)
    apply esp_err_eqb_eq in PF.
    assert (Ne : Storage.mLastError (Storage.pageWriteItem s1 pg ns dt k d)
                 <> ESP_OK) by congruence.
    destruct (pageWriteItem_failed s1 pg ns dt k d Ne) as (L2 & W2 & P2 & V2).
    specialize (W2 W).
    set (s2 := Storage.pageWriteItem s1 pg ns dt k d) in *.
    destruct (Storage.markFullIfNeeded s2 pg) as [ok3 s3] eqn:MF.
    destruct (markFullIfNeeded_visible _ _ _ _ W2 MF) as [W3 V3].
    destruct (markFullIfNeeded_entries _ _ _ _ MF) as [L3 E3].
    destruct ok3; cbn [negb]; cycle 1.
    { intros H. injection H as <- <-. split; [exact W3|].
      split; [congruence|]. intros g. now rewrite V3, V2. }
    destruct (Storage.requestNewPage s3) as [ok4 s4] eqn:RQ.
    destruct ok4; cbn [negb]; cycle 1.
    { destruct (requestNewPage_failed _ _ W3 RQ) as (W4 & L4 & V4).
      intros H. injection H as <- <-. split; [exact W4|].
      split; [congruence|]. intros g. now rewrite V4, V3, V2. }
    destruct (requestNewPage_visible _ _ W3 RQ) as [W4 V4].
    assert (V41 : forall g, visible s4 g = visible s1 g).
    { intros g. now rewrite V4, V3, V2. }
    assert (PG : Storage.pageList s4 <> []
                 /\ forall i, In i (Storage.pageList s3) ->
                      Page.state (Storage.page s4 i) = PageState.UNINITIALIZED
                      \/ (In i (Storage.pageList s4)
                          /\ Page.entries (Storage.page s4 i)
                             = Page.entries (Storage.page s3 i))).
    { unfold Storage.requestNewPage in RQ.
      destruct (PageManager.requestNewPage _) as [err pm] eqn:R.
      injection RQ as E <-. apply esp_err_eqb_eq in E. subst err.
      exact (requestNewPage_pages _ _ W3 R). }
    destruct PG as [NE4 PG].
    set (c4 := Storage.getCurrentPage s4).
    assert (E5 : exists err5 p5,
               Page.writeItem (Storage.page s4 c4) ns dt k d Page.CHUNK_ANY
               = (err5, p5)
               /\ Storage.pageWriteItem s4 c4 ns dt k d
                  = Storage.setLastError (Storage.setPage s4 c4 p5) err5).
    { unfold Storage.pageWriteItem.
      destruct (Page.writeItem _ _ _ _ _ _) as [e p]. now exists e, p. }
    destruct E5 as (err5 & p5 & WR5 & E5).
    pose proof (pageWriteItem_failed s4 c4 ns dt k d) as FAIL.
    rewrite E5 in *. clear E5.
    cbn [Storage.mLastError Storage.setLastError] in FAIL |- *.
    destruct (esp_err_eqb err5 ESP_ERR_NVS_PAGE_FULL) eqn:PF5.
    { apply esp_err_eqb_eq in PF5.
      intros H. injection H as <- <-.
      destruct FAIL as (_ & Wf & _ & Vf); [congruence|].
      split; [exact (Wf W4)|]. split; [exact NE4|].
      intros g. rewrite <- V41. apply Vf. }
    destruct (esp_err_eqb err5 ESP_OK) eqn:OK5; cbn [negb]; cycle 1.
    { intros H. injection H as <- <-.
      assert (Ne5 : err5 <> ESP_OK).
      { intros ->. discriminate. }
      destruct (FAIL Ne5) as (_ & Wf & _ & Vf).
      split; [exact (Wf W4)|]. split; [exact NE4|].
      intros g. rewrite <- V41. apply Vf. }
    clear FAIL.
    apply esp_err_eqb_eq in OK5. subst err5.
    intros EF.
    destruct (eraseFound_after_write s4 ns dt k d p5 findPage W4 NE4 WR5)
      as (s'' & x & EF' & Wn & Ln & En & Xn & Yn & Cn).
    { destruct findPage as [[fp old]|]; [|exact I].
      destruct FP as (V1 & I1 & C1). split; [now rewrite V41|].
      assert (I3 : In fp (Storage.pageList s3)) by (rewrite L3, L2; exact I1).
      destruct (PG fp I3) as [U|[I4 E4]].
      - left. unfold stateBad. now rewrite U.
      - right. split; [exact I4|]. rewrite E4, E3, P2. exact C1. }
    fold c4 in EF'. rewrite EF' in EF. injection EF as <- <-.
    split; [exact Wn|]. split; [now rewrite Ln|]. split; [exact En|].
    exists x. split; [exact Xn|]. split.
    + intros y Hy. destruct (Yn y Hy) as [Fy (i & Ii & Iy)].
      split; [exact Fy|]. apply (accounted_same s1 s4 y V41).
      exact (accounted_in _ _ _ Ii Iy).
    + intros g. rewrite <- V41. apply Cn.
  - (* the write went through, or failed otherwise *)
    unfold Storage.pageWriteItem in *.
    destruct (Page.writeItem (Storage.page s1 pg) ns dt k d Page.CHUNK_ANY)
      as [err p'] eqn:WR.
    cbn [Storage.mLastError Storage.setLastError] in *.
    destruct (esp_err_eqb err ESP_OK) eqn:OK1; cbn [negb]; cycle 1.
    { intros H. injection H as <- <-.
      assert (Ne : err <> ESP_OK).
      { intros ->. discriminate. }
      pose proof (pageWriteItem_failed s1 pg ns dt k d) as Q.
      unfold Storage.pageWriteItem in Q. rewrite WR in Q.
      destruct (Q Ne) as (Lq & Wq & _ & Vq).
      split; [exact (Wq W)|]. split; [rewrite Lq; exact NE|]. exact Vq. }
    apply esp_err_eqb_eq in OK1. subst err. intros EF.
    destruct (eraseFound_after_write s1 ns dt k d p' findPage W NE WR)
      as (s'' & x & EF' & Wn & Ln & En & Xn & Yn & Cn).
    { destruct findPage as [[fp old]|]; [|exact I].
      destruct FP as (V1 & I1 & C1). split; [exact V1|]. right. now split. }
    fold pg in EF'. rewrite EF' in EF. injection EF as <- <-.
    split; [exact Wn|]. split; [now rewrite Ln|]. split; [exact En|].
    exists x. split; [exact Xn|]. split; [|exact Cn].
    intros y Hy. destruct (Yn y Hy) as [Fy (i & Ii & Iy)].
    split; [exact Fy|]. exact (accounted_in _ _ _ Ii Iy).
Qed.

Lemma countPage_partition es f p :
  countPage es f
  = (countPage es (fun it => f it && p it)
     + countPage es (fun it => f it && negb (p it)))%nat.
Proof.
  induction es as [|[st it] es IH]; cbn [countPage]; [reflexivity|].
  rewrite IH. destruct (isWritten st), (f it), (p it); cbn; lia.
Qed.

Lemma countW_partition pm l f p :
  countW pm l f
  = (countW pm l (fun it => f it && p it)
     + countW pm l (fun it => f it && negb (p it)))%nat.
Proof.
  induction l as [|i l IH]; cbn [countW]; [reflexivity|].
  rewrite IH, (countPage_partition _ f p). lia.
Qed.

Lemma findIn_found_facts s ns dt k ci cs fp it :
  findIn s ns dt k ci cs = Some (fp, it) ->
  In fp (Storage.pageList s)
  /\ In (WRITTEN, it) (Page.entries (Storage.page s fp))
  /\ Page.matches ns dt k ci cs it = true
  /\ (1 <= countPage (Page.entries (Storage.page s fp))
                     (Page.matches ns dt k ci cs))%nat
  /\ (1 <= visible s (Page.matches ns dt k ci cs))%nat.
Proof.
  intros F. unfold findIn in F. apply findItemIn_found in F as [I [i S]].
  pose proof (scan_in _ _ _ _ _ _ S) as [In1 M].
  pose proof (scan_some_count _ _ _ _ _ S) as C.
  repeat split; try assumption.
  pose proof (countW_in (Storage.mPageManager s) _ (Page.matches ns dt k ci cs)
                        fp I) as Q.
  unfold visible. lia.
Qed.

(** Reading a key all of whose visible items hold [d]. *)
Lemma readItem_value s ns dt k d :
  ItemType_eqb dt BLOB = false ->
  Storage.notActive s = false ->
  (1 <= visible s (keyFilter ns dt k))%nat ->
  visible s (staleFilter ns dt k d) = O ->
  Storage.readItem s ns dt (Some k) (Z.of_nat (List.length d))
  = (true, Storage.setLastError s ESP_OK, d).
Proof.
  intros B A V Z. unfold Storage.readItem. rewrite A, B.
  unfold Storage.readFound. rewrite findItem_findIn.
  destruct (findIn s ns dt (Some k) Page.CHUNK_ANY VER_ANY) as [[fp it]|] eqn:F.
  - pose proof (findIn_found_facts _ _ _ _ _ _ _ _ F) as (I & In1 & M & _ & _).
    unfold findIn in F. apply findItemIn_found in F as [_ [i S]].
    unfold Page.readItem.
    change (Storage.page (Storage.setLastError s ESP_OK) fp)
      with (PageManager.page (Storage.mPageManager s) fp).
    rewrite S.
    pose proof (countW_zero_in _ _ _ _ _ Z I In1) as St.
    unfold staleFilter in St. fold (keyFilter ns dt k) in M. rewrite M in St.
    cbn [andb] in St. apply negb_false_iff, bytes_eqb_eq in St. rewrite St.
    rewrite Z.eqb_refl. reflexivity.
  - apply findIn_none_visible in F. fold (keyFilter ns dt k) in F. lia.
Qed.

Lemma staleFilter_newItem ns dt k d ci :
  staleFilter ns dt k d (newItem ns dt k d ci) = false.
Proof.
  unfold staleFilter, newItem. cbn [data]. rewrite bytes_eqb_refl.
  apply andb_false_r.
Qed.

(** What a successful [writeItem] of a type other than BLOB leaves, when at
    most one item was stored under the key. *)
Lemma writeItem_primitive_unique s ns dt k d s' :
  ItemType_eqb dt BLOB = false ->
  wfS s -> Storage.pageList s <> [] ->
  (visible s (keyFilter ns dt k) <= 1)%nat ->
  Storage.writeItem s ns dt k d = (true, s') ->
  Storage.notActive s' = false
  /\ wfS s' /\ Storage.pageList s' <> []
  /\ visible s' (keyFilter ns dt k) = 1%nat
  /\ visible s' (staleFilter ns dt k d) = O.
Proof.
  intros B W NE U WI.
  assert (A' : Storage.notActive s' = false).
  { pose proof (writeItem_tables _ _ _ _ _ _ _ WI) as (_ & _ & St & _).
    unfold Storage.writeItem in WI. destruct (Storage.notActive s) eqn:A;
      [discriminate|].
    unfold Storage.notActive in *. now rewrite St. }
  split; [exact A'|].
  rewrite writeItem_primitive in WI by assumption.
  destruct (Storage.notActive s); [discriminate|].
  pose proof (countW_partition (Storage.mPageManager s) (Storage.pageList s)
                (keyFilter ns dt k)
                (fun it => negb (Page.bytes_eqb (data it) d))) as PT.
  cbv beta in PT.
  fold (visible s (keyFilter ns dt k)) in PT.
  change (countW _ _ (fun it => keyFilter ns dt k it
                                && negb (Page.bytes_eqb (data it) d)))
    with (visible s (staleFilter ns dt k d)) in PT.
  set (fresh := fun it => keyFilter ns dt k it
                          && negb (negb (Page.bytes_eqb (data it) d))) in PT.
  destruct (findIn s ns dt (Some k) Page.CHUNK_ANY VER_ANY) as [[fp it]|] eqn:F.
  - pose proof (findIn_found_facts _ _ _ _ _ _ _ _ F) as (I & In1 & M & C & V).
    fold (keyFilter ns dt k) in M, C, V.
    destruct (Page.bytes_eqb (data it) d) eqn:Eq.
    + (* the stored value is the one written *)
      injection WI as <-. split; [exact W|]. split; [exact NE|].
      change (visible (Storage.setLastError (Storage.setLastError s ESP_OK) ESP_OK))
        with (visible s).
      assert (Fr : (1 <= countW (Storage.mPageManager s) (Storage.pageList s) fresh)%nat).
      { pose proof (countW_in (Storage.mPageManager s) _ fresh fp I) as Q.
        assert (1 <= countPage (Page.entries (PageManager.page (Storage.mPageManager s) fp)) fresh)%nat.
        { apply (countPage_in_pos _ _ it In1). unfold fresh.
          now rewrite M, Eq. }
        lia. }
      lia.
    + (* replaced *)
      assert (St : (1 <= visible s (staleFilter ns dt k d))%nat).
      { pose proof (countW_in (Storage.mPageManager s) (Storage.pageList s)
                              (staleFilter ns dt k d) fp I) as Q.
        assert (1 <= countPage (Page.entries (PageManager.page (Storage.mPageManager s) fp))
                               (staleFilter ns dt k d))%nat.
        { apply (countPage_in_pos _ _ it In1). unfold staleFilter.
          now rewrite M, Eq. }
        unfold visible. lia. }
      assert (Fr : countW (Storage.mPageManager s) (Storage.pageList s) fresh = O)
        by lia.
      destruct (primitiveTail_spec (Storage.setLastError s ESP_OK) ns dt k d
                  (Some (fp, it)) true s' W NE) as (W' & NE' & _ & x & X & Y & Cn);
        [repeat split; assumption|exact WI|].
      split; [exact W'|]. split; [exact NE'|].
      destruct x as [y|]; [|destruct X as [X _]; now specialize (X eq_refl)].
      destruct (Y y eq_refl) as [Fy Ay].
      assert (Sy : staleFilter ns dt k d y = true).
      { specialize (Ay fresh Fr). unfold fresh in Ay. rewrite Fy in Ay.
        cbn [andb] in Ay. unfold staleFilter. rewrite Fy. cbn [andb].
        now apply negb_false_iff in Ay. }
      pose proof (Cn (keyFilter ns dt k)) as C1.
      pose proof (Cn (staleFilter ns dt k d)) as C2.
      rewrite Fy, keyFilter_newItem in C1.
      rewrite Sy, staleFilter_newItem in C2.
      change (visible (Storage.setLastError s ESP_OK)) with (visible s) in C1, C2.
      lia.
  - apply findIn_none_visible in F. fold (keyFilter ns dt k) in F.
    destruct (primitiveTail_spec (Storage.setLastError s ESP_ERR_NVS_NOT_FOUND)
                ns dt k d None true s' W NE I WI)
      as (W' & NE' & _ & x & X & Y & Cn).
    split; [exact W'|]. split; [exact NE'|].
    destruct x as [y|]; [destruct X as [_ X]; now specialize (X eq_refl)|].
    pose proof (Cn (keyFilter ns dt k)) as C1.
    pose proof (Cn (staleFilter ns dt k d)) as C2.
    rewrite keyFilter_newItem in C1. rewrite staleFilter_newItem in C2.
    change (visible (Storage.setLastError s ESP_ERR_NVS_NOT_FOUND))
      with (visible s) in C1, C2.
    lia.
Qed.

(** ** [writeItem] and the items stored under other keys *)

Lemma matches_key ns dt k ci cs it :
  Page.matches ns dt (Some k) ci cs it = true -> key it = k.
Proof.
  unfold Page.matches. intros H.
  apply andb_true_iff in H as [H _]. apply andb_true_iff in H as [H _].
  apply andb_true_iff in H as [_ H]. apply String.eqb_eq in H. now symmetry.
Qed.

Lemma eraseFirst_disjoint es f g es' :
  disjoint f g -> Page.eraseFirst es f = Some es' ->
  countPage es' g = countPage es g.
Proof.
  intros D. revert es'. induction es as [|[st it] es IH]; intros es';
    cbn [Page.eraseFirst]; [discriminate|].
  destruct (isWritten st && f it) eqn:C.
  - intros H. injection H as <-. apply andb_true_iff in C as [Wr F].
    cbn [countPage isWritten andb]. rewrite Wr, (D _ F). reflexivity.
  - destruct (Page.eraseFirst es f) as [rest'|]; [|discriminate].
    intros H. injection H as <-. cbn [countPage]. now rewrite (IH _ eq_refl).
Qed.

Lemma matches_any ns dt k ci cs it :
  Page.matches ns dt k ci cs it = true ->
  Page.matches ns ANY k Page.CHUNK_ANY VER_ANY it = true.
Proof.
  unfold Page.matches. intros H.
  apply andb_true_iff in H as [H _]. apply andb_true_iff in H as [H _].
  apply andb_true_iff in H as [H Hk]. apply andb_true_iff in H as [Hn _].
  rewrite Hn, Hk. reflexivity.
Qed.

Lemma otherKeys_apart ns k g : otherKeys g k -> apart ns k g.
Proof. intros O it M. apply O. exact (matches_key _ _ _ _ _ _ M). Qed.

Lemma otherNamespace_apart ns k g :
  ns <> Page.NS_ANY -> (forall it, nsIndex it = ns -> g it = false) ->
  apart ns k g.
Proof.
  intros N O it M. apply O. unfold Page.matches in M.
  apply andb_true_iff in M as [M _]. apply andb_true_iff in M as [M _].
  apply andb_true_iff in M as [M _]. apply andb_true_iff in M as [M _].
  destruct (Z.eqb_spec ns Page.NS_ANY); [contradiction|].
  cbn [orb] in M. now apply Z.eqb_eq in M.
Qed.

Lemma page_eraseItem_frame p ns dt k ci cs g :
  apart ns k g ->
  countPage (Page.entries (snd (Page.eraseItem p ns dt (Some k) ci cs))) g
  = countPage (Page.entries p) g.
Proof.
  intros O. unfold Page.eraseItem.
  destruct (Page.eraseFirst _ _) as [es'|] eqn:E; [|reflexivity].
  cbn [snd Page.entries].
  apply (eraseFirst_disjoint _ _ _ _
           (fun it F => O it (matches_any _ _ _ _ _ _ F)) E).
Qed.

Lemma page_writeItem_frame p ns dt k d ci g :
  apart ns k g ->
  countPage (Page.entries (snd (Page.writeItem p ns dt k d ci))) g
  = countPage (Page.entries p) g.
Proof.
  intros O. unfold Page.writeItem.
  destruct (negb _); [reflexivity|].
  destruct (_ <? _)%nat; [reflexivity|].
  cbn [snd Page.entries]. rewrite countPage_app. cbn [countPage isWritten andb].
  rewrite O; [lia|].
  unfold Page.matches. cbn [nsIndex key ItemType_eqb orb andb].
  rewrite Z.eqb_refl, String.eqb_refl, orb_true_r. reflexivity.
Qed.

Lemma visible_setPage_same s i p e g :
  countPage (Page.entries p) g = countPage (Page.entries (Storage.page s i)) g ->
  visible (Storage.setLastError (Storage.setPage s i p) e) g = visible s g.
Proof. intros H. now apply countW_setPage_same. Qed.

Lemma pageWrite_frame s pg ns dt k d ci err p' g :
  apart ns k g ->
  Page.writeItem (Storage.page s pg) ns dt k d ci = (err, p') ->
  visible (Storage.setLastError (Storage.setPage s pg p') err) g = visible s g.
Proof.
  intros O E. apply visible_setPage_same.
  change p' with (snd (err, p')). rewrite <- E. now apply page_writeItem_frame.
Qed.

Lemma pageErase_frame s pg ns dt k ci cs err p' e g :
  apart ns k g ->
  Page.eraseItem (Storage.page s pg) ns dt (Some k) ci cs = (err, p') ->
  visible (Storage.setLastError (Storage.setPage s pg p') e) g = visible s g.
Proof.
  intros O E. apply visible_setPage_same.
  change p' with (snd (err, p')). rewrite <- E. now apply page_eraseItem_frame.
Qed.

Lemma requestNewPage_any s ok s' :
  wfS s -> Storage.requestNewPage s = (ok, s') ->
  wfS s' /\ forall g, visible s' g = visible s g.
Proof.
  intros W R. destruct ok.
  - now apply requestNewPage_visible.
  - destruct (requestNewPage_failed _ _ W R) as (W' & _ & V). now split.
Qed.

(** [s'] has the pages and lists of [s]. *)
Lemma findItem_pm s ns dt k ci cs ok s' r :
  Storage.findItem s ns dt k ci cs = (ok, s', r) ->
  Storage.mPageManager s' = Storage.mPageManager s.
Proof.
  rewrite findItem_findIn. destruct (findIn _ _ _ _ _ _); intros H;
    injection H as _ <- _; reflexivity.
Qed.

Lemma refind_pm s ns dt k found s' r :
  Storage.refind s ns dt k found = (s', r) ->
  Storage.mPageManager s' = Storage.mPageManager s.
Proof.
  unfold Storage.refind. destruct (_ || _).
  - destruct (Storage.findItem _ _ _ _ _ _) as [[ok s1] r1] eqn:F.
    apply findItem_pm in F. destruct r1; intros H; injection H as <- _;
      exact F.
  - intros H. injection H as <- _. reflexivity.
Qed.

Lemma cmpChunks_pm n s ns k d cs cn off ok s' :
  Storage.cmpChunks n s ns k d cs cn off = (ok, s') ->
  Storage.mPageManager s' = Storage.mPageManager s.
Proof.
  revert s cn off. induction n as [|n IH]; intros s cn off;
    cbn [Storage.cmpChunks].
  - intros H. injection H as _ <-. reflexivity.
  - destruct (Storage.findItem _ _ _ _ _ _) as [[ok1 s1] r1] eqn:F.
    apply findItem_pm in F.
    destruct ok1; [|intros H; injection H as _ <-; exact F].
    destruct r1 as [[fp it]|]; [|intros H; injection H as _ <-; exact F].
    destruct (negb _).
    + intros H. injection H as _ <-. exact F.
    + intros H. apply IH in H. cbn in H. congruence.
Qed.

Lemma cmpMultiPageBlob_pm s ns k d ok s' :
  Storage.cmpMultiPageBlob s ns k d = (ok, s') ->
  Storage.mPageManager s' = Storage.mPageManager s.
Proof.
  unfold Storage.cmpMultiPageBlob.
  destruct (Storage.findItem _ _ _ _ _ _) as [[ok1 s1] r1] eqn:F.
  apply findItem_pm in F.
  destruct ok1; [|intros H; injection H as _ <-; exact F].
  destruct r1 as [[fp it]|]; [|intros H; injection H as _ <-; exact F].
  destruct (negb _).
  - intros H. injection H as _ <-. exact F.
  - intros H. apply cmpChunks_pm in H. congruence.
Qed.

Lemma visible_pm s s' g :
  Storage.mPageManager s' = Storage.mPageManager s -> visible s' g = visible s g.
Proof. unfold visible, Storage.pageList. now intros ->. Qed.

Lemma wfS_pm s s' :
  Storage.mPageManager s' = Storage.mPageManager s -> wfS s -> wfS s'.
Proof. unfold wfS. now intros ->. Qed.

Lemma writeLoop_frame g fuel s ns k d cs cc used rem off ret s' used' :
  apart ns k g -> wfS s ->
  Storage.writeLoop fuel s ns k d cs cc used rem off = Some (ret, s', used') ->
  wfS s' /\ visible s' g = visible s g.
Proof.
  intros O. revert s cc used rem off.
  induction fuel as [|fuel IH]; intros s cc used rem off W; [discriminate|].
  cbn [Storage.writeLoop].
  destruct (_ && _ && _).
  { destruct (Storage.markFullIfNeeded _ _) as [ok1 s1] eqn:M.
    destruct (markFullIfNeeded_visible _ _ _ _ W M) as [W1 V1].
    destruct ok1; cbn [negb].
    2: { intros H. injection H as _ <- _. split; [exact W1|apply V1]. }
    destruct (Storage.requestNewPage s1) as [ok2 s2] eqn:R.
    destruct (requestNewPage_any _ _ _ W1 R) as [W2 V2].
    destruct ok2; cbn [negb].
    2: { intros H. injection H as _ <- _. split; [exact W2|].
         now rewrite V2, V1. }
    destruct (_ =? _).
    { intros H. injection H as _ <- _. split; [exact W2|].
      change (visible (Storage.setLastError s2 ESP_ERR_NVS_NOT_ENOUGH_SPACE) g)
        with (visible s2 g). now rewrite V2, V1. }
    intros H. destruct (IH _ _ _ _ _ W2 H) as [W3 V3].
    split; [exact W3|]. now rewrite V3, V2, V1. }
  destruct (_ =? 0).
  { intros H. injection H as _ <- _. split; [exact W|reflexivity]. }
  destruct (Page.writeItem _ _ _ _ _ _) as [err p'] eqn:Wr.
  pose proof (pageWrite_frame _ _ _ _ _ _ _ _ _ g O Wr) as V1.
  pose proof (wfS_setPage s (Storage.getCurrentPage s) p' err W) as W1.
  set (s1 := Storage.setLastError (Storage.setPage s _ p') err) in *.
  destruct (esp_err_eqb err ESP_OK) eqn:Eerr; cbn [negb].
  2: { intros H. injection H as _ <- _. split; [exact W1|exact V1]. }
  match goal with
  | |- context [let '(ok, s2) := ?c in _] => destruct c as [ok2 s2] eqn:C
  end.
  assert (WV : wfS s2 /\ visible s2 g = visible s g).
  { destruct (_ || _).
    - destruct (Storage.markFullIfNeeded _ _) as [ok1 s1'] eqn:M.
      destruct (markFullIfNeeded_visible _ _ _ _ W1 M) as [W1' V1'].
      destruct ok1; cbn [negb] in C.
      + destruct (requestNewPage_any _ _ _ W1' C) as [W2 V2].
        split; [exact W2|]. now rewrite V2, V1', V1.
      + injection C as _ <-. split; [exact W1'|]. now rewrite V1', V1.
    - injection C as _ <-. split; [exact W1|exact V1]. }
  destruct WV as [W2 V2].
  destruct ok2; cbn [negb].
  2: { intros H. injection H as _ <- _. split; [exact W2|exact V2]. }
  destruct (Nat.eqb _ 0).
  - destruct (Page.writeItem (Storage.page s2 _) _ _ _ _ _) as [err2 p2]
      eqn:Wr2.
    pose proof (pageWrite_frame _ _ _ _ _ _ _ _ _ g O Wr2) as V3.
    intros H. injection H as _ <- _. split; [now apply wfS_setPage|].
    now rewrite V3, V2.
  - intros H. destruct (IH _ _ _ _ _ W2 H) as [W3 V3].
    split; [exact W3|]. now rewrite V3, V2.
Qed.

Lemma rollback_frame g l s ns k ii :
  apart ns k g -> wfS s ->
  wfS (Storage.rollback l s ns k ii)
  /\ visible (Storage.rollback l s ns k ii) g = visible s g.
Proof.
  intros O. revert s ii. induction l as [|pg l IH]; intros s ii W;
    cbn [Storage.rollback]; [split; [exact W|reflexivity]|].
  destruct (Page.eraseItem _ _ _ _ _ _) as [err p'] eqn:E.
  pose proof (pageErase_frame _ _ _ _ _ _ _ _ _ (Storage.mLastError s) g O E) as V.
  pose proof (wfS_setPage s pg p' (Storage.mLastError s) W) as W1.
  destruct (IH (Storage.setPage s pg p') (ii + 1) W1) as [W2 V2].
  split; [exact W2|]. rewrite V2. exact V.
Qed.

Lemma writeMultiPageBlob_frame g s ns k d cs ok s' :
  apart ns k g -> wfS s ->
  Storage.writeMultiPageBlob s ns k d cs = (ok, s') ->
  wfS s' /\ visible s' g = visible s g.
Proof.
  intros O W. unfold Storage.writeMultiPageBlob.
  destruct (_ <? _).
  { intros H. injection H as _ <-. split; [exact W|reflexivity]. }
  destruct (Storage.writeLoop _ _ _ _ _ _ _ _ _ _) as [[[ret s1] used]|] eqn:L.
  2: { intros H. injection H as _ <-. split; [exact W|reflexivity]. }
  destruct (writeLoop_frame g _ _ _ _ _ _ _ _ _ _ _ _ _ O W L) as [W1 V1].
  destruct ret.
  { intros H. injection H as _ <-. split; [exact W1|exact V1]. }
  destruct (negb _).
  - intros H. injection H as _ <-.
    destruct (rollback_frame g used s1 ns k 0 O W1) as [W2 V2].
    split; [exact W2|]. now rewrite V2.
  - intros H. injection H as _ <-. split; [exact W1|exact V1].
Qed.

Lemma eraseChunks_frame g n s ns k cs cn ok s' :
  apart ns k g -> wfS s ->
  Storage.eraseChunks n s ns (Some k) cs cn = (ok, s') ->
  wfS s' /\ visible s' g = visible s g.
Proof.
  intros O. revert s cn. induction n as [|n IH]; intros s cn W;
    cbn [Storage.eraseChunks].
  { intros H. injection H as _ <-. split; [exact W|reflexivity]. }
  destruct (Storage.findItem _ _ _ _ _ _) as [[ok1 s1] r1] eqn:F.
  pose proof (findItem_pm _ _ _ _ _ _ _ _ _ F) as P1.
  pose proof (wfS_pm _ _ P1 W) as W1.
  pose proof (visible_pm _ _ g P1) as V1.
  assert (Miss : (if negb (esp_err_eqb (Storage.mLastError s1) ESP_ERR_NVS_NOT_FOUND)
                  then (false, s1)
                  else Storage.eraseChunks n s1 ns (Some k) cs (cn + 1))
                 = (ok, s') -> wfS s' /\ visible s' g = visible s g).
  { destruct (negb _).
    - intros H. injection H as _ <-. split; [exact W1|exact V1].
    - intros H. destruct (IH _ _ W1 H) as [W2 V2]. split; [exact W2|].
      now rewrite V2. }
  destruct ok1; [|exact Miss].
  destruct r1 as [[fp it]|]; [|exact Miss].
  destruct (Page.eraseItem _ _ _ _ _ _) as [err p'] eqn:E.
  pose proof (pageErase_frame _ _ _ _ _ _ _ _ _ err g O E) as V2.
  pose proof (wfS_setPage s1 fp p' err W1) as W2.
  destruct (negb (esp_err_eqb err ESP_OK)).
  - intros H. injection H as _ <-. split; [exact W2|]. now rewrite V2.
  - intros H. destruct (IH _ _ W2 H) as [W3 V3]. split; [exact W3|].
    now rewrite V3, V2.
Qed.

Lemma eraseMultiPageBlob_frame g s ns k cs ok s' :
  apart ns k g -> wfS s ->
  Storage.eraseMultiPageBlob s ns (Some k) cs = (ok, s') ->
  wfS s' /\ visible s' g = visible s g.
Proof.
  intros O W. unfold Storage.eraseMultiPageBlob.
  destruct (Storage.notActive s).
  { intros H. injection H as _ <-. split; [exact W|reflexivity]. }
  destruct (Storage.findItem _ _ _ _ _ _) as [[ok1 s1] r1] eqn:F.
  pose proof (findItem_pm _ _ _ _ _ _ _ _ _ F) as P1.
  pose proof (wfS_pm _ _ P1 W) as W1.
  pose proof (visible_pm _ _ g P1) as V1.
  destruct ok1; [|intros H; injection H as _ <-; now split].
  destruct r1 as [[fp it]|]; [|intros H; injection H as _ <-; now split].
  destruct (Page.eraseItem _ _ _ _ _ _) as [err p'] eqn:E.
  pose proof (pageErase_frame _ _ _ _ _ _ _ _ _ err g O E) as V2.
  pose proof (wfS_setPage s1 fp p' err W1) as W2.
  destruct (negb (esp_err_eqb err ESP_OK)).
  - intros H. injection H as _ <-. split; [exact W2|]. now rewrite V2.
  - intros H. destruct (eraseChunks_frame g _ _ _ _ _ _ _ _ O W2 H) as [W3 V3].
    split; [exact W3|]. now rewrite V3, V2.
Qed.

Lemma eraseFound_frame g s ns dt k findPage ok s' :
  apart ns k g -> wfS s ->
  Storage.eraseFound s ns dt k findPage = (ok, s') ->
  wfS s' /\ visible s' g = visible s g.
Proof.
  intros O W. unfold Storage.eraseFound.
  destruct findPage as [found|].
  2: { intros H. injection H as _ <-. split; [exact W|reflexivity]. }
  destruct (Storage.refind s ns dt k found) as [s1 [fp it]] eqn:R.
  pose proof (refind_pm _ _ _ _ _ _ _ R) as P1.
  pose proof (wfS_pm _ _ P1 W) as W1.
  pose proof (visible_pm _ _ g P1) as V1.
  destruct (Page.eraseItem _ _ _ _ _ _) as [err p'] eqn:E.
  pose proof (pageErase_frame _ _ _ _ _ _ _ _ _ err g O E) as V2.
  pose proof (wfS_setPage s1 fp p' err W1) as W2.
  destruct (negb (esp_err_eqb err ESP_OK)); intros H; injection H as _ <-.
  - split; [exact W2|]. now rewrite V2.
  - split; [exact W2|].
    change (visible (Storage.setLastError
                       (Storage.setLastError (Storage.setPage s1 fp p') err)
                       ESP_OK) g)
      with (visible (Storage.setLastError (Storage.setPage s1 fp p') err) g).
    now rewrite V2.
Qed.

Lemma pageWriteItem_frame g s pg ns dt k d :
  apart ns k g -> wfS s ->
  wfS (Storage.pageWriteItem s pg ns dt k d)
  /\ visible (Storage.pageWriteItem s pg ns dt k d) g = visible s g.
Proof.
  intros O W. unfold Storage.pageWriteItem.
  destruct (Page.writeItem _ _ _ _ _ _) as [err p'] eqn:E.
  split; [now apply wfS_setPage|]. exact (pageWrite_frame _ _ _ _ _ _ _ _ _ g O E).
Qed.

Lemma converted_frame g (s4 : Storage.t) :
  visible (if esp_err_eqb (Storage.mLastError s4) ESP_ERR_NVS_PAGE_FULL
           then Storage.setLastError s4 ESP_ERR_NVS_NOT_ENOUGH_SPACE else s4) g
  = visible s4 g
  /\ (wfS s4 ->
      wfS (if esp_err_eqb (Storage.mLastError s4) ESP_ERR_NVS_PAGE_FULL
           then Storage.setLastError s4 ESP_ERR_NVS_NOT_ENOUGH_SPACE else s4)).
Proof. destruct (esp_err_eqb _ _); split; auto. Qed.

Lemma writeItem_frame (s : Storage.t) (ns : Z) (dt : ItemType)
      (k : string) (d : list Z) (ok : bool) (s' : Storage.t)
      (g : Item -> bool) :
  wfS s -> apart ns k g ->
  Storage.writeItem s ns dt k d = (ok, s') ->
  wfS s' /\ visible s' g = visible s g.
Proof.
  intros W O. unfold Storage.writeItem.
  destruct (Storage.notActive s).
  { intros H. injection H as _ <-. split; [exact W|reflexivity]. }
  destruct (Storage.findItem _ _ _ _ _ _) as [[ok1 s1] findPage] eqn:F.
  pose proof (findItem_pm _ _ _ _ _ _ _ _ _ F) as P1.
  pose proof (wfS_pm _ _ P1 W) as W1.
  pose proof (visible_pm _ _ g P1) as V1.
  destruct (negb ok1 && _).
  { intros H. injection H as _ <-. now split. }
  destruct (ItemType_eqb dt BLOB).
  - destruct findPage as [found|].
    + destruct (Storage.cmpMultiPageBlob s1 ns (Some k) d) as [same s2] eqn:C.
      pose proof (cmpMultiPageBlob_pm _ _ _ _ _ _ C) as P2.
      pose proof (wfS_pm _ _ P2 W1) as W2.
      pose proof (visible_pm _ _ g P2) as V2.
      destruct same.
      { intros H. injection H as _ <-. split; [exact W2|]. congruence. }
      destruct (Storage.refind s2 ns dt k found) as [s3 [fp item]] eqn:R.
      pose proof (refind_pm _ _ _ _ _ _ _ R) as P3.
      pose proof (wfS_pm _ _ P3 W2) as W3.
      pose proof (visible_pm _ _ g P3) as V3.
      destruct (Storage.writeMultiPageBlob _ _ _ _ _) as [ok4 s4] eqn:WM.
      destruct (writeMultiPageBlob_frame g _ _ _ _ _ _ _ O W3 WM) as [W4 V4].
      destruct ok4; cbn [negb].
      2: { intros H. injection H as _ <-.
           destruct (converted_frame g s4) as [Vc Wc].
           split; [exact (Wc W4)|]. rewrite Vc. congruence. }
      destruct (Storage.eraseMultiPageBlob _ _ _ _) as [ok5 s5] eqn:EM.
      destruct (eraseMultiPageBlob_frame g _ _ _ _ _ _ O W4 EM) as [W5 V5].
      destruct ok5; cbn [negb].
      2: { intros H. injection H as _ <-. split; [exact W5|]. congruence. }
      intros H. destruct (eraseFound_frame g _ _ _ _ _ _ _ O W5 H) as [W6 V6].
      split; [exact W6|]. congruence.
    + destruct (Storage.writeMultiPageBlob _ _ _ _ _) as [ok4 s4] eqn:WM.
      destruct (writeMultiPageBlob_frame g _ _ _ _ _ _ _ O W1 WM) as [W4 V4].
      destruct ok4; cbn [negb].
      2: { intros H. injection H as _ <-.
           destruct (converted_frame g s4) as [Vc Wc].
           split; [exact (Wc W4)|]. rewrite Vc. congruence. }
      destruct (Storage.findItem s4 _ _ _ _ _) as [[ok5 s5] legacy] eqn:F5.
      pose proof (findItem_pm _ _ _ _ _ _ _ _ _ F5) as P5.
      pose proof (wfS_pm _ _ P5 W4) as W5.
      pose proof (visible_pm _ _ g P5) as V5.
      destruct (negb ok5 && _).
      { intros H. injection H as _ <-. split; [exact W5|]. congruence. }
      intros H. destruct (eraseFound_frame g _ _ _ _ _ _ _ O W5 H) as [W6 V6].
      split; [exact W6|]. congruence.
  - destruct (match findPage with Some _ => _ | None => false end).
    { intros H. injection H as _ <-. now split. }
    destruct (pageWriteItem_frame g s1 (Storage.getCurrentPage s1) ns dt k d O W1)
      as [W2 V2].
    set (s2 := Storage.pageWriteItem s1 _ ns dt k d) in *.
    destruct (esp_err_eqb (Storage.mLastError s2) ESP_ERR_NVS_PAGE_FULL).
    + destruct (Storage.markFullIfNeeded _ _) as [ok3 s3] eqn:M.
      destruct (markFullIfNeeded_visible _ _ _ _ W2 M) as [W3 V3].
      destruct ok3; cbn [negb].
      2: { intros H. injection H as _ <-. split; [exact W3|].
           rewrite V3. congruence. }
      destruct (Storage.requestNewPage s3) as [ok4 s4] eqn:R.
      destruct (requestNewPage_any _ _ _ W3 R) as [W4 V4].
      destruct ok4; cbn [negb].
      2: { intros H. injection H as _ <-. split; [exact W4|].
           rewrite V4, V3. congruence. }
      destruct (pageWriteItem_frame g s4 (Storage.getCurrentPage s4) ns dt k d O W4)
        as [W5 V5].
      set (s5 := Storage.pageWriteItem s4 _ ns dt k d) in *.
      destruct (esp_err_eqb (Storage.mLastError s5) ESP_ERR_NVS_PAGE_FULL).
      { intros H. injection H as _ <-. split; [exact W5|].
        change (visible (Storage.setLastError s5 ESP_ERR_NVS_NOT_ENOUGH_SPACE) g)
          with (visible s5 g).
        rewrite V5, V4, V3. congruence. }
      destruct (negb _).
      { intros H. injection H as _ <-. split; [exact W5|].
        rewrite V5, V4, V3. congruence. }
      intros H. destruct (eraseFound_frame g _ _ _ _ _ _ _ O W5 H) as [W6 V6].
      split; [exact W6|]. rewrite V6, V5, V4, V3. congruence.
    + destruct (negb _).
      { intros H. injection H as _ <-. split; [exact W2|]. congruence. }
      intros H. destruct (eraseFound_frame g _ _ _ _ _ _ _ O W2 H) as [W6 V6].
      split; [exact W6|]. congruence.
Qed.

(** X5.  Whatever its type and whether or not it succeeds, a [writeItem]
    for the key [k] leaves in sight exactly the items of the other keys
    that were in sight before: for every filter that accepts no item of key
    [k], the pages in use hold as many WRITTEN matches afterwards as
    before, across new pages and garbage collection. *)
Theorem writeItem_other_keys (s : Storage.t) (ns : Z) (dt : ItemType)
        (k : string) (d : list Z) (ok : bool) (s' : Storage.t)
        (g : Item -> bool) :
  wfS s -> otherKeys g k ->
  Storage.writeItem s ns dt k d = (ok, s') ->
  wfS s' /\ visible s' g = visible s g.
Proof.
  intros W O. apply writeItem_frame; [exact W|]. now apply otherKeys_apart.
Qed.

Lemma writeItem_other_keys_witness :
  wfS withItem
  /\ visible withItem (fun it => String.eqb (key it) "cfg")
     = visible withNamespace (fun it => String.eqb (key it) "cfg").
Proof.
  apply (writeItem_other_keys withNamespace 1 U32 "rev" [239; 190; 173; 222]
                              true withItem).
  - apply wfPM_wf. vm_compute. reflexivity.
  - intros it E. rewrite E. reflexivity.
  - vm_compute. reflexivity.
Defined.

(** X23.  Namespaces are kept apart.  Whatever its type and whether or not
    it succeeds, a [writeItem] in the namespace [ns] (not [NS_ANY])
    leaves in sight exactly the items of the other namespaces that were
    in sight before, also those stored under the same key: for every
    filter that accepts no item of the namespace [ns], the pages in use
    hold as many WRITTEN matches afterwards as before. *)
Theorem writeItem_other_namespaces (s : Storage.t) (ns : Z) (dt : ItemType)
        (k : string) (d : list Z) (ok : bool) (s' : Storage.t)
        (g : Item -> bool) :
  wfS s -> ns <> Page.NS_ANY ->
  (forall it, nsIndex it = ns -> g it = false) ->
  Storage.writeItem s ns dt k d = (ok, s') ->
  wfS s' /\ visible s' g = visible s g.
Proof.
  intros W N O. apply writeItem_frame; [exact W|].
  now apply otherNamespace_apart.
Qed.

Lemma writeItem_other_namespaces_witness :
  let s' := snd (Storage.writeItem withItem 2 U32 "rev" [1; 2; 3; 4]) in
  wfS s'
  /\ visible s' (fun it => nsIndex it =? 1)
     = visible withItem (fun it => nsIndex it =? 1).
Proof.
  apply (writeItem_other_namespaces withItem 2 U32 "rev" [1; 2; 3; 4] true).
  - apply wfPM_wf. vm_compute. reflexivity.
  - discriminate.
  - intros it E. rewrite E. reflexivity.
  - vm_compute. reflexivity.
Defined.

(** ** Writing and reading back a value of a primitive type *)

(** X2.  Round trip: when at most one item is stored under
    [(ns, dt, k)] and [writeItem(ns, dt, k, d)] succeeds for a type other
    than BLOB, [readItem(ns, dt, k)] with a buffer of the size of [d]
    succeeds and returns [d]. *)
Theorem writeItem_readItem (s : Storage.t) (ns : Z) (dt : ItemType)
        (k : string) (d : list Z) (s' : Storage.t) :
  ItemType_eqb dt BLOB = false ->
  wfS s -> Storage.pageList s <> [] ->
  (visible s (keyFilter ns dt k) <= 1)%nat ->
  Storage.writeItem s ns dt k d = (true, s') ->
  Storage.readItem s' ns dt (Some k) (Z.of_nat (List.length d))
  = (true, Storage.setLastError s' ESP_OK, d).
Proof.
  intros B W NE U WI.
  destruct (writeItem_primitive_unique _ _ _ _ _ _ B W NE U WI)
    as (A & _ & _ & V & St).
  apply readItem_value; try assumption. lia.
Qed.

Lemma writeItem_readItem_witness :
  Storage.readItem withItem 1 U32 (Some "rev"%string) 4
  = (true, Storage.setLastError withItem ESP_OK, [239; 190; 173; 222]).
Proof.
  apply (writeItem_readItem withNamespace 1 U32 "rev" [239; 190; 173; 222]
                            withItem).
  - reflexivity.
  - apply wfPM_wf. vm_compute. reflexivity.
  - vm_compute. discriminate.
  - vm_compute. lia.
  - vm_compute. reflexivity.
Defined.

(** X3.  Replacement: under the same conditions the successful write
    leaves exactly one item under [(ns, dt, k)] in sight and none whose
    payload differs from [d]: the previous item is erased.  The page lists
    stay well formed and not empty. *)
Theorem writeItem_replaces (s : Storage.t) (ns : Z) (dt : ItemType)
        (k : string) (d : list Z) (s' : Storage.t) :
  ItemType_eqb dt BLOB = false ->
  wfS s -> Storage.pageList s <> [] ->
  (visible s (keyFilter ns dt k) <= 1)%nat ->
  Storage.writeItem s ns dt k d = (true, s') ->
  visible s' (keyFilter ns dt k) = 1%nat
  /\ visible s' (staleFilter ns dt k d) = O
  /\ wfS s' /\ Storage.pageList s' <> [].
Proof.
  intros B W NE U WI.
  destruct (writeItem_primitive_unique _ _ _ _ _ _ B W NE U WI)
    as (_ & W' & NE' & V & St).
  split; [exact V|]. split; [exact St|]. split; [exact W'|exact NE'].
Qed.

Lemma writeItem_replaces_witness :
  let s' := snd (Storage.writeItem withItem 1 U32 "rev" [1; 2; 3; 4]) in
  visible s' (keyFilter 1 U32 "rev") = 1%nat
  /\ visible s' (staleFilter 1 U32 "rev" [1; 2; 3; 4]) = O
  /\ wfS s' /\ Storage.pageList s' <> [].
Proof.
  apply (writeItem_replaces withItem 1 U32 "rev" [1; 2; 3; 4]).
  - reflexivity.
  - apply wfPM_wf. vm_compute. reflexivity.
  - vm_compute. discriminate.
  - vm_compute. lia.
  - vm_compute. reflexivity.
Defined.

(** X4.  A failed [writeItem] of a type other than BLOB loses nothing and
    adds nothing: for every filter the pages in use hold as many WRITTEN
    matches as before, and the namespace table is untouched. *)
Theorem writeItem_failure_keeps (s : Storage.t) (ns : Z) (dt : ItemType)
        (k : string) (d : list Z) (s' : Storage.t) :
  ItemType_eqb dt BLOB = false ->
  wfS s -> Storage.pageList s <> [] ->
  Storage.writeItem s ns dt k d = (false, s') ->
  sameTables s s' /\ forall g, visible s' g = visible s g.
Proof.
  intros B W NE WI. split; [exact (writeItem_tables _ _ _ _ _ _ _ WI)|].
  rewrite writeItem_primitive in WI by assumption.
  destruct (Storage.notActive s).
  { injection WI as <-. reflexivity. }
  destruct (findIn s ns dt (Some k) Page.CHUNK_ANY VER_ANY) as [[fp it]|] eqn:F.
  - pose proof (findIn_found_facts _ _ _ _ _ _ _ _ F) as (I & In1 & M & C & V).
    fold (keyFilter ns dt k) in M, C, V.
    destruct (Page.bytes_eqb (data it) d); [discriminate|].
    destruct (primitiveTail_spec (Storage.setLastError s ESP_OK) ns dt k d
                (Some (fp, it)) false s' W NE) as (_ & _ & Vs);
      [repeat split; assumption|exact WI|exact Vs].
  - destruct (primitiveTail_spec (Storage.setLastError s ESP_ERR_NVS_NOT_FOUND)
                ns dt k d None false s' W NE I WI) as (_ & _ & Vs).
    exact Vs.
Qed.

Lemma writeItem_failure_keeps_witness :
  let s' := snd (Storage.writeItem fullFlash 1 U8 "x" [0]) in
  sameTables fullFlash s' /\ forall g, visible s' g = visible fullFlash g.
Proof.
  apply (writeItem_failure_keeps fullFlash 1 U8 "x" [0]).
  - reflexivity.
  - apply wfPM_wf. vm_compute. reflexivity.
  - vm_compute. discriminate.
  - vm_compute. reflexivity.
Defined.

(** ** Erasing one item *)

Lemma eraseFirst_scan es i f j it :
  Page.scan es i O f = Some (j, it) ->
  exists es',
    Page.eraseFirst es f = Some es'
    /\ forall g, (countPage es' g + (if g it then 1 else 0)
                  = countPage es g)%nat.
Proof.
  revert i. induction es as [|[st x] es IH]; intros i; cbn [Page.scan];
    [discriminate|].
  cbn [Nat.leb andb Page.eraseFirst]. destruct (isWritten st && f x) eqn:C.
  - intros H. injection H as _ <-. apply andb_true_iff in C as [Wr _].
    eexists. split; [reflexivity|]. intros g.
    cbn [countPage isWritten andb]. rewrite Wr. cbn [andb].
    destruct (g x); lia.
  - intros H. destruct (IH _ H) as (es' & E & N). rewrite E.
    eexists. split; [reflexivity|]. intros g. cbn [countPage].
    specialize (N g). lia.
Qed.

(** X6.  [eraseItem] of a key under which nothing is stored (for BLOB:
    under which no blob index is stored) fails with NOT_FOUND and changes
    nothing but the last error. *)
Theorem eraseItem_missing (s : Storage.t) (ns : Z) (dt : ItemType)
        (k : option string) :
  Storage.mState s = State.ACTIVE ->
  visible s (Page.matches ns (if ItemType_eqb dt BLOB then BLOB_IDX else dt) k
                          Page.CHUNK_ANY VER_ANY) = O ->
  Storage.eraseItem s ns dt k
  = (false, Storage.setLastError s ESP_ERR_NVS_NOT_FOUND).
Proof.
  intros A V. apply findIn_none_visible in V.
  unfold Storage.eraseItem. rewrite (notActive_false s A).
  destruct (ItemType_eqb dt BLOB).
  - unfold Storage.eraseMultiPageBlob. rewrite (notActive_false s A).
    rewrite findItem_findIn, V. reflexivity.
  - rewrite findItem_findIn, V. reflexivity.
Qed.

Lemma eraseItem_missing_witness :
  Storage.eraseItem withNamespace 1 U32 (Some "rev"%string)
  = (false, Storage.setLastError withNamespace ESP_ERR_NVS_NOT_FOUND).
Proof.
  apply (eraseItem_missing withNamespace 1 U32 (Some "rev"%string)).
  - vm_compute. reflexivity.
  - vm_compute. reflexivity.
Defined.

(** X7.  [eraseItem] on an item that is no part of a blob erases exactly
    the item that [findItem] returns: it succeeds, every filter counts one
    match less if it accepts that item and as many as before otherwise, and
    the namespace table is untouched.  If the item was the only one stored
    under the key, a following [readItem] fails with NOT_FOUND. *)
Theorem eraseItem_erases_found (s : Storage.t) (ns : Z) (dt : ItemType)
        (k : option string) (fp : nat) (it : Item) :
  Storage.mState s = State.ACTIVE -> wfS s ->
  ItemType_eqb dt BLOB = false ->
  findIn s ns dt k Page.CHUNK_ANY VER_ANY = Some (fp, it) ->
  (ItemType_eqb (datatype it) BLOB_DATA
   || ItemType_eqb (datatype it) BLOB_IDX)%bool = false ->
  exists s',
    Storage.eraseItem s ns dt k = (true, s')
    /\ Storage.mLastError s' = ESP_OK
    /\ sameTables s s' /\ wfS s'
    /\ Storage.pageList s' = Storage.pageList s
    /\ (forall g, (visible s' g + (if g it then 1 else 0) = visible s g)%nat)
    /\ (visible s (Page.matches ns dt k Page.CHUNK_ANY VER_ANY) = 1%nat ->
        forall n,
          Storage.readItem s' ns dt k n
          = (false, Storage.setLastError s' ESP_ERR_NVS_NOT_FOUND, [])).
Proof.
  intros A W B F NB.
  pose proof (findIn_found_facts _ _ _ _ _ _ _ _ F) as (I & In1 & M & C & V).
  unfold Storage.eraseItem. rewrite (notActive_false s A), B.
  rewrite findItem_findIn, F. cbv beta iota. rewrite NB.
  pose proof F as F'. unfold findIn in F'.
  apply findItemIn_found in F' as [_ [i S]].
  destruct (eraseFirst_scan _ _ _ _ _ S) as (es' & E & N).
  unfold Page.eraseItem.
  change (Storage.page (Storage.setLastError s ESP_OK) fp)
    with (PageManager.page (Storage.mPageManager s) fp).
  rewrite E.
  set (p' := Page.mk _ _ es').
  set (s' := Storage.setLastError
               (Storage.setPage (Storage.setLastError s ESP_OK) fp p') ESP_OK).
  assert (Cn : forall g, (visible s' g + (if g it then 1 else 0)
                          = visible s g)%nat).
  { intros g.
    pose proof (visible_setPage_in s fp p' ESP_OK g W I) as Q.
    cbn [Page.entries p'] in Q. specialize (N g).
    change (visible s' g)
      with (visible (Storage.setLastError (Storage.setPage s fp p') ESP_OK) g).
    unfold Storage.page in Q. lia. }
  exists s'. split; [reflexivity|]. split; [reflexivity|].
  split; [repeat split|]. split; [apply (wfS_setPage s fp p' ESP_OK W)|].
  split; [reflexivity|]. split; [exact Cn|].
  intros U n.
  assert (A' : Storage.notActive s' = false) by exact (notActive_false s A).
  unfold Storage.readItem. rewrite A', B. unfold Storage.readFound.
  rewrite findItem_findIn.
  assert (Z : findIn s' ns dt k Page.CHUNK_ANY VER_ANY = None).
  { apply findIn_none_visible. specialize (Cn (Page.matches ns dt k Page.CHUNK_ANY VER_ANY)).
    rewrite M in Cn. lia. }
  rewrite Z. reflexivity.
Qed.

Lemma eraseItem_erases_found_witness :
  exists s',
    Storage.eraseItem withItem 1 U32 (Some "rev"%string) = (true, s')
    /\ visible s' (keyFilter 1 U32 "rev") = O
    /\ Storage.readItem s' 1 U32 (Some "rev"%string) 4
       = (false, Storage.setLastError s' ESP_ERR_NVS_NOT_FOUND, []).
Proof.
  destruct (eraseItem_erases_found withItem 1 U32 (Some "rev"%string) O
              (mkItem 1 U32 1 255 "rev" [239; 190; 173; 222]))
    as (s' & E & _ & _ & _ & _ & C & R).
  - vm_compute. reflexivity.
  - apply wfPM_wf. vm_compute. reflexivity.
  - reflexivity.
  - vm_compute. reflexivity.
  - reflexivity.
  - exists s'. split; [exact E|]. split.
    + specialize (C (keyFilter 1 U32 "rev")).
      assert (V : visible withItem (keyFilter 1 U32 "rev") = 1%nat)
        by (vm_compute; reflexivity).
      rewrite V in C. cbn in C. lia.
    + apply R. vm_compute. reflexivity.
Defined.

(** ** The namespace table *)

Lemma testbit_setbit_keep u i j :
  Z.testbit u j = true -> Z.testbit (Z.setbit u i) j = true.
Proof.
  intros H. rewrite Z.setbit_spec', Z.lor_spec, H. reflexivity.
Qed.

Lemma namespacesFromPage_covered fuel p start acc :
  (forall e, In e (fst acc) -> 0 <= NamespaceEntry.mIndex e ->
             Z.testbit (snd acc) (NamespaceEntry.mIndex e) = true) ->
  let r := Storage.namespacesFromPage fuel p start acc in
  forall e, In e (fst r) -> 0 <= NamespaceEntry.mIndex e ->
            Z.testbit (snd r) (NamespaceEntry.mIndex e) = true.
Proof.
  revert start acc. induction fuel as [|fuel IH]; intros start acc H;
    cbn [Storage.namespacesFromPage]; [exact H|].
  destruct (Page.findItem _ _ _ _ _ _ _) as [[err i] [item|]];
    [|destruct err; exact H].
  destruct err; try exact H.
  apply IH. cbn [fst snd NamespaceEntry.mIndex]. intros e I Pos.
  apply in_app_or in I as [I|[<-|[]]].
  - apply testbit_setbit_keep. now apply H.
  - cbn [NamespaceEntry.mIndex] in *. now apply Z.setbit_eq.
Qed.

Lemma namespaces_fold_covered (s1 : Storage.t) l acc :
  (forall e, In e (fst acc) -> 0 <= NamespaceEntry.mIndex e ->
             Z.testbit (snd acc) (NamespaceEntry.mIndex e) = true) ->
  let r := fold_left (fun acc i =>
                        Storage.namespacesFromPage
                          (Storage.scanFuel (Storage.page s1 i))
                          (Storage.page s1 i) O acc) l acc in
  forall e, In e (fst r) -> 0 <= NamespaceEntry.mIndex e ->
            Z.testbit (snd r) (NamespaceEntry.mIndex e) = true.
Proof.
  revert acc. induction l as [|i l IH]; intros acc H; cbn [fold_left];
    [exact H|].
  apply IH. now apply namespacesFromPage_covered.
Qed.

Lemma fold_setPage_tables (F : Storage.t -> nat -> Page.t) l acc :
  sameTables acc (fold_left (fun a i => Storage.setPage a i (F a i)) l acc).
Proof.
  revert acc. induction l as [|i l IH]; intros acc; cbn [fold_left].
  - apply sameTables_refl.
  - eapply sameTables_trans; [|apply IH]. apply sameTables_setPage.
Qed.

Lemma eraseOrphanDataBlobs_tables s bl :
  sameTables s (Storage.eraseOrphanDataBlobs s bl).
Proof.
  unfold Storage.eraseOrphanDataBlobs.
  apply (fold_setPage_tables
           (fun a i => Storage.eraseOrphansOfPage
                         (Storage.scanFuel (Storage.page a i)) bl
                         (Storage.page a i) O)).
Qed.

(** X8.  What [init] leaves.  With handles in use it fails with
    INVALID_STATE and changes nothing else.  Otherwise it succeeds exactly
    when it leaves the state ACTIVE: on success the last error is OK, the
    usage bitmap has the reserved indices 0 and 255 set and covers the
    index of every entry of the namespace table; on failure the state is
    INVALID and the last error is not OK. *)
Theorem init_outcome (s : Storage.t) :
  let r := Storage.init s in
  if Nat.eqb (Storage.mHandleCount s) O
  then
    if fst r
    then
      Storage.mState (snd r) = State.ACTIVE
      /\ Storage.mLastError (snd r) = ESP_OK
      /\ Storage.mHandleCount (snd r) = O
      /\ Z.testbit (Storage.mNamespaceUsage (snd r)) 0 = true
      /\ Z.testbit (Storage.mNamespaceUsage (snd r)) 255 = true
      /\ tableCovered (snd r)
    else
      Storage.mState (snd r) = State.INVALID
      /\ Storage.mLastError (snd r) <> ESP_OK
  else r = (false, Storage.setLastError s ESP_ERR_NVS_INVALID_STATE).
Proof.
  unfold Storage.init.
  destruct (Nat.eqb (Storage.mHandleCount s) O) eqn:HC; cbn [negb];
    [|reflexivity].
  apply Nat.eqb_eq in HC.
  destruct (PageManager.load _) as [err pm].
  destruct (esp_err_eqb err ESP_OK) eqn:E; cbn [negb].
  2: { cbn. split; [reflexivity|]. intros ->. discriminate. }
  set (s1 := Storage.setLastError (Storage.setPageManager s pm) err).
  pose proof (namespaces_fold_covered s1 (Storage.pageList s1) ([], 0)) as Cov.
  cbv zeta in Cov.
  destruct (fold_left _ _ _) as [nss usage].
  cbn [Storage.populateBlobIndices negb fst snd].
  match goal with
  | |- context [Storage.eraseOrphanDataBlobs ?a ?b] =>
      pose proof (eraseOrphanDataBlobs_tables a b) as (T1 & T2 & T3 & T4);
      set (s4 := Storage.eraseOrphanDataBlobs a b) in *
  end.
  cbn [Storage.mState Storage.mLastError Storage.mHandleCount
       Storage.mNamespaceUsage Storage.setLastError Storage.mNamespaces] in *.
  rewrite T3, T4, T2.
  split; [reflexivity|]. split; [reflexivity|]. split; [exact HC|].
  split; [apply testbit_setbit_keep, Z.setbit_eq; lia|].
  split; [apply Z.setbit_eq; lia|].
  unfold tableCovered.
  cbn [Storage.mNamespaces Storage.mNamespaceUsage Storage.setLastError].
  rewrite T1, T2. intros e I Pos.
  apply testbit_setbit_keep, testbit_setbit_keep.
  apply Cov; [intros ? []|exact I|exact Pos].
Qed.

Lemma truncate_short n k :
  (String.length k <= n)%nat -> ItemLayout.truncate n k = k.
Proof.
  revert n. induction k as [|c k IH]; intros n; destruct n as [|n]; cbn;
    try reflexivity; try lia.
  intros H. rewrite IH by lia. reflexivity.
Qed.

Lemma triple_inj {A B C} (a a' : A) (b b' : B) (c c' : C) :
  (a, b, c) = (a', b', c') -> a = a' /\ b = b' /\ c = c'.
Proof. intros H. injection H as -> -> ->. repeat split. Qed.

Lemma find_app_none {A} (f : A -> bool) l x :
  find f l = None -> find f (l ++ [x]) = if f x then Some x else None.
Proof.
  induction l as [|y l IH]; cbn; [reflexivity|].
  destruct (f y); [discriminate|exact IH].
Qed.

(** X9.  A namespace that [createOrOpenNamespace] created or opened is
    found again under the same index: for a name of at most 15 characters
    every later call with that name succeeds with the index returned
    first and changes nothing but the last error. *)
Theorem createOrOpenNamespace_reopen (s : Storage.t) (name : string)
        (canCreate : bool) (idx0 : Z) (s' : Storage.t) (ns : Z) :
  (String.length name <= ItemLayout.MAX_KEY_LENGTH)%nat ->
  Storage.createOrOpenNamespace s name canCreate idx0 = (true, s', ns) ->
  forall canCreate' idx1,
    Storage.createOrOpenNamespace s' name canCreate' idx1
    = (true, Storage.setLastError s' ESP_OK, ns).
Proof.
  intros Len. unfold Storage.createOrOpenNamespace at 1.
  destruct (Storage.notActive s) eqn:A; [discriminate|].
  destruct (Storage.findNamespace (Storage.mNamespaces s) name) as [e|] eqn:F.
  - intros H. injection H as <- <-. intros c i.
    unfold Storage.createOrOpenNamespace.
    change (Storage.notActive (Storage.setLastError s ESP_OK))
      with (Storage.notActive s).
    rewrite A.
    change (Storage.mNamespaces (Storage.setLastError s ESP_OK))
      with (Storage.mNamespaces s).
    rewrite F. reflexivity.
  - destruct (negb canCreate); [discriminate|].
    destruct (_ =? 255); [discriminate|].
    destruct (Storage.writeItem _ _ _ _ _) as [ok s1] eqn:W.
    destruct ok; cbn [negb]; [|discriminate].
    apply writeItem_tables in W as (T1 & T2 & T3 & T4).
    rewrite (truncate_short _ _ Len).
    intros H. apply triple_inj in H as (_ & <- & <-). intros c i.
    unfold Storage.createOrOpenNamespace.
    unfold Storage.notActive in *.
    cbn [Storage.mState Storage.mNamespaces]. rewrite T3, A, T1.
    unfold Storage.findNamespace in *. rewrite (find_app_none _ _ _ F).
    cbv beta. cbn [NamespaceEntry.mName].
    rewrite String.eqb_refl. reflexivity.
Qed.

Lemma createOrOpenNamespace_reopen_witness :
  Storage.createOrOpenNamespace withNamespace "cfg" false 0
  = (true, Storage.setLastError withNamespace ESP_OK, 1).
Proof.
  apply (createOrOpenNamespace_reopen mounted4 "cfg" true 0 withNamespace 1).
  - vm_compute. lia.
  - vm_compute. reflexivity.
Defined.

(** X10.  The index given to a new namespace is in [1, 254] and differs
    from the index of every entry of the table, when the usage bitmap
    covers the table (as [init] leaves it); the new entry is appended and
    the bitmap covers the table again. *)
Theorem createOrOpenNamespace_distinct (s : Storage.t) (name : string)
        (idx0 : Z) (s' : Storage.t) (ns : Z) :
  tableCovered s ->
  Storage.findNamespace (Storage.mNamespaces s) name = None ->
  Storage.createOrOpenNamespace s name true idx0 = (true, s', ns) ->
  1 <= ns <= 254
  /\ (forall e, In e (Storage.mNamespaces s) -> NamespaceEntry.mIndex e <> ns)
  /\ Storage.mNamespaces s'
     = Storage.mNamespaces s
       ++ [NamespaceEntry.mk
             (ItemLayout.truncate ItemLayout.MAX_KEY_LENGTH name) ns]
  /\ tableCovered s'.
Proof.
  intros Cov F. unfold Storage.createOrOpenNamespace.
  destruct (Storage.notActive s) eqn:A; [discriminate|].
  rewrite F. cbn [negb].
  pose proof (firstFree_spec 254 (Storage.mNamespaceUsage s) 1) as (R & _ & Fr).
  set (r := Storage.firstFree 254 (Storage.mNamespaceUsage s) 1) in *.
  destruct (Z.eqb_spec r 255) as [|Ne]; [discriminate|].
  destruct (Storage.writeItem _ _ _ _ _) as [ok s1] eqn:W.
  destruct ok; cbn [negb]; [|discriminate].
  apply writeItem_tables in W as (T1 & T2 & T3 & T4).
  intros H. apply triple_inj in H as (_ & <- & <-).
  assert (Z254 : Z.of_nat 254 = 254) by reflexivity.
  assert (Rg : 1 <= r <= 254) by lia.
  assert (Fr' : Z.testbit (Storage.mNamespaceUsage s) r = false)
    by (apply Fr; lia).
  clear Fr. rename Fr' into Fr.
  split; [exact Rg|]. split.
  { intros e I E. rewrite <- E in Fr. rewrite Cov in Fr; [discriminate|exact I|lia]. }
  split; [cbn; now rewrite T1|].
  unfold tableCovered. cbn [Storage.mNamespaces Storage.mNamespaceUsage].
  rewrite T1, T2. intros e I Pos. apply in_app_or in I as [I|[<-|[]]].
  - apply testbit_setbit_keep. now apply Cov.
  - cbn [NamespaceEntry.mIndex]. apply Z.setbit_eq. lia.
Qed.

Lemma createOrOpenNamespace_distinct_witness :
  let r := Storage.createOrOpenNamespace withNamespace "net" true 0 in
  1 <= snd r <= 254
  /\ (forall e, In e (Storage.mNamespaces withNamespace) ->
                NamespaceEntry.mIndex e <> snd r)
  /\ Storage.mNamespaces (snd (fst r))
     = Storage.mNamespaces withNamespace
       ++ [NamespaceEntry.mk
             (ItemLayout.truncate ItemLayout.MAX_KEY_LENGTH "net") (snd r)]
  /\ tableCovered (snd (fst r)).
Proof.
  apply (createOrOpenNamespace_distinct withNamespace "net" 0).
  - intros e [<-|[]] _. vm_compute. reflexivity.
  - vm_compute. reflexivity.
  - vm_compute. reflexivity.
Defined.

(** ** The success flag and the last error *)

Lemma agrees_iff ok s :
  (ok = true <-> Storage.mLastError s = ESP_OK) -> agrees ok s.
Proof.
  unfold agrees. intros [H1 H2].
  destruct (esp_err_eqb (Storage.mLastError s) ESP_OK) eqn:E.
  - apply esp_err_eqb_eq in E. now apply H2.
  - destruct ok; [|reflexivity]. specialize (H1 eq_refl).
    apply esp_err_eqb_eq in H1. congruence.
Qed.

Lemma agrees_set_true s : agrees true (Storage.setLastError s ESP_OK).
Proof. reflexivity. Qed.

Lemma agrees_set s e : agrees (esp_err_eqb e ESP_OK) (Storage.setLastError s e).
Proof. reflexivity. Qed.

Lemma agrees_neg s e :
  negb (esp_err_eqb e ESP_OK) = true -> agrees false (Storage.setLastError s e).
Proof. unfold agrees. cbn. intros H. apply negb_true_iff in H. now rewrite H. Qed.

Lemma findItem_agrees s ns dt k ci cs ok s' r :
  Storage.findItem s ns dt k ci cs = (ok, s', r) -> agrees ok s'.
Proof.
  rewrite findItem_findIn. destruct (findIn _ _ _ _ _ _); intros H;
    apply triple_inj in H as (<- & <- & _); reflexivity.
Qed.

Lemma findItem_missed s ns dt k ci cs s' r :
  Storage.findItem s ns dt k ci cs = (false, s', r) ->
  Storage.mLastError s' = ESP_ERR_NVS_NOT_FOUND.
Proof.
  rewrite findItem_findIn. destruct (findIn _ _ _ _ _ _); intros H;
    apply triple_inj in H as (E & <- & _); [discriminate|reflexivity].
Qed.

Lemma findItem_some s ns dt k ci cs s' :
  Storage.findItem s ns dt k ci cs <> (true, s', None).
Proof.
  rewrite findItem_findIn. destruct (findIn _ _ _ _ _ _); intros H;
    apply triple_inj in H as (E & _ & E2); discriminate.
Qed.

Lemma eraseChunks_agrees n s ns k cs cn ok s' :
  Storage.eraseChunks n s ns k cs cn = (ok, s') -> agrees ok s'.
Proof.
  revert s cn. induction n as [|n IH]; intros s cn; cbn [Storage.eraseChunks].
  { intros H. injection H as <- <-. reflexivity. }
  destruct (Storage.findItem _ _ _ _ _ _) as [[ok1 s1] r1] eqn:F.
  assert (Miss : Storage.mLastError s1 = ESP_ERR_NVS_NOT_FOUND ->
                 (if negb (esp_err_eqb (Storage.mLastError s1) ESP_ERR_NVS_NOT_FOUND)
                  then (false, s1)
                  else Storage.eraseChunks n s1 ns k cs (cn + 1)) = (ok, s') ->
                 agrees ok s').
  { intros ->. cbn [esp_err_eqb negb]. apply IH. }
  destruct ok1.
  - destruct r1 as [[fp it]|]; [|now apply findItem_some in F].
    destruct (Page.eraseItem _ _ _ _ _ _) as [err p'].
    destruct (negb (esp_err_eqb err ESP_OK)) eqn:E.
    + intros H. injection H as <- <-. now apply agrees_neg.
    + apply IH.
  - apply Miss. now apply findItem_missed in F.
Qed.

Lemma eraseMultiPageBlob_agrees s ns k cs ok s' :
  Storage.eraseMultiPageBlob s ns k cs = (ok, s') -> agrees ok s'.
Proof.
  unfold Storage.eraseMultiPageBlob. destruct (Storage.notActive s).
  { intros H. injection H as <- <-. reflexivity. }
  destruct (Storage.findItem _ _ _ _ _ _) as [[ok1 s1] r1] eqn:F.
  destruct ok1.
  - destruct r1 as [[fp it]|]; [|now apply findItem_some in F].
    destruct (Page.eraseItem _ _ _ _ _ _) as [err p'].
    destruct (negb (esp_err_eqb err ESP_OK)) eqn:E.
    + intros H. injection H as <- <-. now apply agrees_neg.
    + apply eraseChunks_agrees.
  - apply findItem_agrees in F.
    destruct r1; intros H; injection H as <- <-; exact F.
Qed.

Lemma cmpChunks_agrees n s ns k d cs cn off ok s' :
  Storage.cmpChunks n s ns k d cs cn off = (ok, s') -> agrees ok s'.
Proof.
  revert s cn off. induction n as [|n IH]; intros s cn off;
    cbn [Storage.cmpChunks].
  { intros H. injection H as <- <-. reflexivity. }
  destruct (Storage.findItem _ _ _ _ _ _) as [[ok1 s1] r1] eqn:F.
  destruct ok1.
  - destruct r1 as [[fp it]|]; [|now apply findItem_some in F].
    destruct (negb (esp_err_eqb _ ESP_OK)) eqn:E.
    + intros H. injection H as <- <-. now apply agrees_neg.
    + apply IH.
  - apply findItem_agrees in F.
    destruct r1; intros H; injection H as <- <-; exact F.
Qed.

Lemma cmpMultiPageBlob_agrees s ns k d ok s' :
  Storage.cmpMultiPageBlob s ns k d = (ok, s') -> agrees ok s'.
Proof.
  unfold Storage.cmpMultiPageBlob.
  destruct (Storage.findItem _ _ _ _ _ _) as [[ok1 s1] r1] eqn:F.
  destruct ok1.
  - destruct r1 as [[fp it]|]; [|now apply findItem_some in F].
    destruct (negb (_ =? _)).
    + intros H. injection H as <- <-. reflexivity.
    + apply cmpChunks_agrees.
  - apply findItem_agrees in F.
    destruct r1; intros H; injection H as <- <-; exact F.
Qed.

(** The chunk loop of [readMultiPageBlob] returns from inside only with an
    error, and leaves by [break] only with NOT_FOUND. *)
Lemma readChunks_agrees n s ns k cs cn out ret s' out' :
  Storage.readChunks n s ns k cs cn out = (ret, s', out') ->
  (ret = true -> Storage.mLastError s' <> ESP_OK).
Proof.
  revert s cn out. induction n as [|n IH]; intros s cn out;
    cbn [Storage.readChunks].
  { intros H. injection H as <- _ _. discriminate. }
  destruct (Storage.findItem _ _ _ _ _ _) as [[ok1 s1] r1] eqn:F.
  assert (Miss : Storage.mLastError s1 = ESP_ERR_NVS_NOT_FOUND ->
                 (if esp_err_eqb (Storage.mLastError s1) ESP_ERR_NVS_NOT_FOUND
                  then (false, s1, out) else (true, s1, out)) = (ret, s', out') ->
                 ret = true -> Storage.mLastError s' <> ESP_OK).
  { intros ->. cbn [esp_err_eqb]. intros H. injection H as <- _ _.
    discriminate. }
  destruct ok1.
  - destruct r1 as [[fp it]|]; [|now apply findItem_some in F].
    destruct (Page.readItem _ _ _ _ _ _) as [err bytes].
    destruct (negb (esp_err_eqb err ESP_OK)) eqn:E.
    + intros H. injection H as _ <- _. intros _. cbn.
      intros ->. discriminate.
    + apply IH.
  - apply findItem_missed in F. destruct r1; now apply Miss.
Qed.

Lemma readMultiPageBlob_agrees s ns k n ok s' out :
  Storage.readMultiPageBlob s ns k n = (ok, s', out) -> agrees ok s'.
Proof.
  unfold Storage.readMultiPageBlob.
  destruct (Storage.findItem _ _ _ _ _ _) as [[ok1 s1] r1] eqn:F.
  destruct ok1.
  - destruct r1 as [[fp it]|]; [|now apply findItem_some in F].
    destruct (Storage.readChunks _ _ _ _ _ _ _) as [[ret s2] out2] eqn:R0.
    pose proof (readChunks_agrees _ _ _ _ _ _ _ _ _ _ R0) as R.
    destruct ret.
    + intros H. apply triple_inj in H as (<- & <- & _).
      unfold agrees. specialize (R eq_refl).
      destruct (esp_err_eqb (Storage.mLastError s2) ESP_OK) eqn:E;
        [|reflexivity].
      apply esp_err_eqb_eq in E. contradiction.
    + destruct (esp_err_eqb (Storage.mLastError s2) ESP_OK) eqn:E.
      * intros H. apply triple_inj in H as (<- & <- & _).
        unfold agrees. now rewrite E.
      * intros H. apply triple_inj in H as (<- & <- & _). reflexivity.
  - apply findItem_agrees in F.
    destruct r1; intros H; apply triple_inj in H as (<- & <- & _); exact F.
Qed.

Lemma writeMultiPageBlob_agrees s ns k d cs ok s' :
  Storage.writeMultiPageBlob s ns k d cs = (ok, s') -> agrees ok s'.
Proof.
  intros H. pose proof H as H'. unfold Storage.writeMultiPageBlob in H'.
  destruct (_ <? _) eqn:L.
  - injection H' as <- <-. reflexivity.
  - clear H'. apply Z.ltb_ge in L. apply agrees_iff.
    exact (proj2 (writeMultiPageBlob_error _ _ _ _ _ _ _ L H)).
Qed.

Lemma eraseFound_agrees s ns dt k fp ok s' :
  Storage.eraseFound s ns dt k fp = (ok, s') -> agrees ok s'.
Proof.
  unfold Storage.eraseFound. destruct fp as [found|].
  - destruct (Storage.refind _ _ _ _ _) as [s1 [fp it]].
    destruct (Page.eraseItem _ _ _ _ _ _) as [err p'].
    destruct (negb (esp_err_eqb err ESP_OK)) eqn:E;
      intros H; injection H as <- <-; [now apply agrees_neg|reflexivity].
  - intros H. injection H as <- <-. reflexivity.
Qed.

Lemma converted_agrees s :
  agrees false s ->
  agrees false (if esp_err_eqb (Storage.mLastError s) ESP_ERR_NVS_PAGE_FULL
                then Storage.setLastError s ESP_ERR_NVS_NOT_ENOUGH_SPACE
                else s).
Proof. destruct (esp_err_eqb _ ESP_ERR_NVS_PAGE_FULL); [reflexivity|auto]. Qed.

Lemma markFullIfNeeded_agrees s pg s' :
  Storage.markFullIfNeeded s pg = (false, s') -> agrees false s'.
Proof.
  intros H. apply markFullIfNeeded_error in H as [_ H]. unfold agrees.
  destruct (esp_err_eqb (Storage.mLastError s') ESP_OK) eqn:E; [|reflexivity].
  apply esp_err_eqb_eq in E. contradiction.
Qed.

Lemma requestNewPage_agrees s ok s' :
  Storage.requestNewPage s = (ok, s') -> agrees ok s'.
Proof.
  intros H. apply agrees_iff. exact (proj2 (requestNewPage_error _ _ _ H)).
Qed.

Lemma writeItem_agrees s ns dt k d ok s' :
  Storage.writeItem s ns dt k d = (ok, s') -> agrees ok s'.
Proof.
  unfold Storage.writeItem.
  destruct (Storage.notActive s).
  { intros H. injection H as <- <-. reflexivity. }
  destruct (Storage.findItem _ _ _ _ _ _) as [[found s1] fp] eqn:F.
  rewrite (findItem_flag _ _ _ _ _ _ _ _ _ F).
  destruct (ItemType_eqb dt BLOB).
  - destruct fp as [found'|].
    + destruct (Storage.cmpMultiPageBlob _ _ _ _) as [same s2] eqn:C.
      apply cmpMultiPageBlob_agrees in C.
      destruct same; [intros H; injection H as <- <-; exact C|].
      destruct (Storage.refind _ _ _ _ _) as [s3 [fp' it]].
      destruct (Storage.writeMultiPageBlob _ _ _ _ _) as [ok4 s4] eqn:WM.
      apply writeMultiPageBlob_agrees in WM.
      destruct ok4; cbn [negb];
        [|intros H; injection H as <- <-; now apply converted_agrees].
      destruct (Storage.eraseMultiPageBlob _ _ _ _) as [ok5 s5] eqn:E.
      apply eraseMultiPageBlob_agrees in E.
      destruct ok5; cbn [negb]; intros H; injection H as <- <-;
        [reflexivity|exact E].
    + destruct (Storage.writeMultiPageBlob _ _ _ _ _) as [ok4 s4] eqn:WM.
      apply writeMultiPageBlob_agrees in WM.
      destruct ok4; cbn [negb];
        [|intros H; injection H as <- <-; now apply converted_agrees].
      destruct (Storage.findItem s4 _ _ _ _ _) as [[ok5 s5] legacy] eqn:F5.
      rewrite (findItem_flag _ _ _ _ _ _ _ _ _ F5).
      apply eraseFound_agrees.
  - destruct (match fp with Some _ => _ | None => _ end).
    { intros H. injection H as <- <-. reflexivity. }
    set (s2 := Storage.pageWriteItem s1 _ ns dt k d).
    destruct (esp_err_eqb (Storage.mLastError s2) ESP_ERR_NVS_PAGE_FULL) eqn:E2.
    + destruct (Storage.markFullIfNeeded _ _) as [ok3 s3] eqn:M.
      destruct ok3; cbn [negb].
      2: { intros H. injection H as <- <-.
           now apply markFullIfNeeded_agrees in M. }
      destruct (Storage.requestNewPage s3) as [ok4 s4] eqn:R.
      apply requestNewPage_agrees in R.
      destruct ok4; cbn [negb]; [|intros H; injection H as <- <-; exact R].
      set (s5 := Storage.pageWriteItem s4 _ ns dt k d).
      destruct (esp_err_eqb (Storage.mLastError s5) ESP_ERR_NVS_PAGE_FULL).
      { intros H. injection H as <- <-. reflexivity. }
      destruct (negb (esp_err_eqb (Storage.mLastError s5) ESP_OK)) eqn:E5.
      { intros H. injection H as <- <-. unfold agrees.
        apply negb_true_iff in E5. now rewrite E5. }
      apply eraseFound_agrees.
    + destruct (negb (esp_err_eqb (Storage.mLastError s2) ESP_OK)) eqn:E5.
      { intros H. injection H as <- <-. unfold agrees.
        apply negb_true_iff in E5. now rewrite E5. }
      apply eraseFound_agrees.
Qed.

Lemma readFound_agrees s ns dt k n out ok s' out' :
  Storage.readFound s ns dt k n out = (ok, s', out') -> agrees ok s'.
Proof.
  unfold Storage.readFound.
  destruct (Storage.findItem _ _ _ _ _ _) as [[ok1 s1] r1] eqn:F.
  destruct ok1.
  - destruct r1 as [[fp it]|]; [|now apply findItem_some in F].
    destruct (Page.readItem _ _ _ _ _ _) as [err bytes].
    intros H. apply triple_inj in H as (<- & <- & _). reflexivity.
  - apply findItem_agrees in F.
    destruct r1; intros H; apply triple_inj in H as (<- & <- & _); exact F.
Qed.

Lemma readItem_agrees s ns dt k n ok s' out :
  Storage.readItem s ns dt k n = (ok, s', out) -> agrees ok s'.
Proof.
  unfold Storage.readItem. destruct (Storage.notActive s).
  { intros H. apply triple_inj in H as (<- & <- & _). reflexivity. }
  destruct (ItemType_eqb dt BLOB); [|apply readFound_agrees].
  destruct (Storage.readMultiPageBlob _ _ _ _) as [[ok1 s1] out1] eqn:R.
  apply readMultiPageBlob_agrees in R.
  destruct ok1.
  { intros H. apply triple_inj in H as (<- & <- & _). exact R. }
  destruct (negb _).
  { intros H. apply triple_inj in H as (<- & <- & _). exact R. }
  apply readFound_agrees.
Qed.

Lemma eraseItem_agrees s ns dt k ok s' :
  Storage.eraseItem s ns dt k = (ok, s') -> agrees ok s'.
Proof.
  unfold Storage.eraseItem. destruct (Storage.notActive s).
  { intros H. injection H as <- <-. reflexivity. }
  destruct (ItemType_eqb dt BLOB); [apply eraseMultiPageBlob_agrees|].
  destruct (Storage.findItem _ _ _ _ _ _) as [[ok1 s1] r1] eqn:F.
  destruct ok1.
  - destruct r1 as [[fp it]|]; [|now apply findItem_some in F].
    destruct (_ || _); [apply eraseMultiPageBlob_agrees|].
    destruct (Page.eraseItem _ _ _ _ _ _) as [err p'].
    intros H. injection H as <- <-. reflexivity.
  - apply findItem_agrees in F.
    destruct r1; intros H; injection H as <- <-; exact F.
Qed.

Lemma eraseAllOfPage_agrees fuel s pg ns s' :
  Storage.eraseAllOfPage fuel s pg ns = (false, s') -> agrees false s'.
Proof.
  revert s. induction fuel as [|fuel IH]; intros s; cbn [Storage.eraseAllOfPage];
    [discriminate|].
  destruct (Page.eraseItem _ _ _ _ _ _) as [err p'].
  destruct (esp_err_eqb err ESP_ERR_NVS_NOT_FOUND); [discriminate|].
  destruct (negb (esp_err_eqb err ESP_OK)) eqn:E.
  - intros H. injection H as <-. now apply agrees_neg.
  - apply IH.
Qed.

Lemma eraseNamespacePages_agrees l s ns ok s' :
  Storage.eraseNamespacePages l s ns = (ok, s') -> agrees ok s'.
Proof.
  revert s. induction l as [|pg l IH]; intros s;
    cbn [Storage.eraseNamespacePages].
  { intros H. injection H as <- <-. reflexivity. }
  destruct (Storage.eraseAllOfPage _ _ _ _) as [ok1 s1] eqn:E.
  destruct ok1; cbn [negb]; [apply IH|].
  intros H. injection H as <- <-. now apply eraseAllOfPage_agrees in E.
Qed.

Lemma createOrOpenNamespace_agrees s name canCreate idx ok s' idx' :
  Storage.createOrOpenNamespace s name canCreate idx = (ok, s', idx') ->
  agrees ok s'.
Proof.
  unfold Storage.createOrOpenNamespace.
  destruct (Storage.notActive s).
  { intros H. apply triple_inj in H as (<- & <- & _). reflexivity. }
  destruct (Storage.findNamespace _ _).
  { intros H. apply triple_inj in H as (<- & <- & _). reflexivity. }
  destruct (negb canCreate).
  { intros H. apply triple_inj in H as (<- & <- & _). reflexivity. }
  destruct (_ =? 255).
  { intros H. apply triple_inj in H as (<- & <- & _). reflexivity. }
  destruct (Storage.writeItem _ _ _ _ _) as [ok1 s1] eqn:W.
  apply writeItem_agrees in W.
  destruct ok1; cbn [negb]; intros H; apply triple_inj in H as (<- & <- & _);
    [reflexivity|exact W].
Qed.

Lemma getItemDataSize_agrees s ns dt k n ok s' n' :
  Storage.getItemDataSize s ns dt k n = (ok, s', n') -> agrees ok s'.
Proof.
  unfold Storage.getItemDataSize. destruct (Storage.notActive s).
  { intros H. apply triple_inj in H as (<- & <- & _). reflexivity. }
  destruct (Storage.findItem s _ _ _ _ _) as [[ok1 s1] r1] eqn:F.
  assert (Second : (if negb (ItemType_eqb dt BLOB) then (false, s1, n)
                    else match Storage.findItem s1 ns BLOB_IDX k Page.CHUNK_ANY VER_ANY with
                         | (true, s2, Some (_, item)) =>
                             (true, s2, ItemLayout.blobIndex_dataSize item)
                         | (_, s2, _) => (false, s2, n)
                         end) = (ok, s', n') ->
                   agrees false s1 -> agrees ok s').
  { destruct (negb _).
    - intros H A. apply triple_inj in H as (<- & <- & _). exact A.
    - destruct (Storage.findItem s1 _ _ _ _ _) as [[ok2 s2] r2] eqn:F2.
      intros H _. destruct ok2.
      + destruct r2 as [[fp it]|]; [|now apply findItem_some in F2].
        apply triple_inj in H as (<- & <- & _).
        now apply findItem_agrees in F2.
      + apply findItem_agrees in F2.
        destruct r2; apply triple_inj in H as (<- & <- & _); exact F2. }
  destruct ok1.
  - destruct r1 as [[fp it]|]; [|now apply findItem_some in F].
    intros H. apply triple_inj in H as (<- & <- & _).
    now apply findItem_agrees in F.
  - apply findItem_agrees in F. destruct r1; intros H; now apply Second.
Qed.

(** X12.  The success flag and the last error agree: each of [findItem],
    [writeItem], [readItem], [eraseItem], [eraseMultiPageBlob],
    [eraseNamespace], [createOrOpenNamespace], [getItemDataSize],
    [calcEntriesInNamespace], [fillStats], [writeMultiPageBlob],
    [readMultiPageBlob] and [cmpMultiPageBlob] returns true exactly when
    it leaves ESP_OK in [mLastError]. *)
Theorem success_flag_is_last_error (s : Storage.t) :
  (forall ns dt k ci cs,
      agrees (fst (fst (Storage.findItem s ns dt k ci cs)))
             (snd (fst (Storage.findItem s ns dt k ci cs))))
  /\ (forall ns dt k d,
         agrees (fst (Storage.writeItem s ns dt k d))
                (snd (Storage.writeItem s ns dt k d)))
  /\ (forall ns dt k n,
         agrees (fst (fst (Storage.readItem s ns dt k n)))
                (snd (fst (Storage.readItem s ns dt k n))))
  /\ (forall ns dt k,
         agrees (fst (Storage.eraseItem s ns dt k))
                (snd (Storage.eraseItem s ns dt k)))
  /\ (forall ns k cs,
         agrees (fst (Storage.eraseMultiPageBlob s ns k cs))
                (snd (Storage.eraseMultiPageBlob s ns k cs)))
  /\ (forall ns,
         agrees (fst (Storage.eraseNamespace s ns))
                (snd (Storage.eraseNamespace s ns)))
  /\ (forall name canCreate idx,
         agrees (fst (fst (Storage.createOrOpenNamespace s name canCreate idx)))
                (snd (fst (Storage.createOrOpenNamespace s name canCreate idx))))
  /\ (forall ns dt k n,
         agrees (fst (fst (Storage.getItemDataSize s ns dt k n)))
                (snd (fst (Storage.getItemDataSize s ns dt k n))))
  /\ (forall ns,
         agrees (fst (fst (Storage.calcEntriesInNamespace s ns)))
                (snd (fst (Storage.calcEntriesInNamespace s ns))))
  /\ (forall st,
         agrees (fst (fst (Storage.fillStats s st)))
                (snd (fst (Storage.fillStats s st))))
  /\ (forall ns k d cs,
         agrees (fst (Storage.writeMultiPageBlob s ns k d cs))
                (snd (Storage.writeMultiPageBlob s ns k d cs)))
  /\ (forall ns k n,
         agrees (fst (fst (Storage.readMultiPageBlob s ns k n)))
                (snd (fst (Storage.readMultiPageBlob s ns k n))))
  /\ (forall ns k d,
         agrees (fst (Storage.cmpMultiPageBlob s ns k d))
                (snd (Storage.cmpMultiPageBlob s ns k d))).
Proof.
  split.
  { intros. destruct (Storage.findItem _ _ _ _ _ _) as [[ok s'] r] eqn:E.
    now apply findItem_agrees in E. }
  split.
  { intros. destruct (Storage.writeItem _ _ _ _ _) as [ok s'] eqn:E.
    now apply writeItem_agrees in E. }
  split.
  { intros. destruct (Storage.readItem _ _ _ _ _) as [[ok s'] r] eqn:E.
    now apply readItem_agrees in E. }
  split.
  { intros. destruct (Storage.eraseItem _ _ _ _) as [ok s'] eqn:E.
    now apply eraseItem_agrees in E. }
  split.
  { intros. destruct (Storage.eraseMultiPageBlob _ _ _ _) as [ok s'] eqn:E.
    now apply eraseMultiPageBlob_agrees in E. }
  split.
  { intros. unfold Storage.eraseNamespace. destruct (Storage.notActive s);
      [reflexivity|].
    destruct (Storage.eraseNamespacePages _ _ _) as [ok s'] eqn:E.
    now apply eraseNamespacePages_agrees in E. }
  split.
  { intros.
    destruct (Storage.createOrOpenNamespace _ _ _ _) as [[ok s'] r] eqn:E.
    now apply createOrOpenNamespace_agrees in E. }
  split.
  { intros. destruct (Storage.getItemDataSize _ _ _ _ _) as [[ok s'] r] eqn:E.
    now apply getItemDataSize_agrees in E. }
  split.
  { intros. unfold Storage.calcEntriesInNamespace.
    destruct (Storage.notActive s); reflexivity. }
  split.
  { intros. unfold Storage.fillStats.
    destruct (PageManager.fillStats _ _) as [err st']. reflexivity. }
  split.
  { intros. destruct (Storage.writeMultiPageBlob _ _ _ _ _) as [ok s'] eqn:E.
    now apply writeMultiPageBlob_agrees in E. }
  split.
  { intros. destruct (Storage.readMultiPageBlob _ _ _ _) as [[ok s'] r] eqn:E.
    now apply readMultiPageBlob_agrees in E. }
  intros. destruct (Storage.cmpMultiPageBlob _ _ _ _) as [ok s'] eqn:E.
  now apply cmpMultiPageBlob_agrees in E.
Qed.

(** ** Handles *)

(** X11.  [open_handle] returns a handle exactly when it leaves the last
    error OK, and counts the handle then; the handle is read-only exactly
    for [OpenMode::ReadOnly].  While the handle is counted [init] refuses
    with INVALID_STATE.  A read-only open writes nothing: pages, namespace
    table and usage bitmap stay as they are. *)
Theorem open_handle_counts (s : Storage.t) (ns_name : option string)
        (open_mode : OpenMode.t) :
  let r := Storage.open_handle s ns_name open_mode in
  match fst r with
  | Some h =>
      Storage.mLastError (snd r) = ESP_OK
      /\ Storage.mHandleCount (snd r) = S (Storage.mHandleCount s)
      /\ Handle.mReadOnly h = OpenMode.eqb open_mode OpenMode.ReadOnly
      /\ Storage.init (snd r)
         = (false, Storage.setLastError (snd r) ESP_ERR_NVS_INVALID_STATE)
  | None =>
      Storage.mLastError (snd r) <> ESP_OK
      /\ Storage.mHandleCount (snd r) = Storage.mHandleCount s
  end
  /\ (open_mode = OpenMode.ReadOnly ->
      Storage.mPageManager (snd r) = Storage.mPageManager s
      /\ Storage.mNamespaces (snd r) = Storage.mNamespaces s
      /\ Storage.mNamespaceUsage (snd r) = Storage.mNamespaceUsage s).
Proof.
  unfold Storage.open_handle. destruct ns_name as [name|]; cycle 1.
  { cbn. split; [split; [discriminate|reflexivity]|]. intros _.
    repeat split. }
  unfold Storage.createOrOpenNamespace.
  destruct (Storage.notActive s).
  { cbn. split; [split; [discriminate|reflexivity]|]. intros _.
    repeat split. }
  destruct (Storage.findNamespace _ _) as [e|].
  { cbn. split; [|intros _; repeat split].
    split; [reflexivity|]. split; [reflexivity|]. split; reflexivity. }
  destruct open_mode; cbn [OpenMode.eqb negb].
  { cbn. split; [split; [discriminate|reflexivity]|]. intros _.
    repeat split. }
  split; [|discriminate].
  destruct (_ =? 255).
  { cbn. split; [discriminate|reflexivity]. }
  destruct (Storage.writeItem _ _ _ _ _) as [ok s1] eqn:W.
  pose proof (writeItem_tables _ _ _ _ _ _ _ W) as (T1 & T2 & T3 & T4).
  destruct ok; cbn [negb fst snd].
  - cbn. split; [reflexivity|]. split; [now rewrite T4|].
    split; reflexivity.
  - split; [|exact T4].
    apply writeItem_agrees in W. unfold agrees in W. intros E.
    rewrite E in W. discriminate.
Qed.

(** ** Erasing a namespace *)

Lemma eraseFirst_none es f :
  Page.eraseFirst es f = None <-> countPage es f = O.
Proof.
  induction es as [|[st it] es IH]; cbn [Page.eraseFirst countPage];
    [tauto|].
  destruct (isWritten st && f it).
  - split; [discriminate|lia].
  - destruct (Page.eraseFirst es f).
    + split; [discriminate|]. intros H. cbn in H.
      apply IH in H. discriminate.
    + split; [|reflexivity]. intros _. cbn. now apply IH.
Qed.

Lemma countPage_le_length es f : (countPage es f <= List.length es)%nat.
Proof.
  induction es as [|[st it] es IH]; cbn [countPage List.length]; [lia|].
  destruct (isWritten st && f it); lia.
Qed.

Lemma page_in_range pm i g :
  (1 <= countPage (Page.entries (PageManager.page pm i)) g)%nat ->
  (i < List.length (PageManager.mPages pm))%nat.
Proof.
  intros H. destruct (Nat.ltb_spec i (List.length (PageManager.mPages pm)));
    [assumption|].
  unfold PageManager.page in H. rewrite nth_overflow in H by assumption.
  cbn in H. lia.
Qed.

(** The loop of [eraseNamespace] on one page erases every match of that
    page and touches nothing else. *)
Lemma eraseAllOfPage_spec fuel s pg ns :
  (countPage (Page.entries (Storage.page s pg)) (nsFilter ns) < fuel)%nat ->
  exists s',
    Storage.eraseAllOfPage fuel s pg ns = (true, s')
    /\ countPage (Page.entries (Storage.page s' pg)) (nsFilter ns) = O
    /\ Storage.pageList s' = Storage.pageList s
    /\ sameTables s s'
    /\ (forall g j, (countPage (Page.entries (Storage.page s' j)) g
                     <= countPage (Page.entries (Storage.page s j)) g)%nat)
    /\ (forall g j, disjoint (nsFilter ns) g ->
                    countPage (Page.entries (Storage.page s' j)) g
                    = countPage (Page.entries (Storage.page s j)) g).
Proof.
  revert s. induction fuel as [|fuel IH]; intros s Lt; [lia|].
  cbn [Storage.eraseAllOfPage]. unfold Page.eraseItem.
  fold (nsFilter ns).
  destruct (Page.eraseFirst (Page.entries (Storage.page s pg)) (nsFilter ns))
    as [es'|] eqn:E.
  - cbn [esp_err_eqb negb].
    assert (C1 : (1 <= countPage (Page.entries (Storage.page s pg)) (nsFilter ns))%nat).
    { destruct (countPage (Page.entries (Storage.page s pg)) (nsFilter ns)) eqn:C;
        [|lia].
      apply eraseFirst_none in C. congruence. }
    destruct (eraseFirst_count _ _ C1) as (es2 & E2 & N).
    rewrite E in E2. injection E2 as <-.
    set (p' := Page.mk _ _ es').
    pose proof (page_in_range _ _ _ C1) as Rg.
    assert (PP : forall j, Storage.page (Storage.setPage s pg p') j
                           = if Nat.eqb pg j then p' else Storage.page s j).
    { intros j. unfold Storage.page, Storage.setPage. cbn.
      rewrite nth_setNth.
      destruct (Nat.ltb_spec pg (List.length (PageManager.mPages (Storage.mPageManager s))));
        [|lia]. now rewrite andb_true_r. }
    destruct (IH (Storage.setPage s pg p')) as (s' & R & Z & L & T & Le & Fr).
    { rewrite PP, Nat.eqb_refl. cbn [Page.entries p']. lia. }
    exists s'. split; [exact R|]. split; [exact Z|]. split; [exact L|].
    split; [eapply sameTables_trans; [apply sameTables_setPage|exact T]|].
    split.
    + intros g j. specialize (Le g j). rewrite PP in Le.
      destruct (Nat.eqb_spec pg j) as [Ej|Nj]; [|exact Le].
      subst j. cbn [Page.entries p'] in Le.
      pose proof (eraseFirst_le _ _ _ g E). lia.
    + intros g j D. rewrite (Fr g j D), PP.
      destruct (Nat.eqb_spec pg j) as [Ej|Nj]; [|reflexivity].
      subst j. cbn [Page.entries p']. exact (eraseFirst_disjoint _ _ _ _ D E).
  - cbn [esp_err_eqb]. exists s. split; [reflexivity|].
    split; [now apply eraseFirst_none|]. split; [reflexivity|].
    split; [apply sameTables_refl|]. split; [intros; lia|reflexivity].
Qed.

Lemma eraseNamespacePages_spec l s ns :
  exists s',
    Storage.eraseNamespacePages l s ns = (true, s')
    /\ Storage.mLastError s' = ESP_OK
    /\ Storage.pageList s' = Storage.pageList s
    /\ sameTables s s'
    /\ (forall j, In j l ->
                  countPage (Page.entries (Storage.page s' j)) (nsFilter ns) = O)
    /\ (forall g j, (countPage (Page.entries (Storage.page s' j)) g
                     <= countPage (Page.entries (Storage.page s j)) g)%nat)
    /\ (forall g j, disjoint (nsFilter ns) g ->
                    countPage (Page.entries (Storage.page s' j)) g
                    = countPage (Page.entries (Storage.page s j)) g).
Proof.
  revert s. induction l as [|pg l IH]; intros s;
    cbn [Storage.eraseNamespacePages].
  { exists (Storage.setLastError s ESP_OK). split; [reflexivity|].
    split; [reflexivity|]. split; [reflexivity|].
    split; [apply sameTables_setLastError|].
    split; [intros j []|]. split; [intros; apply Nat.le_refl|reflexivity]. }
  destruct (eraseAllOfPage_spec (Storage.scanFuel (Storage.page s pg)) s pg ns)
    as (s1 & R1 & Z1 & L1 & T1 & Le1 & Fr1).
  { unfold Storage.scanFuel.
    pose proof (countPage_le_length (Page.entries (Storage.page s pg)) (nsFilter ns)).
    lia. }
  rewrite R1. cbn [negb].
  destruct (IH s1) as (s' & R & E & L & T & Z & Le & Fr).
  exists s'. split; [exact R|]. split; [exact E|].
  split; [congruence|]. split; [eapply sameTables_trans; eassumption|].
  split.
  { intros j [<-|I]; [|now apply Z].
    pose proof (Le (nsFilter ns) pg). lia. }
  split.
  - intros g j. specialize (Le g j). specialize (Le1 g j). lia.
  - intros g j D. now rewrite (Fr g j D), (Fr1 g j D).
Qed.

Lemma countW_count pm pm' l g :
  (forall j, countPage (Page.entries (PageManager.page pm' j)) g
             = countPage (Page.entries (PageManager.page pm j)) g) ->
  countW pm' l g = countW pm l g.
Proof.
  intros E. induction l as [|j l IH]; cbn [countW]; [reflexivity|].
  now rewrite E, IH.
Qed.

Lemma countW_zero pm l g :
  (forall j, In j l -> countPage (Page.entries (PageManager.page pm j)) g = O) ->
  countW pm l g = O.
Proof.
  induction l as [|j l IH]; intros H; cbn [countW]; [reflexivity|].
  rewrite H by now left. rewrite IH; [reflexivity|].
  intros x I. apply H. now right.
Qed.

Lemma countInPage_none fuel p ns start acc :
  countPage (Page.entries p) (nsFilter ns) = O ->
  Storage.countInPage fuel p ns start acc = acc.
Proof.
  intros Z. destruct fuel as [|fuel]; [reflexivity|].
  cbn [Storage.countInPage]. rewrite page_findItem_scan.
  fold (nsFilter ns).
  destruct (Page.scan (Page.entries p) 0 start (nsFilter ns)) as [[i it]|] eqn:S;
    [|reflexivity].
  apply scan_in in S as [I F]. pose proof (countPage_zero_in _ _ _ Z I).
  congruence.
Qed.

Lemma calc_fold_none s ns l acc :
  (forall j, In j l ->
             countPage (Page.entries (Storage.page s j)) (nsFilter ns) = O) ->
  fold_left (fun acc pg =>
               Storage.countInPage (Storage.scanFuel (Storage.page s pg))
                                   (Storage.page s pg) ns O acc) l acc
  = acc.
Proof.
  revert acc. induction l as [|pg l IH]; intros acc Z; cbn [fold_left];
    [reflexivity|].
  rewrite countInPage_none by (apply Z; now left).
  apply IH. intros j I. apply Z. now right.
Qed.

(** X13.  [eraseNamespace] on an ACTIVE Storage always succeeds.
    Afterwards no page in use holds a WRITTEN item of the namespace (of any
    namespace, for the wildcard 255) and [calcEntriesInNamespace] counts 0
    entries; items that the filter of the namespace does not accept are
    all still in sight; the namespace table and the usage bitmap are not
    changed, so the namespace keeps its index. *)
Theorem eraseNamespace_empties (s : Storage.t) (ns : Z) :
  Storage.mState s = State.ACTIVE ->
  exists s',
    Storage.eraseNamespace s ns = (true, s')
    /\ Storage.mLastError s' = ESP_OK
    /\ sameTables s s'
    /\ visible s' (nsFilter ns) = O
    /\ (forall g, disjoint (nsFilter ns) g -> visible s' g = visible s g)
    /\ Storage.calcEntriesInNamespace s' ns
       = (true, Storage.setLastError s' ESP_OK, O).
Proof.
  intros A. unfold Storage.eraseNamespace. rewrite (notActive_false s A).
  destruct (eraseNamespacePages_spec (Storage.pageList s) s ns)
    as (s' & R & E & L & T & Z & Le & Fr).
  exists s'. split; [exact R|]. split; [exact E|]. split; [exact T|].
  assert (Z' : forall j, In j (Storage.pageList s') ->
                         countPage (Page.entries (Storage.page s' j)) (nsFilter ns) = O).
  { intros j I. apply Z. now rewrite <- L. }
  split; [apply countW_zero; exact Z'|].
  split.
  { intros g D. unfold visible. rewrite L.
    apply countW_count. intros j. exact (Fr g j D). }
  unfold Storage.calcEntriesInNamespace.
  assert (A' : Storage.notActive s' = false).
  { destruct T as (_ & _ & T & _). unfold Storage.notActive. now rewrite T, A. }
  rewrite A'. f_equal. now apply calc_fold_none.
Qed.

Lemma eraseNamespace_empties_witness :
  exists s',
    Storage.eraseNamespace withItem 1 = (true, s')
    /\ Storage.mLastError s' = ESP_OK
    /\ sameTables withItem s'
    /\ visible s' (nsFilter 1) = O
    /\ (forall g, disjoint (nsFilter 1) g -> visible s' g = visible withItem g)
    /\ Storage.calcEntriesInNamespace s' 1
       = (true, Storage.setLastError s' ESP_OK, O).
Proof.
  apply (eraseNamespace_empties withItem 1). vm_compute. reflexivity.
Defined.

(** ** Counting the entries of a namespace *)

Lemma scan_from es i start f :
  (start <= i)%nat -> Page.scan es i start f = Page.scan es i O f.
Proof.
  revert i. induction es as [|[st it] es IH]; intros i Le; cbn [Page.scan];
    [reflexivity|].
  destruct (Nat.leb_spec start i); [|lia]. cbn [Nat.leb andb].
  destruct (isWritten st && f it); [reflexivity|]. apply IH. lia.
Qed.

Lemma scan_split_idx es i f j it :
  Page.scan es i O f = Some (j, it) ->
  exists pre post,
    es = pre ++ (WRITTEN, it) :: post
    /\ spanSum pre f = O
    /\ f it = true
    /\ j = (i + Page.usedEntries pre)%nat.
Proof.
  revert i. induction es as [|[st x] es IH]; intros i; cbn [Page.scan];
    [discriminate|].
  cbn [Nat.leb andb]. destruct (isWritten st && f x) eqn:C.
  - intros H. injection H as <- <-. apply andb_true_iff in C as [W F].
    destruct st; try discriminate W.
    exists [], es. cbn. repeat split; [assumption|lia].
  - intros H. apply IH in H as (pre & post & -> & N & F & ->).
    exists ((st, x) :: pre), post. cbn [app spanSum Page.usedEntries snd].
    rewrite C, N. repeat split; [assumption|lia].
Qed.

Lemma scan_none_span es i f :
  Page.scan es i O f = None -> spanSum es f = O.
Proof.
  revert i. induction es as [|[st it] es IH]; intros i;
    cbn [Page.scan spanSum]; [reflexivity|].
  cbn [Nat.leb andb]. destruct (isWritten st && f it); [discriminate|].
  intros H. now rewrite (IH _ H).
Qed.

Lemma spanSum_app a b f :
  spanSum (a ++ b) f = (spanSum a f + spanSum b f)%nat.
Proof.
  induction a as [|[st it] a IH]; cbn [app spanSum]; [reflexivity|].
  rewrite IH. lia.
Qed.

Lemma usedEntries_zero es : Page.usedEntries es = O -> es = [].
Proof.
  destruct es as [|e es]; [reflexivity|]. cbn.
  pose proof (Pos2Nat.is_pos (span (snd e))). lia.
Qed.

(** The loop of [calcEntriesInNamespace] on one page, entered at the item
    boundary after [pre]. *)
Lemma countInPage_spec fuel st sq ns :
  forall pre post acc,
    (Page.usedEntries (pre ++ post) <= Page.ENTRY_COUNT)%nat ->
    (List.length post < fuel)%nat ->
    Storage.countInPage fuel (Page.mk st sq (pre ++ post)) ns
                        (Page.usedEntries pre) acc
    = (acc + spanSum post (Page.matches ns ANY None Page.CHUNK_ANY VER_ANY))%nat.
Proof.
  set (f := Page.matches ns ANY None Page.CHUNK_ANY VER_ANY).
  induction fuel as [|fuel IH]; intros pre post acc Fit Lt; [lia|].
  cbn [Storage.countInPage]. rewrite page_findItem_scan. fold f.
  cbn [Page.entries].
  rewrite scan_skipped by (apply skipped_below; lia).
  cbn [Nat.add]. rewrite scan_from by lia.
  destruct (Page.scan post (Page.usedEntries pre) 0 f) as [[j it]|] eqn:S.
  - apply scan_split_idx in S as (a & b & -> & Na & F & ->).
    rewrite spanSum_app, Na. cbn [spanSum isWritten andb]. rewrite F.
    set (nxt := (Page.usedEntries pre + Page.usedEntries a
                 + Pos.to_nat (span it))%nat).
    rewrite !usedEntries_app in Fit. cbn [Page.usedEntries snd] in Fit.
    destruct (Nat.leb_spec Page.ENTRY_COUNT nxt) as [Ge|Lt'].
    + assert (B : b = []) by (apply usedEntries_zero; unfold nxt in Ge; lia).
      subst b. cbn [spanSum]. lia.
    + replace (pre ++ a ++ (WRITTEN, it) :: b)
        with ((pre ++ a ++ [(WRITTEN, it)]) ++ b)
        by (rewrite <- !app_assoc; reflexivity).
      replace nxt with (Page.usedEntries (pre ++ a ++ [(WRITTEN, it)]))
        by (rewrite !usedEntries_app; cbn [Page.usedEntries snd]; unfold nxt; lia).
      rewrite IH.
      * lia.
      * rewrite !usedEntries_app. cbn [Page.usedEntries snd]. lia.
      * rewrite length_app in Lt. cbn [List.length] in Lt. lia.
  - apply scan_none_span in S. rewrite S. lia.
Qed.

Lemma countInPage_page p ns acc :
  (Page.usedEntries (Page.entries p) <= Page.ENTRY_COUNT)%nat ->
  Storage.countInPage (Storage.scanFuel p) p ns O acc
  = (acc + spanSum (Page.entries p)
                   (Page.matches ns ANY None Page.CHUNK_ANY VER_ANY))%nat.
Proof.
  intros Fit. destruct p as [st sq es]. cbn [Page.entries] in *.
  exact (countInPage_spec (Storage.scanFuel (Page.mk st sq es)) st sq ns
                          [] es acc Fit (Nat.lt_succ_diag_r _)).
Qed.

Lemma calc_fold s ns l acc :
  (forall pg, In pg l ->
              (Page.usedEntries (Page.entries (Storage.page s pg))
               <= Page.ENTRY_COUNT)%nat) ->
  fold_left (fun acc pg =>
               Storage.countInPage (Storage.scanFuel (Storage.page s pg))
                                   (Storage.page s pg) ns O acc) l acc
  = (acc + fold_right
             (fun pg acc =>
                (spanSum (Page.entries (Storage.page s pg))
                         (Page.matches ns ANY None Page.CHUNK_ANY VER_ANY)
                 + acc)%nat) O l)%nat.
Proof.
  revert acc. induction l as [|pg l IH]; intros acc Fit;
    cbn [fold_left fold_right]; [lia|].
  rewrite countInPage_page by (apply Fit; now left).
  rewrite IH by (intros j I; apply Fit; now right). lia.
Qed.

(** X14.  On an ACTIVE Storage whose pages hold at most [ENTRY_COUNT]
    entries each, [calcEntriesInNamespace] succeeds and returns the number
    of entries, header and payload, of the WRITTEN items of the namespace
    over all pages in use; erased items do not count. *)
Theorem calcEntriesInNamespace_counts (s : Storage.t) (ns : Z) :
  Storage.mState s = State.ACTIVE -> pagesFit s ->
  Storage.calcEntriesInNamespace s ns
  = (true, Storage.setLastError s ESP_OK, entriesInNamespace s ns).
Proof.
  intros A Fit. unfold Storage.calcEntriesInNamespace.
  rewrite (notActive_false s A). f_equal.
  rewrite calc_fold by exact Fit. reflexivity.
Qed.

Lemma calcEntriesInNamespace_counts_witness :
  Storage.calcEntriesInNamespace withItem 1
  = (true, Storage.setLastError withItem ESP_OK, 1%nat).
Proof.
  apply (calcEntriesInNamespace_counts withItem 1).
  - vm_compute. reflexivity.
  - intros pg I. vm_compute in I. destruct I as [<-|[]]. vm_compute. lia.
Defined.

(** ** The iterator *)

Lemma itemsFrom_app a b f : itemsFrom (a ++ b) f = itemsFrom a f ++ itemsFrom b f.
Proof.
  induction a as [|[st it] a IH]; cbn [app itemsFrom]; [reflexivity|].
  destruct (isWritten st && f it); cbn [app]; now rewrite IH.
Qed.

Lemma itemsFrom_none es m f :
  spanSum es m = O -> (forall x, f x = true -> m x = true) ->
  itemsFrom es f = [].
Proof.
  intros Z Sub. induction es as [|[st it] es IH]; cbn [itemsFrom];
    [reflexivity|].
  cbn [spanSum] in Z. pose proof (Pos2Nat.is_pos (span it)).
  destruct (isWritten st) eqn:W; cbn [andb] in *.
  - destruct (f it) eqn:F.
    + rewrite (Sub _ F) in Z. lia.
    + apply IH. destruct (m it); lia.
  - apply IH. lia.
Qed.

Lemma iterable_matches ns ty x :
  iterable ns ty x = true ->
  Page.matches ns ty None Page.CHUNK_ANY VER_ANY x = true.
Proof.
  unfold iterable. intros H. apply andb_true_iff in H as [H _].
  now apply andb_true_iff in H as [H _].
Qed.

(** The loop of [next] on one page, entered at the item boundary after
    [pre]: it stops at the first iterable item of [post]. *)
Lemma nextInPage_spec fuel st sq :
  forall pre post it,
    Storage.ItemIterator.entryIndex it = Page.usedEntries pre ->
    (List.length post < fuel)%nat ->
    let f := iterable (Storage.ItemIterator.nsIndex it)
                      (Storage.ItemIterator.itemType it) in
    let r := Storage.ItemIterator.nextInPage fuel (Page.mk st sq (pre ++ post)) it in
    (itemsFrom post f = []
     /\ fst r = false
     /\ Storage.ItemIterator.nsIndex (snd r) = Storage.ItemIterator.nsIndex it
     /\ Storage.ItemIterator.itemType (snd r) = Storage.ItemIterator.itemType it
     /\ Storage.ItemIterator.page (snd r) = Storage.ItemIterator.page it
     /\ Storage.ItemIterator.err (snd r) = Storage.ItemIterator.err it)
    \/ (exists a x b,
           post = a ++ (WRITTEN, x) :: b
           /\ itemsFrom a f = []
           /\ f x = true
           /\ r = (true,
                   Storage.ItemIterator.mk
                     (Some x) (Storage.ItemIterator.itemType it)
                     (Storage.ItemIterator.nsIndex it)
                     (Page.usedEntries (pre ++ a ++ [(WRITTEN, x)]))
                     (Storage.ItemIterator.page it)
                     (Storage.ItemIterator.err it)
                     (Storage.ItemIterator.done it))).
Proof.
  induction fuel as [|fuel IH]; intros pre post it EI Lt; [lia|].
  cbv zeta. cbn [Storage.ItemIterator.nextInPage].
  rewrite page_findItem_scan. cbn [Page.entries]. rewrite EI.
  rewrite scan_skipped by (apply skipped_below; lia).
  cbn [Nat.add]. rewrite scan_from by lia.
  set (ns := Storage.ItemIterator.nsIndex it).
  set (ty := Storage.ItemIterator.itemType it).
  set (m := Page.matches ns ty None Page.CHUNK_ANY VER_ANY).
  destruct (Page.scan post (Page.usedEntries pre) 0 m) as [[j y]|] eqn:S.
  - apply scan_split_idx in S as (a0 & b0 & -> & Na & My & ->).
    assert (Ea : itemsFrom a0 (iterable ns ty) = []).
    { apply (itemsFrom_none a0 m); [exact Na|]. intros x. apply iterable_matches. }
    set (it1 := Storage.ItemIterator.mk (Some y) ty ns _ _ _ _).
    assert (Fy : (Storage.ItemIterator.isIterableItem it1 y
                  && negb (Storage.ItemIterator.isMultipageBlob y))%bool
                 = iterable ns ty y).
    { unfold iterable. fold m. rewrite My.
      unfold Storage.ItemIterator.isIterableItem. reflexivity. }
    rewrite Fy. destruct (iterable ns ty y) eqn:Iy.
    + right. exists a0, y, b0. repeat split; try assumption.
      unfold it1. f_equal. f_equal.
      rewrite !usedEntries_app. cbn [Page.usedEntries snd]. lia.
    + specialize (IH (pre ++ a0 ++ [(WRITTEN, y)]) b0 it1).
      replace ((pre ++ a0 ++ [(WRITTEN, y)]) ++ b0)
        with (pre ++ a0 ++ (WRITTEN, y) :: b0) in IH
        by (rewrite <- !app_assoc; reflexivity).
      cbv zeta in IH.
      destruct IH as [(E & R1 & R2 & R3 & R4 & R5)|(a & x & b & -> & Eb & Fx & R)].
      * unfold it1. cbn [Storage.ItemIterator.entryIndex].
        rewrite !usedEntries_app. cbn [Page.usedEntries snd]. lia.
      * rewrite length_app in Lt. cbn [List.length] in Lt. lia.
      * left. rewrite itemsFrom_app, Ea. cbn [app itemsFrom isWritten andb].
        rewrite Iy. split; [exact E|]. repeat split; assumption.
      * right. exists (a0 ++ (WRITTEN, y) :: a), x, b.
        split; [rewrite <- app_assoc; reflexivity|].
        split.
        { rewrite itemsFrom_app, Ea. cbn [app itemsFrom isWritten andb].
          now rewrite Iy. }
        split; [exact Fx|]. rewrite R. f_equal. unfold it1.
        cbn [Storage.ItemIterator.itemType Storage.ItemIterator.nsIndex
             Storage.ItemIterator.page Storage.ItemIterator.err
             Storage.ItemIterator.done].
        f_equal. rewrite <- !app_assoc. reflexivity.
  - left. split.
    { apply scan_none_span in S. apply (itemsFrom_none post m); [exact S|].
      intros x. apply iterable_matches. }
    repeat split.
Qed.

Lemma skipn_cons_tail {A} n (l : list A) x rest :
  skipn n l = x :: rest ->
  skipn (S n) l = rest /\ (n < List.length l)%nat.
Proof.
  revert l. induction n as [|n IH]; intros l H.
  - cbn in H. subst l. split; [reflexivity|cbn; lia].
  - destruct l as [|y l]; [discriminate|]. cbn [skipn] in H.
    destruct (IH _ H) as [E Lt]. split; [exact E|cbn; lia].
Qed.

Lemma skipn_nil_length {A} n (l : list A) :
  skipn n l = [] -> (List.length l <= n)%nat.
Proof.
  revert l. induction n as [|n IH]; intros l H.
  - cbn in H. subst l. cbn. lia.
  - destruct l as [|y l]; [cbn; lia|]. cbn [skipn] in H.
    specialize (IH _ H). cbn. lia.
Qed.

Lemma nextFrom_spec s :
  forall l it exp,
    skipn (Storage.ItemIterator.page it) (Storage.pageList s) = l ->
    standsBefore s it exp ->
    match exp with
    | [] => fst (Storage.ItemIterator.nextFrom s l it) = false
    | x :: r =>
        exists it',
          Storage.ItemIterator.nextFrom s l it = (true, it')
          /\ Storage.ItemIterator.item it' = Some x
          /\ Storage.ItemIterator.nsIndex it' = Storage.ItemIterator.nsIndex it
          /\ Storage.ItemIterator.itemType it'
             = Storage.ItemIterator.itemType it
          /\ standsBefore s it' r
    end.
Proof.
  induction l as [|pg rest IH]; intros it exp Sk [Er SB]; rewrite Sk in SB.
  - subst exp. reflexivity.
  - destruct SB as (pre & post & En & EI & Ex).
    cbn [Storage.ItemIterator.nextFrom].
    destruct (skipn_cons_tail _ _ _ _ Sk) as [Sk' Lt].
    destruct (Storage.page s pg) as [st sq es] eqn:P. cbn [Page.entries] in En.
    subst es.
    assert (Fu : (List.length post < Storage.scanFuel (Page.mk st sq (pre ++ post)))%nat).
    { unfold Storage.scanFuel. cbn [Page.entries]. rewrite length_app. lia. }
    destruct (nextInPage_spec _ st sq pre post it EI Fu)
      as [(E & R1 & R2 & R3 & R4 & R5)|(a & x & b & -> & Ea & Fx & R)].
    + destruct (Storage.ItemIterator.nextInPage _ _ it) as [found it1].
      cbn [fst snd] in *. subst found.
      set (it2 := Storage.ItemIterator.mk _ _ _ O _ _ _).
      rewrite E in Ex. cbn [app] in Ex.
      assert (SB2 : standsBefore s it2 exp).
      { split; [unfold it2; cbn; congruence|].
        unfold it2. cbn [Storage.ItemIterator.page Storage.ItemIterator.nsIndex
                         Storage.ItemIterator.itemType
                         Storage.ItemIterator.entryIndex].
        rewrite R4, Sk', R2, R3. destruct rest as [|pg' rest'].
        - exact Ex.
        - exists [], (Page.entries (Storage.page s pg')).
          split; [reflexivity|]. split; [reflexivity|exact Ex]. }
      specialize (IH it2 exp).
      assert (Sk2 : skipn (Storage.ItemIterator.page it2) (Storage.pageList s)
                    = rest).
      { unfold it2. cbn [Storage.ItemIterator.page]. now rewrite R4. }
      specialize (IH Sk2 SB2). destruct exp as [|x r]; [exact IH|].
      destruct IH as (it' & N & I1 & I2 & I3 & I4).
      exists it'. split; [exact N|]. split; [exact I1|].
      unfold it2 in I2, I3. cbn in I2, I3.
      split; [congruence|]. split; [congruence|exact I4].
    + rewrite R. rewrite itemsFrom_app, Ea in Ex.
      cbn [app itemsFrom isWritten andb] in Ex. rewrite Fx in Ex.
      subst exp. eexists. split; [reflexivity|].
      cbn [Storage.ItemIterator.item Storage.ItemIterator.nsIndex
           Storage.ItemIterator.itemType].
      split; [reflexivity|]. split; [reflexivity|]. split; [reflexivity|].
      split; [exact Er|].
      cbn [Storage.ItemIterator.page Storage.ItemIterator.nsIndex
           Storage.ItemIterator.itemType Storage.ItemIterator.entryIndex].
      rewrite Sk. exists (pre ++ a ++ [(WRITTEN, x)]), b.
      rewrite P. cbn [Page.entries].
      split; [rewrite <- !app_assoc; reflexivity|].
      split; reflexivity.
Qed.

Lemma next_spec s it exp :
  standsBefore s it exp ->
  match exp with
  | [] => fst (Storage.ItemIterator.next s it) = false
  | x :: r =>
      exists it',
        Storage.ItemIterator.next s it = (true, it')
        /\ Storage.ItemIterator.item it' = Some x
        /\ Storage.ItemIterator.nsIndex it' = Storage.ItemIterator.nsIndex it
        /\ Storage.ItemIterator.itemType it' = Storage.ItemIterator.itemType it
        /\ standsBefore s it' r
  end.
Proof.
  intros SB. unfold Storage.ItemIterator.next, Storage.ItemIterator.valid.
  destruct SB as [Er SB]. rewrite Er. cbn [esp_err_eqb]. rewrite andb_true_r.
  destruct (Nat.ltb_spec (Storage.ItemIterator.page it)
                         (List.length (Storage.pageList s))) as [Lt|Ge];
    cbn [negb].
  - apply (nextFrom_spec s _ it exp eq_refl). split; assumption.
  - rewrite skipn_all2 in SB by lia. subst exp. reflexivity.
Qed.

Lemma drain_spec s fuel :
  forall it exp,
    standsBefore s it exp -> (List.length exp < fuel)%nat ->
    drain fuel s it = exp.
Proof.
  induction fuel as [|fuel IH]; intros it exp SB Lt; [lia|].
  cbn [drain]. pose proof (next_spec s it exp SB) as N.
  destruct exp as [|x r].
  - destruct (Storage.ItemIterator.next s it) as [b it']. cbn in N.
    now subst b.
  - destruct N as (it' & N & I & _ & _ & SB').
    rewrite N, I. f_equal. apply IH; [exact SB'|]. cbn in Lt. lia.
Qed.

(** X15.  An iterator that stands at the start (as the constructor and
    [reset] leave it) returns, call after call of [next], exactly the
    WRITTEN items of the pages in use that match its namespace and type
    filters and pass the two tests of [next], in the order of the page list
    and of the entries, each once; then [next] returns false. *)
Theorem iterator_enumerates (s : Storage.t) (it : Storage.ItemIterator.t)
        (fuel : nat) :
  Storage.ItemIterator.err it = ESP_OK ->
  Storage.ItemIterator.page it = O ->
  Storage.ItemIterator.entryIndex it = O ->
  let all := itemsOfPages s (Storage.pageList s)
                          (iterable (Storage.ItemIterator.nsIndex it)
                                    (Storage.ItemIterator.itemType it)) in
  (List.length all < fuel)%nat ->
  drain fuel s it = all.
Proof.
  intros Er Pg EI all Lt. apply drain_spec; [|exact Lt].
  split; [exact Er|]. rewrite Pg. cbn [skipn].
  destruct (Storage.pageList s) as [|pg rest]; [reflexivity|].
  exists [], (Page.entries (Storage.page s pg)).
  split; [reflexivity|]. split; [exact EI|reflexivity].
Qed.

Lemma iterator_enumerates_witness :
  drain 3 withItem (fst (Storage.findEntry withItem None ANY))
  = [cfgEntry; mkItem 1 U32 1 255 "rev" [239; 190; 173; 222]].
Proof.
  assert (L : (List.length
                 (itemsOfPages withItem (Storage.pageList withItem)
                               (iterable Page.NS_ANY ANY)) < 3)%nat)
    by (vm_compute; lia).
  exact (iterator_enumerates withItem
           (fst (Storage.findEntry withItem None ANY)) 3
           eq_refl eq_refl eq_refl L).
Defined.

(** ** Operations that only read *)

Lemma onlyLastError_set s e : onlyLastError s (Storage.setLastError s e).
Proof. repeat split. Qed.

Lemma onlyLastError_trans a b c :
  onlyLastError a b -> onlyLastError b c -> onlyLastError a c.
Proof.
  intros (A1 & A2 & A3 & A4 & A5) (B1 & B2 & B3 & B4 & B5).
  repeat split; congruence.
Qed.

Lemma findItem_only s ns dt k ci cs :
  onlyLastError s (snd (fst (Storage.findItem s ns dt k ci cs))).
Proof.
  rewrite findItem_findIn. destruct (findIn _ _ _ _ _ _);
    apply onlyLastError_set.
Qed.

Lemma findItem_only' s ns dt k ci cs ok s' r :
  Storage.findItem s ns dt k ci cs = (ok, s', r) -> onlyLastError s s'.
Proof.
  intros H. pose proof (findItem_only s ns dt k ci cs) as Q.
  now rewrite H in Q.
Qed.

Lemma cmpChunks_only n s ns k d cs cn off :
  onlyLastError s (snd (Storage.cmpChunks n s ns k d cs cn off)).
Proof.
  revert s cn off. induction n as [|n IH]; intros s cn off;
    cbn [Storage.cmpChunks]; [repeat split|].
  destruct (Storage.findItem _ _ _ _ _ _) as [[ok1 s1] r1] eqn:F.
  apply findItem_only' in F.
  destruct ok1; [|exact F].
  destruct r1 as [[fp it]|]; [|exact F].
  destruct (negb _).
  - eapply onlyLastError_trans; [exact F|apply onlyLastError_set].
  - eapply onlyLastError_trans; [exact F|].
    eapply onlyLastError_trans; [|apply IH]. apply onlyLastError_set.
Qed.

(** X16.  Reading does not write: [findItem], [readItem] of a type other
    than BLOB, [getItemDataSize], [calcEntriesInNamespace], [fillStats],
    [cmpMultiPageBlob] and [createOrOpenNamespace] without permission to
    create leave pages, page lists, namespace table, usage bitmap, state
    and handle count as they are; only the last error changes. *)
Theorem reading_does_not_write (s : Storage.t) :
  (forall ns dt k ci cs,
      onlyLastError s (snd (fst (Storage.findItem s ns dt k ci cs))))
  /\ (forall ns dt k n,
         if ItemType_eqb dt BLOB then True
         else onlyLastError s (snd (fst (Storage.readItem s ns dt k n))))
  /\ (forall ns dt k n,
         onlyLastError s (snd (fst (Storage.getItemDataSize s ns dt k n))))
  /\ (forall ns,
         onlyLastError s (snd (fst (Storage.calcEntriesInNamespace s ns))))
  /\ (forall st, onlyLastError s (snd (fst (Storage.fillStats s st))))
  /\ (forall ns k d,
         onlyLastError s (snd (Storage.cmpMultiPageBlob s ns k d)))
  /\ (forall name idx,
         onlyLastError s
           (snd (fst (Storage.createOrOpenNamespace s name false idx)))).
Proof.
  split; [intros; apply findItem_only|].
  split.
  { intros ns dt k n. destruct (ItemType_eqb dt BLOB) eqn:B; [exact I|].
    unfold Storage.readItem. destruct (Storage.notActive s);
      [apply onlyLastError_set|].
    rewrite B. unfold Storage.readFound.
    destruct (Storage.findItem _ _ _ _ _ _) as [[ok1 s1] r1] eqn:F.
    apply findItem_only' in F.
    destruct ok1; [|exact F]. destruct r1 as [[fp it]|]; [|exact F].
    destruct (Page.readItem _ _ _ _ _ _) as [err bytes].
    eapply onlyLastError_trans; [exact F|apply onlyLastError_set]. }
  split.
  { intros ns dt k n. unfold Storage.getItemDataSize.
    destruct (Storage.notActive s); [apply onlyLastError_set|].
    destruct (Storage.findItem s _ _ _ _ _) as [[ok1 s1] r1] eqn:F.
    apply findItem_only' in F.
    assert (Second : onlyLastError s
              (snd (fst (if negb (ItemType_eqb dt BLOB) then (false, s1, n)
                         else match Storage.findItem s1 ns BLOB_IDX k Page.CHUNK_ANY VER_ANY with
                              | (true, s2, Some (_, item)) =>
                                  (true, s2, ItemLayout.blobIndex_dataSize item)
                              | (_, s2, _) => (false, s2, n)
                              end)))).
    { destruct (negb _); [exact F|].
      destruct (Storage.findItem s1 _ _ _ _ _) as [[ok2 s2] r2] eqn:F2.
      apply findItem_only' in F2.
      destruct ok2; [destruct r2 as [[fp it]|]|];
        exact (onlyLastError_trans _ _ _ F F2). }
    destruct ok1; [|exact Second].
    destruct r1 as [[fp it]|]; [exact F|exact Second]. }
  split.
  { intros ns. unfold Storage.calcEntriesInNamespace.
    destruct (Storage.notActive s); apply onlyLastError_set. }
  split.
  { intros st. unfold Storage.fillStats.
    destruct (PageManager.fillStats _ _) as [err st']. apply onlyLastError_set. }
  split.
  { intros ns k d. unfold Storage.cmpMultiPageBlob.
    destruct (Storage.findItem _ _ _ _ _ _) as [[ok1 s1] r1] eqn:F.
    apply findItem_only' in F.
    destruct ok1; [|exact F]. destruct r1 as [[fp it]|]; [|exact F].
    destruct (negb _).
    - eapply onlyLastError_trans; [exact F|apply onlyLastError_set].
    - eapply onlyLastError_trans; [exact F|apply cmpChunks_only]. }
  intros name idx. unfold Storage.createOrOpenNamespace.
  destruct (Storage.notActive s); [apply onlyLastError_set|].
  destruct (Storage.findNamespace _ _); apply onlyLastError_set.
Qed.

(** ** The namespace of an iterator *)

Lemma find_index_unique (l : list NamespaceEntry.t) e :
  NoDup (map NamespaceEntry.mIndex l) -> In e l ->
  find (fun x => NamespaceEntry.mIndex x =? NamespaceEntry.mIndex e) l = Some e.
Proof.
  induction l as [|y l IH]; [contradiction|].
  cbn [map find]. intros N I. inversion N as [|? ? Ny Nl]; subst.
  destruct (Z.eqb_spec (NamespaceEntry.mIndex y) (NamespaceEntry.mIndex e))
    as [E|Ne].
  - destruct I as [->|I]; [reflexivity|]. exfalso. apply Ny. rewrite E.
    now apply in_map.
  - destruct I as [->|I]; [congruence|]. now apply IH.
Qed.

(** X17.  An iterator made by [findEntry] for a namespace of the table
    carries the index of that namespace as its filter, is not done, and
    [ns_name] gives the name back, when no two entries of the table share
    an index.  For an unknown namespace the iterator is done and its filter
    stays the wildcard. *)
Theorem findEntry_ns_name (s : Storage.t) (name : string) (ty : ItemType) :
  Storage.mState s = State.ACTIVE ->
  NoDup (map NamespaceEntry.mIndex (Storage.mNamespaces s)) ->
  let it := fst (Storage.findEntry s (Some name) ty) in
  let s1 := snd (Storage.findEntry s (Some name) ty) in
  match Storage.findNamespace (Storage.mNamespaces s) name with
  | Some e =>
      Storage.ItemIterator.nsIndex it = NamespaceEntry.mIndex e
      /\ Storage.ItemIterator.done it = false
      /\ Storage.ItemIterator.ns_name s1 it = Some name
      /\ Storage.mLastError s1 = ESP_OK
  | None =>
      Storage.ItemIterator.nsIndex it = Page.NS_ANY
      /\ Storage.ItemIterator.done it = true
      /\ Storage.mLastError s1 = ESP_ERR_NVS_NOT_FOUND
  end.
Proof.
  intros A N. unfold Storage.findEntry, Storage.ItemIterator.create.
  unfold Storage.createOrOpenNamespace. rewrite (notActive_false s A).
  destruct (Storage.findNamespace (Storage.mNamespaces s) name) as [e|] eqn:F;
    cbn [negb fst snd Storage.ItemIterator.nsIndex Storage.ItemIterator.done
         Storage.mLastError Storage.setLastError].
  - split; [reflexivity|]. split; [reflexivity|]. split; [|reflexivity].
    unfold Storage.findNamespace in F. apply find_some in F as [I E].
    apply String.eqb_eq in E.
    unfold Storage.ItemIterator.ns_name.
    cbn [Storage.ItemIterator.nsIndex].
    change (Storage.mNamespaces (Storage.setLastError s ESP_OK))
      with (Storage.mNamespaces s).
    rewrite (find_index_unique _ e N I). now rewrite E.
  - repeat split.
Qed.

Lemma findEntry_ns_name_witness :
  Storage.ItemIterator.nsIndex (fst (Storage.findEntry withItem (Some "cfg"%string) ANY)) = 1
  /\ Storage.ItemIterator.done (fst (Storage.findEntry withItem (Some "cfg"%string) ANY)) = false
  /\ Storage.ItemIterator.ns_name
       (snd (Storage.findEntry withItem (Some "cfg"%string) ANY))
       (fst (Storage.findEntry withItem (Some "cfg"%string) ANY))
     = Some "cfg"%string
  /\ Storage.mLastError (snd (Storage.findEntry withItem (Some "cfg"%string) ANY))
     = ESP_OK.
Proof.
  apply (findEntry_ns_name withItem "cfg" ANY).
  - vm_compute. reflexivity.
  - vm_compute. repeat constructor. intros [].
Defined.

(** ** Writing and reading back a blob *)

Lemma findIn_value s ns dt k ci cs v :
  let f := Page.matches ns dt k ci cs in
  (1 <= visible s f)%nat ->
  visible s (fun it => f it && negb (Page.bytes_eqb (data it) v)) = O ->
  exists fp it, findIn s ns dt k ci cs = Some (fp, it) /\ data it = v.
Proof.
  intros f V Z.
  destruct (findIn s ns dt k ci cs) as [[fp it]|] eqn:F.
  - exists fp, it. split; [reflexivity|].
    pose proof (findIn_found_facts _ _ _ _ _ _ _ _ F) as (I & In1 & M & _ & _).
    pose proof (countW_zero_in _ _ _ _ _ Z I In1) as St.
    cbv beta in St. fold f in M. rewrite M in St. cbn [andb] in St.
    now apply negb_false_iff, bytes_eqb_eq in St.
  - apply findIn_none_visible in F. fold f in F. lia.
Qed.

Lemma readChunks_stored chunks :
  forall s ns k cs cn out,
    chunksStored (Storage.mPageManager s) ns k cs cn chunks ->
    exists s2,
      Storage.readChunks (List.length chunks) s ns k cs cn out
      = (false, s2, out ++ List.concat chunks)
      /\ Storage.mPageManager s2 = Storage.mPageManager s
      /\ sameTables s s2
      /\ (chunks = [] -> s2 = s)
      /\ (chunks <> [] -> Storage.mLastError s2 = ESP_OK).
Proof.
  induction chunks as [|c rest IH]; intros s ns k cs cn out;
    cbn [chunksStored List.length Storage.readChunks List.concat].
  - intros _. exists s. rewrite app_nil_r. split; [reflexivity|].
    split; [reflexivity|]. split; [apply sameTables_refl|].
    split; [reflexivity|congruence].
  - intros [(fp & it & F & D) C].
    rewrite findItem_findIn. unfold findIn, Storage.pageList. rewrite F.
    unfold Storage.page. cbn [Storage.mPageManager Storage.setLastError].
    rewrite (page_readItem_found _ _ _ _ _ _ _ F). cbn [esp_err_eqb negb].
    rewrite D.
    destruct (IH (Storage.setLastError (Storage.setLastError s ESP_OK) ESP_OK)
                 ns k cs (cn + 1) (out ++ c) C)
      as (s2 & R & P & T & E1 & E2).
    exists s2. split; [rewrite R, <- app_assoc; reflexivity|].
    split; [exact P|]. split.
    { destruct T as (T1 & T2 & T3 & T4). repeat split; assumption. }
    split; [discriminate|]. intros _.
    destruct rest as [|c2 rest]; [rewrite (E1 eq_refl); reflexivity|].
    apply E2. discriminate.
Qed.

Lemma readMultiPageBlob_stored s ns k n fp idx chunks :
  findIn s ns BLOB_IDX k Page.CHUNK_ANY VER_ANY = Some (fp, idx) ->
  List.length chunks = Z.to_nat (uint8_t (ItemLayout.blobIndex_chunkCount idx)) ->
  chunksStored (Storage.mPageManager s) ns k
               (ItemLayout.blobIndex_chunkStart idx) 0 chunks ->
  exists s2,
    Storage.readMultiPageBlob s ns k n = (true, s2, List.concat chunks)
    /\ Storage.mPageManager s2 = Storage.mPageManager s
    /\ sameTables s s2
    /\ Storage.mLastError s2 = ESP_OK.
Proof.
  intros F L C. unfold Storage.readMultiPageBlob. rewrite findItem_findIn, F.
  rewrite <- L.
  destruct (readChunks_stored chunks (Storage.setLastError s ESP_OK) ns k
              (ItemLayout.blobIndex_chunkStart idx) 0 [] C)
    as (s2 & R & P & T & E1 & E2).
  rewrite R. cbn [app].
  assert (E : Storage.mLastError s2 = ESP_OK).
  { destruct chunks as [|c rest]; [now rewrite (E1 eq_refl)|].
    apply E2. discriminate. }
  rewrite E. cbn [esp_err_eqb].
  exists s2. split; [reflexivity|]. split; [exact P|].
  split; [|exact E].
  destruct T as (T1 & T2 & T3 & T4). repeat split; assumption.
Qed.

Lemma chunksVisible_stored s ns k start chunks :
  chunksVisible s ns k start chunks ->
  forall from rest,
    chunks = from ++ rest ->
    chunksStored (Storage.mPageManager s) ns k start
                 (Z.of_nat (List.length from)) rest.
Proof.
  intros V from rest. revert from.
  induction rest as [|c rest IH]; intros from E; cbn [chunksStored];
    [exact I|].
  split.
  - destruct (V (List.length from)) as [V1 V2].
    { rewrite E, length_app. cbn. lia. }
    rewrite E in V2. rewrite app_nth2 in V2 by lia.
    rewrite Nat.sub_diag in V2. cbn [nth] in V2.
    destruct (findIn_value s ns BLOB_DATA k
                (uint8_t (uint8_t start + Z.of_nat (List.length from)))
                VER_ANY c) as (fp & it & F & D).
    + fold (chunkFilter ns k start (Z.of_nat (List.length from))). lia.
    + exact V2.
    + exists fp, it. split; [exact F|exact D].
  - specialize (IH (from ++ [c])).
    rewrite length_app in IH. cbn [List.length] in IH.
    replace (Z.of_nat (List.length from) + 1)
      with (Z.of_nat (List.length from + 1)) by lia.
    apply IH. rewrite E, <- app_assoc. reflexivity.
Qed.

Lemma tailroom_ge p :
  Page.getVarDataTailroom p <> 0 -> Page.ENTRY_SIZE <= Page.getVarDataTailroom p.
Proof.
  unfold Page.getVarDataTailroom, Page.ENTRY_SIZE.
  destruct (_ <? _)%nat eqn:L; [|congruence].
  apply Nat.ltb_lt in L. intros _. lia.
Qed.

Lemma chunkFilter_new ns k start c c' v :
  0 <= start <= 128 -> 0 <= c < 127 -> 0 <= c' < 127 ->
  chunkFilter ns (Some k) start c
              (newItem ns BLOB_DATA k v (uint8_t (uint8_t start + c')))
  = (c =? c').
Proof.
  intros S C C'. unfold chunkFilter, Page.matches, newItem, uint8_t.
  cbn [nsIndex datatype key chunkIndex ItemType_eqb orb andb].
  rewrite Z.eqb_refl, String.eqb_refl, orb_true_r. cbn [andb].
  rewrite (Z.mod_small start 256) by lia.
  rewrite (Z.mod_small (start + c) 256) by lia.
  rewrite (Z.mod_small (start + c') 256) by lia.
  change (VER_ANY =? VER_ANY) with true. rewrite orb_true_l, andb_true_r.
  unfold Page.CHUNK_ANY.
  destruct (Z.eqb_spec (start + c) 255) as [|_]; [lia|]. cbn [orb].
  destruct (Z.eqb_spec (start + c') (start + c)), (Z.eqb_spec c c'); try lia;
    reflexivity.
Qed.

Lemma chunkFilter_type ns k start c it :
  chunkFilter ns k start c it = true -> datatype it = BLOB_DATA.
Proof.
  unfold chunkFilter, Page.matches. intros H.
  apply andb_true_iff in H as [H _]. apply andb_true_iff in H as [H _].
  apply andb_true_iff in H as [H _]. apply andb_true_iff in H as [_ H].
  cbn [ItemType_eqb orb] in H. now apply ItemType_eqb_eq in H.
Qed.

Lemma keyFilter_type ns dt k it :
  dt <> ANY -> keyFilter ns dt k it = true -> datatype it = dt.
Proof.
  unfold keyFilter, Page.matches. intros N H.
  apply andb_true_iff in H as [H _]. apply andb_true_iff in H as [H _].
  apply andb_true_iff in H as [H _]. apply andb_true_iff in H as [_ H].
  apply orb_true_iff in H as [H|H]; apply ItemType_eqb_eq in H;
    [contradiction|exact H].
Qed.

Lemma firstn_slice (d : list Z) off n :
  firstn off d ++ Storage.slice d off n = firstn (off + n) d.
Proof.
  unfold Storage.slice. revert d. induction off as [|off IH]; intros d.
  - reflexivity.
  - destruct d as [|x d]; cbn [firstn skipn Nat.add app].
    + now rewrite firstn_nil.
    + now rewrite IH.
Qed.

Lemma requestNewPage_nonempty s s' :
  wfS s -> Storage.requestNewPage s = (true, s') -> Storage.pageList s' <> [].
Proof.
  unfold Storage.requestNewPage.
  destruct (PageManager.requestNewPage _) as [err pm] eqn:R.
  intros W H. injection H as E <-. apply esp_err_eqb_eq in E. subst err.
  exact (proj1 (requestNewPage_pages _ _ W R)).
Qed.

Lemma visible_sub_zero s f g :
  (forall it, g it = true -> f it = true) ->
  visible s f = O -> visible s g = O.
Proof.
  intros Sub Z. unfold visible in *. apply countW_zero. intros j Ij.
  pose proof (countW_in (Storage.mPageManager s) _ f j Ij) as Q.
  assert (Cz : countPage (Page.entries (PageManager.page (Storage.mPageManager s) j)) f = O)
    by lia.
  clear -Cz Sub.
  induction (Page.entries (PageManager.page (Storage.mPageManager s) j))
    as [|[st it] es IH]; [reflexivity|].
  cbn [countPage] in *. destruct (isWritten st); cbn [andb] in *.
  - destruct (g it) eqn:G.
    + rewrite (Sub _ G) in Cz. lia.
    + apply IH. destruct (f it); lia.
  - apply IH. lia.
Qed.

Lemma idxAt_type ns k start it :
  idxAt ns k start it = true -> datatype it = BLOB_IDX.
Proof.
  unfold idxAt, Page.matches. intros H.
  apply andb_true_iff in H as [H _]. apply andb_true_iff in H as [H _].
  apply andb_true_iff in H as [H _]. apply andb_true_iff in H as [_ H].
  cbn [ItemType_eqb orb] in H. now apply ItemType_eqb_eq in H.
Qed.

Lemma idxAt_newItem ns k start n c :
  0 <= start <= 128 ->
  idxAt ns k start
        (newItem ns BLOB_IDX k (ItemLayout.blobIndex_bytes n c start)
                 Page.CHUNK_ANY) = true.
Proof.
  intros S. unfold idxAt, Page.matches, newItem,
    ItemLayout.blobIndex_chunkStart, ItemLayout.blobIndex_bytes, uint8_t.
  cbn [nsIndex datatype key chunkIndex data nth ItemType_eqb orb andb].
  rewrite Z.eqb_refl, String.eqb_refl, orb_true_r. cbn [andb].
  rewrite (Z.mod_small start 256) by lia.
  rewrite (Z.eqb_refl start), !orb_true_r. reflexivity.
Qed.

Lemma countsInv_same s0 s s' ns k start chunks :
  (forall g, visible s' g = visible s g) ->
  countsInv s0 s ns k start chunks -> countsInv s0 s' ns k start chunks.
Proof.
  intros E (V & F & X & Fr). split; [|split; [|split]].
  - intros i Li. rewrite !E. now apply V.
  - intros i Ri. rewrite E. now apply F.
  - now rewrite E.
  - intros g Fg. rewrite E. now apply Fr.
Qed.

Lemma countsInv_write s0 s ns k start chunks v p' e :
  0 <= start <= 128 ->
  wfS s -> Storage.pageList s <> [] ->
  (List.length chunks < 126)%nat ->
  countsInv s0 s ns k start chunks ->
  Page.writeItem (Storage.page s (Storage.getCurrentPage s)) ns BLOB_DATA k v
                 (uint8_t (uint8_t start + Z.of_nat (List.length chunks)))
  = (ESP_OK, p') ->
  countsInv s0 (Storage.setLastError
                  (Storage.setPage s (Storage.getCurrentPage s) p') e)
            ns k start (chunks ++ [v]).
Proof.
  intros S W NE Lt (V & F & X & Fr) WR.
  pose proof (fun g => write_adds s ns BLOB_DATA k v _ p' e g W NE WR) as ADD.
  set (s1 := Storage.setLastError _ e) in *.
  set (n := List.length chunks) in *.
  set (new := newItem ns BLOB_DATA k v (uint8_t (uint8_t start + Z.of_nat n))) in *.
  assert (CF : forall i, (i < 127)%nat ->
                 chunkFilter ns (Some k) start (Z.of_nat i) new
                 = Nat.eqb i n).
  { intros i Li. unfold new. rewrite chunkFilter_new by lia.
    destruct (Z.eqb_spec (Z.of_nat i) (Z.of_nat n)), (Nat.eqb_spec i n);
      try lia; reflexivity. }
  split; [|split; [|split]].
  - intros i Li. rewrite length_app in Li. cbn [List.length] in Li. fold n in Li.
    rewrite !ADD. unfold chunkStale at 2. rewrite CF by lia.
    destruct (Nat.eqb_spec i n) as [->|Ne].
    + rewrite (F n) by lia. split; [reflexivity|].
      replace (nth n (chunks ++ [v]) []) with v
        by (unfold n; now rewrite nth_middle).
      change (data new) with v. rewrite bytes_eqb_refl. cbn [negb andb].
      rewrite Nat.add_0_r.
      apply (visible_sub_zero s (chunkFilter ns (Some k) start (Z.of_nat n)));
        [|apply F; lia].
      intros it H. unfold chunkStale in H.
      now apply andb_true_iff in H as [H _].
    + cbn [andb]. rewrite !Nat.add_0_r.
      destruct (V i ltac:(lia)) as [V1 V2]. split; [exact V1|].
      rewrite app_nth1 by lia. exact V2.
  - intros i Ri. rewrite length_app in Ri. cbn [List.length] in Ri. fold n in Ri.
    rewrite ADD, CF by lia.
    destruct (Nat.eqb_spec i n); [lia|]. rewrite Nat.add_0_r.
    apply F. lia.
  - rewrite ADD. unfold new.
    destruct (idxAt ns k start (newItem ns BLOB_DATA k v _)) eqn:K.
    + apply idxAt_type in K. discriminate.
    + lia.
  - intros g Fg. rewrite ADD. unfold new.
    rewrite (proj1 Fg (Z.of_nat n) v) by lia. rewrite Nat.add_0_r.
    now apply Fr.
Qed.

Lemma index_write s0 s ns k start chunks n c p' e :
  0 <= start <= 128 ->
  wfS s -> Storage.pageList s <> [] ->
  countsInv s0 s ns k start chunks ->
  Page.writeItem (Storage.page s (Storage.getCurrentPage s)) ns BLOB_IDX k
                 (ItemLayout.blobIndex_bytes n c start) Page.CHUNK_ANY
  = (ESP_OK, p') ->
  let s1 := Storage.setLastError
              (Storage.setPage s (Storage.getCurrentPage s) p') e in
  chunksVisible s1 ns (Some k) start chunks
  /\ rangeFree s1 ns (Some k) start (List.length chunks)
  /\ visible s1 (idxAt ns k start) = 1%nat
  /\ visible s1 (idxStale ns k start (ItemLayout.blobIndex_bytes n c start)) = O
  /\ forall g, foreign ns k start g -> visible s1 g = visible s0 g.
Proof.
  intros St W NE (V & F & X & Fr) WR s1.
  pose proof (fun g => write_adds s ns BLOB_IDX k _ _ p' e g W NE WR) as ADD.
  fold s1 in ADD.
  set (new := newItem ns BLOB_IDX k (ItemLayout.blobIndex_bytes n c start)
                      Page.CHUNK_ANY) in *.
  assert (CF : forall c, chunkFilter ns (Some k) start c new = false).
  { intros c'. destruct (chunkFilter ns (Some k) start c' new) eqn:C;
      [|reflexivity].
    apply chunkFilter_type in C. discriminate. }
  split; [|split; [|split; [|split]]].
  - intros i Li. rewrite !ADD. unfold chunkStale at 2. rewrite !CF.
    cbn [andb]. rewrite !Nat.add_0_r. now apply V.
  - intros i Ri. rewrite ADD, CF, Nat.add_0_r. now apply F.
  - rewrite ADD. unfold new. rewrite idxAt_newItem by exact St. lia.
  - rewrite ADD. unfold idxStale at 2. unfold new at 2.
    change (data (newItem ns BLOB_IDX k (ItemLayout.blobIndex_bytes n c start)
                          Page.CHUNK_ANY))
      with (ItemLayout.blobIndex_bytes n c start).
    rewrite bytes_eqb_refl, andb_false_r, Nat.add_0_r.
    apply (visible_sub_zero s (idxAt ns k start)); [|exact X].
    intros it H. unfold idxStale in H.
    now apply andb_true_iff in H as [H _].
  - intros g Fg. rewrite ADD. unfold new. rewrite (proj2 Fg n c), Nat.add_0_r.
    now apply Fr.
Qed.

(** The write loop, when it ends well, leaves the blob stored. *)
Lemma writeLoop_chunks ns k d start :
  0 <= start <= 128 ->
  Z.of_nat (List.length d) <= Page.CHUNK_MAX_SIZE ->
  forall s0 fuel s chunks used rem off s' used',
    wfS s -> Storage.pageList s <> [] ->
    (off + rem = List.length d)%nat ->
    List.concat chunks = firstn off d ->
    (chunks <> [] -> rem <> O) ->
    (32 * List.length chunks <= off)%nat ->
    countsInv s0 s ns k start chunks ->
    Storage.writeLoop fuel s ns k d start (Z.of_nat (List.length chunks))
                      used rem off = Some (false, s', used') ->
    Storage.mLastError s' = ESP_OK ->
    wfS s' /\ Storage.pageList s' <> []
    /\ versionWritten s0 s' ns k d start.
Proof.
  intros St Sz. unfold Page.CHUNK_MAX_SIZE, Page.ENTRY_SIZE, Page.ENTRY_COUNT in Sz.
  intros s0. induction fuel as [|fuel IH];
    intros s chunks used rem off s' used' W NE OR Cc Rm Bd CI; [discriminate|].
  assert (Len : (List.length chunks <= 125)%nat).
  { destruct chunks as [|c0 chunks0]; [cbn; lia|].
    assert (rem <> O) by (apply Rm; discriminate). cbn [List.length] in *. lia. }
  cbn [Storage.writeLoop].
  destruct (_ && _ && _).
  { destruct (Storage.markFullIfNeeded _ _) as [ok1 s1] eqn:M.
    destruct ok1; cbn [negb]; [|discriminate].
    destruct (markFullIfNeeded_visible _ _ _ _ W M) as [W1 V1].
    destruct (markFullIfNeeded_entries _ _ _ _ M) as [L1 _].
    destruct (Storage.requestNewPage s1) as [ok2 s2] eqn:R.
    destruct ok2; cbn [negb]; [|discriminate].
    destruct (requestNewPage_visible _ _ W1 R) as [W2 V2].
    pose proof (requestNewPage_nonempty _ _ W1 R) as NE2.
    destruct (_ =? _); [discriminate|].
    intros H E. apply (IH s2 chunks used rem off s' used'); try assumption.
    apply (countsInv_same s0 s); [|exact CI]. intros g. now rewrite V2, V1. }
  destruct (_ =? 0) eqn:T0.
  { intros H E. injection H as <- _. discriminate E. }
  apply Z.eqb_neq in T0. apply tailroom_ge in T0.
  unfold Page.ENTRY_SIZE in T0.
  set (tail := Page.getVarDataTailroom _) in *.
  set (size := if tail <? Z.of_nat rem then Z.to_nat tail else rem).
  assert (Sle : (size <= rem)%nat).
  { unfold size. destruct (Z.ltb_spec tail (Z.of_nat rem)); lia. }
  set (v := Storage.slice d off size).
  destruct (Page.writeItem _ _ _ _ _ _) as [err p'] eqn:Wr.
  destruct (esp_err_eqb err ESP_OK) eqn:Eerr; cbn [negb].
  2: { intros H E. injection H as <- _. cbn in E. subst err. discriminate. }
  apply esp_err_eqb_eq in Eerr. subst err.
  pose proof (countsInv_write s0 s ns k start chunks v p' ESP_OK St W NE
                ltac:(lia) CI Wr) as CI1.
  pose proof (wfS_setPage s (Storage.getCurrentPage s) p' ESP_OK W) as W1.
  set (s1 := Storage.setLastError (Storage.setPage s _ p') ESP_OK) in *.
  assert (NE1 : Storage.pageList s1 <> []) by exact NE.
  match goal with
  | |- context [let '(ok, s2) := ?c in _] => destruct c as [ok2 s2] eqn:C
  end.
  destruct ok2; cbn [negb].
  2: { intros H E. injection H as <- _. exfalso.
       destruct (_ || _); [|discriminate].
       destruct (Storage.markFullIfNeeded _ _) as [ok1 s1'] eqn:M.
       destruct ok1; cbn [negb] in C.
       - apply requestNewPage_error in C as [_ C]. apply C in E. discriminate.
       - injection C as <-. apply markFullIfNeeded_error in M as [_ M].
         contradiction. }
  assert (WV : wfS s2 /\ Storage.pageList s2 <> []
               /\ forall g, visible s2 g = visible s1 g).
  { destruct (_ || _).
    - destruct (Storage.markFullIfNeeded _ _) as [ok1 s1'] eqn:M.
      destruct (markFullIfNeeded_visible _ _ _ _ W1 M) as [W1' V1'].
      destruct ok1; cbn [negb] in C; [|discriminate].
      destruct (requestNewPage_visible _ _ W1' C) as [W2 V2].
      split; [exact W2|]. split; [exact (requestNewPage_nonempty _ _ W1' C)|].
      intros g. now rewrite V2, V1'.
    - injection C as <-. split; [exact W1|]. split; [exact NE1|reflexivity]. }
  destruct WV as (W2 & NE2 & V2).
  pose proof (countsInv_same s0 s1 s2 ns k start (chunks ++ [v]) V2 CI1) as CI2.
  assert (CC : uint8_t (Z.of_nat (List.length chunks) + 1)
               = Z.of_nat (List.length (chunks ++ [v]))).
  { rewrite length_app. cbn [List.length]. unfold uint8_t.
    rewrite Z.mod_small by lia. lia. }
  rewrite CC.
  assert (Cc' : List.concat (chunks ++ [v]) = firstn (off + size) d).
  { rewrite concat_app. cbn [List.concat]. rewrite app_nil_r, Cc.
    apply firstn_slice. }
  destruct (Nat.eqb_spec (rem - size) 0) as [Z0|NZ].
  - destruct (Page.writeItem (Storage.page s2 _) _ _ _ _ _) as [err2 p2]
      eqn:Wr2.
    intros H E. injection H as <- _. cbn in E. subst err2.
    destruct (index_write s0 s2 ns k start (chunks ++ [v]) _ _ p2 ESP_OK St W2
                          NE2 CI2 Wr2)
      as (V3 & F3 & I3 & S3 & Fr3).
    split; [now apply wfS_setPage|]. split; [exact NE2|].
    exists (chunks ++ [v]). split.
    { rewrite Cc'. apply firstn_all2. lia. }
    split; [rewrite length_app; cbn [List.length]; lia|].
    split; [exact V3|]. split; [exact F3|]. split; [exact I3|].
    split; [exact S3|exact Fr3].
  - intros H E.
    apply (IH s2 (chunks ++ [v]) (used ++ [Storage.getCurrentPage s])
              (rem - size)%nat (off + size)%nat s' used'); try assumption.
    + lia.
    + intros _. exact NZ.
    + rewrite length_app. cbn [List.length].
      assert (size = Z.to_nat tail /\ tail < Z.of_nat rem) as [Es Lt].
      { unfold size. destruct (Z.ltb_spec tail (Z.of_nat rem)); [split; [reflexivity|assumption]|lia]. }
      lia.
Qed.

Lemma matches_chunk_any ns dt k ci cs it :
  Page.matches ns dt k ci cs it = true ->
  Page.matches ns dt k Page.CHUNK_ANY cs it = true.
Proof.
  unfold Page.matches. intros H.
  apply andb_true_iff in H as [H H5]. apply andb_true_iff in H as [H _].
  rewrite H, H5. reflexivity.
Qed.

Lemma blobIndex_bytes_fields n c start :
  0 <= n < 2 ^ 32 -> 0 <= c < 256 -> 0 <= start < 256 ->
  forall it,
    data it = ItemLayout.blobIndex_bytes n c start ->
    ItemLayout.blobIndex_dataSize it = n
    /\ ItemLayout.blobIndex_chunkCount it = c
    /\ ItemLayout.blobIndex_chunkStart it = start.
Proof.
  intros N C S it D.
  unfold ItemLayout.blobIndex_dataSize, ItemLayout.blobIndex_chunkCount,
    ItemLayout.blobIndex_chunkStart.
  rewrite D. unfold ItemLayout.blobIndex_bytes, uint8_t. cbn [nth].
  rewrite (Z.mod_small c 256), (Z.mod_small start 256) by lia.
  split; [|split; reflexivity].
  change (2 ^ 32) with 4294967296 in N.
  pose proof (Z.div_mod n 256 ltac:(lia)).
  pose proof (Z.div_mod (n / 256) 256 ltac:(lia)).
  pose proof (Z.div_mod (n / 256 / 256) 256 ltac:(lia)).
  pose proof (Z.mod_pos_bound n 256 ltac:(lia)).
  pose proof (Z.mod_pos_bound (n / 256) 256 ltac:(lia)).
  pose proof (Z.mod_pos_bound (n / 256 / 256) 256 ltac:(lia)).
  assert (E1 : n / 65536 = n / 256 / 256)
    by (rewrite Z.div_div by lia; reflexivity).
  assert (E2 : n / 16777216 = n / 256 / 256 / 256)
    by (rewrite !Z.div_div by lia; reflexivity).
  assert (B : 0 <= n / 256 / 256 / 256 < 256).
  { rewrite <- E2. split; [apply Z.div_pos; lia|].
    apply Z.div_lt_upper_bound; lia. }
  rewrite E1, E2. rewrite (Z.mod_small (n / 256 / 256 / 256) 256) by lia.
  lia.
Qed.

Lemma countPage_ext es f g :
  (forall it, f it = g it) -> countPage es f = countPage es g.
Proof.
  intros E. induction es as [|[st it] es IH]; cbn [countPage]; [reflexivity|].
  now rewrite IH, E.
Qed.

Lemma visible_ext s f g :
  (forall it, f it = g it) -> visible s f = visible s g.
Proof.
  intros E. unfold visible.
  induction (Storage.pageList s) as [|j l IH]; cbn [countW]; [reflexivity|].
  now rewrite IH, (countPage_ext _ f g E).
Qed.

Lemma visible_split s f p :
  visible s f
  = (visible s (fun it => f it && p it)
     + visible s (fun it => f it && negb (p it)))%nat.
Proof. apply countW_partition. Qed.

Lemma visible_nonempty s f :
  (1 <= visible s f)%nat -> Storage.pageList s <> [].
Proof. unfold visible. destruct (Storage.pageList s); [cbn; lia|discriminate]. Qed.

Lemma keyFilter_idxAt ns k start it :
  idxAt ns k start it = true -> keyFilter ns BLOB_IDX k it = true.
Proof.
  unfold idxAt, keyFilter, Page.matches. intros H.
  apply andb_true_iff in H as [H _]. rewrite H. reflexivity.
Qed.

(** *** Filters that the write of a version leaves alone *)

Lemma foreign_sub ns k start f g :
  (forall it, g it = true -> f it = true) ->
  foreign ns k start f -> foreign ns k start g.
Proof.
  intros Sub [F1 F2]. split.
  - intros c v Hc. destruct (g _) eqn:G; [|reflexivity].
    apply Sub in G. now rewrite F1 in G.
  - intros n c. destruct (g _) eqn:G; [|reflexivity].
    apply Sub in G. now rewrite F2 in G.
Qed.

Lemma foreign_type ns k start g :
  rejects g BLOB_DATA -> rejects g BLOB_IDX -> foreign ns k start g.
Proof. intros R1 R2. split; intros; [apply R1|apply R2]; reflexivity. Qed.

Lemma foreign_idxOther ns k start :
  0 <= start <= 128 -> foreign ns k start (idxOther ns k start).
Proof.
  intros S. split.
  - intros c v _. unfold idxOther.
    destruct (keyFilter ns BLOB_IDX k _) eqn:K; [|reflexivity].
    apply keyFilter_type in K; [discriminate|discriminate].
  - intros n c. unfold idxOther. rewrite idxAt_newItem by exact S.
    apply andb_false_r.
Qed.

Lemma otherVersion_cases start :
  start = VER_0_OFFSET \/ start = VER_1_OFFSET ->
  0 <= start <= 128
  /\ (otherVersion start = VER_0_OFFSET \/ otherVersion start = VER_1_OFFSET)
  /\ otherVersion (otherVersion start) = start
  /\ (start = 0 /\ otherVersion start = 128
      \/ start = 128 /\ otherVersion start = 0).
Proof.
  unfold VER_0_OFFSET, VER_1_OFFSET.
  intros [->| ->]; cbn; repeat split; try lia; auto.
Qed.

Lemma chunkFilter_index ns k start c it :
  0 <= start <= 128 -> 0 <= c < 127 ->
  chunkFilter ns k start c it = true -> chunkIndex it = start + c.
Proof.
  intros S C. unfold chunkFilter, Page.matches, uint8_t. intros H.
  apply andb_true_iff in H as [H _]. apply andb_true_iff in H as [_ H].
  rewrite (Z.mod_small start 256), (Z.mod_small (start + c) 256) in H by lia.
  unfold Page.CHUNK_ANY in H.
  destruct (Z.eqb_spec (start + c) 255); [lia|]. cbn [orb] in H.
  now apply Z.eqb_eq in H.
Qed.

Lemma foreign_chunk_other ns k start c :
  start = VER_0_OFFSET \/ start = VER_1_OFFSET -> 0 <= c < 127 ->
  foreign ns k start (chunkFilter ns (Some k) (otherVersion start) c).
Proof.
  intros S C. destruct (otherVersion_cases _ S) as (B & _ & _ & Cs). split.
  - intros c' v C'.
    destruct (chunkFilter ns (Some k) (otherVersion start) c _) eqn:G;
      [|reflexivity].
    apply chunkFilter_index in G; [|lia|exact C].
    unfold newItem, uint8_t in G. cbn [chunkIndex] in G.
    rewrite (Z.mod_small start 256), (Z.mod_small (start + c') 256) in G
      by lia.
    lia.
  - intros n c'.
    destruct (chunkFilter ns (Some k) (otherVersion start) c _) eqn:G;
      [|reflexivity].
    apply chunkFilter_type in G. discriminate.
Qed.

Lemma idxAt_start ns k start it :
  0 <= start <= 128 -> idxAt ns k start it = true ->
  ItemLayout.blobIndex_chunkStart it = start.
Proof.
  intros S. unfold idxAt, Page.matches. intros H.
  apply andb_true_iff in H as [_ H]. unfold VER_ANY in H.
  destruct (Z.eqb_spec start 255); [lia|]. cbn [orb] in H.
  now apply Z.eqb_eq in H.
Qed.

Lemma foreign_idxAt_other ns k start :
  start = VER_0_OFFSET \/ start = VER_1_OFFSET ->
  foreign ns k start (idxAt ns k (otherVersion start)).
Proof.
  intros S. destruct (otherVersion_cases _ S) as (B & _ & _ & Cs). split.
  - intros c v _. destruct (idxAt _ _ _ _) eqn:G; [|reflexivity].
    apply idxAt_type in G. discriminate.
  - intros n c. destruct (idxAt _ _ _ _) eqn:G; [|reflexivity].
    apply idxAt_start in G; [|lia].
    unfold ItemLayout.blobIndex_chunkStart, newItem,
      ItemLayout.blobIndex_bytes, uint8_t in G.
    cbn [data nth] in G. rewrite (Z.mod_small start 256) in G by lia. lia.
Qed.

Lemma blobStored_intro s ns k d start chunks :
  start = VER_0_OFFSET \/ start = VER_1_OFFSET ->
  Z.of_nat (List.length d) < 2 ^ 32 ->
  List.concat chunks = d -> (List.length chunks <= 126)%nat ->
  chunksVisible s ns (Some k) start chunks ->
  rangeFree s ns (Some k) start (List.length chunks) ->
  rangeFree s ns (Some k) (otherVersion start) 0 ->
  visible s (idxAt ns k start) = 1%nat ->
  visible s (idxStale ns k start
               (ItemLayout.blobIndex_bytes (Z.of_nat (List.length d))
                  (Z.of_nat (List.length chunks)) start)) = O ->
  visible s (idxOther ns k start) = O ->
  blobStored s ns k d start.
Proof.
  intros S Sz Cc Len V F Fo I1 I0 Io.
  split; [exact S|]. split; [exact Sz|]. exists chunks.
  split; [exact Cc|]. split; [exact Len|]. split; [exact V|].
  split; [exact F|]. split; [exact Fo|]. split.
  - rewrite (visible_split s (keyFilter ns BLOB_IDX k) (idxAt ns k start)).
    fold (idxOther ns k start). rewrite Io, Nat.add_0_r, <- I1.
    apply visible_ext. intros it.
    destruct (idxAt ns k start it) eqn:A; [|apply andb_false_r].
    now rewrite (keyFilter_idxAt _ _ _ _ A).
  - set (b := ItemLayout.blobIndex_bytes _ _ _) in *.
    rewrite (visible_split s (staleFilter ns BLOB_IDX k b) (idxAt ns k start)).
    assert (Z1 : visible s (fun it => staleFilter ns BLOB_IDX k b it
                                      && idxAt ns k start it) = O).
    { apply (visible_sub_zero s (idxStale ns k start b)); [|exact I0].
      intros it H. apply andb_true_iff in H as [H A].
      unfold staleFilter in H. apply andb_true_iff in H as [_ H].
      unfold idxStale. now rewrite A, H. }
    assert (Z2 : visible s (fun it => staleFilter ns BLOB_IDX k b it
                                      && negb (idxAt ns k start it)) = O).
    { apply (visible_sub_zero s (idxOther ns k start)); [|exact Io].
      intros it H. apply andb_true_iff in H as [H A].
      unfold staleFilter in H. apply andb_true_iff in H as [H _].
      unfold idxOther. now rewrite A, H. }
    now rewrite Z1, Z2.
Qed.

(** What a stored blob says about the indexes of its version and of the
    other one. *)
Lemma blobStored_index s ns k d start :
  blobStored s ns k d start ->
  exists chunks,
    List.concat chunks = d /\ (List.length chunks <= 126)%nat
    /\ chunksVisible s ns (Some k) start chunks
    /\ rangeFree s ns (Some k) start (List.length chunks)
    /\ rangeFree s ns (Some k) (otherVersion start) 0
    /\ visible s (keyFilter ns BLOB_IDX k) = 1%nat
    /\ visible s (staleFilter ns BLOB_IDX k
                    (ItemLayout.blobIndex_bytes (Z.of_nat (List.length d))
                       (Z.of_nat (List.length chunks)) start)) = O
    /\ visible s (idxAt ns k start) = 1%nat
    /\ visible s (idxOther ns k start) = O
    /\ visible s (idxStale ns k start
                    (ItemLayout.blobIndex_bytes (Z.of_nat (List.length d))
                       (Z.of_nat (List.length chunks)) start)) = O.
Proof.
  intros (S & _ & chunks & Cc & Len & V & F & Fo & I1 & I0).
  destruct (otherVersion_cases _ S) as (B & _).
  exists chunks. split; [exact Cc|]. split; [exact Len|]. split; [exact V|].
  split; [exact F|]. split; [exact Fo|]. split; [exact I1|].
  split; [exact I0|].
  set (b := ItemLayout.blobIndex_bytes _ _ _) in *.
  assert (Io : visible s (idxOther ns k start) = O).
  { apply (visible_sub_zero s (staleFilter ns BLOB_IDX k b)); [|exact I0].
    intros it H. unfold idxOther in H. apply andb_true_iff in H as [H A].
    unfold staleFilter. rewrite H. cbn [andb].
    destruct (Page.bytes_eqb (data it) b) eqn:E; [|reflexivity].
    apply bytes_eqb_eq in E. exfalso.
    assert (T : idxAt ns k start it = true).
    { unfold idxAt, Page.matches. unfold keyFilter, Page.matches in H.
      apply andb_true_iff in H as [H _]. rewrite H. cbn [andb].
      unfold ItemLayout.blobIndex_chunkStart. rewrite E. unfold b,
        ItemLayout.blobIndex_bytes, uint8_t. cbn [nth].
      rewrite (Z.mod_small start 256) by lia.
      rewrite (Z.eqb_refl start). apply orb_true_r. }
    rewrite T in A. discriminate. }
  assert (I1' : visible s (idxAt ns k start) = 1%nat).
  { rewrite <- I1.
    rewrite (visible_split s (keyFilter ns BLOB_IDX k) (idxAt ns k start)).
    fold (idxOther ns k start). rewrite Io, Nat.add_0_r.
    apply visible_ext. intros it.
    destruct (idxAt ns k start it) eqn:A; [|now rewrite andb_false_r].
    now rewrite (keyFilter_idxAt _ _ _ _ A). }
  split; [exact I1'|]. split; [exact Io|].
  apply (visible_sub_zero s (staleFilter ns BLOB_IDX k b)); [|exact I0].
  intros it H. unfold idxStale in H. apply andb_true_iff in H as [A H].
  unfold staleFilter. now rewrite (keyFilter_idxAt _ _ _ _ A), H.
Qed.

(** Reading a stored blob. *)
Lemma blobStored_read s ns k d start n :
  Storage.notActive s = false ->
  blobStored s ns k d start ->
  exists s2,
    Storage.readItem s ns BLOB (Some k) n = (true, s2, d)
    /\ Storage.mPageManager s2 = Storage.mPageManager s
    /\ sameTables s s2
    /\ Storage.mLastError s2 = ESP_OK.
Proof.
  intros A (S & Sz & chunks & Cc & Len & V & _ & _ & I1 & I0).
  destruct (otherVersion_cases _ S) as (St & _).
  destruct (findIn_value s ns BLOB_IDX (Some k) Page.CHUNK_ANY VER_ANY
              (ItemLayout.blobIndex_bytes (Z.of_nat (List.length d))
                 (Z.of_nat (List.length chunks)) start))
    as (fp & idx & F & D).
  { fold (keyFilter ns BLOB_IDX k). lia. }
  { exact I0. }
  assert (B1 : 0 <= Z.of_nat (List.length d) < 2 ^ 32) by lia.
  assert (B2 : 0 <= Z.of_nat (List.length chunks) < 256) by lia.
  assert (B3 : 0 <= start < 256) by lia.
  destruct (blobIndex_bytes_fields _ _ _ B1 B2 B3 idx D) as (Fd & Fc & Fs).
  destruct (readMultiPageBlob_stored s ns (Some k) n fp idx chunks F)
    as (s2 & R & P & T & E).
  { rewrite Fc. unfold uint8_t. rewrite Z.mod_small by lia. lia. }
  { rewrite Fs. exact (chunksVisible_stored s ns (Some k) start chunks V [] chunks eq_refl). }
  exists s2. unfold Storage.readItem. rewrite A. cbn [ItemType_eqb].
  rewrite R, Cc. repeat split; try assumption; apply T.
Qed.

Lemma eraseFound_disjoint g s ns dt k findPage ok s' :
  disjoint (keyFilter ns dt k) g ->
  Storage.eraseFound s ns dt k findPage = (ok, s') ->
  visible s' g = visible s g.
Proof.
  intros D. unfold Storage.eraseFound.
  destruct findPage as [found|].
  2: { intros H. injection H as _ <-. reflexivity. }
  destruct (Storage.refind s ns dt k found) as [s1 [fp it]] eqn:R.
  pose proof (refind_pm _ _ _ _ _ _ _ R) as P1.
  pose proof (visible_pm _ _ g P1) as V1.
  destruct (Page.eraseItem _ _ _ _ _ _) as [err p'] eqn:E.
  assert (V2 : forall e, visible (Storage.setLastError (Storage.setPage s1 fp p') e) g
                         = visible s1 g).
  { intros e. apply visible_setPage_same.
    unfold Page.eraseItem in E. fold (keyFilter ns dt k) in E.
    destruct (Page.eraseFirst _ _) as [es'|] eqn:EF.
    - injection E as _ <-. cbn [Page.entries].
      exact (eraseFirst_disjoint _ _ _ _ D EF).
    - injection E as _ <-. reflexivity. }
  destruct (negb (esp_err_eqb err ESP_OK)); intros H; injection H as _ <-.
  - now rewrite V2.
  - change (visible (Storage.setLastError
                       (Storage.setLastError (Storage.setPage s1 fp p') err)
                       ESP_OK) g)
      with (visible (Storage.setLastError (Storage.setPage s1 fp p') err) g).
    now rewrite V2.
Qed.

Lemma eraseFound_wfS s ns dt k findPage ok s' :
  wfS s -> Storage.eraseFound s ns dt k findPage = (ok, s') ->
  wfS s' /\ Storage.pageList s' = Storage.pageList s.
Proof.
  intros W. unfold Storage.eraseFound.
  destruct findPage as [found|].
  2: { intros H. injection H as _ <-. split; [exact W|reflexivity]. }
  destruct (Storage.refind s ns dt k found) as [s1 [fp it]] eqn:R.
  pose proof (refind_pm _ _ _ _ _ _ _ R) as P1.
  pose proof (wfS_pm _ _ P1 W) as W1.
  destruct (Page.eraseItem _ _ _ _ _ _) as [err p'].
  destruct (negb (esp_err_eqb err ESP_OK)); intros H; injection H as _ <-;
    (split; [apply (wfS_setPage s1 fp p' err W1)|]);
    unfold Storage.pageList; cbn; now rewrite P1.
Qed.

Lemma blobStored_same s s' ns k d start :
  (forall g, rejects g BLOB -> visible s' g = visible s g) ->
  blobStored s ns k d start -> blobStored s' ns k d start.
Proof.
  intros E (S & Sz & chunks & Cc & Len & V & F & Fo & I1 & I0).
  assert (Rc : forall st c, rejects (chunkFilter ns (Some k) st c) BLOB).
  { intros st c it T. destruct (chunkFilter ns (Some k) st c it) eqn:C;
      [|reflexivity].
    apply chunkFilter_type in C. congruence. }
  assert (Ri : rejects (keyFilter ns BLOB_IDX k) BLOB).
  { intros it T. destruct (keyFilter ns BLOB_IDX k it) eqn:C; [|reflexivity].
    apply keyFilter_type in C; [congruence|discriminate]. }
  split; [exact S|]. split; [exact Sz|]. exists chunks.
  split; [exact Cc|]. split; [exact Len|].
  split; [|split; [|split; [|split]]].
  - intros i Li. destruct (V i Li) as [V1 V2]. split.
    + rewrite E; [exact V1|apply Rc].
    + rewrite E; [exact V2|]. intros it T. unfold chunkStale.
      now rewrite (Rc _ _ it T).
  - intros i Ri'. rewrite E; [now apply F|apply Rc].
  - intros i Ri'. rewrite E; [now apply Fo|apply Rc].
  - rewrite E; [exact I1|exact Ri].
  - rewrite E; [exact I0|]. intros it T. unfold staleFilter.
    now rewrite (Ri it T).
Qed.

(** From what the write loop leaves to a stored blob. *)
Lemma versionWritten_stored s0 s ns k d start :
  start = VER_0_OFFSET \/ start = VER_1_OFFSET ->
  Z.of_nat (List.length d) < 2 ^ 32 ->
  versionWritten s0 s ns k d start ->
  rangeFree s0 ns (Some k) (otherVersion start) 0 ->
  visible s0 (idxOther ns k start) = O ->
  blobStored s ns k d start.
Proof.
  intros S Sz (chunks & Cc & Len & V & F & I1 & I0 & Fr) Fo Io.
  destruct (otherVersion_cases _ S) as (B & _).
  apply (blobStored_intro s ns k d start chunks); try assumption.
  - intros i Ri. rewrite Fr; [now apply Fo|].
    apply foreign_chunk_other; [exact S|lia].
  - rewrite Fr; [exact Io|]. now apply foreign_idxOther.
Qed.

(** *** The scenarios *)

Lemma withNamespace_blobAbsent : blobAbsent withNamespace 1 "img".
Proof.
  assert (Z : visible withNamespace
                (fun it => ItemType_eqb (datatype it) BLOB_DATA) = O)
    by (vm_compute; reflexivity).
  split; [vm_compute; reflexivity|].
  split; intros i Ri;
    (apply (visible_sub_zero withNamespace
              (fun it => ItemType_eqb (datatype it) BLOB_DATA)); [|exact Z]);
    intros it H; apply chunkFilter_type in H; rewrite H; reflexivity.
Qed.

Lemma withBlob_stored : blobStored withBlob 1 "img" [1; 2; 3] VER_0_OFFSET.
Proof.
  assert (Z : visible withBlob
                (fun it => ItemType_eqb (datatype it) BLOB_DATA
                           && negb (chunkIndex it =? 0)) = O)
    by (vm_compute; reflexivity).
  assert (Sub : forall st i, 0 <= st <= 128 -> (i < 127)%nat ->
                  0 < st + Z.of_nat i ->
                  visible withBlob (chunkFilter 1 (Some "img"%string) st
                                                (Z.of_nat i)) = O).
  { intros st i Bs Li P.
    apply (visible_sub_zero withBlob
             (fun it => ItemType_eqb (datatype it) BLOB_DATA
                        && negb (chunkIndex it =? 0))); [|exact Z].
    intros it H. rewrite (chunkFilter_type _ _ _ _ _ H).
    apply chunkFilter_index in H; [|exact Bs|lia]. rewrite H.
    destruct (Z.eqb_spec (st + Z.of_nat i) 0); [lia|reflexivity]. }
  split; [now left|]. split; [vm_compute; reflexivity|].
  exists [[1; 2; 3]]. split; [reflexivity|]. split; [cbn; lia|].
  split; [|split; [|split; [|split]]].
  - intros i Li. cbn in Li. assert (i = O) by lia. subst i.
    split; vm_compute; reflexivity.
  - intros i Ri. cbn [List.length] in Ri.
    apply Sub; unfold VER_0_OFFSET; lia.
  - change (otherVersion VER_0_OFFSET) with 128. intros i Ri.
    apply Sub; lia.
  - vm_compute. reflexivity.
  - vm_compute. reflexivity.
Qed.

(** Erasing the item that [findItem] has found. *)
Lemma erase_found s ns dt k ci cs fp it :
  wfS s -> findIn s ns dt k ci cs = Some (fp, it) ->
  exists p',
    Page.eraseItem (Storage.page s fp) ns dt k ci cs = (ESP_OK, p')
    /\ forall e,
        wfS (Storage.setLastError (Storage.setPage s fp p') e)
        /\ forall g,
            (visible (Storage.setLastError (Storage.setPage s fp p') e) g
             + (if g it then 1 else 0) = visible s g)%nat.
Proof.
  intros W F.
  pose proof (findIn_found_facts _ _ _ _ _ _ _ _ F) as (I & _).
  unfold findIn in F. apply findItemIn_found in F as [_ [i S]].
  destruct (eraseFirst_scan _ _ _ _ _ S) as (es' & E & N).
  unfold Page.eraseItem, Storage.page. rewrite E.
  eexists. split; [reflexivity|]. intros e.
  split; [apply (wfS_setPage s fp _ e W)|]. intros g.
  pose proof (visible_setPage_in s fp
                (Page.mk (Page.state (PageManager.page (Storage.mPageManager s) fp))
                         (Page.seqNumber (PageManager.page (Storage.mPageManager s) fp))
                         es') e g W I) as Q.
  cbn [Page.entries] in Q. specialize (N g). unfold Storage.page in Q. lia.
Qed.

Lemma eraseFound_found s ns dt k fp it :
  wfS s ->
  findIn s ns dt (Some k) Page.CHUNK_ANY VER_ANY = Some (fp, it) ->
  exists s',
    Storage.eraseFound s ns dt k (Some (fp, it)) = (true, s')
    /\ wfS s' /\ sameTables s s'
    /\ Storage.pageList s' = Storage.pageList s
    /\ forall g, (visible s' g + (if g it then 1 else 0) = visible s g)%nat.
Proof.
  intros W F. unfold Storage.eraseFound, Storage.refind.
  cbn [fst]. rewrite findItem_findIn, F.
  destruct (erase_found s ns dt (Some k) _ _ fp it W F) as (p' & E & X).
  assert (R : (if PageState.eqb (Page.state (Storage.page s fp))
                                PageState.UNINITIALIZED
                  || PageState.eqb (Page.state (Storage.page s fp))
                                   PageState.INVALID
               then (Storage.setLastError s ESP_OK, (fp, it))
               else (s, (fp, it)))
              = (if PageState.eqb (Page.state (Storage.page s fp))
                                  PageState.UNINITIALIZED
                    || PageState.eqb (Page.state (Storage.page s fp))
                                     PageState.INVALID
                 then Storage.setLastError s ESP_OK else s, (fp, it)))
    by (destruct (_ || _); reflexivity).
  rewrite R. clear R.
  set (s1 := if _ || _ then Storage.setLastError s ESP_OK else s).
  assert (P1 : Storage.page s1 fp = Storage.page s fp /\ wfS s1
               /\ sameTables s s1
               /\ Storage.pageList s1 = Storage.pageList s
               /\ (forall e g, visible (Storage.setLastError (Storage.setPage s1 fp p') e) g
                             = visible (Storage.setLastError (Storage.setPage s fp p') e) g)).
  { unfold s1. destruct (_ || _);
      (split; [reflexivity|split; [exact W|split; [repeat split|split;
         [reflexivity|reflexivity]]]]). }
  destruct P1 as (Pg & W1 & T1 & L1 & V1). rewrite Pg, E. cbn [esp_err_eqb negb].
  eexists. split; [reflexivity|].
  destruct (X ESP_OK) as [W2 C2].
  split.
  { unfold s1. destruct (_ || _); exact W2. }
  split.
  { unfold s1. destruct (_ || _); repeat split. }
  split.
  { unfold s1. destruct (_ || _); reflexivity. }
  intros g.
  change (visible (Storage.setLastError
                     (Storage.setLastError (Storage.setPage s1 fp p') ESP_OK)
                     ESP_OK) g)
    with (visible (Storage.setLastError (Storage.setPage s1 fp p') ESP_OK) g).
  rewrite V1. apply C2.
Qed.

(** A successful [writeMultiPageBlob] for a version of which nothing is
    stored. *)
Lemma writeMultiPageBlob_written s ns k d start s' :
  0 <= start <= 128 ->
  wfS s -> Storage.pageList s <> [] ->
  Z.of_nat (List.length d) <= Page.CHUNK_MAX_SIZE ->
  rangeFree s ns (Some k) start 0 ->
  visible s (idxAt ns k start) = O ->
  Storage.writeMultiPageBlob s ns k d start = (true, s') ->
  wfS s' /\ Storage.pageList s' <> [] /\ versionWritten s s' ns k d start.
Proof.
  intros St W NE Sz X0 Xi WM.
  unfold Storage.writeMultiPageBlob in WM.
  destruct (_ <? _); [discriminate|].
  destruct (Storage.writeLoop _ _ _ _ _ _ _ _ _ _)
    as [[[ret s5] used]|] eqn:L; [|discriminate].
  destruct ret; [discriminate|].
  destruct (esp_err_eqb (Storage.mLastError s5) ESP_OK) eqn:E;
    cbn [negb] in WM; [|discriminate].
  injection WM as <-. apply esp_err_eqb_eq in E.
  apply (writeLoop_chunks ns k d start St Sz s
           (Storage.loopFuel s d) s [] [] (List.length d) O s5 used);
    try assumption.
  - reflexivity.
  - reflexivity.
  - congruence.
  - cbn. lia.
  - split; [intros i Li; cbn in Li; lia|]. split; [exact X0|].
    split; [exact Xi|reflexivity].
Qed.

(** X18.  Round trip for a new blob.  On a Storage with well-formed page
    lists where neither an index nor a chunk numbered below 127 is stored
    under [(ns, k)], a successful [writeItem(ns, BLOB, k, d)] for at most
    [CHUNK_MAX_SIZE] bytes leaves the blob stored in version 0 (its chunks
    once each, in order, and one index with the size and the chunk
    count), whatever the number of chunks and of new pages the write
    needed; it erases one item of the older single-item format, if there
    was one; and [readItem(ns, BLOB, k)] then succeeds and returns [d]. *)
Theorem writeBlob_readItem (s : Storage.t) (ns : Z) (k : string)
        (d : list Z) (s' : Storage.t) :
  wfS s -> Storage.pageList s <> [] ->
  Z.of_nat (List.length d) <= Page.CHUNK_MAX_SIZE ->
  blobAbsent s ns k ->
  Storage.writeItem s ns BLOB k d = (true, s') ->
  wfS s'
  /\ blobStored s' ns k d VER_0_OFFSET
  /\ visible s' (keyFilter ns BLOB k)
     = Nat.pred (visible s (keyFilter ns BLOB k))
  /\ exists s2,
      Storage.readItem s' ns BLOB (Some k) (Z.of_nat (List.length d))
      = (true, s2, d)
      /\ Storage.mPageManager s2 = Storage.mPageManager s'
      /\ Storage.mLastError s2 = ESP_OK.
Proof.
  intros W NE Sz (Xi & X0 & X1) WI.
  assert (A' : Storage.notActive s' = false).
  { pose proof (writeItem_tables _ _ _ _ _ _ _ WI) as (_ & _ & St & _).
    unfold Storage.writeItem in WI. destruct (Storage.notActive s) eqn:A;
      [discriminate|].
    unfold Storage.notActive in *. now rewrite St. }
  assert (St : 0 <= VER_0_OFFSET <= 128) by (unfold VER_0_OFFSET; lia).
  assert (BS : wfS s' /\ blobStored s' ns k d VER_0_OFFSET
               /\ visible s' (keyFilter ns BLOB k)
                  = Nat.pred (visible s (keyFilter ns BLOB k))).
  { unfold Storage.writeItem in WI.
    destruct (Storage.notActive s); [discriminate|].
    cbn [ItemType_eqb] in WI. rewrite findItem_findIn in WI.
    assert (F : findIn s ns BLOB_IDX (Some k) Page.CHUNK_ANY VER_ANY = None)
      by (apply findIn_none_visible; exact Xi).
    rewrite F in WI. cbn [negb andb esp_err_eqb Storage.mLastError
                          Storage.setLastError] in WI.
    set (s1 := Storage.setLastError s ESP_ERR_NVS_NOT_FOUND) in *.
    destruct (Storage.writeMultiPageBlob s1 ns k d VER_0_OFFSET)
      as [ok4 s4] eqn:WM.
    destruct ok4; cbn [negb] in WI; [|discriminate].
    assert (B4 : wfS s4 /\ Storage.pageList s4 <> []
                 /\ versionWritten s1 s4 ns k d VER_0_OFFSET).
    { apply (writeMultiPageBlob_written s1 ns k d VER_0_OFFSET s4 St W NE Sz
                                        X0); [|exact WM].
      apply (visible_sub_zero s1 (keyFilter ns BLOB_IDX k)); [|exact Xi].
      intros it. apply keyFilter_idxAt. }
    destruct B4 as (W4 & NE4 & B4).
    assert (Fr4 : forall g, foreign ns k VER_0_OFFSET g ->
                            visible s4 g = visible s g).
    { destruct B4 as (? & _ & _ & _ & _ & _ & _ & Fr). exact Fr. }
    apply (versionWritten_stored s1 s4) in B4.
    2: { now left. }
    2: { unfold Page.CHUNK_MAX_SIZE, Page.ENTRY_SIZE, Page.ENTRY_COUNT in Sz.
         change (2 ^ 32) with 4294967296. cbn in Sz. lia. }
    2: { exact X1. }
    2: { apply (visible_sub_zero s1 (keyFilter ns BLOB_IDX k)); [|exact Xi].
         intros it H. unfold idxOther in H.
         now apply andb_true_iff in H as [H _]. }
    assert (L4 : visible s4 (keyFilter ns BLOB k)
                 = visible s (keyFilter ns BLOB k)).
    { apply Fr4. apply foreign_type; intros it T;
        (destruct (keyFilter ns BLOB k it) eqn:K; [|reflexivity]);
        apply keyFilter_type in K; congruence. }
    rewrite findItem_findIn in WI.
    destruct (findIn s4 ns BLOB (Some k) Page.CHUNK_ANY VER_ANY)
      as [[fp it]|] eqn:F5.
    - cbn [negb andb] in WI.
      destruct (eraseFound_found (Storage.setLastError s4 ESP_OK) ns BLOB k
                                 fp it W4 F5) as (s6 & E6 & W6 & _ & _ & C6).
      rewrite E6 in WI. injection WI as <-.
      pose proof (findIn_found_facts _ _ _ _ _ _ _ _ F5) as (_ & _ & M & _).
      split; [exact W6|]. split.
      + apply (blobStored_same s4); [|exact B4].
        intros g R. specialize (C6 g).
        rewrite (R it) in C6
          by (apply (keyFilter_type ns BLOB k); [discriminate|exact M]).
        change (visible (Storage.setLastError s4 ESP_OK) g)
          with (visible s4 g) in C6. lia.
      + specialize (C6 (keyFilter ns BLOB k)).
        fold (keyFilter ns BLOB k) in M. rewrite M in C6.
        change (visible (Storage.setLastError s4 ESP_OK) (keyFilter ns BLOB k))
          with (visible s4 (keyFilter ns BLOB k)) in C6. lia.
    - cbn [negb andb esp_err_eqb Storage.mLastError Storage.setLastError
                Storage.eraseFound] in WI.
      injection WI as <-. split; [exact W4|]. split.
      + apply (blobStored_same s4); [|exact B4]. reflexivity.
      + apply findIn_none_visible in F5. fold (keyFilter ns BLOB k) in F5.
        change (visible (Storage.setLastError
                           (Storage.setLastError s4 ESP_ERR_NVS_NOT_FOUND)
                           ESP_OK) (keyFilter ns BLOB k))
          with (visible s4 (keyFilter ns BLOB k)).
        lia. }
  destruct BS as (W' & BS & Lg).
  split; [exact W'|]. split; [exact BS|]. split; [exact Lg|].
  destruct (blobStored_read s' ns k d VER_0_OFFSET (Z.of_nat (List.length d))
              A' BS) as (s2 & R & P & _ & E).
  exists s2. split; [exact R|]. split; [exact P|exact E].
Qed.

Lemma writeBlob_readItem_witness :
  let d := repeat 7 4000 in
  let s' := snd (Storage.writeItem withNamespace 1 BLOB "img" d) in
  wfS s'
  /\ blobStored s' 1 "img" d VER_0_OFFSET
  /\ visible s' (keyFilter 1 BLOB "img")
     = Nat.pred (visible withNamespace (keyFilter 1 BLOB "img"))
  /\ exists s2,
      Storage.readItem s' 1 BLOB (Some "img"%string) (Z.of_nat (List.length d))
      = (true, s2, d)
      /\ Storage.mPageManager s2 = Storage.mPageManager s'
      /\ Storage.mLastError s2 = ESP_OK.
Proof.
  apply (writeBlob_readItem withNamespace 1 "img" (repeat 7 4000)).
  - apply wfPM_wf. vm_compute. reflexivity.
  - vm_compute. discriminate.
  - vm_compute. discriminate.
  - exact withNamespace_blobAbsent.
  - vm_compute. reflexivity.
Defined.

(** ** Writing a blob over a stored one *)

Lemma slice_app (d : list Z) off a b :
  Storage.slice d off (a + b)
  = Storage.slice d off a ++ Storage.slice d (off + a) b.
Proof.
  unfold Storage.slice.
  replace (skipn (off + a) d) with (skipn a (skipn off d))
    by (rewrite skipn_skipn; f_equal; lia).
  generalize (skipn off d) as l. clear d off.
  induction a as [|a IH]; intros l; [reflexivity|].
  destruct l as [|x l]; cbn [firstn skipn Nat.add app].
  - now rewrite firstn_nil.
  - now rewrite IH.
Qed.

(** The chunk loop of [cmpMultiPageBlob] accepts only the stored bytes. *)
Lemma cmpChunks_stored chunks :
  forall s ns k d cs cn off s',
    chunksStored (Storage.mPageManager s) ns k cs cn chunks ->
    Storage.cmpChunks (List.length chunks) s ns k d cs cn off = (true, s') ->
    Storage.slice d off (List.length (List.concat chunks))
    = List.concat chunks.
Proof.
  induction chunks as [|c rest IH]; intros s ns k d cs cn off s';
    cbn [chunksStored List.length Storage.cmpChunks List.concat].
  - intros _ _. unfold Storage.slice. reflexivity.
  - intros [(fp & it & F & D) C].
    rewrite findItem_findIn. unfold findIn, Storage.pageList. rewrite F.
    pose proof F as F'. apply findItemIn_found in F' as [_ [i S]].
    unfold Page.cmpItem, Storage.page.
    cbn [Storage.mPageManager Storage.setLastError]. rewrite S, D.
    destruct (Page.bytes_eqb c (Storage.slice d off (List.length c))) eqn:B;
      cbn [esp_err_eqb negb]; [|discriminate].
    apply bytes_eqb_eq in B. intros H.
    apply IH in H; [|exact C].
    rewrite length_app, slice_app, <- B, H. reflexivity.
Qed.

Lemma cmpMultiPageBlob_equal s ns k d0 start d s' :
  blobStored s ns k d0 start ->
  Storage.cmpMultiPageBlob s ns (Some k) d = (true, s') -> d = d0.
Proof.
  intros (S & Sz & chunks' & Cc' & Len' & V' & _ & _ & I1 & I0).
  destruct (otherVersion_cases _ S) as (Bs & _).
  destruct (findIn_value s ns BLOB_IDX (Some k) Page.CHUNK_ANY VER_ANY
              (ItemLayout.blobIndex_bytes (Z.of_nat (List.length d0))
                 (Z.of_nat (List.length chunks')) start))
    as (fp & idx & F & D).
  { fold (keyFilter ns BLOB_IDX k). lia. }
  { exact I0. }
  assert (B1 : 0 <= Z.of_nat (List.length d0) < 2 ^ 32) by lia.
  assert (B2 : 0 <= Z.of_nat (List.length chunks') < 256) by lia.
  assert (B3 : 0 <= start < 256) by lia.
  destruct (blobIndex_bytes_fields _ _ _ B1 B2 B3 idx D) as (Fd & Fc & Fs).
  unfold Storage.cmpMultiPageBlob. rewrite findItem_findIn, F, Fd, Fc, Fs.
  destruct (Z.eqb_spec (Z.of_nat (List.length d)) (Z.of_nat (List.length d0)))
    as [E|]; cbn [negb]; [|discriminate].
  unfold uint8_t. rewrite Z.mod_small by lia. rewrite Nat2Z.id.
  intros H. apply cmpChunks_stored in H.
  2: { exact (chunksVisible_stored s ns (Some k) start chunks' V' [] chunks'
                                   eq_refl). }
  rewrite Cc' in H. unfold Storage.slice in H. cbn [skipn] in H.
  rewrite <- H. symmetry. apply firstn_all2. lia.
Qed.

Lemma chunkFilter_distinct ns k start c c' :
  0 <= start <= 128 -> 0 <= c < 127 -> 0 <= c' < 127 -> c <> c' ->
  disjoint (chunkFilter ns k start c) (chunkFilter ns k start c').
Proof.
  intros S C C' N it H.
  destruct (chunkFilter ns k start c' it) eqn:G; [|reflexivity].
  apply chunkFilter_index in H; [|exact S|exact C].
  apply chunkFilter_index in G; [|exact S|exact C']. lia.
Qed.

(** The loop of [eraseMultiPageBlob] over chunks that are stored at most
    once each. *)
Lemma eraseChunks_version ns k start :
  0 <= start <= 128 ->
  forall n s cn,
    wfS s -> 0 <= cn -> cn + Z.of_nat n <= 127 ->
    (forall c, cn <= c < cn + Z.of_nat n ->
               (visible s (chunkFilter ns k start c) <= 1)%nat) ->
    exists s',
      Storage.eraseChunks n s ns k start cn = (true, s')
      /\ wfS s'
      /\ Storage.mLastError s' = ESP_OK
      /\ (forall c, cn <= c < cn + Z.of_nat n ->
                    visible s' (chunkFilter ns k start c) = O)
      /\ (forall g,
            (forall c, cn <= c < cn + Z.of_nat n ->
                       disjoint (chunkFilter ns k start c) g) ->
            visible s' g = visible s g).
Proof.
  intros S. induction n as [|n IH]; intros s cn W C0 C1 U;
    cbn [Storage.eraseChunks].
  - eexists. split; [reflexivity|]. split; [exact W|]. split; [reflexivity|].
    split; [intros c Hc; lia|]. reflexivity.
  - rewrite findItem_findIn.
    destruct (findIn s ns BLOB_DATA k _ VER_ANY) as [[fp it]|] eqn:F.
    + pose proof (findIn_found_facts _ _ _ _ _ _ _ _ F) as (_ & _ & M & _ & V1).
      fold (chunkFilter ns k start cn) in M, V1.
      destruct (erase_found s ns BLOB_DATA k _ _ fp it W F) as (p' & E & X).
      change (Storage.page (Storage.setLastError s ESP_OK) fp)
        with (Storage.page s fp).
      rewrite E. cbn [esp_err_eqb negb].
      destruct (X ESP_OK) as [W2 C2].
      set (s2 := Storage.setLastError
                   (Storage.setPage (Storage.setLastError s ESP_OK) fp p')
                   ESP_OK).
      change (wfS s2) in W2.
      assert (C2' : forall g, (visible s2 g + (if g it then 1 else 0)
                               = visible s g)%nat) by exact C2.
      destruct (IH s2 (cn + 1) W2 ltac:(lia) ltac:(lia))
        as (s' & R & W' & E' & Z1 & Fr).
      { intros c Hc. specialize (C2' (chunkFilter ns k start c)).
        specialize (U c ltac:(lia)). lia. }
      exists s'. split; [exact R|]. split; [exact W'|]. split; [exact E'|].
      split.
      * intros c Hc. destruct (Z.eq_dec c cn) as [->|Nc]; [|apply Z1; lia].
        rewrite Fr.
        2: { intros c Hc'. apply chunkFilter_distinct; lia. }
        specialize (C2' (chunkFilter ns k start cn)). rewrite M in C2'.
        specialize (U cn ltac:(lia)). lia.
      * intros g Dg. rewrite Fr by (intros c Hc; apply Dg; lia).
        specialize (C2' g). rewrite (Dg cn ltac:(lia) it M) in C2'. lia.
    + cbn [Storage.mLastError Storage.setLastError esp_err_eqb negb].
      destruct (IH (Storage.setLastError s ESP_ERR_NVS_NOT_FOUND) (cn + 1)
                   W ltac:(lia) ltac:(lia))
        as (s' & R & W' & E' & Z1 & Fr).
      { intros c Hc. apply (U c). lia. }
      exists s'. split; [exact R|]. split; [exact W'|]. split; [exact E'|].
      split.
      * intros c Hc. destruct (Z.eq_dec c cn) as [->|Nc]; [|apply Z1; lia].
        rewrite Fr.
        2: { intros c Hc'. apply chunkFilter_distinct; lia. }
        apply findIn_none_visible in F. exact F.
      * intros g Dg. rewrite Fr by (intros c Hc; apply Dg; lia). reflexivity.
Qed.

(** [eraseMultiPageBlob], with the version or with [VER_ANY], on a blob
    whose index [findItem] finds and whose chunks are stored at most once
    each: the index found and the chunks of its range are erased, and
    nothing else. *)
Lemma eraseMultiPageBlob_version s ns k cs start n0 c0 fp idx :
  wfS s -> Storage.notActive s = false ->
  start = VER_0_OFFSET \/ start = VER_1_OFFSET ->
  cs = VER_ANY \/ cs = start ->
  findIn s ns BLOB_IDX (Some k) Page.CHUNK_ANY cs = Some (fp, idx) ->
  data idx = ItemLayout.blobIndex_bytes n0 (Z.of_nat c0) start ->
  (c0 <= 127)%nat ->
  (forall c, 0 <= c < Z.of_nat c0 ->
             (visible s (chunkFilter ns (Some k) start c) <= 1)%nat) ->
  exists s',
    Storage.eraseMultiPageBlob s ns (Some k) cs = (true, s')
    /\ wfS s'
    /\ Storage.mLastError s' = ESP_OK
    /\ (forall c, 0 <= c < Z.of_nat c0 ->
                  visible s' (chunkFilter ns (Some k) start c) = O)
    /\ (forall g,
          (forall c, 0 <= c < Z.of_nat c0 ->
                     disjoint (chunkFilter ns (Some k) start c) g) ->
          (visible s' g + (if g idx then 1 else 0) = visible s g)%nat).
Proof.
  intros W A S Cs F D Len U.
  destruct (otherVersion_cases _ S) as (Bs & _).
  unfold Storage.eraseMultiPageBlob. rewrite A, findItem_findIn, F.
  destruct (erase_found s ns BLOB_IDX (Some k) _ _ fp idx W F) as (p' & E & X).
  change (Storage.page (Storage.setLastError s ESP_OK) fp)
    with (Storage.page s fp).
  rewrite E. cbn [esp_err_eqb negb].
  destruct (X ESP_OK) as [W2 C2].
  set (s2 := Storage.setLastError
               (Storage.setPage (Storage.setLastError s ESP_OK) fp p')
               ESP_OK).
  change (wfS s2) in W2.
  assert (C2' : forall g, (visible s2 g + (if g idx then 1 else 0)
                           = visible s g)%nat) by exact C2.
  assert (Fc : uint8_t (ItemLayout.blobIndex_chunkCount idx) = Z.of_nat c0).
  { unfold ItemLayout.blobIndex_chunkCount. rewrite D.
    unfold ItemLayout.blobIndex_bytes, uint8_t. cbn [nth].
    rewrite Z.mod_mod by lia. apply Z.mod_small. lia. }
  assert (Fs : (if cs =? VER_ANY then ItemLayout.blobIndex_chunkStart idx
                else cs) = start).
  { destruct Cs as [-> | ->].
    - cbn. unfold ItemLayout.blobIndex_chunkStart. rewrite D.
      unfold ItemLayout.blobIndex_bytes, uint8_t. cbn [nth].
      apply Z.mod_small. lia.
    - unfold VER_ANY. destruct (Z.eqb_spec start 255); [lia|reflexivity]. }
  rewrite Fc, Fs, Nat2Z.id.
  destruct (eraseChunks_version ns (Some k) start Bs c0 s2 0 W2 ltac:(lia)
                                ltac:(lia))
    as (s' & R & W' & E' & Z1 & Fr).
  { intros c Hc. specialize (C2' (chunkFilter ns (Some k) start c)).
    specialize (U c ltac:(lia)). lia. }
  exists s'. split; [exact R|]. split; [exact W'|]. split; [exact E'|].
  split; [intros c Hc; apply Z1; lia|].
  intros g Dg. rewrite Fr by (intros c Hc; apply Dg; lia). apply C2'.
Qed.

Lemma disjoint_type f g dt :
  (forall it, f it = true -> datatype it = dt) -> rejects g dt ->
  disjoint f g.
Proof. intros T R it H. apply R. now apply T. Qed.

Lemma disjoint_sub f g g' :
  (forall it, g' it = true -> g it = true) -> disjoint f g -> disjoint f g'.
Proof.
  intros Sub D it H. destruct (g' it) eqn:G; [|reflexivity].
  apply Sub in G. now rewrite (D it H) in G.
Qed.

Lemma chunk_versions_disjoint ns k start c c' :
  start = VER_0_OFFSET \/ start = VER_1_OFFSET ->
  0 <= c < 127 -> 0 <= c' < 127 ->
  disjoint (chunkFilter ns k start c) (chunkFilter ns k (otherVersion start) c').
Proof.
  intros S C C' it H. destruct (otherVersion_cases _ S) as (B & _ & _ & Cs).
  destruct (chunkFilter ns k (otherVersion start) c' it) eqn:G; [|reflexivity].
  apply chunkFilter_index in H; [|exact B|exact C].
  apply chunkFilter_index in G; [|lia|exact C']. lia.
Qed.

Lemma rejects_keyFilter ns dt k dt' :
  dt <> ANY -> dt <> dt' -> rejects (keyFilter ns dt k) dt'.
Proof.
  intros N D it T. destruct (keyFilter ns dt k it) eqn:K; [|reflexivity].
  apply keyFilter_type in K; [congruence|exact N].
Qed.

Lemma rejects_idxAt ns k start dt :
  dt <> BLOB_IDX -> rejects (idxAt ns k start) dt.
Proof.
  intros D it T. destruct (idxAt ns k start it) eqn:K; [|reflexivity].
  apply idxAt_type in K. congruence.
Qed.

Lemma rejects_chunkFilter ns k start c dt :
  dt <> BLOB_DATA -> rejects (chunkFilter ns k start c) dt.
Proof.
  intros D it T. destruct (chunkFilter ns k start c it) eqn:K; [|reflexivity].
  apply chunkFilter_type in K. congruence.
Qed.

Lemma rejects_sub f g dt :
  (forall it, g it = true -> f it = true) -> rejects f dt -> rejects g dt.
Proof.
  intros Sub R it T. destruct (g it) eqn:G; [|reflexivity].
  apply Sub in G. now rewrite (R it T) in G.
Qed.

(** X19.  Writing over a stored blob.  On a Storage with well-formed page
    lists where the blob [d0] is stored under [(ns, k)] in the version
    that starts at [start], and no item of the older single-item format
    is, a successful [writeItem(ns, BLOB, k, d)] for at most
    [CHUNK_MAX_SIZE] bytes leaves [d] stored: in the same version when
    [d] is [d0] (nothing is written), and otherwise in the other version,
    with the index and every chunk of the previous version erased.
    [readItem(ns, BLOB, k)] then succeeds and returns [d]. *)
Theorem writeBlob_overwrite (s : Storage.t) (ns : Z) (k : string)
        (d0 : list Z) (start : VerOffset) (d : list Z) (s' : Storage.t) :
  wfS s ->
  blobStored s ns k d0 start ->
  visible s (keyFilter ns BLOB k) = O ->
  Z.of_nat (List.length d) <= Page.CHUNK_MAX_SIZE ->
  Storage.writeItem s ns BLOB k d = (true, s') ->
  wfS s'
  /\ blobStored s' ns k d
                (if Page.bytes_eqb d d0 then start else otherVersion start)
  /\ visible s' (keyFilter ns BLOB k) = O
  /\ exists s2,
      Storage.readItem s' ns BLOB (Some k) (Z.of_nat (List.length d))
      = (true, s2, d)
      /\ Storage.mPageManager s2 = Storage.mPageManager s'
      /\ Storage.mLastError s2 = ESP_OK.
Proof.
  intros W B Lg Sz WI.
  assert (A' : Storage.notActive s' = false).
  { pose proof (writeItem_tables _ _ _ _ _ _ _ WI) as (_ & _ & St & _).
    unfold Storage.writeItem in WI. destruct (Storage.notActive s) eqn:A;
      [discriminate|].
    unfold Storage.notActive in *. now rewrite St. }
  assert (Sz' : Z.of_nat (List.length d) < 2 ^ 32).
  { unfold Page.CHUNK_MAX_SIZE, Page.ENTRY_SIZE, Page.ENTRY_COUNT in Sz.
    change (2 ^ 32) with 4294967296. cbn in Sz. lia. }
  set (next := otherVersion start).
  assert (BS : wfS s'
               /\ blobStored s' ns k d
                             (if Page.bytes_eqb d d0 then start else next)
               /\ visible s' (keyFilter ns BLOB k) = O).
  { pose proof B as (S & Sz0 & _).
    destruct (otherVersion_cases _ S) as (Bs & So & Oo & Cs).
    destruct (otherVersion_cases _ So) as (Bn & _).
    fold next in So, Oo, Cs, Bn.
    destruct (blobStored_index _ _ _ _ _ B)
      as (chunks0 & Cc0 & Len0 & V0 & F0 & Fo0 & K1 & K0 & I1 & Io & I0).
    set (b0 := ItemLayout.blobIndex_bytes (Z.of_nat (List.length d0))
                 (Z.of_nat (List.length chunks0)) start) in *.
    assert (NE : Storage.pageList s <> [])
      by (apply (visible_nonempty s (keyFilter ns BLOB_IDX k)); lia).
    destruct (findIn_value s ns BLOB_IDX (Some k) Page.CHUNK_ANY VER_ANY b0)
      as (fp & idx & F & D).
    { fold (keyFilter ns BLOB_IDX k). lia. }
    { exact K0. }
    assert (B1 : 0 <= Z.of_nat (List.length d0) < 2 ^ 32) by lia.
    assert (B2 : 0 <= Z.of_nat (List.length chunks0) < 256) by lia.
    assert (B3 : 0 <= start < 256) by lia.
    destruct (blobIndex_bytes_fields _ _ _ B1 B2 B3 idx D) as (Fd & Fc & Fs).
    unfold Storage.writeItem in WI.
    destruct (Storage.notActive s) eqn:A; [discriminate|].
    cbn [ItemType_eqb] in WI. rewrite findItem_findIn, F in WI.
    cbn [negb andb] in WI.
    set (s1 := Storage.setLastError s ESP_OK) in *.
    destruct (Storage.cmpMultiPageBlob s1 ns (Some k) d) as [same s2] eqn:C.
    pose proof (cmpMultiPageBlob_pm _ _ _ _ _ _ C) as P2.
    assert (P2' : Storage.mPageManager s2 = Storage.mPageManager s) by exact P2.
    destruct same.
    - injection WI as <-.
      apply (cmpMultiPageBlob_equal s1 ns k d0 start) in C; [|exact B].
      subst d. rewrite bytes_eqb_refl.
      split; [exact (wfS_pm _ _ P2' W)|]. split.
      + apply (blobStored_same s); [|exact B].
        intros g _. apply (visible_pm s s2 g P2').
      + now rewrite (visible_pm s s2 _ P2').
    - assert (Ne : Page.bytes_eqb d d0 = false).
      { destruct (Page.bytes_eqb d d0) eqn:E; [|reflexivity].
        apply bytes_eqb_eq in E. subst d. exfalso.
        assert (C' : Storage.cmpMultiPageBlob s1 ns (Some k)
                                              (List.concat chunks0)
                     = (true, Storage.setLastError s1 ESP_OK)).
        { apply (cmpMultiPageBlob_same s1 ns (Some k) fp idx chunks0).
          - exact F.
          - rewrite Fc. unfold uint8_t. rewrite Z.mod_small by lia. lia.
          - rewrite Fs.
            exact (chunksVisible_stored s ns (Some k) start chunks0 V0 []
                                        chunks0 eq_refl).
          - now rewrite Fd, Cc0. }
        rewrite Cc0 in C'. congruence. }
      rewrite Ne.
      destruct (Storage.refind s2 ns BLOB k (fp, idx)) as [s3 [fp3 item]]
        eqn:R.
      assert (R' : item = idx
                   /\ Storage.mPageManager s3 = Storage.mPageManager s).
      { unfold Storage.refind in R. cbn [fst] in R.
        destruct (_ || _).
        - rewrite findItem_findIn in R.
          assert (N : findIn s2 ns BLOB (Some k) Page.CHUNK_ANY VER_ANY = None).
          { apply findIn_none_visible. fold (keyFilter ns BLOB k).
            now rewrite (visible_pm s s2 _ P2'). }
          rewrite N in R. injection R as <- _ <-. split; [reflexivity|exact P2'].
        - injection R as <- _ <-. split; [reflexivity|exact P2']. }
      destruct R' as [-> P3]. rewrite Fs in WI.
      change (if start =? VER_1_OFFSET then VER_0_OFFSET else VER_1_OFFSET)
        with next in WI.
      pose proof (wfS_pm _ _ P3 W) as W3.
      assert (V3 : forall g, visible s3 g = visible s g)
        by (intros g; apply (visible_pm s s3 g P3)).
      assert (NE3 : Storage.pageList s3 <> [])
        by (unfold Storage.pageList; rewrite P3; exact NE).
      assert (In0 : visible s (idxAt ns k next) = O).
      { apply (visible_sub_zero s (idxOther ns k start)); [|exact Io].
        intros it H. unfold idxOther.
        rewrite (keyFilter_idxAt _ _ _ _ H). cbn [andb].
        destruct (idxAt ns k start it) eqn:H'; [|reflexivity].
        apply idxAt_start in H; [|exact Bn]. apply idxAt_start in H'; [|exact Bs].
        lia. }
      destruct (Storage.writeMultiPageBlob s3 ns k d next) as [ok4 s4] eqn:WM.
      destruct ok4; cbn [negb] in WI; [|discriminate].
      destruct (writeMultiPageBlob_written s3 ns k d next s4 Bn W3 NE3 Sz)
        as (W4 & NE4 & chunks & Cc & Len & V & Fn & J1 & J0 & Fr4);
        [intros i Ri; rewrite V3; now apply Fo0|now rewrite V3|exact WM|].
      destruct (Storage.notActive s4) eqn:A4.
      { unfold Storage.eraseMultiPageBlob in WI. rewrite A4 in WI.
        discriminate. }
      assert (Fst : forall g, foreign ns k next g -> visible s4 g = visible s g).
      { intros g Fg. rewrite Fr4 by exact Fg. apply V3. }
      assert (FoS : forall c, 0 <= c < 127 ->
                      foreign ns k next (chunkFilter ns (Some k) start c)).
      { intros c Hc. rewrite <- Oo.
        now apply foreign_chunk_other. }
      assert (FoI : foreign ns k next (idxAt ns k start)).
      { rewrite <- Oo. now apply foreign_idxAt_other. }
      destruct (findIn_value s4 ns BLOB_IDX (Some k) Page.CHUNK_ANY start b0)
        as (fp5 & idx5 & F5 & D5).
      { fold (idxAt ns k start). rewrite Fst by exact FoI. lia. }
      { fold (idxAt ns k start). fold (idxStale ns k start b0).
        rewrite Fst; [exact I0|].
        apply (foreign_sub ns k next (idxAt ns k start)); [|exact FoI].
        intros it H. unfold idxStale in H.
        now apply andb_true_iff in H as [H _]. }
      pose proof (findIn_found_facts _ _ _ _ _ _ _ _ F5) as (_ & _ & M5 & _).
      fold (idxAt ns k start) in M5.
      pose proof (idxAt_type _ _ _ _ M5) as T5.
      destruct (eraseMultiPageBlob_version s4 ns k start start
                  (Z.of_nat (List.length d0)) (List.length chunks0) fp5 idx5
                  W4 A4 S (or_intror eq_refl) F5 D5 ltac:(lia))
        as (s5 & E5 & W5 & L5 & Z5 & C5).
      { intros c Hc. rewrite Fst by (apply FoS; lia).
        destruct (V0 (Z.to_nat c) ltac:(lia)) as [V1 _].
        rewrite Z2Nat.id in V1 by lia. lia. }
      rewrite E5 in WI. cbn [negb Storage.eraseFound] in WI.
      injection WI as <-.
      assert (Keep : forall g,
                 (forall c, 0 <= c < 127 ->
                            disjoint (chunkFilter ns (Some k) start c) g) ->
                 foreign ns k next g ->
                 (visible (Storage.setLastError s5 ESP_OK) g
                  + (if g idx5 then 1 else 0) = visible s g)%nat).
      { intros g Dg Fg. rewrite <- (Fst g Fg).
        apply C5. intros c Hc. apply Dg. lia. }
      assert (DI : forall g, rejects g BLOB_DATA ->
                   forall c, 0 <= c < 127 ->
                             disjoint (chunkFilter ns (Some k) start c) g).
      { intros g Rg c _.
        apply (disjoint_type _ g BLOB_DATA); [|exact Rg].
        intros it. apply chunkFilter_type. }
      split; [exact W5|]. split.
      + apply (blobStored_intro _ ns k d next chunks); try assumption.
        * intros i Li. destruct (V i Li) as [V1 V2].
          assert (Q : forall g,
                     (forall it, g it = true ->
                                 chunkFilter ns (Some k) next (Z.of_nat i) it
                                 = true) ->
                     visible (Storage.setLastError s5 ESP_OK) g
                     = visible s4 g).
          { intros g Sub.
            assert (Dg : forall c, 0 <= c < Z.of_nat (List.length chunks0) ->
                           disjoint (chunkFilter ns (Some k) start c) g).
            { intros c Hc.
              apply (disjoint_sub _ (chunkFilter ns (Some k) next (Z.of_nat i)));
                [exact Sub|].
              apply chunk_versions_disjoint; [exact S|lia|lia]. }
            pose proof (C5 g Dg) as Q.
            destruct (g idx5) eqn:G.
            - apply Sub, chunkFilter_type in G. congruence.
            - change (visible (Storage.setLastError s5 ESP_OK) g)
                with (visible s5 g). lia. }
          split.
          -- rewrite Q; [exact V1|auto].
          -- rewrite Q; [exact V2|]. intros it H. unfold chunkStale in H.
             now apply andb_true_iff in H as [H _].
        * intros i Ri.
          assert (Dg : forall c, 0 <= c < Z.of_nat (List.length chunks0) ->
                         disjoint (chunkFilter ns (Some k) start c)
                                  (chunkFilter ns (Some k) next (Z.of_nat i))).
          { intros c Hc. apply chunk_versions_disjoint; [exact S|lia|lia]. }
          pose proof (C5 _ Dg) as Q.
          destruct (chunkFilter ns (Some k) next (Z.of_nat i) idx5) eqn:G.
          { apply chunkFilter_type in G. congruence. }
          change (visible (Storage.setLastError s5 ESP_OK)
                          (chunkFilter ns (Some k) next (Z.of_nat i)))
            with (visible s5 (chunkFilter ns (Some k) next (Z.of_nat i))).
          rewrite (Fn i Ri) in Q. lia.
        * fold next. rewrite Oo. intros i Ri.
          change (visible (Storage.setLastError s5 ESP_OK)
                          (chunkFilter ns (Some k) start (Z.of_nat i)))
            with (visible s5 (chunkFilter ns (Some k) start (Z.of_nat i))).
          destruct (Nat.lt_ge_cases i (List.length chunks0)) as [Lt|Ge].
          { apply Z5. lia. }
          assert (Dg : forall c, 0 <= c < Z.of_nat (List.length chunks0) ->
                         disjoint (chunkFilter ns (Some k) start c)
                                  (chunkFilter ns (Some k) start (Z.of_nat i))).
          { intros c Hc. apply chunkFilter_distinct; lia. }
          pose proof (C5 _ Dg) as Q.
          rewrite Fst in Q by (apply FoS; lia).
          rewrite (F0 i) in Q by lia. lia.
        * assert (G : idxAt ns k next idx5 = false).
          { destruct (idxAt ns k next idx5) eqn:G; [|reflexivity].
            apply idxAt_start in G; [|exact Bn].
            apply idxAt_start in M5; [|exact Bs]. lia. }
          pose proof (C5 (idxAt ns k next)
                         (fun c Hc => DI _ (rejects_idxAt ns k next BLOB_DATA
                                              ltac:(discriminate)) c
                                         ltac:(lia))) as Q5.
          rewrite G in Q5.
          change (visible (Storage.setLastError s5 ESP_OK) (idxAt ns k next))
            with (visible s5 (idxAt ns k next)). lia.
        * set (b := ItemLayout.blobIndex_bytes _ _ next) in *.
          assert (Rg : rejects (idxStale ns k next b) BLOB_DATA).
          { apply (rejects_sub (idxAt ns k next)).
            - intros it H. unfold idxStale in H.
              now apply andb_true_iff in H as [H _].
            - apply rejects_idxAt. discriminate. }
          pose proof (C5 (idxStale ns k next b)
                         (fun c Hc => DI _ Rg c ltac:(lia))) as Q5.
          change (visible (Storage.setLastError s5 ESP_OK)
                          (idxStale ns k next b))
            with (visible s5 (idxStale ns k next b)). lia.
        * assert (Rg : rejects (idxOther ns k next) BLOB_DATA).
          { apply (rejects_sub (keyFilter ns BLOB_IDX k)).
            - intros it H. unfold idxOther in H.
              now apply andb_true_iff in H as [H _].
            - apply rejects_keyFilter; discriminate. }
          pose proof (Keep (idxOther ns k next) (DI _ Rg)
                           (foreign_idxOther ns k next Bn)) as Q.
          assert (G : idxOther ns k next idx5 = true).
          { unfold idxOther. rewrite (keyFilter_idxAt _ _ _ _ M5). cbn [andb].
            destruct (idxAt ns k next idx5) eqn:G; [|reflexivity].
            apply idxAt_start in G; [|exact Bn].
            apply idxAt_start in M5; [|exact Bs]. lia. }
          rewrite G in Q.
          assert (One : visible s (idxOther ns k next) = 1%nat).
          { pose proof (visible_split s (keyFilter ns BLOB_IDX k)
                                      (idxAt ns k next)) as P.
            assert (Z0 : visible s (fun it => keyFilter ns BLOB_IDX k it
                                              && idxAt ns k next it) = O).
            { apply (visible_sub_zero s (idxAt ns k next)); [|exact In0].
              intros it H. now apply andb_true_iff in H as [_ H]. }
            rewrite Z0, K1 in P. symmetry. exact P. }
          lia.
      + assert (Rg : rejects (keyFilter ns BLOB k) BLOB_DATA)
          by (apply rejects_keyFilter; discriminate).
        assert (Ri : rejects (keyFilter ns BLOB k) BLOB_IDX)
          by (apply rejects_keyFilter; discriminate).
        pose proof (Keep (keyFilter ns BLOB k) (DI _ Rg)
                         (foreign_type ns k next _ Rg Ri)) as Q.
        rewrite (Ri idx5 T5) in Q. lia. }
  destruct BS as (W' & BS & Lg').
  split; [exact W'|]. split; [exact BS|]. split; [exact Lg'|].
  destruct (blobStored_read s' ns k d _ (Z.of_nat (List.length d)) A' BS)
    as (s2 & R & P & _ & E).
  exists s2. split; [exact R|]. split; [exact P|exact E].
Qed.

Lemma writeBlob_overwrite_witness :
  let d := [4; 5; 6; 7] in
  let s' := snd (Storage.writeItem withBlob 1 BLOB "img" d) in
  wfS s'
  /\ blobStored s' 1 "img" d VER_1_OFFSET
  /\ visible s' (keyFilter 1 BLOB "img") = O
  /\ exists s2,
      Storage.readItem s' 1 BLOB (Some "img"%string) 4 = (true, s2, d)
      /\ Storage.mPageManager s2 = Storage.mPageManager s'
      /\ Storage.mLastError s2 = ESP_OK.
Proof.
  apply (writeBlob_overwrite withBlob 1 "img" [1; 2; 3] VER_0_OFFSET
                             [4; 5; 6; 7]).
  - apply wfPM_wf. vm_compute. reflexivity.
  - exact withBlob_stored.
  - vm_compute. reflexivity.
  - vm_compute. discriminate.
  - vm_compute. reflexivity.
Defined.

(** X20.  Erasing a stored blob.  On an ACTIVE Storage with well-formed
    page lists where a blob is stored under [(ns, k)],
    [eraseItem(ns, BLOB, k)] succeeds and erases the index and every
    chunk: afterwards neither an index nor a chunk numbered below 127 of
    either version is stored under the key.  The items that are neither
    index nor chunk, and the items of every type that are not stored
    under [(ns, k)], are counted as before.  Unless an item of the older
    single-item format is stored, [readItem(ns, BLOB, k)] then fails with
    NOT_FOUND. *)
Theorem eraseItem_blob (s : Storage.t) (ns : Z) (k : string) (d : list Z)
        (start : VerOffset) :
  Storage.mState s = State.ACTIVE -> wfS s ->
  blobStored s ns k d start ->
  exists s',
    Storage.eraseItem s ns BLOB (Some k) = (true, s')
    /\ wfS s'
    /\ blobAbsent s' ns k
    /\ (forall g, rejects g BLOB_IDX -> rejects g BLOB_DATA ->
                  visible s' g = visible s g)
    /\ (forall g, apart ns k g -> visible s' g = visible s g)
    /\ (visible s (keyFilter ns BLOB k) = O ->
        forall n,
          fst (fst (Storage.readItem s' ns BLOB (Some k) n)) = false
          /\ Storage.mLastError (snd (fst (Storage.readItem s' ns BLOB (Some k) n)))
             = ESP_ERR_NVS_NOT_FOUND).
Proof.
  intros A W B. pose proof B as (S & Sz & _).
  destruct (otherVersion_cases _ S) as (Bs & So & Oo & Cs).
  destruct (blobStored_index _ _ _ _ _ B)
    as (chunks & Cc & Len & V & F & Fo & K1 & K0 & I1 & Io & I0).
  set (b := ItemLayout.blobIndex_bytes (Z.of_nat (List.length d))
              (Z.of_nat (List.length chunks)) start) in *.
  destruct (findIn_value s ns BLOB_IDX (Some k) Page.CHUNK_ANY VER_ANY b)
    as (fp & idx & Fi & D).
  { fold (keyFilter ns BLOB_IDX k). lia. }
  { exact K0. }
  pose proof (findIn_found_facts _ _ _ _ _ _ _ _ Fi) as (_ & _ & M & _).
  fold (keyFilter ns BLOB_IDX k) in M.
  assert (T : datatype idx = BLOB_IDX)
    by (apply (keyFilter_type ns BLOB_IDX k); [discriminate|exact M]).
  destruct (eraseMultiPageBlob_version s ns k VER_ANY start
              (Z.of_nat (List.length d)) (List.length chunks) fp idx
              W (notActive_false s A) S (or_introl eq_refl) Fi D ltac:(lia))
    as (s' & E & W' & L' & Z' & C').
  { intros c Hc. destruct (V (Z.to_nat c) ltac:(lia)) as [V1 _].
    rewrite Z2Nat.id in V1 by lia. lia. }
  assert (DI : forall g, rejects g BLOB_DATA ->
               forall c, 0 <= c < Z.of_nat (List.length chunks) ->
                         disjoint (chunkFilter ns (Some k) start c) g).
  { intros g Rg c _.
    apply (disjoint_type _ g BLOB_DATA); [|exact Rg].
    intros it. apply chunkFilter_type. }
  assert (A' : Storage.notActive s' = false).
  { apply eraseMultiPageBlob_tables in E. destruct E as (_ & _ & St & _).
    unfold Storage.notActive. now rewrite St, A. }
  assert (X0 : visible s' (keyFilter ns BLOB_IDX k) = O).
  { pose proof (C' (keyFilter ns BLOB_IDX k)
                   (DI _ (rejects_keyFilter ns BLOB_IDX k BLOB_DATA
                            ltac:(discriminate) ltac:(discriminate)))) as Q.
    rewrite M in Q. lia. }
  assert (R1 : rangeFree s' ns (Some k) start 0).
  { intros i Ri.
    destruct (Nat.lt_ge_cases i (List.length chunks)) as [Lt|Ge].
    { apply Z'. lia. }
    assert (Dg : forall c, 0 <= c < Z.of_nat (List.length chunks) ->
                   disjoint (chunkFilter ns (Some k) start c)
                            (chunkFilter ns (Some k) start (Z.of_nat i))).
    { intros c Hc. apply chunkFilter_distinct; lia. }
    pose proof (C' _ Dg) as Q.
    rewrite (rejects_chunkFilter ns (Some k) start (Z.of_nat i) BLOB_IDX
               ltac:(discriminate) idx T) in Q.
    rewrite (F i) in Q by lia. lia. }
  assert (R2 : rangeFree s' ns (Some k) (otherVersion start) 0).
  { intros i Ri.
    assert (Dg : forall c, 0 <= c < Z.of_nat (List.length chunks) ->
                   disjoint (chunkFilter ns (Some k) start c)
                            (chunkFilter ns (Some k) (otherVersion start)
                                         (Z.of_nat i))).
    { intros c Hc. apply chunk_versions_disjoint; [exact S|lia|lia]. }
    pose proof (C' _ Dg) as Q.
    rewrite (rejects_chunkFilter ns (Some k) (otherVersion start) (Z.of_nat i)
               BLOB_IDX ltac:(discriminate) idx T) in Q.
    rewrite (Fo i) in Q by lia. lia. }
  exists s'. unfold Storage.eraseItem.
  rewrite (notActive_false s A). cbn [ItemType_eqb].
  split; [exact E|]. split; [exact W'|]. split; [|split; [|split]].
  - split; [exact X0|].
    destruct Cs as [[E0 E1]|[E0 E1]]; rewrite E0 in R1; rewrite E1 in R2.
    + split; [exact R1|exact R2].
    + split; [exact R2|exact R1].
  - intros g Ri Rd. pose proof (C' g (DI g Rd)) as Q.
    rewrite (Ri idx T) in Q. lia.
  - intros g Ap.
    assert (Dg : forall c, 0 <= c < Z.of_nat (List.length chunks) ->
                   disjoint (chunkFilter ns (Some k) start c) g).
    { intros c _ it H. apply Ap. unfold chunkFilter in H.
      exact (matches_any _ _ _ _ _ _ H). }
    pose proof (C' g Dg) as Q.
    rewrite (Ap idx (matches_any ns BLOB_IDX (Some k) Page.CHUNK_ANY VER_ANY
                                 idx M)) in Q.
    lia.
  - intros Lg n.
    assert (N1 : findIn s' ns BLOB_IDX (Some k) Page.CHUNK_ANY VER_ANY = None)
      by (apply findIn_none_visible; exact X0).
    assert (N2 : findIn s' ns BLOB (Some k) Page.CHUNK_ANY VER_ANY = None).
    { apply findIn_none_visible. fold (keyFilter ns BLOB k).
      pose proof (C' (keyFilter ns BLOB k)
                     (DI _ (rejects_keyFilter ns BLOB k BLOB_DATA
                              ltac:(discriminate) ltac:(discriminate)))) as Q.
      lia. }
    unfold Storage.readItem. rewrite A'. cbn [ItemType_eqb].
    unfold Storage.readMultiPageBlob. rewrite findItem_findIn, N1.
    cbn [Storage.mLastError Storage.setLastError esp_err_eqb negb].
    unfold Storage.readFound. rewrite findItem_findIn.
    change (findIn (Storage.setLastError s' ESP_ERR_NVS_NOT_FOUND) ns BLOB
                   (Some k) Page.CHUNK_ANY VER_ANY)
      with (findIn s' ns BLOB (Some k) Page.CHUNK_ANY VER_ANY).
    rewrite N2. split; reflexivity.
Qed.

Lemma eraseItem_blob_witness :
  exists s',
    Storage.eraseItem withBlob 1 BLOB (Some "img"%string) = (true, s')
    /\ wfS s' /\ blobAbsent s' 1 "img".
Proof.
  destruct (eraseItem_blob withBlob 1 "img" [1; 2; 3] VER_0_OFFSET)
    as (s' & E & W & B & _).
  - reflexivity.
  - apply wfPM_wf. vm_compute. reflexivity.
  - exact withBlob_stored.
  - exists s'. split; [exact E|]. split; [exact W|exact B].
Defined.

(** X21.  The size of a stored blob.  On an ACTIVE Storage where a blob
    [d] is stored under [(ns, k)] and no item of the older single-item
    format is, [getItemDataSize(ns, BLOB, k)] finds no BLOB item, falls
    back to the index and returns the number of bytes of [d], changing
    nothing but the last error. *)
Theorem getItemDataSize_blob (s : Storage.t) (ns : Z) (k : string)
        (d : list Z) (start : VerOffset) (n0 : Z) :
  Storage.mState s = State.ACTIVE ->
  blobStored s ns k d start ->
  visible s (keyFilter ns BLOB k) = O ->
  Storage.getItemDataSize s ns BLOB (Some k) n0
  = (true, Storage.setLastError s ESP_OK, Z.of_nat (List.length d)).
Proof.
  intros A B Lg. pose proof B as (S & Sz & _).
  destruct (otherVersion_cases _ S) as (Bs & _).
  destruct (blobStored_index _ _ _ _ _ B)
    as (chunks & Cc & Len & V & F & Fo & K1 & K0 & _).
  set (b := ItemLayout.blobIndex_bytes (Z.of_nat (List.length d))
              (Z.of_nat (List.length chunks)) start) in *.
  destruct (findIn_value s ns BLOB_IDX (Some k) Page.CHUNK_ANY VER_ANY b)
    as (fp & idx & Fi & D).
  { fold (keyFilter ns BLOB_IDX k). lia. }
  { exact K0. }
  assert (B1 : 0 <= Z.of_nat (List.length d) < 2 ^ 32) by lia.
  assert (B2 : 0 <= Z.of_nat (List.length chunks) < 256) by lia.
  assert (B3 : 0 <= start < 256) by lia.
  destruct (blobIndex_bytes_fields _ _ _ B1 B2 B3 idx D) as (Fd & _).
  assert (N : findIn s ns BLOB (Some k) Page.CHUNK_ANY VER_ANY = None)
    by (apply findIn_none_visible; exact Lg).
  unfold Storage.getItemDataSize.
  rewrite (notActive_false s A), findItem_findIn, N. cbn [ItemType_eqb negb].
  rewrite findItem_findIn.
  change (findIn (Storage.setLastError s ESP_ERR_NVS_NOT_FOUND) ns BLOB_IDX
                 (Some k) Page.CHUNK_ANY VER_ANY)
    with (findIn s ns BLOB_IDX (Some k) Page.CHUNK_ANY VER_ANY).
  rewrite Fi, Fd. reflexivity.
Qed.

Lemma getItemDataSize_blob_witness :
  Storage.getItemDataSize withBlob 1 BLOB (Some "img"%string) 0
  = (true, Storage.setLastError withBlob ESP_OK, 3).
Proof.
  apply (getItemDataSize_blob withBlob 1 "img" [1; 2; 3] VER_0_OFFSET 0).
  - reflexivity.
  - exact withBlob_stored.
  - vm_compute. reflexivity.
Defined.

(** The chunk loop of [readMultiPageBlob] stops at the first chunk that
    [findItem] does not find. *)
Lemma readChunks_missing ns k cs :
  forall n s cn out c0,
    cn <= c0 < cn + Z.of_nat n ->
    findIn s ns BLOB_DATA k (uint8_t (uint8_t cs + c0)) VER_ANY = None ->
    exists s2 out2,
      Storage.readChunks n s ns k cs cn out = (false, s2, out2)
      /\ Storage.mPageManager s2 = Storage.mPageManager s
      /\ sameTables s s2
      /\ Storage.mLastError s2 = ESP_ERR_NVS_NOT_FOUND.
Proof.
  induction n as [|n IH]; intros s cn out c0 R N; [lia|].
  cbn [Storage.readChunks]. rewrite findItem_findIn.
  destruct (findIn s ns BLOB_DATA k (uint8_t (uint8_t cs + cn)) VER_ANY)
    as [[fp it]|] eqn:F.
  - assert (Ne : c0 <> cn) by (intros ->; congruence).
    unfold findIn in F. unfold Storage.page.
    cbn [Storage.mPageManager Storage.setLastError].
    rewrite (page_readItem_found _ _ _ _ _ _ _ F). cbn [esp_err_eqb negb].
    destruct (IH (Storage.setLastError (Storage.setLastError s ESP_OK) ESP_OK)
                 (cn + 1) (out ++ data it) c0 ltac:(lia) N)
      as (s2 & out2 & R2 & P2 & T2 & E2).
    exists s2, out2. split; [exact R2|]. split; [exact P2|].
    split; [|exact E2]. destruct T2 as (T1 & T2 & T3 & T4).
    repeat split; assumption.
  - cbn [Storage.mLastError Storage.setLastError esp_err_eqb].
    eexists _, _. split; [reflexivity|]. split; [reflexivity|].
    split; [repeat split|reflexivity].
Qed.

(** X22.  Reading a damaged blob cleans it up.  On an ACTIVE Storage with
    well-formed page lists, let [findItem] return for [(ns, k)] an index
    of [c] chunks ([c <= 127]) of the version that starts at [start], of
    which one chunk is not stored and none is stored twice, and let no
    item of the older single-item format be stored.  Then
    [readItem(ns, BLOB, k)] fails with NOT_FOUND, and it writes: it
    erases that index and every chunk of its range; a filter that accepts
    no chunk of the range counts one match less if it accepts the index
    and as many as before otherwise. *)
Theorem readItem_damaged_blob (s : Storage.t) (ns : Z) (k : string)
        (fp : nat) (idx : Item) (n0 : Z) (c : nat) (start : VerOffset)
        (c0 : Z) (n : Z) :
  Storage.mState s = State.ACTIVE -> wfS s ->
  start = VER_0_OFFSET \/ start = VER_1_OFFSET ->
  findIn s ns BLOB_IDX (Some k) Page.CHUNK_ANY VER_ANY = Some (fp, idx) ->
  data idx = ItemLayout.blobIndex_bytes n0 (Z.of_nat c) start ->
  (c <= 127)%nat ->
  (forall i, 0 <= i < Z.of_nat c ->
             (visible s (chunkFilter ns (Some k) start i) <= 1)%nat) ->
  0 <= c0 < Z.of_nat c ->
  visible s (chunkFilter ns (Some k) start c0) = O ->
  visible s (keyFilter ns BLOB k) = O ->
  let r := Storage.readItem s ns BLOB (Some k) n in
  let s' := snd (fst r) in
  fst (fst r) = false
  /\ Storage.mLastError s' = ESP_ERR_NVS_NOT_FOUND
  /\ wfS s'
  /\ (forall i, 0 <= i < Z.of_nat c ->
                visible s' (chunkFilter ns (Some k) start i) = O)
  /\ (forall g,
        (forall i, 0 <= i < Z.of_nat c ->
                   disjoint (chunkFilter ns (Some k) start i) g) ->
        (visible s' g + (if g idx then 1 else 0) = visible s g)%nat).
Proof.
  intros A W S Fi D Len U C0 Miss Lg r s'.
  destruct (otherVersion_cases _ S) as (Bs & _).
  assert (Fc : uint8_t (ItemLayout.blobIndex_chunkCount idx) = Z.of_nat c).
  { unfold ItemLayout.blobIndex_chunkCount. rewrite D.
    unfold ItemLayout.blobIndex_bytes, uint8_t. cbn [nth].
    rewrite Z.mod_mod by lia. apply Z.mod_small. lia. }
  assert (Fs : ItemLayout.blobIndex_chunkStart idx = start).
  { unfold ItemLayout.blobIndex_chunkStart. rewrite D.
    unfold ItemLayout.blobIndex_bytes, uint8_t. cbn [nth].
    apply Z.mod_small. lia. }
  destruct (readChunks_missing ns (Some k) start (Z.to_nat (Z.of_nat c))
              (Storage.setLastError s ESP_OK) 0 [] c0)
    as (s2 & out2 & R2 & P2 & T2 & E2).
  { lia. }
  { apply findIn_none_visible. exact Miss. }
  assert (P2' : Storage.mPageManager s2 = Storage.mPageManager s) by exact P2.
  assert (A2 : Storage.notActive s2 = false).
  { destruct T2 as (_ & _ & St & _). unfold Storage.notActive.
    rewrite St. exact (notActive_false s A). }
  destruct (eraseMultiPageBlob_version s2 ns k VER_ANY start n0 c fp idx
              (wfS_pm _ _ P2' W) A2 S (or_introl eq_refl))
    as (s3 & E3 & W3 & L3 & Z3 & C3).
  { unfold findIn, Storage.pageList. rewrite P2'. exact Fi. }
  { exact D. }
  { exact Len. }
  { intros i Hi. rewrite (visible_pm s s2 _ P2'). now apply U. }
  assert (DI : forall g, rejects g BLOB_DATA ->
               forall i, 0 <= i < Z.of_nat c ->
                         disjoint (chunkFilter ns (Some k) start i) g).
  { intros g Rg i _.
    apply (disjoint_type _ g BLOB_DATA); [|exact Rg].
    intros it. apply chunkFilter_type. }
  assert (N3 : findIn s3 ns BLOB (Some k) Page.CHUNK_ANY VER_ANY = None).
  { apply findIn_none_visible. fold (keyFilter ns BLOB k).
    pose proof (C3 (keyFilter ns BLOB k)
                   (DI _ (rejects_keyFilter ns BLOB k BLOB_DATA
                            ltac:(discriminate) ltac:(discriminate)))) as Q.
    rewrite (visible_pm s s2 _ P2') in Q. lia. }
  assert (Rd : r = (false, Storage.setLastError s3 ESP_ERR_NVS_NOT_FOUND,
                    out2)).
  { unfold r, Storage.readItem. rewrite (notActive_false s A).
    cbn [ItemType_eqb]. unfold Storage.readMultiPageBlob.
    rewrite findItem_findIn, Fi, Fc, Fs, R2, E2. cbn [esp_err_eqb].
    rewrite E3. cbn [snd Storage.mLastError Storage.setLastError esp_err_eqb
                         negb].
    unfold Storage.readFound. rewrite findItem_findIn.
    change (findIn (Storage.setLastError s3 ESP_ERR_NVS_NOT_FOUND) ns BLOB
                   (Some k) Page.CHUNK_ANY VER_ANY)
      with (findIn s3 ns BLOB (Some k) Page.CHUNK_ANY VER_ANY).
    rewrite N3. reflexivity. }
  unfold s'. rewrite Rd. cbn [fst snd].
  split; [reflexivity|]. split; [reflexivity|]. split; [exact W3|].
  split; [exact Z3|].
  intros g Dg. rewrite <- (visible_pm s s2 g P2'). apply (C3 g Dg).
Qed.

Lemma readItem_damaged_blob_witness :
  let r := Storage.readItem damagedBlob 1 BLOB (Some "img"%string) 4000 in
  fst (fst r) = false
  /\ Storage.mLastError (snd (fst r)) = ESP_ERR_NVS_NOT_FOUND
  /\ visible (snd (fst r)) (chunkFilter 1 (Some "img"%string) VER_0_OFFSET 0)
     = O.
Proof.
  destruct (readItem_damaged_blob damagedBlob 1 "img" 1%nat
              (mkItem 1 BLOB_IDX 1 255 "img" [160; 15; 0; 0; 2; 0; 255; 255])
              4000 2%nat VER_0_OFFSET 1 4000)
    as (R & E & _ & Z & _).
  - reflexivity.
  - apply wfPM_wf. vm_compute. reflexivity.
  - now left.
  - vm_compute. reflexivity.
  - reflexivity.
  - lia.
  - intros i Hi. assert (C : i = 0 \/ i = 1) by lia.
    destruct C as [-> | ->]; vm_compute; lia.
  - lia.
  - vm_compute. reflexivity.
  - vm_compute. reflexivity.
  - split; [exact R|]. split; [exact E|]. apply Z. lia.
Defined.

(** ** PAGE_FULL stays inside: the retry of [writeItem] (C3) *)

Lemma page_state_in_range pm i :
  Page.state (PageManager.page pm i) <> PageState.UNINITIALIZED ->
  (i < List.length (PageManager.mPages pm))%nat.
Proof.
  intros H. destruct (Nat.lt_ge_cases i (List.length (PageManager.mPages pm)))
    as [L|G]; [exact L|].
  exfalso. apply H. unfold PageManager.page. now rewrite nth_overflow.
Qed.

(** A write that ends with PAGE_FULL met an ACTIVE page and left every
    page as it was. *)
Lemma pageWriteItem_full s pg ns dt k d :
  Storage.mLastError (Storage.pageWriteItem s pg ns dt k d)
  = ESP_ERR_NVS_PAGE_FULL ->
  Page.state (Storage.page s pg) = PageState.ACTIVE
  /\ (forall j, Storage.page (Storage.pageWriteItem s pg ns dt k d) j
                = Storage.page s j)
  /\ Storage.pageList (Storage.pageWriteItem s pg ns dt k d)
     = Storage.pageList s
  /\ PageManager.mFreePageList
       (Storage.mPageManager (Storage.pageWriteItem s pg ns dt k d))
     = PageManager.mFreePageList (Storage.mPageManager s).
Proof.
  unfold Storage.pageWriteItem, Page.writeItem.
  destruct (PageState.eqb (Page.state (Storage.page s pg)) PageState.ACTIVE)
    eqn:A; cbn [negb]; [|discriminate].
  destruct (_ <? _)%nat; [|discriminate].
  intros _. split.
  { destruct (Page.state (Storage.page s pg)); try discriminate. reflexivity. }
  split; [|split; reflexivity].
  intros j. unfold Storage.page, Storage.setPage.
  cbn [Storage.mPageManager Storage.setLastError Storage.setPageManager].
  rewrite page_setPage.
  destruct (Nat.eqb_spec pg j) as [->|]; [|reflexivity].
  destruct (_ <? _)%nat; reflexivity.
Qed.

(** [markFull] on an ACTIVE page: the page is FULL afterwards, with the
    entries it had, and nothing else has changed. *)
Lemma markFullIfNeeded_active s pg :
  Page.state (Storage.page s pg) = PageState.ACTIVE ->
  exists s3,
    Storage.markFullIfNeeded s pg = (true, s3)
    /\ Page.state (Storage.page s3 pg) = PageState.FULL
    /\ Page.entries (Storage.page s3 pg) = Page.entries (Storage.page s pg)
    /\ (forall j, j <> pg -> Storage.page s3 j = Storage.page s j)
    /\ Storage.pageList s3 = Storage.pageList s
    /\ PageManager.mFreePageList (Storage.mPageManager s3)
       = PageManager.mFreePageList (Storage.mPageManager s)
    /\ (wfS s -> wfS s3).
Proof.
  intros A.
  assert (R : (pg < List.length (PageManager.mPages (Storage.mPageManager s)))%nat).
  { apply page_state_in_range. unfold Storage.page in A. rewrite A.
    discriminate. }
  unfold Storage.markFullIfNeeded, Page.markFull. rewrite A.
  cbn [PageState.eqb negb esp_err_eqb].
  eexists. split; [reflexivity|].
  unfold Storage.page, Storage.setPage, Storage.pageList.
  cbn [Storage.mPageManager Storage.setLastError Storage.setPageManager].
  rewrite (page_setPage_at _ _ _ R). cbn [Page.state Page.entries].
  split; [reflexivity|]. split; [reflexivity|].
  split; [intros j N; apply page_setPage_other; congruence|].
  split; [reflexivity|]. split; [reflexivity|].
  intros W. now apply wf_setPage.
Qed.

(** The page that a successful [requestNewPage] makes current was a free
    page: it is none of the pages in use before, and it is ACTIVE. *)
Lemma requestNewPage_new_page pm pm' :
  wf pm ->
  PageManager.requestNewPage pm = (ESP_OK, pm') ->
  In (PageManager.back pm') (PageManager.mFreePageList pm)
  /\ ~ In (PageManager.back pm') (PageManager.mPageList pm)
  /\ Page.state (PageManager.page pm' (PageManager.back pm'))
     = PageState.ACTIVE.
Proof.
  intros W. unfold PageManager.requestNewPage.
  destruct (PageManager.mPageList pm) as [|p0 l0] eqn:L; [discriminate|].
  rewrite <- L. clear p0 l0 L.
  match goal with
  | |- context [PageManager.activatePage ?x] => set (pm1 := x)
  end.
  assert (W1 : wf pm1).
  { subst pm1. destruct (PageState.eqb _ _); [now apply wf_setPage|exact W]. }
  assert (L1 : PageManager.mPageList pm1 = PageManager.mPageList pm).
  { subst pm1. destruct (PageState.eqb _ _); reflexivity. }
  assert (F1 : PageManager.mFreePageList pm1 = PageManager.mFreePageList pm).
  { subst pm1. destruct (PageState.eqb _ _); reflexivity. }
  rewrite <- L1, <- F1. clearbody pm1. clear W L1 F1 pm.
  destruct W1 as [ND IR].
  destruct (PageManager.mFreePageList pm1) as [|f rest] eqn:F.
  { unfold PageManager.activatePage. rewrite F. cbn [List.length Nat.leb].
    destruct (PageManager.pickVictim _ _ _); discriminate. }
  set (l := PageManager.mPageList pm1) in *.
  set (ps := PageManager.mPages pm1) in *.
  destruct (NoDup_app_parts _ _ ND) as (Nl & Nf & Dj).
  assert (Fl : ~ In f l).
  { intros I. apply (Dj f I). now left. }
  assert (Fr : (f < List.length ps)%nat).
  { apply IR. apply in_or_app. right. now left. }
  assert (A : PageManager.activatePage pm1
              = (ESP_OK,
                 PageManager.mk (PageManager.setNth ps f
                                   (Page.fresh (PageManager.mSeqNumber pm1)))
                                (l ++ [f]) rest (PageManager.mSeqNumber pm1 + 1))).
  { unfold PageManager.activatePage. now rewrite F. }
  rewrite A. clear A.
  destruct (2 <=? _)%nat.
  - intros H. injection H as <-.
    unfold PageManager.back, PageManager.page.
    cbn [PageManager.mPageList PageManager.mPages]. rewrite last_last.
    split; [now left|]. split; [exact Fl|].
    rewrite nth_setNth, Nat.eqb_refl.
    destruct (Nat.ltb_spec f (List.length ps)); [reflexivity|lia].
  - destruct (PageManager.pickVictim pm1 l None) as [v|] eqn:V; [|discriminate].
    apply pickVictim_spec in V as [[V|V] _]; [discriminate|].
    assert (Nvf : f <> v) by (intros ->; contradiction).
    intros H. injection H as <-.
    unfold PageManager.back, PageManager.setPage, PageManager.page.
    cbn [PageManager.mPageList PageManager.mPages PageManager.mFreePageList
         PageManager.mSeqNumber].
    rewrite !last_last, remove_nat_snoc by assumption. rewrite last_last.
    split; [now left|]. split; [exact Fl|].
    rewrite !nth_setNth.
    destruct (Nat.eqb_spec v f) as [E|_]; [congruence|]. cbn [andb].
    rewrite Nat.eqb_refl, !length_setNth.
    destruct (Nat.ltb_spec f (List.length ps)); [reflexivity|lia].
Qed.

(** C3.  None of the operations of the public API leaves PAGE_FULL in
    [mLastError], whatever the Storage they start from.  In [writeItem] a
    PAGE_FULL of the write into the current page has [markFull] called on
    that page, which is FULL afterwards with its entries as they were;
    then [requestNewPage] is called, whose failure ends the call; after
    its success the current page is a page that was free, not the FULL
    one, and the item is written there once more: a PAGE_FULL of that
    write becomes NOT_ENOUGH_SPACE, with no further write.  A PAGE_FULL
    that [writeMultiPageBlob] ends with becomes NOT_ENOUGH_SPACE too, with
    or without a previous index. *)
Theorem page_full_is_internal (s : Storage.t) :
  (forall ns dt k d, surfaced (snd (Storage.writeItem s ns dt k d)))
  /\ (forall ns dt k n, surfaced (snd (fst (Storage.readItem s ns dt k n))))
  /\ (forall ns dt k, surfaced (snd (Storage.eraseItem s ns dt k)))
  /\ (forall ns, surfaced (snd (Storage.eraseNamespace s ns)))
  /\ (forall ns k cs, surfaced (snd (Storage.eraseMultiPageBlob s ns k cs)))
  /\ (forall name canCreate idx,
        surfaced (snd (fst (Storage.createOrOpenNamespace s name canCreate idx))))
  /\ (forall ns dt k n,
        surfaced (snd (fst (Storage.getItemDataSize s ns dt k n))))
  /\ (forall ns, surfaced (snd (fst (Storage.calcEntriesInNamespace s ns))))
  /\ (forall st, surfaced (snd (fst (Storage.fillStats s st))))
  /\ surfaced (snd (Storage.init s))
  /\ (forall ns dt k d found s1 findPage,
        Storage.mState s = State.ACTIVE ->
        ItemType_eqb dt BLOB = false ->
        Storage.findItem s ns dt (Some k) Page.CHUNK_ANY VER_ANY
        = (found, s1, findPage) ->
        elided s1 findPage ns dt k d = false ->
        let page := Storage.getCurrentPage s in
        let s2 := Storage.pageWriteItem s1 page ns dt k d in
        Storage.mLastError s2 = ESP_ERR_NVS_PAGE_FULL ->
        exists s3,
          Storage.markFullIfNeeded s2 page = (true, s3)
          /\ Page.state (Storage.page s3 page) = PageState.FULL
          /\ Page.entries (Storage.page s3 page)
             = Page.entries (Storage.page s page)
          /\ (forall j, j <> page -> Storage.page s3 j = Storage.page s j)
          /\ Storage.pageList s3 = Storage.pageList s
          /\ let request := Storage.requestNewPage s3 in
             let s4 := snd request in
             let s5 := Storage.pageWriteItem s4 (Storage.getCurrentPage s4)
                                             ns dt k d in
             Storage.mPageManager s4
             = snd (PageManager.requestNewPage (Storage.mPageManager s3))
             /\ Storage.writeItem s ns dt k d
                = (if negb (fst request) then (false, s4)
                   else if esp_err_eqb (Storage.mLastError s5)
                                       ESP_ERR_NVS_PAGE_FULL
                   then (false,
                         Storage.setLastError s5 ESP_ERR_NVS_NOT_ENOUGH_SPACE)
                   else if negb (esp_err_eqb (Storage.mLastError s5) ESP_OK)
                   then (false, s5)
                   else Storage.eraseFound s5 ns dt k findPage)
             /\ (wfS s -> fst request = true ->
                 Storage.getCurrentPage s4 <> page
                 /\ In (Storage.getCurrentPage s4)
                       (PageManager.mFreePageList (Storage.mPageManager s))
                 /\ Page.state (Storage.page s4 (Storage.getCurrentPage s4))
                    = PageState.ACTIVE))
  /\ (forall ns k d found s1 s4,
        Storage.mState s = State.ACTIVE ->
        Storage.findItem s ns BLOB_IDX (Some k) Page.CHUNK_ANY VER_ANY
        = (found, s1, None) ->
        Storage.writeMultiPageBlob s1 ns k d VER_0_OFFSET = (false, s4) ->
        Storage.mLastError s4 = ESP_ERR_NVS_PAGE_FULL ->
        Storage.writeItem s ns BLOB k d
        = (false, Storage.setLastError s4 ESP_ERR_NVS_NOT_ENOUGH_SPACE))
  /\ (forall ns k d found s1 previous s2 s3 fp item s4,
        Storage.mState s = State.ACTIVE ->
        Storage.findItem s ns BLOB_IDX (Some k) Page.CHUNK_ANY VER_ANY
        = (found, s1, Some previous) ->
        Storage.cmpMultiPageBlob s1 ns (Some k) d = (false, s2) ->
        Storage.refind s2 ns BLOB k previous = (s3, (fp, item)) ->
        Storage.writeMultiPageBlob
          s3 ns k d
          (if ItemLayout.blobIndex_chunkStart item =? VER_1_OFFSET
           then VER_0_OFFSET else VER_1_OFFSET)
        = (false, s4) ->
        Storage.mLastError s4 = ESP_ERR_NVS_PAGE_FULL ->
        Storage.writeItem s ns BLOB k d
        = (false, Storage.setLastError s4 ESP_ERR_NVS_NOT_ENOUGH_SPACE)).
Proof.
  repeat match goal with |- _ /\ _ => split end.
  - intros. destruct (Storage.writeItem _ _ _ _ _) eqn:E.
    eapply writeItem_surfaced; eassumption.
  - intros. destruct (Storage.readItem _ _ _ _ _) as [[? ?] ?] eqn:E.
    eapply readItem_surfaced; eassumption.
  - intros. destruct (Storage.eraseItem _ _ _ _) eqn:E.
    eapply eraseItem_surfaced; eassumption.
  - intros. destruct (Storage.eraseNamespace _ _) eqn:E.
    eapply eraseNamespace_surfaced; eassumption.
  - intros. destruct (Storage.eraseMultiPageBlob _ _ _ _) eqn:E.
    eapply eraseMultiPageBlob_surfaced; eassumption.
  - intros. destruct (Storage.createOrOpenNamespace _ _ _ _) as [[? ?] ?] eqn:E.
    eapply createOrOpenNamespace_surfaced; eassumption.
  - intros. destruct (Storage.getItemDataSize _ _ _ _ _) as [[? ?] ?] eqn:E.
    eapply getItemDataSize_surfaced; eassumption.
  - intros. unfold Storage.calcEntriesInNamespace.
    destruct (Storage.notActive s); discriminate.
  - intros. unfold Storage.fillStats, PageManager.fillStats. discriminate.
  - destruct (Storage.init s) eqn:E. eapply init_surfaced; eassumption.
  - intros ns dt k d found s1 findPage A B F El page s2 E2.
    assert (P1 : Storage.mPageManager s1 = Storage.mPageManager s).
    { rewrite findItem_findIn in F.
      destruct (findIn s ns dt (Some k) _ _); injection F as _ <- _;
        reflexivity. }
    assert (Pg1 : forall j, Storage.page s1 j = Storage.page s j)
      by (intros j; unfold Storage.page; now rewrite P1).
    assert (Cur : Storage.getCurrentPage s1 = page)
      by (unfold page, Storage.getCurrentPage; now rewrite P1).
    destruct (pageWriteItem_full s1 page ns dt k d E2) as (Act & Pg2 & L2 & F2).
    fold s2 in Pg2, L2, F2.
    assert (Act2 : Page.state (Storage.page s2 page) = PageState.ACTIVE)
      by (now rewrite Pg2).
    destruct (markFullIfNeeded_active s2 page Act2)
      as (s3 & M & St3 & En3 & Ot3 & L3 & F3 & W3).
    exists s3. split; [exact M|]. split; [exact St3|].
    split; [now rewrite En3, Pg2, Pg1|].
    split; [intros j N; now rewrite (Ot3 j N), Pg2, Pg1|].
    split; [rewrite L3, L2; unfold Storage.pageList; now rewrite P1|].
    cbv zeta. split; [|split].
    + unfold Storage.requestNewPage.
      destruct (PageManager.requestNewPage _) as [err pm4]. reflexivity.
    + unfold Storage.writeItem.
      rewrite (notActive_false _ A), B, F.
      rewrite (findItem_flag _ _ _ _ _ _ _ _ _ F). unfold elided in El.
      rewrite El, Cur. fold s2. rewrite E2. cbn [esp_err_eqb].
      rewrite M. cbn [negb].
      destruct (Storage.requestNewPage s3) as [ok4 s4]. cbn [fst snd].
      destruct ok4; reflexivity.
    + intros W Ok.
      assert (Ws3 : wfS s3).
      { apply W3. unfold wfS, s2, Storage.pageWriteItem.
        destruct (Page.writeItem _ _ _ _ _ _) as [e p'].
        cbn [Storage.mPageManager Storage.setLastError Storage.setPage
             Storage.setPageManager].
        apply wf_setPage. rewrite P1. exact W. }
      unfold Storage.requestNewPage in *.
      destruct (PageManager.requestNewPage (Storage.mPageManager s3))
        as [err pm4] eqn:R.
      cbn [fst snd] in *. apply esp_err_eqb_eq in Ok. subst err.
      destruct (requestNewPage_new_page _ _ Ws3 R) as (If & Nl & Sa).
      unfold Storage.getCurrentPage, Storage.page.
      cbn [Storage.mPageManager Storage.setLastError Storage.setPageManager].
      split; [|split; [|exact Sa]].
      * intros E. apply Nl. rewrite E.
        change (PageManager.mPageList (Storage.mPageManager s3))
          with (Storage.pageList s3).
        rewrite L3, L2. unfold page, Storage.getCurrentPage, PageManager.back,
          Storage.pageList. rewrite P1.
        destruct (PageManager.mPageList (Storage.mPageManager s)) as [|a l]
          eqn:Le.
        -- exfalso. unfold PageManager.requestNewPage in R.
           assert (Le3 : PageManager.mPageList (Storage.mPageManager s3) = []).
           { change (PageManager.mPageList (Storage.mPageManager s3))
               with (Storage.pageList s3).
             rewrite L3, L2. unfold Storage.pageList. now rewrite P1. }
           rewrite Le3 in R. discriminate.
        -- destruct (exists_last (l := a :: l) ltac:(discriminate))
             as (l' & x & ->).
           rewrite last_last. apply in_or_app. right. now left.
      * rewrite F3, F2, P1 in If. exact If.
  - intros ns k d found s1 s4 A F W E.
    unfold Storage.writeItem.
    rewrite (notActive_false _ A). cbn [ItemType_eqb]. rewrite F.
    rewrite (findItem_flag _ _ _ _ _ _ _ _ _ F), W. cbn [negb]. rewrite E. reflexivity.
  - intros ns k d found s1 previous s2 s3 fp item s4 A F C R W E.
    unfold Storage.writeItem.
    rewrite (notActive_false _ A). cbn [ItemType_eqb]. rewrite F.
    rewrite (findItem_flag _ _ _ _ _ _ _ _ _ F), C, R, W. cbn [negb].
    rewrite E. reflexivity.
Qed.

Lemma page_full_is_internal_witness :
  (fst (Storage.writeItem firstPageFull 1 U8 "x" [5]) = true
   /\ Storage.pageList (snd (Storage.writeItem firstPageFull 1 U8 "x" [5]))
      = [0%nat; 1%nat]
   /\ Page.state
        (Storage.page (snd (Storage.writeItem firstPageFull 1 U8 "x" [5])) 0)
      = PageState.FULL)
  /\ Storage.mLastError
       (Storage.pageWriteItem firstPageFull
          (Storage.getCurrentPage firstPageFull) 1 STR "long" (repeat 0 4001))
     = ESP_ERR_NVS_PAGE_FULL
  /\ Storage.mLastError
       (snd (Storage.writeItem firstPageFull 1 STR "long" (repeat 0 4001)))
     = ESP_ERR_NVS_NOT_ENOUGH_SPACE.
Proof.
  pose proof (page_full_is_internal firstPageFull) as H.
  destruct H as (_ & _ & _ & _ & _ & _ & _ & _ & _ & _ & R & _).
  split; [|split].
  - destruct (R 1 U8 "x"%string [5] _ _ _ eq_refl eq_refl eq_refl eq_refl
                eq_refl) as (s3 & M & _ & _ & _ & _ & _ & E & _).
    apply (f_equal snd) in M. cbn [snd] in M. subst s3.
    rewrite E. vm_compute. repeat split.
  - vm_compute. reflexivity.
  - destruct (R 1 STR "long"%string (repeat 0 4001) _ _ _ eq_refl eq_refl
                eq_refl eq_refl eq_refl) as (s3 & M & _ & _ & _ & _ & _ & E & _).
    apply (f_equal snd) in M. cbn [snd] in M. subst s3.
    rewrite E. vm_compute. reflexivity.
Defined.
